(* ===== verification/_CoqProject ===== *)
-Q . S2P
Prelude.v
Utf8.v
Paths.v
Config.v
Stdin.v
Flags.v
Net.v
NetFacts.v
Crypto.v
Keys.v
Mux.v
Signal.v
Message.v
Wire.v
RateLimit.v
Base64.v
Monad.v
Platform.v
Store.v
MessageStore.v
Refinement.v
StoreRace.v
StoreFacts.v
Tables.v
Session.v
SessionFacts.v
Handshake.v
SendRace.v
Client.v
Handlers.v
ClientFacts.v
Delivery.v
ReadLoop.v
Opening.v
Api.v
ApiFacts.v
Reach.v
Start.v
Accept.v
Lifecycle.v
Security.v
Routes.v
Meeting.v
Impersonation.v
Main.v
Ui.v
FileTransfer.v
