(* ===== verification/Prelude.v ===== *)
(** * end-to-end-chat: a verification of the chat client

    The program (Go, under src/) is a chat client whose instances talk to each
    other directly: each has an Ed25519 identity, keeps its messages encrypted
    in an SQLite database, accepts and dials websocket connections, runs an
    authenticated key exchange on each, and is driven by an HTTP interface for
    the local user. This library translates it part by part, as functions that
    run, and proves what makes the parts and their composition correct.

    ** The parts and how they interact

    A [Client] owns a store, a map from peer keys to sessions, and the files it
    is receiving. A connection (inbound: [handleWS]; outbound:
    [dialAndHandshake]) becomes a session by [handshake]; its read loop decrypts
    frames ([decrypt]), parses envelopes ([signal.Parse]) and hands them to
    [handleSignal], which changes the store and may answer on the session
    ([send]). The HTTP handlers call the same store and send on the same
    sessions; what cannot be sent waits in the outbox until a session of the
    peer is accepted ([flushOutbox]). [main] reads the command line, makes the
    client from the identity and the database on the host's disk, and sets the
    server and the dialling going.

    ** Files

    Foundations. [Prelude]: bytes, Go's integers and big-endian codecs, errors,
    outcomes ([Ret], [Err], [Panic]), bounds-checked access to slices.
    [Monad]: stateful Go code, [wp] and [preserves] with their tactics.
    [Utf8], [Net], [NetFacts], [Base64], [Paths], [Mux]: what the program uses
    of unicode/utf8 and strings, net, encoding/base64, path/filepath, and the
    multiplexer of net/http. [Crypto], [Platform]:
    classes for code that is not the program's, with the laws it relies on and
    concrete instances; [Env] is one run's clock, random source, database,
    network, cache expiry and map order.

    Data and codecs. [Config] and [Flags] (config/config.go: the name, the
    command line). [Stdin]: the lines of standard input (client/peer.go). [Keys] (keys/generate.go).
    [Signal], module [signal] (signal/signal.go). [Message], module [message]
    (message/message.go, the codec). [Wire]: payloads (client/client.go,
    client/session.go).

    Storage. [Store], one module per table (store/*.go); [MessageStore], module
    [msgstore] (message/message.go, the operations on a store); [Refinement]:
    the abstract map of messages that these implement; [StoreRace]: the same
    operations as programs of their statements, which interleave; [StoreFacts]:
    outbox, peers, profile; [Tables]: what every row of every table looks like.

    Sessions. [RateLimit] (client/ratelimit.go). [Session] (client/session.go)
    with [SessionFacts] (the channel) and [Handshake] (the key exchange);
    [SendRace]: concurrent [send] and [closeConn] as a step relation.

    The client. [Client] (client/client.go), [Handlers] (client/handlers.go and
    client/peer.go), [Api] (client/api.go), [Routes] (client/routes.go, [Listen]
    of client/client.go), [Ui] (ui/main.go: the UI's own program and server);
    facts in [ClientFacts] (the invariant), [Delivery], [FileTransfer],
    [ApiFacts], [ReadLoop], [Opening] (how a session opens when nothing fails),
    [Meeting], [Impersonation], [Lifecycle], [Security]; [Reach]: runs, as lists
    of events; [Accept]: two connections of one peer that overlap.

    The program. [Start] (store/store.go and client/client.go, [New]): opening
    the database, making the client, and the machine that starts, runs, stops
    and starts again. [Main] (cmd/main.go).

    ** State and operations

    A Go function on shared state of type [S] is [M S A], a function from the
    state to an outcome and the state it leaves, errors and panics included.
    [SW] is the store (the six tables as finite maps, the cache, the number of
    environment calls made); [SS] a session with the store's environment; [CW]
    the client: store, heap of sessions (a [*Session] is an index), session map,
    pending files; [AS] a client with the response being written; [Host] what a
    machine keeps while the program is off: the key files and the database files
    by path. Definitions have the source's names; [for] loops over data are
    structural recursions. A call of [os.Exit] is [Exited] ([may_exit]).

    ** What is proved

    - Codecs ([Signal], [Message], [Wire], [Keys], [Config], [Flags], [Stdin]): a
      decoder accepts exactly the layouts of encodable values, round trips, and
      exactly which inputs panic; command lines and typed lines arrive as meant.
    - Storage ([MessageStore], [Refinement], [StoreFacts], [Tables]): from one call
      to the next the cache never disagrees with the encrypted table, every row
      of every table scans, each operation on each outcome, faults of the
      database included; any sequence of calls gives the answers of an abstract
      map, searches exactly; the outbox holds what waits per peer, in the order
      of the seconds it was put in.
    - The channel ([SessionFacts], [Handshake], [RateLimit]): two honest parties
      end linked both ways; success means the peer's signature was verified;
      what is accepted is a prefix of what was sent, whatever the network does;
      the limiter is the token-bucket specification without overflow.
    - Composition ([Meeting], [Delivery], [ApiFacts], [FileTransfer], [ReadLoop],
      [Lifecycle], [Reach]): one client dials another, each runs its own code on
      what the other writes, and what had waited in the outbox of the one is in
      the store of the other; a message and a file sent on a session reach the
      other's store; the read loop ends; how reconnection ends.
    - The whole program ([Start], [Main], [Routes], [Ui]): from the first start on, over
      any number of runs and restarts, the invariant holds of every running
      client; a restart finds the identity and the rows that were left; what
      each command line starts and each failing start does; every request
      reaches the handler of its route, and only that; the UI's program serves
      its page with the target filled in.
    - Access ([Security], [Impersonation], [Routes], [Ui]): what a peer that was
      not accepted can change, that only authors and owners change messages,
      that a caller who is not on the host can only open a websocket; and where
      the code lets a peer do more than it means to.
    - Concurrency ([StoreRace], [SendRace], [Accept]): however calls of the
      message store interleave statement by statement, only messages that were
      stored are read, whole, and none panics; but the cache can be left with a
      message that was deleted or replaced. No interleaving of sends reuses a
      counter on the wire; the interleavings that break or lose a session.

    Some theorems show a flaw: the panics on hostile numbers, the overwriting of
    another's message, self-acceptance, the unchecked key of the URL, the late
    cleanup, the file chunks of a peer that was not accepted, the races. They
    hold of the code as it is.

    ** Bounds and fuel

    [readLoop] gives [read_frames] one unit of fuel per unread frame and one
    more; [ReadLoop.readLoop_returns] proves it never runs out, since each turn
    that goes on takes a frame and no handler adds one. [reads_of] cuts a file
    into chunks with its length as fuel, and a chunk is not empty. An IPv6
    address has at most eight fields, the fuel of [ipv6_fields]. Integers are
    [Z] with the wrap-around of [int64] and [uint64] written out ([wrap64],
    [wrapu64]) wherever it can occur; times are nanoseconds since 1970.

    ** Granularity

    An event of [Reach] (a frame, a ping, a request, a connection) is handled to
    completion before the next, and the invariants over runs ([Reach], [Start])
    are of such sequences. The program has no lock over a handler, so handlers
    of different goroutines also interleave inside one another. Three places
    where its correctness turns on that are modelled at their own grain: the
    calls of the message store, statement by statement ([StoreRace], which shows
    that the agreement of cache and table does not survive); the two critical
    sections of [send] with [closeConn] ([SendRace]); the filing of a session
    after another was filed ([Accept]). The other interleavings of handlers are
    not modelled. A machine of [Start]
    stops, by the interrupt or by a crash, between events. The environment may
    fail any database, network or random call, forget any cached item, and
    visit maps in any order.

    ** Not modelled

    - Third-party and platform code is a parameter: google/uuid, the SQL engine
      (its statements are their effect on the tables, and a new table is empty),
      gorilla/websocket (a connection is its frames in and out), the verdict of
      httprate, TLS. Of Go's library, the cryptographic primitives, [time]'s
      formats, the number formats of [strconv] and [slog], JSON and the tables
      of [unicode.IsPrint] are parameters too.
    - Sockets: [Listen]'s server is its settings and its handler; the ping and
      pong handlers only move deadlines, and a deadline that passes is a failure
      of the network, which [Env] may choose anyway.
    - Logging, usage text and [Version], and the JSON and multipart encodings of
      requests and responses: a request arrives decoded, a response is its
      status and body as data.
    - The text of the page that the UI embeds, and [url.Parse] of its target. *)

From Stdlib Require Import Strings.Byte.
From Stdlib Require Export ZArith Lia.
From stdpp Require Export base tactics option list gmap strings vector sorting.

Set Default Proof Using "Type".

(** Rewrite and resolution hints of the development. *)
Create HintDb chat.
Create Rewrite HintDb chat.

(** ** Bytes, byte slices and fixed-size arrays

    A Go [byte] is [Byte.byte]; a [[]byte] and a [string] (an arbitrary byte
    sequence in Go) are [list byte]; a [[n]byte] array is [vec byte n]. *)

Export Corelib.Init.Byte (byte(..)).

Abbreviation bytes := (list byte).
Abbreviation gostring := (list byte) (only parsing).

Global Instance byte_eq_dec : EqDecision byte := Byte.byte_eq_dec.

Global Instance byte_countable : Countable byte.
Proof.
  refine (inj_countable Byte.to_N Byte.of_N _).
  intros b. apply Byte.of_to_N.
Defined.

Definition Z_of_byte (b : byte) : Z := Z.of_N (Byte.to_N b).
Definition byte_of_Z (z : Z) : byte := default x00 (Byte.of_N (Z.to_N (z mod 256))).

(** A string literal of the source, as its bytes. *)
Definition lit (s : string) : gostring := String.list_byte_of_string s.

(** Go's [len] of a slice or string, as an [int]. *)
Definition len {A} (l : list A) : Z := Z.of_nat (length l).

(** [make([]byte, n)] *)
Definition zeros (n : nat) : bytes := replicate n x00.

(** [var a [n]byte; copy(a[:], l)]: at most [n] bytes, the rest stays zero. *)
Fixpoint array_of (n : nat) (l : bytes) : vec byte n :=
  match n with
  | O => [#]
  | S m => match l with
           | [] => x00 ::: array_of m []
           | b :: l' => b ::: array_of m l'
           end
  end.

(** Byte-wise (memcmp) order of strings: [os.ReadDir] and SQL's [ORDER BY]. *)
Fixpoint bytes_ltb (a b : bytes) : bool :=
  match a, b with
  | [], [] => false
  | [], _ :: _ => true
  | _ :: _, [] => false
  | x :: a', y :: b' =>
      (Z_of_byte x <? Z_of_byte y)%Z || ((Z_of_byte x =? Z_of_byte y)%Z && bytes_ltb a' b')
  end.
Definition bytes_le (a b : bytes) : Prop := bytes_ltb b a = false.

Global Instance bytes_le_dec : RelDecision bytes_le.
Proof. intros a b. unfold bytes_le. apply _. Defined.

(** ** Machine integers *)

Definition MaxUint16 : Z := 65535.
Definition MaxUint32 : Z := 4294967295.
Definition MaxUint64 : Z := 18446744073709551615.
Definition MaxInt64 : Z := 9223372036854775807.
Definition MinInt64 : Z := -9223372036854775808.

(** Conversion to (and arithmetic in) [int64]: two's complement wrap. *)
Definition wrap64 (z : Z) : Z := (z + 2 ^ 63) mod 2 ^ 64 - 2 ^ 63.
Definition wrapu64 (z : Z) : Z := z mod 2 ^ 64.

(** Big-endian encoding, as [binary.BigEndian.PutUintN] and [UintN]. *)
Fixpoint be_put (n : nat) (v : Z) : bytes :=
  match n with
  | O => []
  | S m => byte_of_Z (Z.shiftr v (8 * Z.of_nat m)) :: be_put m v
  end.

Definition be_step (acc : Z) (b : byte) : Z := Z.lor (Z.shiftl acc 8) (Z_of_byte b).
Definition be_get (l : bytes) : Z := foldl be_step 0%Z l.

(** ** Errors and outcomes

    A Go [error] value: a fresh error ([errors.New], or [fmt.Errorf] without
    [%w]), an error wrapped with a context ([fmt.Errorf] with [%w]), an error
    raised by code outside the repository, and the sentinels the code
    compares with. *)

Inductive error :=
| ENew (msg : string)
| EFmt (msg : string) (args : list Z)
| EWrap (ctx : string) (e : error)
| EExternal (what : string)
| ENotExist
| EEOF.

Global Instance error_eq_dec : EqDecision error.
Proof. solve_decision. Defined.

(** [errors.Is(err, target)]: looks through [%w]. *)
Fixpoint errors_Is (e target : error) : bool :=
  bool_decide (e = target) ||
  match e with
  | EWrap _ e' => errors_Is e' target
  | _ => false
  end.

(** [os.IsNotExist(err)]: does not look through [%w]. *)
Definition os_IsNotExist (e : error) : bool := bool_decide (e = ENotExist).

(** A Go call returns a value, returns a non-nil error, or panics. *)
Inductive outcome (A : Type) :=
| Ret (a : A)
| Err (e : error)
| Panic (msg : string).
Arguments Ret {A} a.
Arguments Err {A} e.
Arguments Panic {A} msg.

Global Instance outcome_ret : MRet outcome := @Ret.
Global Instance outcome_bind : MBind outcome := λ A B f m,
  match m with
  | Ret a => f a
  | Err e => Err e
  | Panic s => Panic s
  end.
Global Instance outcome_fmap : FMap outcome := λ A B f m,
  match m with
  | Ret a => Ret (f a)
  | Err e => Err e
  | Panic s => Panic s
  end.

Definition is_panic {A} (o : outcome A) : bool :=
  match o with Panic _ => true | _ => false end.
Definition is_ret {A} (o : outcome A) : bool :=
  match o with Ret _ => true | _ => false end.

(** [if err != nil { return fmt.Errorf("ctx: %w", err) }] *)
Definition wrap_err {A} (ctx : string) (m : outcome A) : outcome A :=
  match m with
  | Err e => Err (EWrap ctx e)
  | _ => m
  end.

(** [if c { return e }; k] *)
Definition fail_if {A} (c : bool) (e : error) (k : outcome A) : outcome A :=
  if c then Err e else k.

(** ** Slices: reads and writes with Go's bounds checks *)

(** [data[lo:hi]] *)
Definition slice (data : bytes) (lo hi : Z) : outcome bytes :=
  if ((0 <=? lo) && (lo <=? hi) && (hi <=? len data))%Z
  then Ret (take (Z.to_nat (hi - lo)) (drop (Z.to_nat lo) data))
  else Panic "slice bounds out of range".

(** [data[lo:]] *)
Definition slice_from (data : bytes) (lo : Z) : outcome bytes := slice data lo (len data).

(** [data[i]] *)
Definition index (data : bytes) (i : Z) : outcome byte :=
  match (if (0 <=? i)%Z then data !! Z.to_nat i else None) with
  | Some b => Ret b
  | None => Panic "index out of range"
  end.

(** [binary.BigEndian.UintN(data[off:])], [n] bytes wide. *)
Definition uint_at (n : nat) (data : bytes) (off : Z) : outcome Z :=
  rest ← slice_from data off;
  if decide (n ≤ length rest) then Ret (be_get (take n rest))
  else Panic "index out of range".

(** [copy(buf[off:], src)]: copies as much as fits. *)
Definition copy_at (buf : bytes) (off : Z) (src : bytes) : outcome bytes :=
  if ((0 <=? off) && (off <=? len buf))%Z
  then let o := Z.to_nat off in
       Ret (take o buf ++ take (length buf - o) src ++ drop (o + length src) buf)
  else Panic "slice bounds out of range".

(** [buf[i] = b] *)
Definition set_at (buf : bytes) (i : Z) (b : byte) : outcome bytes :=
  if ((0 <=? i) && (i <? len buf))%Z then Ret (<[Z.to_nat i := b]> buf)
  else Panic "index out of range".

(** [binary.BigEndian.PutUintN(buf[off:], v)]: panics if [n] bytes do not fit. *)
Definition put_uint_at (n : nat) (buf : bytes) (off v : Z) : outcome bytes :=
  if ((0 <=? off) && (off + Z.of_nat n <=? len buf))%Z
  then copy_at buf off (be_put n v)
  else Panic "index out of range".

(** ** Bytes as integers *)

Lemma Z_of_byte_range b : (0 <= Z_of_byte b < 256)%Z.
Proof. unfold Z_of_byte. pose proof (Byte.to_N_bounded b). lia. Qed.

Lemma byte_of_Z_of_byte b : byte_of_Z (Z_of_byte b) = b.
Proof.
  unfold byte_of_Z. rewrite Z.mod_small by apply Z_of_byte_range.
  unfold Z_of_byte. by rewrite N2Z.id, Byte.of_to_N.
Qed.

Lemma Z_of_byte_of_Z z : Z_of_byte (byte_of_Z z) = (z mod 256)%Z.
Proof.
  unfold byte_of_Z, Z_of_byte.
  pose proof (Z.mod_pos_bound z 256 ltac:(lia)) as Hb.
  destruct (Byte.of_N (Z.to_N (z mod 256))) as [b|] eqn:E; simpl.
  - apply Byte.to_of_N in E. rewrite E. lia.
  - apply Byte.of_N_None_iff in E. lia.
Qed.

Lemma Z_of_byte_inj a b : Z_of_byte a = Z_of_byte b → a = b.
Proof. intros E. by rewrite <-(byte_of_Z_of_byte a), E, byte_of_Z_of_byte. Qed.

(** ** Order of byte strings *)

Global Instance bytes_le_total : Total bytes_le.
Proof.
  intros a. unfold bytes_le. induction a as [|x a IH]; intros [|y b]; cbn; auto.
  destruct (Z.ltb_spec (Z_of_byte x) (Z_of_byte y)), (Z.ltb_spec (Z_of_byte y) (Z_of_byte x));
    try lia; cbn; auto.
  destruct (IH b) as [->| ->]; rewrite ?andb_false_r; auto.
Qed.

Global Instance bytes_le_trans : Transitive bytes_le.
Proof.
  unfold bytes_le. intros a. induction a as [|x a IH]; intros [|y b] [|z c]; cbn; try done.
  destruct (Z.ltb_spec (Z_of_byte y) (Z_of_byte x)); cbn; [done|].
  destruct (Z.ltb_spec (Z_of_byte z) (Z_of_byte y)); cbn; [done|]. intros H1 H2.
  rewrite (proj2 (Z.ltb_ge (Z_of_byte z) (Z_of_byte x))) by lia. cbn.
  destruct (Z.eqb_spec (Z_of_byte z) (Z_of_byte x)); [cbn|done].
  rewrite (proj2 (Z.eqb_eq (Z_of_byte y) (Z_of_byte x))) in H1 by lia.
  rewrite (proj2 (Z.eqb_eq (Z_of_byte z) (Z_of_byte y))) in H2 by lia.
  by apply (IH b).
Qed.

Global Instance bytes_le_anti : AntiSymm (=) bytes_le.
Proof.
  unfold bytes_le. intros a. induction a as [|x a IH]; intros [|y b]; cbn; try done.
  destruct (Z.ltb_spec (Z_of_byte y) (Z_of_byte x)), (Z.ltb_spec (Z_of_byte x) (Z_of_byte y)); cbn; try done.
  assert (Z_of_byte x = Z_of_byte y) as Hxy by lia. rewrite Hxy, Z.eqb_refl. cbn.
  apply Z_of_byte_inj in Hxy as ->. intros H1 H2. f_equal. by apply IH.
Qed.

(** ** Machine integers *)

Lemma wrap64_range z : (MinInt64 <= wrap64 z <= MaxInt64)%Z.
Proof.
  unfold wrap64, MinInt64, MaxInt64.
  pose proof (Z.mod_pos_bound (z + 2 ^ 63) (2 ^ 64) ltac:(lia)). lia.
Qed.

Lemma wrap64_small z : (MinInt64 <= z <= MaxInt64)%Z → wrap64 z = z.
Proof. unfold wrap64, MinInt64, MaxInt64. intros. rewrite Z.mod_small; lia. Qed.

(** ** Big-endian integers *)

Lemma length_be_put n v : length (be_put n v) = n.
Proof. induction n; simpl; auto. Qed.

Lemma land_shiftl_small a b n :
  (0 <= n)%Z → (0 <= b < 2 ^ n)%Z → Z.land (Z.shiftl a n) b = 0%Z.
Proof.
  intros Hn Hb. apply Z.bits_inj'. intros i Hi. rewrite Z.land_spec, Z.bits_0.
  destruct (decide (i < n)%Z); [by rewrite Z.shiftl_spec_low by lia|].
  destruct (decide (b = 0%Z)) as [->|]; [by rewrite Z.bits_0, andb_false_r|].
  rewrite (Z.bits_above_log2 b); [apply andb_false_r|lia|].
  apply Z.log2_lt_pow2; [lia|]. apply Z.lt_le_trans with (2 ^ n)%Z; [lia|].
  apply Z.pow_le_mono_r; lia.
Qed.

(** Or-ing in low bits adds them. *)
Lemma lor_add a b n :
  (0 <= n)%Z → (0 <= b < 2 ^ n)%Z → Z.lor (Z.shiftl a n) b = (a * 2 ^ n + b)%Z.
Proof.
  intros Hn Hb.
  rewrite <-Z.lxor_lor, <-Z.add_nocarry_lxor by by apply land_shiftl_small.
  by rewrite Z.shiftl_mul_pow2 by done.
Qed.

Lemma be_step_arith acc b : be_step acc b = (acc * 256 + Z_of_byte b)%Z.
Proof. unfold be_step. apply (lor_add _ _ 8); [lia|apply Z_of_byte_range]. Qed.

Lemma be_fold_acc l acc :
  foldl be_step acc l = (acc * 256 ^ len l + be_get l)%Z.
Proof.
  unfold be_get, len. revert acc. induction l as [|b l IH]; intros acc.
  - simpl. lia.
  - cbn [foldl length]. rewrite !(IH (be_step _ _)), !be_step_arith.
    rewrite Nat2Z.inj_succ, Z.pow_succ_r by lia. ring.
Qed.

Lemma be_get_cons b l : be_get (b :: l) = (Z_of_byte b * 256 ^ len l + be_get l)%Z.
Proof.
  unfold be_get at 1. cbn [foldl]. rewrite be_fold_acc, be_step_arith. ring.
Qed.

Lemma be_get_range l : (0 <= be_get l < 256 ^ len l)%Z.
Proof.
  induction l as [|b l IH]; [done|].
  rewrite be_get_cons. pose proof (Z_of_byte_range b).
  unfold len in *. cbn [length]. rewrite Nat2Z.inj_succ, Z.pow_succ_r by lia. nia.
Qed.

Lemma be_get_put n v : be_get (be_put n v) = (v mod 256 ^ Z.of_nat n)%Z.
Proof.
  induction n as [|n IH]; [by rewrite Z.mod_1_r|].
  cbn [be_put]. rewrite be_get_cons, IH, Z_of_byte_of_Z. unfold len.
  rewrite length_be_put, Z.shiftr_div_pow2 by lia.
  replace (2 ^ (8 * Z.of_nat n))%Z with (256 ^ Z.of_nat n)%Z
    by (rewrite Z.pow_mul_r by lia; done).
  rewrite Nat2Z.inj_succ, Z.pow_succ_r, (Z.mul_comm 256) by lia.
  rewrite Z.rem_mul_r by lia. ring.
Qed.

Lemma be_get_put_small n v :
  (0 <= v < 256 ^ Z.of_nat n)%Z → be_get (be_put n v) = v.
Proof. intros. rewrite be_get_put. by apply Z.mod_small. Qed.

Lemma be_put_low n v w :
  (v mod 256 ^ Z.of_nat n = w mod 256 ^ Z.of_nat n)%Z → be_put n v = be_put n w.
Proof.
  revert v w. induction n as [|n IH]; intros v w Hvw; [done|].
  cbn [be_put]. rewrite Nat2Z.inj_succ, Z.pow_succ_r, (Z.mul_comm 256) in Hvw by lia.
  rewrite !Z.rem_mul_r in Hvw by lia.
  pose proof (Z.mod_pos_bound v (256 ^ Z.of_nat n) ltac:(lia)).
  pose proof (Z.mod_pos_bound w (256 ^ Z.of_nat n) ltac:(lia)).
  assert ((v / 256 ^ Z.of_nat n) mod 256 = (w / 256 ^ Z.of_nat n) mod 256)%Z by nia.
  assert (v mod 256 ^ Z.of_nat n = w mod 256 ^ Z.of_nat n)%Z by nia.
  f_equal; [|by apply IH].
  apply Z_of_byte_inj. rewrite !Z_of_byte_of_Z, !Z.shiftr_div_pow2 by lia.
  by rewrite !Z.pow_mul_r by lia.
Qed.

Lemma be_put_get l : be_put (length l) (be_get l) = l.
Proof.
  induction l as [|b l IH]; [done|]. cbn [be_put length]. f_equal.
  - apply Z_of_byte_inj. rewrite Z_of_byte_of_Z, Z.shiftr_div_pow2, Z.pow_mul_r by lia.
    change (2 ^ 8)%Z with 256%Z. rewrite be_get_cons. fold (len l).
    pose proof (be_get_range l). pose proof (Z_of_byte_range b).
    rewrite Z.div_add_l, (Z.div_small (be_get l)), Z.add_0_r by (unfold len in *; lia).
    by apply Z.mod_small.
  - etransitivity; [|exact IH]. apply be_put_low. rewrite be_get_cons. fold (len l).
    rewrite Z.add_comm. apply Z.mod_add. unfold len. lia.
Qed.

(** The order of bytes is that of the numbers they encode, in the same width. *)
Lemma bytes_le_be_get a b : length a = length b → bytes_le a b → (be_get a <= be_get b)%Z.
Proof.
  unfold bytes_le. revert b. induction a as [|x a IH]; intros [|y b]; try done.
  cbn [length bytes_ltb]. intros [= Hl] H. rewrite !be_get_cons. unfold len. rewrite Hl.
  pose proof (be_get_range a) as Ha. pose proof (be_get_range b) as Hb. unfold len in Ha, Hb. rewrite Hl in Ha.
  destruct (Z.ltb_spec (Z_of_byte y) (Z_of_byte x)); cbn in H; [done|].
  destruct (Z.eqb_spec (Z_of_byte y) (Z_of_byte x)) as [->|]; [specialize (IH b Hl H); lia|nia].
Qed.

(** ** Lengths *)

Lemma len_app {A} (l k : list A) : len (l ++ k) = (len l + len k)%Z.
Proof. unfold len. rewrite length_app. lia. Qed.
Lemma len_nil {A} : len (@nil A) = 0%Z.
Proof. done. Qed.
Lemma len_cons {A} (x : A) l : len (x :: l) = (1 + len l)%Z.
Proof. unfold len. cbn [length]. lia. Qed.
Lemma len_be_put n v : len (be_put n v) = Z.of_nat n.
Proof. unfold len. by rewrite length_be_put. Qed.
Lemma len_zeros n : len (zeros n) = Z.of_nat n.
Proof. unfold len, zeros. by rewrite length_replicate. Qed.
Lemma len_vec {A n} (v : vec A n) : len (vec_to_list v) = Z.of_nat n.
Proof. unfold len. by rewrite length_vec_to_list. Qed.
Lemma len_nonneg {A} (l : list A) : (0 <= len l)%Z.
Proof. unfold len. lia. Qed.
Lemma len_0_nil {A} (l : list A) : len l = 0%Z → l = [].
Proof. destruct l; [done|]. rewrite len_cons. pose proof (len_nonneg l). lia. Qed.

Lemma filter_all {A} (P : A → Prop) `{∀ x, Decision (P x)} l : Forall P l → filter P l = l.
Proof. induction 1; [done|]. rewrite filter_cons_True by done. by f_equal. Qed.

Lemma length_omap_le {A B} (f : A → option B) l : length (omap f l) ≤ length l.
Proof. induction l as [|x l IH]; cbn; [done|]. destruct (f x); cbn; lia. Qed.

(** ** Arrays *)

Lemma array_of_app n (v : vec byte n) l : array_of n (vec_to_list v ++ l) = v.
Proof. induction v as [|b n v IH]; cbn; [done|]. by rewrite IH. Qed.

Lemma array_of_vec n (v : vec byte n) : array_of n (vec_to_list v) = v.
Proof. rewrite <-(app_nil_r (vec_to_list v)). apply array_of_app. Qed.

Lemma vec_of_array_of n l : length l = n → vec_to_list (array_of n l) = l.
Proof.
  revert l. induction n as [|n IH]; intros [|b l] Hl; cbn in *; try done; try lia.
  f_equal. apply IH. lia.
Qed.

(** ** Reading a slice that is known in pieces *)

Lemma slice_ok data lo hi :
  (0 <= lo)%Z → (lo <= hi)%Z → (hi <= len data)%Z →
  slice data lo hi = Ret (take (Z.to_nat (hi - lo)) (drop (Z.to_nat lo) data)).
Proof.
  intros. unfold slice.
  by rewrite (proj2 (Z.leb_le _ _)), (proj2 (Z.leb_le _ _)), (proj2 (Z.leb_le _ _)) by lia.
Qed.

Lemma slice_app pre x post lo hi :
  lo = len pre → hi = (len pre + len x)%Z → slice (pre ++ x ++ post) lo hi = Ret x.
Proof.
  intros -> ->. pose proof (len_nonneg pre). pose proof (len_nonneg x).
  pose proof (len_nonneg post).
  rewrite slice_ok by (rewrite ?len_app; lia). f_equal.
  unfold len. rewrite Nat2Z.id, drop_app_length.
  replace (Z.to_nat _) with (length x) by lia. apply take_app_length.
Qed.

Lemma slice_prefix x post hi : hi = len x → slice (x ++ post) 0 hi = Ret x.
Proof. intros ->. by apply (slice_app [] x post). Qed.

Lemma slice_from_app pre x lo : lo = len pre → slice_from (pre ++ x) lo = Ret x.
Proof.
  intros ->. unfold slice_from. rewrite <-(app_nil_r x) at 1.
  apply slice_app; [done|]. by rewrite len_app.
Qed.

Lemma uint_at_app n pre v post off :
  off = len pre → (0 <= v < 256 ^ Z.of_nat n)%Z →
  uint_at n (pre ++ be_put n v ++ post) off = Ret v.
Proof.
  intros -> Hv. unfold uint_at. rewrite slice_from_app by done. cbn.
  rewrite decide_True by (rewrite length_app, length_be_put; lia).
  rewrite take_app_length' by (by rewrite length_be_put). by rewrite be_get_put_small.
Qed.

(** Reads within bounds never panic, and an unsigned read is in range. *)
Lemma uint_at_ok n data off :
  (0 <= off)%Z → (off + Z.of_nat n <= len data)%Z →
  ∃ v, uint_at n data off = Ret v ∧ (0 <= v < 256 ^ Z.of_nat n)%Z.
Proof.
  intros. unfold uint_at, slice_from. rewrite slice_ok by (unfold len in *; lia). cbn.
  unfold len in *. rewrite decide_True by (rewrite length_take, length_drop; lia).
  eexists. split; [done|]. pose proof (be_get_range (take n (take (Z.to_nat
    (Z.of_nat (length data) - off)) (drop (Z.to_nat off) data)))) as Hr.
  unfold len in Hr. rewrite !length_take, length_drop in Hr.
  replace (Z.of_nat (n `min` _)) with (Z.of_nat n) in Hr by lia. done.
Qed.

(** ** Filling a zeroed buffer from the left *)

Lemma copy_at_zeros done_ k off src :
  off = len done_ → length src ≤ k →
  copy_at (done_ ++ zeros k) off src = Ret ((done_ ++ src) ++ zeros (k - length src)).
Proof.
  intros -> Hk. unfold copy_at. pose proof (len_nonneg done_).
  rewrite (proj2 (Z.leb_le _ _)), (proj2 (Z.leb_le _ _)) by (rewrite ?len_app, ?len_zeros; lia).
  cbn [andb]. f_equal. unfold len. rewrite Nat2Z.id.
  rewrite take_app_length, <-app_assoc. do 2 f_equal.
  - rewrite length_app. unfold zeros. rewrite length_replicate.
    rewrite take_ge by lia. done.
  - rewrite <-drop_drop, drop_app_length. unfold zeros. by rewrite drop_replicate.
Qed.

Lemma put_uint_at_zeros n done_ k off v :
  off = len done_ → n ≤ k →
  put_uint_at n (done_ ++ zeros k) off v = Ret ((done_ ++ be_put n v) ++ zeros (k - n)).
Proof.
  intros -> Hk. unfold put_uint_at. pose proof (len_nonneg done_).
  rewrite (proj2 (Z.leb_le _ _)), (proj2 (Z.leb_le _ _)) by (rewrite ?len_app, ?len_zeros; lia).
  cbn [andb]. rewrite copy_at_zeros by (rewrite ?length_be_put; done).
  by rewrite length_be_put.
Qed.

Lemma set_at_zeros done_ k off b :
  off = len done_ → 1 ≤ k →
  set_at (done_ ++ zeros k) off b = Ret ((done_ ++ [b]) ++ zeros (k - 1)).
Proof.
  intros -> Hk. unfold set_at. pose proof (len_nonneg done_).
  rewrite (proj2 (Z.leb_le _ _)), (proj2 (Z.ltb_lt _ _)) by (rewrite ?len_app, ?len_zeros; lia).
  cbn [andb]. f_equal. unfold len. rewrite Nat2Z.id, insert_app_r_alt, Nat.sub_diag by lia.
  destruct k as [|k]; [lia|]. cbn. by rewrite Nat.sub_0_r, <-app_assoc.
Qed.

(** ** Cursors: what a bounds-checked read learns about the unread rest *)

Lemma slice_cursor data pre rest n lo hi :
  data = pre ++ rest → lo = len pre → hi = (lo + n)%Z → (0 <= n <= len rest)%Z →
  ∃ x rest', rest = x ++ rest' ∧ len x = n ∧ slice data lo hi = Ret x.
Proof.
  intros -> -> -> Hn. exists (take (Z.to_nat n) rest), (drop (Z.to_nat n) rest).
  assert (len (take (Z.to_nat n) rest) = n) as Hl.
  { unfold len in *. rewrite length_take. lia. }
  split; [by rewrite take_drop|]. split; [done|].
  rewrite <-(take_drop (Z.to_nat n) rest) at 1. by apply slice_app; rewrite ?Hl.
Qed.

Lemma uint_cursor n data pre rest off :
  data = pre ++ rest → off = len pre → (Z.of_nat n <= len rest)%Z →
  ∃ v rest', rest = be_put n v ++ rest' ∧ (0 <= v < 256 ^ Z.of_nat n)%Z ∧
    uint_at n data off = Ret v.
Proof.
  intros -> -> Hn. set (x := take n rest).
  assert (length x = n) as Hl by (subst x; unfold len in *; rewrite length_take; lia).
  assert (0 <= be_get x < 256 ^ Z.of_nat n)%Z as Hr.
  { pose proof (be_get_range x) as Hr. unfold len in Hr. by rewrite Hl in Hr. }
  exists (be_get x), (drop n rest).
  assert (rest = be_put n (be_get x) ++ drop n rest) as E.
  { rewrite <-Hl at 1. rewrite be_put_get. subst x. by rewrite take_drop. }
  split; [done|]. split; [done|]. rewrite E at 1. by apply uint_at_app.
Qed.

Lemma array_cursor n (x : bytes) : len x = Z.of_nat n → vec_to_list (array_of n x) = x.
Proof. intros Hl. apply vec_of_array_of. unfold len in Hl. lia. Qed.

(** Reads of a buffer given by an equation, as the decoders' proofs use them. *)
Lemma slice_read data pre x post lo hi :
  data = pre ++ x ++ post → lo = len pre → hi = (len pre + len x)%Z →
  slice data lo hi = Ret x.
Proof. intros ->. apply slice_app. Qed.

Lemma uint_read n data pre v post off :
  data = pre ++ be_put n v ++ post → off = len pre → (0 <= v < 256 ^ Z.of_nat n)%Z →
  uint_at n data off = Ret v.
Proof. intros ->. apply uint_at_app. Qed.

(** ** Tactics *)

(** [lia] with divisions and remainders by constants. *)
Ltac lia_div := Z.to_euclidean_division_equations; lia.

Lemma length_len {A} (l : list A) : Z.of_nat (length l) = len l.
Proof. done. Qed.

(** Push [len] and [length] through the operations on buffers. *)
Ltac simpl_len :=
  repeat first
    [ rewrite len_app | rewrite len_be_put | rewrite len_vec | rewrite len_zeros
    | rewrite len_cons | progress change (@len _ []) with 0%Z | rewrite length_app | rewrite length_be_put
    | rewrite length_vec_to_list ]; cbn [length].

(** Bounds on an encoded or decoded buffer. *)
Ltac pose_lens :=
  repeat match goal with |- context [len ?l] =>
    lazymatch goal with _ : (0 <= len l)%Z |- _ => fail | _ => pose proof (len_nonneg l) end end.
Ltac solve_len := simpl_len; pose_lens; lia.

(** One write into the zeroed tail of a buffer. *)
Ltac fill_step :=
  first [ rewrite copy_at_zeros by solve_len
        | rewrite put_uint_at_zeros by solve_len
        | rewrite set_at_zeros by solve_len ];
  cbn [mbind outcome_bind].

(** The tail of a filled buffer is empty. *)
Ltac fill_done :=
  rewrite ?app_nil_l, <-?app_assoc; repeat f_equal; simpl_len;
  lazymatch goal with |- _ ++ zeros ?k = _ => replace k with 0 by lia end; apply app_nil_r.

(** One read of a buffer known by the equation [H : data = pre ++ x ++ post]. *)
Ltac read_step H :=
  lazymatch goal with
  | |- mbind _ (slice ?d ?lo ?hi) = _ => rewrite (slice_read d _ _ _ lo hi H) by solve_len
  | |- mbind _ (uint_at ?n ?d ?off) = _ =>
      rewrite (uint_read n d _ _ _ off H) by first [done | solve_len]
  end;
  cbn [mbind outcome_bind]; rewrite app_assoc in H.

(** A bounds-checked read of an unknown buffer [H : data = pre ++ rest]: names
    the value read [x] and what is known of it [Hx], and moves the cursor. *)
Ltac cursor_side H :=
  let E := fresh in pose proof (f_equal len H) as E; revert E; simpl_len; intros; lia.

Tactic Notation "cursor" hyp(H) "as" ident(x) ident(Hx) :=
  let r := fresh "rest" in
  lazymatch type of H with
  | ?data = ?pre ++ ?rest =>
    lazymatch goal with
    | |- context [mbind _ (slice data ?lo (?lo + ?n)%Z)] =>
        destruct (slice_cursor data pre rest n lo (lo + n)%Z H) as (x & r & -> & Hx & ->);
          [cursor_side H | done | cursor_side H | ]
    | |- context [mbind _ (uint_at ?n data ?off)] =>
        destruct (uint_cursor n data pre rest off H) as (x & r & -> & Hx & ->);
          [cursor_side H | cursor_side H | ]
    end
  end;
  cbn [mbind outcome_bind]; rewrite app_assoc in H.

(** What is left to show of a decoder: it does not panic, and what it accepts
    satisfies [P]. *)
Definition post {A} (P : A → Prop) (o : outcome A) : Prop :=
  match o with Ret a => P a | Err _ => True | Panic _ => False end.

(** The same for a decoder whose only panic is [msg]. *)
Definition post_or {A} (msg : string) (P : A → Prop) (o : outcome A) : Prop :=
  match o with Ret a => P a | Err _ => True | Panic s => s = msg end.

Lemma post_ret {A} (P : A → Prop) o a : post P o → o = Ret a → P a.
Proof. by intros HP ->. Qed.
Lemma post_no_panic {A} (P : A → Prop) o : post P o → is_panic o = false.
Proof. by destruct o. Qed.

(** The codecs are reasoned about through the lemmas above, not by unfolding. *)
Global Arguments array_of : simpl never.
Global Arguments be_put : simpl never.
Global Arguments be_get : simpl never.
Global Arguments len : simpl never.
Global Arguments zeros : simpl never.
Global Arguments slice : simpl never.
Global Arguments slice_from : simpl never.
Global Arguments index : simpl never.
Global Arguments uint_at : simpl never.
Global Arguments copy_at : simpl never.
Global Arguments put_uint_at : simpl never.
Global Arguments set_at : simpl never.

(** ** Lists *)

Lemma list_filter_all {A} (T : A → Prop) `{∀ x, Decision (T x)} l : Forall T l → filter T l = l.
Proof. induction 1; [done|]. rewrite filter_cons_True by done. by f_equal. Qed.
Lemma list_filter_none {A} (T : A → Prop) `{∀ x, Decision (T x)} l : Forall (λ x, ¬ T x) l → filter T l = [].
Proof. induction 1; [done|]. by rewrite filter_cons_False. Qed.
