(* ===== verification/Utf8.v ===== *)
(** * Text in Go (packages unicode/utf8 and strings)

    What [config.sanitizeName] uses of the standard library: the decoding of a
    string into runes, which turns each byte of invalid text into [RuneError],
    the encoding of a rune, and [strings.Map]. *)

From S2P Require Import Prelude.

Local Open Scope Z_scope.

Definition RuneError : Z := 0xFFFD.

(** A rune that has an encoding: a code point that is not a surrogate. *)
Definition scalar (r : Z) : Prop := 0 <= r < 0xD800 ∨ 0xE000 <= r <= 0x10FFFF.

Global Instance scalar_dec r : Decision (scalar r).
Proof. unfold scalar. apply _. Defined.

(** [utf8.AppendRune], of a rune that is not negative *)
Definition EncodeRune (r : Z) : gostring :=
  if r <=? 0x7F then [byte_of_Z r] else
  if r <=? 0x7FF then
    [byte_of_Z (Z.lor 0xC0 (Z.shiftr r 6)); byte_of_Z (Z.lor 0x80 (Z.land r 0x3F))] else
  let r := if decide (scalar r) then r else RuneError in
  if r <=? 0xFFFF then
    [byte_of_Z (Z.lor 0xE0 (Z.shiftr r 12)); byte_of_Z (Z.lor 0x80 (Z.land (Z.shiftr r 6) 0x3F));
     byte_of_Z (Z.lor 0x80 (Z.land r 0x3F))] else
  [byte_of_Z (Z.lor 0xF0 (Z.shiftr r 18)); byte_of_Z (Z.lor 0x80 (Z.land (Z.shiftr r 12) 0x3F));
   byte_of_Z (Z.lor 0x80 (Z.land (Z.shiftr r 6) 0x3F)); byte_of_Z (Z.lor 0x80 (Z.land r 0x3F))].

Definition within (lo hi : Z) (b : byte) : bool := (lo <=? Z_of_byte b) && (Z_of_byte b <=? hi).
Definition continuation (b : byte) : bool := within 0x80 0xBF b.

(** [rune(b0&mask)<<6 | rune(b1&maskx) | ...] *)
Definition rune_step (acc : Z) (b : byte) : Z := Z.lor (Z.shiftl acc 6) (Z.land (Z_of_byte b) 0x3F).

(** [utf8.DecodeRuneInString]: the rune and its width. *)
Definition DecodeRune (s : gostring) : Z * nat :=
  match s with
  | [] => (RuneError, 0%nat)
  | b0 :: s =>
      let p0 := Z_of_byte b0 in
      if p0 <? 0x80 then (p0, 1%nat) else
      if (p0 <? 0xC2) || (0xF4 <? p0) then (RuneError, 1%nat) else
      let lo := if p0 =? 0xE0 then 0xA0 else if p0 =? 0xF0 then 0x90 else 0x80 in
      let hi := if p0 =? 0xED then 0x9F else if p0 =? 0xF4 then 0x8F else 0xBF in
      if p0 <? 0xE0 then
        match s with
        | b1 :: _ => if within lo hi b1 then (rune_step (Z.land p0 0x1F) b1, 2%nat) else (RuneError, 1%nat)
        | _ => (RuneError, 1%nat)
        end
      else if p0 <? 0xF0 then
        match s with
        | b1 :: b2 :: _ =>
            if within lo hi b1 && continuation b2
            then (rune_step (rune_step (Z.land p0 0x0F) b1) b2, 3%nat) else (RuneError, 1%nat)
        | _ => (RuneError, 1%nat)
        end
      else
        match s with
        | b1 :: b2 :: b3 :: _ =>
            if within lo hi b1 && continuation b2 && continuation b3
            then (rune_step (rune_step (rune_step (Z.land p0 0x07) b1) b2) b3, 4%nat) else (RuneError, 1%nat)
        | _ => (RuneError, 1%nat)
        end
  end.

(** [for _, r := range s]: [skip] bytes belong to the rune before. *)
Fixpoint runes_from (skip : nat) (s : gostring) : list Z :=
  match s with
  | [] => []
  | b :: s' =>
      match skip with
      | S k => runes_from k s'
      | O => let '(r, w) := DecodeRune s in r :: runes_from (pred w) s'
      end
  end.
Definition runes (s : gostring) : list Z := runes_from 0 s.

(** The text of a list of runes. *)
Definition utf8 (l : list Z) : gostring := concat (EncodeRune <$> l).

(** [strings.Map]: a negative rune is dropped. *)
Definition strings_Map (f : Z → Z) (s : gostring) : gostring :=
  utf8 (filter (λ r, 0 <= r) (f <$> runes s)).

(** ** Decoding what was encoded *)

Lemma land_63 r : Z.land r 0x3F = r mod 64.
Proof. apply (Z.land_ones r 6). lia. Qed.

Lemma Z_of_cont x : 0 <= x < 64 → Z_of_byte (byte_of_Z (Z.lor 0x80 x)) = 128 + x.
Proof.
  intros Hx. rewrite Z_of_byte_of_Z. change (Z.lor 0x80 x) with (Z.lor (Z.shiftl 2 6) x). rewrite lor_add by lia.
  rewrite Z.mod_small; lia.
Qed.

(** A first byte: [hi] above [n] bits of the rune. *)
Lemma Z_of_first hi n x :
  0 <= n → 0 <= x < 2 ^ n → 0 <= hi → hi * 2 ^ n + 2 ^ n <= 256 →
  Z_of_byte (byte_of_Z (Z.lor (Z.shiftl hi n) x)) = hi * 2 ^ n + x.
Proof. intros Hn Hx Hh Hb. rewrite Z_of_byte_of_Z, lor_add by lia. rewrite Z.mod_small; nia. Qed.

Lemma rune_step_cont acc x : 0 <= x < 64 → rune_step acc (byte_of_Z (Z.lor 0x80 x)) = acc * 64 + x.
Proof.
  intros Hx. unfold rune_step. rewrite Z_of_cont, land_63 by done.
  replace ((128 + x) mod 64) with x by (apply (Z.mod_unique _ _ 2); lia).
  by rewrite lor_add by lia.
Qed.

Lemma continuation_cont x : 0 <= x < 64 → continuation (byte_of_Z (Z.lor 0x80 x)) = true.
Proof. intros Hx. unfold continuation, within. rewrite Z_of_cont by done. lia. Qed.

Lemma land_first n hi x m :
  0 <= n → 0 <= x < 2 ^ n → m = Z.ones n → Z.land (hi * 2 ^ n + x) m = x.
Proof.
  intros Hn Hx ->. rewrite Z.land_ones by done. symmetry. apply (Z.mod_unique _ _ hi); lia.
Qed.

(** Take the branch of an [if] that arithmetic decides. *)
Ltac take_branch :=
  match goal with
  | |- context [if ?b then _ else _] =>
      first [replace b with true by lia | replace b with false by lia]; cbv iota
  end.

(** Its six-bit digits. *)
Lemma rune_digits r :
  r = r / 4096 * 4096 + (r / 64) mod 64 * 64 + r mod 64 ∧
  0 <= r mod 64 < 64 ∧ 0 <= (r / 64) mod 64 < 64.
Proof.
  pose proof (Z.mod_pos_bound r 64 ltac:(lia)). pose proof (Z.mod_pos_bound (r / 64) 64 ltac:(lia)).
  pose proof (Z.div_mod r 64 ltac:(lia)). pose proof (Z.div_mod (r / 64) 64 ltac:(lia)).
  rewrite Z.div_div in * by lia. change (64 * 64) with 4096 in *. lia.
Qed.

Lemma DecodeRune_2 r s :
  0x80 <= r <= 0x7FF → DecodeRune (EncodeRune r ++ s) = (r, 2%nat).
Proof.
  intros Hr. unfold EncodeRune. do 2 take_branch.
  rewrite land_63, Z.shiftr_div_pow2 by lia. change (2 ^ 6) with 64. change 0xC0 with (Z.shiftl 6 5).
  assert (2 <= r / 64 < 32) as Hd by lia_div. assert (0 <= r mod 64 < 64) as Hm by lia_div.
  cbn [app DecodeRune]. rewrite Z_of_first by lia. change (6 * 2 ^ 5) with 192.
  unfold within. rewrite Z_of_cont, rune_step_cont by done. repeat take_branch.
  rewrite (land_first 5 6 (r / 64)) by (lia || done).
  f_equal. lia_div.
Qed.

Lemma DecodeRune_3 r s :
  0x800 <= r <= 0xFFFF → scalar r → DecodeRune (EncodeRune r ++ s) = (r, 3%nat).
Proof.
  intros Hr Hs. unfold EncodeRune. do 2 take_branch. rewrite decide_True by done. take_branch.
  rewrite !land_63, !Z.shiftr_div_pow2 by lia. change (2 ^ 6) with 64. change (2 ^ 12) with 4096.
  change 0xE0 with (Z.shiftl 14 4) at 1.
  destruct (rune_digits r) as (Er & H0 & H1).
  set (d0 := r / 4096) in *. set (d1 := (r / 64) mod 64) in *. set (d2 := r mod 64) in *.
  assert (0 <= d0 < 16) as Hd by lia. clearbody d0 d1 d2.
  cbn [app DecodeRune]. rewrite Z_of_first by lia. change (14 * 2 ^ 4) with 224.
  unfold within. rewrite continuation_cont, Z_of_cont, !rune_step_cont by done.
  repeat take_branch. destruct Hs; destruct (Z.eqb_spec (224 + d0) 224), (Z.eqb_spec (224 + d0) 237); take_branch.
  all: rewrite (land_first 4 14 d0) by (lia || done); f_equal; lia.
Qed.

Lemma DecodeRune_4 r s :
  0x10000 <= r <= 0x10FFFF → DecodeRune (EncodeRune r ++ s) = (r, 4%nat).
Proof.
  intros Hr. unfold EncodeRune. do 2 take_branch. rewrite decide_True by (unfold scalar; lia). take_branch.
  rewrite !land_63, !Z.shiftr_div_pow2 by lia. change (2 ^ 6) with 64. change (2 ^ 12) with 4096. change (2 ^ 18) with 262144.
  change 0xF0 with (Z.shiftl 30 3) at 1.
  destruct (rune_digits r) as (Er & H0 & H1). destruct (rune_digits (r / 64)) as (Er1 & _ & H2).
  rewrite !Z.div_div in * by lia. change (64 * 64) with 4096 in *. change (64 * 4096) with 262144 in *.
  set (d0 := r / 262144) in *. set (d1 := (r / 4096) mod 64) in *. set (d2 := (r / 64) mod 64) in *.
  set (d3 := r mod 64) in *.
  assert (r = d0 * 262144 + d1 * 4096 + d2 * 64 + d3) as E by lia_div.
  assert (0 <= d0 < 5) as Hd by lia. clearbody d0 d1 d2 d3.
  cbn [app DecodeRune]. rewrite Z_of_first by lia. change (30 * 2 ^ 3) with 240.
  unfold within. rewrite !continuation_cont, Z_of_cont, !rune_step_cont by done.
  repeat take_branch. destruct (Z.eqb_spec (240 + d0) 240), (Z.eqb_spec (240 + d0) 244); take_branch.
  all: rewrite (land_first 3 30 d0) by (lia || done); f_equal; lia.
Qed.

Lemma DecodeRune_EncodeRune r s :
  scalar r → DecodeRune (EncodeRune r ++ s) = (r, length (EncodeRune r)) ∧ EncodeRune r ≠ [].
Proof.
  intros Hr. assert (0 <= r <= 0x10FFFF) as Hb by (destruct Hr; lia).
  destruct (Z.leb_spec r 0x7F) as [H1|H1].
  { unfold EncodeRune. take_branch. split; [|done]. cbn [app DecodeRune].
    rewrite Z_of_byte_of_Z, Z.mod_small by lia. by take_branch. }
  destruct (Z.leb_spec r 0x7FF) as [H2|H2]; [rewrite DecodeRune_2 by lia|].
  { unfold EncodeRune. by do 2 take_branch. }
  destruct (Z.leb_spec r 0xFFFF) as [H3|H3]; [rewrite DecodeRune_3 by (lia || done)|rewrite DecodeRune_4 by lia];
    unfold EncodeRune; rewrite decide_True by done; by repeat take_branch.
Qed.

Lemma runes_from_skip l s : runes_from (length l) (l ++ s) = runes s.
Proof. induction l as [|b l IH]; cbn [length app]; [done|exact IH]. Qed.

Lemma runes_cons r s : scalar r → runes (EncodeRune r ++ s) = r :: runes s.
Proof.
  intros Hr. destruct (DecodeRune_EncodeRune r s Hr) as [Hd Hn]. unfold runes at 1.
  destruct (EncodeRune r) as [|b l] eqn:El; [done|]. cbn [app runes_from]. rewrite <-app_comm_cons in Hd. rewrite Hd.
  cbn [length Nat.pred]. by rewrite runes_from_skip.
Qed.

(** A text reads back. *)
Lemma runes_utf8 l : Forall scalar l → runes (utf8 l) = l.
Proof.
  induction 1 as [|r l Hr Hl IH]; [done|]. unfold utf8. cbn. rewrite runes_cons by done. by f_equal.
Qed.

Lemma rune_step_within lo hi acc b :
  within lo hi b = true → 0x80 <= lo → hi <= 0xBF →
  rune_step acc b = acc * 64 + (Z_of_byte b - 128) ∧ lo <= Z_of_byte b <= hi.
Proof.
  unfold within. intros [H1%Z.leb_le H2%Z.leb_le]%andb_prop Hlo Hhi. split; [|done]. unfold rune_step.
  rewrite land_63. replace (Z_of_byte b mod 64) with (Z_of_byte b - 128) by (apply (Z.mod_unique _ _ 2); lia).
  by rewrite lor_add by lia.
Qed.

Lemma scalar_RuneError : scalar RuneError.
Proof. unfold scalar, RuneError. lia. Qed.

(** Whatever the bytes, what is read has an encoding. *)
Lemma DecodeRune_scalar s : scalar (DecodeRune s).1.
Proof.
  pose proof scalar_RuneError as He.
  destruct s as [|b0 s]; [done|]. cbn [DecodeRune]. pose proof (Z_of_byte_range b0) as H0.
  set (p0 := Z_of_byte b0) in *. clearbody p0.
  destruct (Z.ltb_spec p0 0x80); [left; cbn; lia|].
  destruct (Z.ltb_spec p0 0xC2); [done|]. destruct (Z.ltb_spec 0xF4 p0); [done|]. cbn [orb].
  set (lo := if p0 =? 0xE0 then _ else _). set (hi := if p0 =? 0xED then _ else _).
  assert (0x80 <= lo ∧ hi <= 0xBF ∧ (p0 = 0xE0 → lo = 0xA0) ∧ (p0 = 0xF0 → lo = 0x90) ∧ (p0 = 0xED → hi = 0x9F) ∧
    (p0 = 0xF4 → hi = 0x8F)) as (Hlo & Hhi & Hb).
  { subst lo hi. destruct (Z.eqb_spec p0 0xE0), (Z.eqb_spec p0 0xF0), (Z.eqb_spec p0 0xED), (Z.eqb_spec p0 0xF4); lia. }
  clearbody lo hi. assert (∀ n hi' m, m = Z.ones n → 0 <= n → hi' * 2 ^ n <= p0 < hi' * 2 ^ n + 2 ^ n → Z.land p0 m = p0 - hi' * 2 ^ n) as Hl.
  { intros n hi' m -> Hn Hp. rewrite Z.land_ones by done. symmetry. apply (Z.mod_unique _ _ hi'); lia. }
  destruct (Z.ltb_spec p0 0xE0).
  { destruct s as [|b1 s]; [done|]. destruct (within lo hi b1) eqn:E1; [|done].
    destruct (rune_step_within lo hi (Z.land p0 0x1F) b1 E1 Hlo Hhi) as [-> Hr1].
    rewrite (Hl 5 6 31) by (lia || done). left. cbn. lia. }
  destruct (Z.ltb_spec p0 0xF0).
  { destruct s as [|b1 [|b2 s]]; [done..|]. destruct (within lo hi b1) eqn:E1, (continuation b2) eqn:E2; [cbn [andb]|done..].
    destruct (rune_step_within lo hi (Z.land p0 0x0F) b1 E1 Hlo Hhi) as [-> Hr1].
    destruct (rune_step_within _ _ ((Z.land p0 0x0F) * 64 + (Z_of_byte b1 - 128)) b2 E2) as [-> Hr2]; [lia..|].
    rewrite (Hl 4 14 15) by (lia || done). unfold scalar. cbn. lia. }
  destruct s as [|b1 [|b2 [|b3 s]]]; [done..|].
  destruct (within lo hi b1) eqn:E1, (continuation b2) eqn:E2, (continuation b3) eqn:E3; [cbn [andb]|done..].
  destruct (rune_step_within lo hi (Z.land p0 0x07) b1 E1 Hlo Hhi) as [-> Hr1].
  destruct (rune_step_within _ _ ((Z.land p0 0x07) * 64 + (Z_of_byte b1 - 128)) b2 E2) as [-> Hr2]; [lia..|].
  destruct (rune_step_within _ _ (((Z.land p0 0x07) * 64 + (Z_of_byte b1 - 128)) * 64 + (Z_of_byte b2 - 128)) b3 E3)
    as [-> Hr3]; [lia..|].
  rewrite (Hl 3 30 7) by (lia || done). right. cbn. lia.
Qed.

Lemma runes_scalar s : Forall scalar (runes s).
Proof.
  unfold runes. generalize 0%nat. induction s as [|b s IH]; intros [|k]; cbn [runes_from]; [done..| |apply IH].
  pose proof (DecodeRune_scalar (b :: s)) as H. destruct (DecodeRune (b :: s)) as [r w]. apply Forall_cons_2; [done|apply IH].
Qed.

(** Dropping runes of a string. *)
Lemma strings_Map_filter (keep : Z → bool) s :
  strings_Map (λ r, if keep r then r else -1) s = utf8 (filter keep (runes s)).
Proof.
  unfold strings_Map. f_equal. pose proof (runes_scalar s) as H. revert H. generalize (runes s) as l.
  induction 1 as [|r l Hr Hl IH]; [done|]. rewrite fmap_cons, !filter_cons. destruct (keep r) eqn:Ek; cbn.
  - rewrite decide_True by (destruct Hr; lia). by f_equal.
  - done.
Qed.
