(* ===== verification/Paths.v ===== *)
(** * Slash-separated paths (package path/filepath on Unix, and path)

    Splitting and joining text at a byte, and the lexical path operations that
    store.New, keys.AutoLoad and the request multiplexer use: [IsAbs], [Clean],
    [Dir] and [Join]. *)

From S2P Require Import Prelude.

Definition slash : byte := byte_of_Z 47.
Definition dot1 : gostring := lit ".".
Definition dot2 : gostring := lit "..".

(** [strings.Split(s, sep)], for a one-byte separator. *)
Fixpoint strings_Split (sep : byte) (s : gostring) : list gostring :=
  match s with
  | [] => [[]]
  | b :: s' =>
      if bool_decide (b = sep) then [] :: strings_Split sep s'
      else match strings_Split sep s' with
           | w :: ws => (b :: w) :: ws
           | [] => [[b]]
           end
  end.

(** [strings.Join(l, sep)] *)
Fixpoint strings_Join (sep : byte) (l : list gostring) : gostring :=
  match l with
  | [] => []
  | [w] => w
  | w :: l' => w ++ sep :: strings_Join sep l'
  end.

Definition filepath_IsAbs (p : gostring) : bool := bool_decide (head p = Some slash).

(** One element of the path, on the cleaned elements before it (last first). *)
Definition clean_step (rooted : bool) (out : list gostring) (w : gostring) : list gostring :=
  if bool_decide (w = []) || bool_decide (w = dot1) then out
  else if bool_decide (w = dot2) then
    match out with
    | t :: out' => if bool_decide (t = dot2) then w :: out else out'
    | [] => if rooted then [] else [w]
    end
  else w :: out.

Definition clean_elems (rooted : bool) (l : list gostring) : list gostring :=
  reverse (foldl (clean_step rooted) [] l).

Definition filepath_Clean (p : gostring) : gostring :=
  let rooted := filepath_IsAbs p in
  let body := strings_Join slash (clean_elems rooted (strings_Split slash p)) in
  if rooted then slash :: body else if bool_decide (body = []) then dot1 else body.

(** All but what follows the last slash, cleaned. *)
Definition filepath_Dir (p : gostring) : gostring :=
  filepath_Clean (match reverse (strings_Split slash p) with
                  | [] | [_] => []
                  | _ :: ws => strings_Join slash (reverse ws) ++ [slash]
                  end).

Definition filepath_Join (elems : list gostring) : gostring :=
  match filter (λ w, w ≠ []) elems with
  | [] => []
  | l => filepath_Clean (strings_Join slash l)
  end.

(** Agreement with the documentation of package path. *)
Example Clean_examples :
  filepath_Clean (lit "") = lit "." ∧ filepath_Clean (lit "a//c/") = lit "a/c" ∧
  filepath_Clean (lit "a/c/b/..") = lit "a/c" ∧ filepath_Clean (lit "/../a/./c") = lit "/a/c" ∧
  filepath_Clean (lit "../a/../..") = lit "../.." ∧ filepath_Clean (lit "/") = lit "/" ∧
  filepath_Dir (lit "/opt/chat/e2e") = lit "/opt/chat" ∧ filepath_Dir (lit "/e2e") = lit "/" ∧
  filepath_Dir (lit "e2e") = lit "." ∧ filepath_Join [lit "/opt/chat"; lit "x"] = lit "/opt/chat/x".
Proof. vm_compute. done. Qed.

(** ** Splitting and joining *)

Lemma Split_nonempty sep s : strings_Split sep s ≠ [].
Proof. induction s as [|b s IH]; cbn; [done|]. case_bool_decide; [done|]. by destruct (strings_Split sep s). Qed.

Lemma Split_word sep w : sep ∉ w → strings_Split sep w = [w].
Proof.
  induction w as [|b w IH]; [done|]. intros [Hb Hw]%not_elem_of_cons. cbn.
  rewrite bool_decide_false by done. by rewrite IH.
Qed.

Lemma Split_cons_word sep w s : sep ∉ w → strings_Split sep (w ++ sep :: s) = w :: strings_Split sep s.
Proof.
  induction w as [|b w IH]; cbn; [by rewrite bool_decide_true|].
  intros [Hb Hw]%not_elem_of_cons. rewrite bool_decide_false by done. by rewrite IH.
Qed.

Lemma Split_app_word sep s w : sep ∉ w → strings_Split sep (s ++ sep :: w) = strings_Split sep s ++ [w].
Proof.
  intros Hw. induction s as [|b s IH]; cbn.
  - rewrite bool_decide_true by done. by rewrite Split_word.
  - case_bool_decide; [by rewrite IH|]. rewrite IH.
    pose proof (Split_nonempty sep s). by destruct (strings_Split sep s).
Qed.

Lemma Join_Split sep s : strings_Join sep (strings_Split sep s) = s.
Proof.
  induction s as [|b s IH]; [done|]. cbn. pose proof (Split_nonempty sep s) as Hn.
  case_bool_decide as Hb; destruct (strings_Split sep s) as [|w [|w' ws]]; cbn in *; subst; try done.
Qed.

Lemma Split_Join sep l : l ≠ [] → Forall (λ w, sep ∉ w) l → strings_Split sep (strings_Join sep l) = l.
Proof.
  intros Hl Hw. induction Hw as [|w l Hw Hall IH]; [done|]. destruct l as [|w' l].
  - by apply Split_word.
  - change (strings_Join sep (w :: w' :: l)) with (w ++ sep :: strings_Join sep (w' :: l)).
    rewrite Split_cons_word by done. by rewrite IH.
Qed.

Lemma Join_snoc sep l w : l ≠ [] → strings_Join sep (l ++ [w]) = strings_Join sep l ++ sep :: w.
Proof.
  induction l as [|a [|b l] IH]; [done|done|]. intros _.
  change (strings_Join sep ((a :: b :: l) ++ [w])) with (a ++ sep :: strings_Join sep ((b :: l) ++ [w])).
  change (strings_Join sep (a :: b :: l)) with (a ++ sep :: strings_Join sep (b :: l)).
  by rewrite IH, <-app_assoc.
Qed.

Lemma Split_words sep s : Forall (λ w, sep ∉ w) (strings_Split sep s).
Proof.
  induction s as [|b s IH]; cbn; [by apply Forall_singleton, not_elem_of_nil|].
  case_bool_decide as Hb; [constructor; [by apply not_elem_of_nil|done]|].
  destruct (strings_Split sep s) as [|w ws]; [constructor; [|done]; by apply not_elem_of_cons; split; [|apply not_elem_of_nil]|].
  apply Forall_cons in IH as [Hw Hws]. constructor; [|done]. by apply not_elem_of_cons.
Qed.

(** ** Cleaning *)

(** A path element that is not empty. *)
Definition word (sep : byte) (w : gostring) : Prop := (sep ∉ w) ∧ w ≠ [].

(** The name of a file: an element that cleaning keeps. *)
Definition plain (w : gostring) : Prop := w ≠ [] ∧ w ≠ dot1 ∧ w ≠ dot2 ∧ slash ∉ w.

Lemma clean_elems_plain rooted l w :
  plain w → clean_elems rooted (l ++ [w]) = clean_elems rooted l ++ [w].
Proof.
  intros (H0 & H1 & H2 & _). unfold clean_elems. rewrite foldl_app. cbn [foldl].
  unfold clean_step at 1. rewrite !bool_decide_false by done. cbn [orb]. by rewrite reverse_cons.
Qed.

Lemma clean_step_words rooted out w :
  Forall (word slash) out → slash ∉ w → Forall (word slash) (clean_step rooted out w).
Proof.
  intros Ho Hw. unfold clean_step. case_bool_decide as He; [done|]. cbn [orb].
  case_bool_decide; [done|]. case_bool_decide; [|by constructor].
  assert (word slash w) by done. destruct Ho as [|t out Ht Ho].
  - destruct rooted; [done|by apply Forall_singleton].
  - case_bool_decide; [|done]. by repeat apply Forall_cons_2.
Qed.

Lemma clean_elems_words rooted l : Forall (λ w, slash ∉ w) l → Forall (word slash) (clean_elems rooted l).
Proof.
  unfold clean_elems. intros Hl. apply Forall_reverse.
  assert (∀ out, Forall (word slash) out → Forall (word slash) (foldl (clean_step rooted) out l)) as H; [|by apply H].
  induction Hl as [|w l Hw _ IH]; intros out Ho; [done|]. cbn [foldl]. by apply IH, clean_step_words.
Qed.

Lemma Join_inj sep l1 l2 :
  Forall (word sep) l1 → Forall (word sep) l2 →
  strings_Join sep l1 = strings_Join sep l2 → l1 = l2.
Proof.
  assert (∀ l, Forall (word sep) l → strings_Join sep l = [] → l = []) as Hnil.
  { intros [|w [|w' l]] Hl; [done|..]; intros Hj; apply Forall_cons in Hl as [[_ Hw] _]; cbn in Hj; [done|].
    by apply app_eq_nil in Hj as [-> _]. }
  intros H1 H2 He. destruct l1 as [|w1 l1]; [symmetry; by apply Hnil|].
  destruct l2 as [|w2 l2]; [by apply Hnil in He|].
  apply (f_equal (strings_Split sep)) in He.
  rewrite !Split_Join in He; [done|done| |done|]; (eapply Forall_impl; [eassumption|]; by intros ? []).
Qed.

(** The absolute or relative path of a file in a directory, when the file has
    a plain name: distinct names are distinct files. *)
Lemma Join_plain_inj dir w1 w2 :
  dir ≠ [] → plain w1 → plain w2 → filepath_Join [dir; w1] = filepath_Join [dir; w2] → w1 = w2.
Proof.
  intros Hd H1 H2. unfold filepath_Join.
  assert (∀ w, plain w → filter (λ w, w ≠ []) [dir; w] = [dir; w]) as Hf.
  { intros w [Hw _]. by rewrite !filter_cons_True, filter_nil. }
  rewrite !Hf by done. cbn [strings_Join]. unfold filepath_Clean.
  assert (∀ w, filepath_IsAbs (dir ++ slash :: w) = filepath_IsAbs dir) as Hr by (intros w; by destruct dir).
  rewrite !Hr. set (rooted := filepath_IsAbs dir).
  rewrite !Split_app_word by (apply H1 || apply H2). rewrite !clean_elems_plain by done.
  set (l := clean_elems rooted (strings_Split slash dir)).
  assert (∀ w, plain w → Forall (word slash) (l ++ [w])) as Hl.
  { intros w (Hn & _ & _ & Hs). apply Forall_app_2; [apply clean_elems_words, Split_words|by apply Forall_singleton]. }
  assert (∀ w, plain w → strings_Join slash (l ++ [w]) ≠ []) as Hne.
  { intros w Hw Hj. specialize (Hl w Hw). destruct l as [|a l']; cbn in Hj; [by destruct Hw as [? _]|].
    apply Forall_cons in Hl as [[_ Ha] _]. destruct (l' ++ [w]); [done|]. by apply app_eq_nil in Hj as [? _]. }
  rewrite !bool_decide_false by (apply Hne; done).
  intros He. assert (strings_Join slash (l ++ [w1]) = strings_Join slash (l ++ [w2])) as He2 by (destruct rooted; by simplify_eq).
  apply Join_inj in He2; [|by apply Hl..]. by apply app_inj_tail in He2 as [_ ?].
Qed.

Lemma Clean_nonempty p : filepath_Clean p ≠ [].
Proof. unfold filepath_Clean. destruct (filepath_IsAbs p); [done|]. by case_bool_decide. Qed.

Lemma Dir_nonempty p : filepath_Dir p ≠ [].
Proof. apply Clean_nonempty. Qed.
