(* ===== verification/Config.v ===== *)
(** * Configuration (config/config.go)

    The constants of package [config] that the protocol code reads, the
    [Config] record with its TLS test, and the cleaning of the client name.
    Durations are nanoseconds, as [time.Duration]. *)

From S2P Require Import Prelude Utf8.

Local Open Scope Z_scope.

Definition Nanosecond : Z := 1.
Definition Second : Z := 1000000000.
Definition Minute : Z := 60 * Second.

Definition DefaultClientName : gostring := lit "default".
Definition DefaultPort : Z := 8080.
Definition DefaultTimeout : Z := 15 * Second.
Definition DefaultRateLimit : Z := 100.
Definition DefaultRateWindow : Z := Minute.
Definition MaxMessageSize : Z := Z.shiftl 50 20.
Definition MaxProfilePicSize : Z := Z.shiftl 2 20.
Definition DefaultPingWindow : Z := 5 * Second.
Definition PubKeyLen : Z := 64.
Definition FileChunkSize : Z := Z.shiftl 256 10.
Definition FileIDLen : Z := 16.
Definition NonceSize : Z := 12.
Definition AesKeySize : Z := 32.
Definition maxNameLen : Z := 64.

Record Config := MkConfig {
  ClientName : gostring;
  Port : Z;
  Timeout : Z;
  RateLimit : Z;
  RateWindow : Z;
  CfgMaxMessageSize : Z;
  PingWindow : Z;
  CertFile : gostring;
  KeyFileTLS : gostring;
  PeerAddr : gostring;
  WriteMode : bool
}.

(** [c.CertFile != "" && c.KeyFileTLS != ""] *)
Definition UseTLS (c : Config) : bool :=
  negb (bool_decide (CertFile c = [])) && negb (bool_decide (KeyFileTLS c = [])).

(** The client name of the command line. [unicode.IsPrint] is a table of the
    Unicode version Go was built with, so it is a parameter. *)
Section Name.
Context (unicode_IsPrint : Z → bool).

Definition sanitizeName (s : gostring) : gostring :=
  let s := strings_Map (λ r, if unicode_IsPrint r then r else -1) s in
  if len s >? maxNameLen then take (Z.to_nat maxNameLen) s else s.

Lemma sanitizeName_spec s :
  sanitizeName s = take (Z.to_nat maxNameLen) (utf8 (filter unicode_IsPrint (runes s))).
Proof.
  unfold sanitizeName. rewrite strings_Map_filter. destruct (Z.gtb_spec (len (utf8 (filter unicode_IsPrint (runes s)))) maxNameLen); [done|].
  rewrite take_ge; [done|]. unfold len, maxNameLen in *. lia.
Qed.

(** The client name is the printable runes of the argument, as text, cut at 64
    bytes: at most 64 bytes, a printable text of at most 64 bytes is left
    alone, and a name that was not cut consists of printable runes and is not
    changed by cleaning it again. *)
Theorem sanitizeName_correct (s : gostring) :
  let text := utf8 (filter unicode_IsPrint (runes s)) in
  sanitizeName s = take 64 text ∧ len (sanitizeName s) <= maxNameLen ∧
  (len text <= maxNameLen → runes (sanitizeName s) = filter unicode_IsPrint (runes s) ∧
    sanitizeName (sanitizeName s) = sanitizeName s) ∧
  (∀ l, Forall scalar l → Forall unicode_IsPrint l → len (utf8 l) <= maxNameLen → sanitizeName (utf8 l) = utf8 l).
Proof.
  intros text. change 64%nat with (Z.to_nat maxNameLen). split; [apply sanitizeName_spec|]. split.
  { rewrite sanitizeName_spec. unfold len. rewrite length_take. unfold maxNameLen. lia. }
  assert (∀ l, Forall scalar l → Forall unicode_IsPrint l → len (utf8 l) <= maxNameLen → sanitizeName (utf8 l) = utf8 l) as Hid.
  { intros l Hl Hp Hn. rewrite sanitizeName_spec, runes_utf8, list_filter_all by done.
    apply take_ge. unfold len, maxNameLen in *. lia. }
  split; [|exact Hid]. intros Hn.
  assert (Forall scalar (filter unicode_IsPrint (runes s))) as Hs by (apply Forall_forall; intros r [_ Hr]%list_elem_of_filter; by eapply Forall_forall; [apply runes_scalar|]).
  assert (sanitizeName s = text) as ->.
  { rewrite sanitizeName_spec. apply take_ge. unfold len, maxNameLen in *. subst text. lia. }
  split; [by apply runes_utf8|]. apply Hid; [done| |done]. apply Forall_forall. by intros r [H _]%list_elem_of_filter.
Qed.
End Name.

(** A cut can fall inside a rune: the name of 63 letters and an accent ends in
    half a rune. *)
Example sanitizeName_splits :
  let name := sanitizeName (λ _, true) (utf8 (replicate 63 97 ++ [233])) in
  last (runes name) = Some RuneError ∧ sanitizeName (λ _, true) name ≠ name.
Proof. vm_compute. split; [reflexivity|discriminate]. Qed.
