(* ===== verification/Stdin.v ===== *)
(** * Standard input (client/peer.go, client/client.go)

    [readStdin] and [stdinLoop] read lines with a [bufio.Scanner]: the line
    ends are cut off, and a line that does not fit the scanner's buffer ends
    the scan, with an error that nobody asks for. *)

From S2P Require Import Prelude.

(** [bufio.MaxScanTokenSize], the size the scanner's buffer can grow to. *)
Definition MaxScanTokenSize : Z := 65536.

Definition LF : byte := byte_of_Z 10.
Definition CR : byte := byte_of_Z 13.

Definition dropCR (line : gostring) : gostring :=
  match last line with
  | Some b => if bool_decide (b = CR) then take (length line - 1) line else line
  | None => line
  end.

(** The lines of the input, [cur] being what is buffered of the first. *)
Fixpoint scan_from (cur input : gostring) : list gostring :=
  match input with
  | [] => if bool_decide (cur = []) then [] else [dropCR cur]
  | b :: input' =>
      if bool_decide (b = LF) then dropCR cur :: scan_from [] input'
      else if (len cur + 1 >=? MaxScanTokenSize)%Z then []    (* the buffer is full: ErrTooLong *)
      else scan_from (cur ++ [b]) input'
  end.

(** What the goroutine sends on its channel. *)
Definition readStdin (input : gostring) : list gostring := scan_from [] input.

Lemma dropCR_app l : dropCR (l ++ [CR]) = l.
Proof. unfold dropCR. rewrite last_snoc, bool_decide_true by done. rewrite length_app. cbn. by rewrite Nat.add_sub, take_app_length. Qed.

Lemma dropCR_id l : last l ≠ Some CR → dropCR l = l.
Proof. unfold dropCR. destruct (last l) as [b|]; [|done]. intros Hb. rewrite bool_decide_false; [done|congruence]. Qed.

Lemma dropCR_len l : (len (dropCR l) <= len l)%Z.
Proof. unfold dropCR. destruct (last l) as [b|]; [|lia]. case_bool_decide; [|lia]. unfold len. rewrite length_take. lia. Qed.

Lemma scan_line cur line input :
  LF ∉ line → (len cur + len line < MaxScanTokenSize)%Z →
  scan_from cur (line ++ LF :: input) = dropCR (cur ++ line) :: scan_from [] input.
Proof.
  revert cur. induction line as [|b line IH]; intros cur Hn Hl; cbn [app scan_from].
  { by rewrite bool_decide_true, app_nil_r. }
  apply not_elem_of_cons in Hn as [Hb Hn]. rewrite bool_decide_false by done.
  unfold len in *. cbn [length] in Hl. destruct (_ >=? _)%Z eqn:E; [lia|].
  rewrite IH; [by rewrite <-app_assoc|done|]. unfold len. rewrite length_app. cbn. lia.
Qed.

Lemma scan_long cur line input :
  LF ∉ line → (MaxScanTokenSize <= len cur + len line)%Z → (len cur < MaxScanTokenSize)%Z →
  scan_from cur (line ++ input) = [].
Proof.
  revert cur. induction line as [|b line IH]; intros cur Hn Hl Hc; cbn [app scan_from].
  { unfold len in *. cbn in Hl. lia. }
  apply not_elem_of_cons in Hn as [Hb Hn]. rewrite bool_decide_false by done.
  destruct (_ >=? _)%Z eqn:E; [done|]. unfold len in *. cbn [length] in Hl.
  apply IH; [done| |]; unfold len; rewrite length_app; cbn; lia.
Qed.

Lemma scan_short cur input :
  (len cur < MaxScanTokenSize)%Z → Forall (λ l, len l < MaxScanTokenSize)%Z (scan_from cur input).
Proof.
  revert cur. induction input as [|b input IH]; intros cur Hc; cbn [scan_from].
  - case_bool_decide; [apply Forall_nil_2|]. apply Forall_singleton. pose proof (dropCR_len cur). lia.
  - case_bool_decide.
    + apply Forall_cons_2; [pose proof (dropCR_len cur); lia|]. by apply IH.
    + destruct (_ >=? _)%Z eqn:E; [apply Forall_nil_2|]. apply IH. unfold len in *. rewrite length_app. cbn. lia.
Qed.

(** A line as it is typed: it holds no line feed and fits the buffer. *)
Definition typed_line (line : gostring) : Prop :=
  (LF ∉ line) ∧ last line ≠ Some CR ∧ (len line < MaxScanTokenSize)%Z.

Definition typed_text (lines : list gostring) : gostring := mjoin ((λ l, l ++ [LF]) <$> lines).

(** Lines that are typed arrive as they are typed, in order, and a long one ends
    the input: neither it nor anything typed after it arrives. *)
Lemma readStdin_correct lines long rest :
  Forall typed_line lines → LF ∉ long → (MaxScanTokenSize <= len long)%Z →
  readStdin (typed_text lines) = lines ∧ readStdin (typed_text lines ++ long ++ rest) = lines ∧
  (∀ input, Forall (λ l, len l < MaxScanTokenSize)%Z (readStdin input)).
Proof.
  intros Hl Hn Hlen. unfold readStdin.
  assert (∀ input, scan_from [] (typed_text lines ++ input) = lines ++ scan_from [] input) as H.
  { intros input. induction Hl as [|line lines (H1 & H2 & H3) _ IH]; [done|].
    change (typed_text (line :: lines)) with ((line ++ [LF]) ++ typed_text lines). rewrite <-!app_assoc. cbn [app].
    rewrite scan_line by done. cbn [app]. by rewrite dropCR_id, IH by done. }
  split; [|split].
  - rewrite <-(app_nil_r (typed_text lines)), H. apply app_nil_r.
  - rewrite H, scan_long by done. apply app_nil_r.
  - intros input. by apply scan_short.
Qed.

Example readStdin_crlf : readStdin (lit "hi" ++ [CR; LF; LF] ++ lit "there") = [lit "hi"; []; lit "there"].
Proof. vm_compute. reflexivity. Qed.
