(* ===== verification/Flags.v ===== *)
(** * The command line (config.Parse, package flag)

    The flags of the program, each with the variable it sets, and the parsing
    of the arguments as package [flag] does it with [ExitOnError]: flags come
    first, as -name value, -name=value or, for a boolean, -name; the last
    occurrence wins. The parsing is for any table of flags, since the UI has
    its own. The number formats of strconv, time and slog, and the Unicode
    tables, are a parameter. *)

From S2P Require Import Prelude Utf8 Config.

(** [os.Exit] ends the process: the rest does not run. *)
Inductive may_exit (A : Type) := Go (a : A) | Exited (code : Z).
Arguments Go {A} a.
Arguments Exited {A} code.

Class FlagLib := {
  strconv_ParseInt : gostring → option Z;       (* base 0, 64 bits *)
  strconv_Itoa : Z → gostring;
  time_ParseDuration : gostring → option Z;
  Duration_String : Z → gostring;
  slog_UnmarshalText : gostring → option Z;     (* the level's number *)
  unicode_IsPrint : Z → bool
}.
Definition int64 (z : Z) : Prop := (MinInt64 <= z <= MaxInt64)%Z.
Class FlagLaws (F : FlagLib) : Prop := {
  ParseInt_range s z : strconv_ParseInt s = Some z → int64 z;
  ParseInt_Itoa z : int64 z → strconv_ParseInt (strconv_Itoa z) = Some z;
  ParseDuration_range s z : time_ParseDuration s = Some z → int64 z;
  ParseDuration_String z : int64 z → time_ParseDuration (Duration_String z) = Some z
}.

(** What the flags set: the configuration, the log level and [-v]. *)
Record Flags := MkFlags { fl_config : Config; fl_LogLevel : Z; fl_verInfo : bool }.

Definition set_client s c := MkConfig s (Port c) (Timeout c) (RateLimit c) (RateWindow c) (CfgMaxMessageSize c) (PingWindow c) (CertFile c) (KeyFileTLS c) (PeerAddr c) (WriteMode c).
Definition set_port n c := MkConfig (ClientName c) n (Timeout c) (RateLimit c) (RateWindow c) (CfgMaxMessageSize c) (PingWindow c) (CertFile c) (KeyFileTLS c) (PeerAddr c) (WriteMode c).
Definition set_timeout n c := MkConfig (ClientName c) (Port c) n (RateLimit c) (RateWindow c) (CfgMaxMessageSize c) (PingWindow c) (CertFile c) (KeyFileTLS c) (PeerAddr c) (WriteMode c).
Definition set_rate_limit n c := MkConfig (ClientName c) (Port c) (Timeout c) n (RateWindow c) (CfgMaxMessageSize c) (PingWindow c) (CertFile c) (KeyFileTLS c) (PeerAddr c) (WriteMode c).
Definition set_rate_window n c := MkConfig (ClientName c) (Port c) (Timeout c) (RateLimit c) n (CfgMaxMessageSize c) (PingWindow c) (CertFile c) (KeyFileTLS c) (PeerAddr c) (WriteMode c).
Definition set_max_size n c := MkConfig (ClientName c) (Port c) (Timeout c) (RateLimit c) (RateWindow c) n (PingWindow c) (CertFile c) (KeyFileTLS c) (PeerAddr c) (WriteMode c).
Definition set_ping n c := MkConfig (ClientName c) (Port c) (Timeout c) (RateLimit c) (RateWindow c) (CfgMaxMessageSize c) n (CertFile c) (KeyFileTLS c) (PeerAddr c) (WriteMode c).
Definition set_cert s c := MkConfig (ClientName c) (Port c) (Timeout c) (RateLimit c) (RateWindow c) (CfgMaxMessageSize c) (PingWindow c) s (KeyFileTLS c) (PeerAddr c) (WriteMode c).
Definition set_key s c := MkConfig (ClientName c) (Port c) (Timeout c) (RateLimit c) (RateWindow c) (CfgMaxMessageSize c) (PingWindow c) (CertFile c) s (PeerAddr c) (WriteMode c).
Definition set_addr s c := MkConfig (ClientName c) (Port c) (Timeout c) (RateLimit c) (RateWindow c) (CfgMaxMessageSize c) (PingWindow c) (CertFile c) (KeyFileTLS c) s (WriteMode c).
Definition set_write b c := MkConfig (ClientName c) (Port c) (Timeout c) (RateLimit c) (RateWindow c) (CfgMaxMessageSize c) (PingWindow c) (CertFile c) (KeyFileTLS c) (PeerAddr c) b.

Definition on_config (g : Config → Config) (f : Flags) : Flags := MkFlags (g (fl_config f)) (fl_LogLevel f) (fl_verInfo f).

(** The kinds of flags, each with the variable it is bound to. *)
Inductive flag_value (V : Type) :=
| StringVar (set : gostring → V → V)
| IntVar (set : Z → V → V)          (* Int64Var too: int has 64 bits *)
| DurationVar (set : Z → V → V)
| BoolVar (set : bool → V → V)
| LevelVar (set : Z → V → V).
Arguments StringVar {V} set.
Arguments IntVar {V} set.
Arguments DurationVar {V} set.
Arguments BoolVar {V} set.
Arguments LevelVar {V} set.

Definition formal : list (gostring * flag_value Flags) := [
  (lit "client", StringVar (λ s, on_config (set_client s)));
  (lit "p", IntVar (λ n, on_config (set_port n)));
  (lit "t", DurationVar (λ n, on_config (set_timeout n)));
  (lit "rate-limit", IntVar (λ n, on_config (set_rate_limit n)));
  (lit "rate-window", DurationVar (λ n, on_config (set_rate_window n)));
  (lit "max-msg-size", IntVar (λ n, on_config (set_max_size n)));
  (lit "ping-window", DurationVar (λ n, on_config (set_ping n)));
  (lit "l", LevelVar (λ n f, MkFlags (fl_config f) n (fl_verInfo f)));
  (lit "addr", StringVar (λ s, on_config (set_addr s)));
  (lit "w", BoolVar (λ b, on_config (set_write b)));
  (lit "cert", StringVar (λ s, on_config (set_cert s)));
  (lit "key", StringVar (λ s, on_config (set_key s)));
  (lit "v", BoolVar (λ b f, MkFlags (fl_config f) (fl_LogLevel f) b))].

(** The defaults; [slog.LevelInfo] is 0. *)
Definition default_flags : Flags :=
  MkFlags (MkConfig DefaultClientName DefaultPort DefaultTimeout DefaultRateLimit DefaultRateWindow MaxMessageSize
    DefaultPingWindow [] [] [] false) 0 false.

Definition lookup_flag {V} (name : gostring) (flags : list (gostring * flag_value V)) : option (flag_value V) :=
  (λ ip, ip.2.2) <$> list_find (λ p, p.1 = name) flags.

Definition minus : byte := byte_of_Z 45.
Definition equals : byte := byte_of_Z 61.

Definition strconv_ParseBool (s : gostring) : option bool :=
  if bool_decide (s ∈ [lit "1"; lit "t"; lit "T"; lit "TRUE"; lit "true"; lit "True"]) then Some true
  else if bool_decide (s ∈ [lit "0"; lit "f"; lit "F"; lit "FALSE"; lit "false"; lit "False"]) then Some false
  else None.

(** The first equals sign after the first character splits name and value. *)
Fixpoint split_equals (s : gostring) : gostring * option gostring :=
  match s with
  | [] => ([], None)
  | b :: s' =>
      if bool_decide (b = equals) then ([], Some s')
      else let '(n, v) := split_equals s' in (b :: n, v)
  end.

Definition split_flag (s : gostring) : gostring * option gostring :=
  match s with
  | [] => ([], None)
  | b :: s' => let '(n, v) := split_equals s' in (b :: n, v)
  end.

(** What the first argument is: no flag, the end of the flags, a syntax error,
    or a flag with its value if it has one. *)
Inductive token := NotFlag | EndFlags | BadSyntax | Flag (name : gostring) (value : option gostring).

Definition token_of (s : gostring) : token :=
  match s with
  | b :: c :: _ =>
      if negb (bool_decide (b = minus)) then NotFlag
      else if bool_decide (s = [minus; minus]) then EndFlags
      else
        let name := if bool_decide (c = minus) then tail (tail s) else tail s in
        match name with
        | d :: _ => if bool_decide (d = minus) || bool_decide (d = equals) then BadSyntax
                    else let '(n, v) := split_flag name in Flag n v
        | [] => BadSyntax
        end
  | _ => NotFlag
  end.

Section FlagSet.
Context {F : FlagLib} {V : Type} (flags : list (gostring * flag_value V)).

(** [flag.Value.Set]; [None]: invalid. *)
Definition flag_Set (v : flag_value V) (s : gostring) (f : V) : option V :=
  match v with
  | StringVar set => Some (set s f)
  | IntVar set => (λ z, set z f) <$> strconv_ParseInt s
  | DurationVar set => (λ z, set z f) <$> time_ParseDuration s
  | BoolVar set => (λ b, set b f) <$> strconv_ParseBool s
  | LevelVar set => (λ z, set z f) <$> slog_UnmarshalText s
  end.

Definition IsBoolFlag (v : flag_value V) : bool := match v with BoolVar _ => true | _ => false end.

(** [fs.Parse(args)] with [ExitOnError]: status 0 for help, 2 for an error. *)
Fixpoint flags_Parse (args : list gostring) (f : V) : may_exit V :=
  match args with
  | [] => Go f
  | s :: rest =>
      match token_of s with
      | NotFlag | EndFlags => Go f
      | BadSyntax => Exited 2
      | Flag name value =>
          match lookup_flag name flags with
          | None => Exited (if bool_decide (name = lit "help") || bool_decide (name = lit "h") then 0 else 2)
          | Some v =>
              match value with
              | Some x => match flag_Set v x f with Some f' => flags_Parse rest f' | None => Exited 2 end
              | None =>
                  if IsBoolFlag v
                  then match flag_Set v (lit "true") f with Some f' => flags_Parse rest f' | None => Exited 2 end
                  else match rest with
                       | x :: rest' => match flag_Set v x f with Some f' => flags_Parse rest' f' | None => Exited 2 end
                       | [] => Exited 2
                       end
              end
          end
      end
  end.

(** What every flag keeps, the parsing keeps. *)
Lemma flags_Parse_preserves (I : V → Prop) args f f' :
  (∀ name v s f f', lookup_flag name flags = Some v → flag_Set v s f = Some f' → I f → I f') →
  flags_Parse args f = Go f' → I f → I f'.
Proof.
  intros Hset. revert f. induction args as [args IH] using (induction_ltof1 _ length). unfold ltof in IH.
  destruct args as [|s rest]; intros f; cbn [flags_Parse]; [by intros [= <-]|].
  destruct (token_of s) as [| | |name value]; [by intros [= <-]..|by intros [=]|].
  destruct (lookup_flag name flags) as [v|] eqn:El; [|by intros [=]].
  assert (∀ x l, length l < S (length rest) →
    match flag_Set v x f with Some f1 => flags_Parse l f1 | None => Exited 2 end = Go f' → I f → I f') as Hstep.
  { intros x l Hl. destruct (flag_Set v x f) as [f1|] eqn:Es; [|by intros [=]]. intros Hp Hi.
    eapply (IH l); [cbn; lia|exact Hp|]. by eapply Hset. }
  destruct value as [x|]; [apply Hstep; lia|]. destruct (IsBoolFlag v); [apply Hstep; lia|].
  destruct rest as [|x rest']; [by intros [=]|]. apply Hstep. cbn. lia.
Qed.

Lemma flags_Parse_exits args f code : flags_Parse args f = Exited code → code = 0%Z ∨ code = 2%Z.
Proof.
  revert f. induction args as [args IH] using (induction_ltof1 _ length). unfold ltof in IH.
  destruct args as [|s rest]; intros f; cbn [flags_Parse]; [done|].
  destruct (token_of s) as [| | |name value]; try done; [intros [= <-]; by right|].
  destruct (lookup_flag name flags) as [v|]; [|destruct (_ || _); intros [= <-]; auto].
  assert (∀ x l, length l < S (length rest) →
    match flag_Set v x f with Some f1 => flags_Parse l f1 | None => Exited 2 end = Exited code → code = 0%Z ∨ code = 2%Z) as Hstep.
  { intros x l Hl. destruct (flag_Set v x f) as [f1|]; [|intros [= <-]; by right]. apply (IH l). cbn. lia. }
  destruct value as [x|]; [apply Hstep; lia|]. destruct (IsBoolFlag v); [apply Hstep; lia|].
  destruct rest as [|x rest']; [intros [= <-]; by right|]. apply Hstep. cbn. lia.
Qed.

(** A flag that is followed by its value. *)
Lemma flags_Parse_step name v x rest f f' :
  token_of (minus :: name) = Flag name None → lookup_flag name flags = Some v → IsBoolFlag v = false →
  flag_Set v x f = Some f' → flags_Parse ((minus :: name) :: x :: rest) f = flags_Parse rest f'.
Proof. intros Ht Hl Hb Hs. cbn [flags_Parse]. by rewrite Ht, Hl, Hb, Hs. Qed.
End FlagSet.

Section Parse.
Context {F : FlagLib}.

(** [Parse], with the arguments after the program's name. *)
Definition Parse (args : list gostring) : may_exit (Config * Z) :=
  match flags_Parse formal args default_flags with
  | Exited code => Exited code
  | Go f =>
      if fl_verInfo f then Exited 0
      else Go (set_client (sanitizeName unicode_IsPrint (ClientName (fl_config f))) (fl_config f), fl_LogLevel f)
  end.

(** A command line that sets every field. *)
Definition command_line (c : Config) : list gostring :=
  [lit "-client"; ClientName c; lit "-p"; strconv_Itoa (Port c); lit "-t"; Duration_String (Timeout c);
   lit "-rate-limit"; strconv_Itoa (RateLimit c); lit "-rate-window"; Duration_String (RateWindow c);
   lit "-max-msg-size"; strconv_Itoa (CfgMaxMessageSize c); lit "-ping-window"; Duration_String (PingWindow c);
   lit "-addr"; PeerAddr c; lit "-cert"; CertFile c; lit "-key"; KeyFileTLS c;
   (if WriteMode c then lit "-w" else lit "-w=false")].

(** The numeric fields are [int64] values. *)
Definition config_int64 (c : Config) : Prop :=
  int64 (Port c) ∧ int64 (Timeout c) ∧ int64 (RateLimit c) ∧ int64 (RateWindow c) ∧
  int64 (CfgMaxMessageSize c) ∧ int64 (PingWindow c).

Context {FL : FlagLaws F}.

Lemma flag_Set_int64 name v s f f' :
  lookup_flag name formal = Some v → flag_Set v s f = Some f' → config_int64 (fl_config f) → config_int64 (fl_config f').
Proof.
  intros Hl Hs Hi. unfold lookup_flag in Hl. apply fmap_Some in Hl as ([i [n w]] & Hf & Hv). cbn in Hv. subst w.
  apply list_find_Some in Hf as (Hf & _ & _). apply list_elem_of_lookup_2 in Hf.
  unfold formal in Hf. unfold config_int64 in *.
  repeat (apply elem_of_cons in Hf as [[= -> ->]|Hf]); [..|by apply elem_of_nil in Hf];
    cbn in Hs; try (apply fmap_Some in Hs as (z & Hz & ->)); simplify_eq; cbn;
    first [apply ParseInt_range in Hz|apply ParseDuration_range in Hz|idtac]; tauto.
Qed.

Lemma flags_Parse_command c :
  config_int64 c → flags_Parse formal (command_line c) default_flags = Go (MkFlags c 0 false).
Proof.
  intros (H1 & H2 & H3 & H4 & H5 & H6). unfold command_line.
  erewrite (flags_Parse_step formal (lit "client")); [|reflexivity..].
  erewrite (flags_Parse_step formal (lit "p")); [|reflexivity..|cbn; by rewrite ParseInt_Itoa].
  erewrite (flags_Parse_step formal (lit "t")); [|reflexivity..|cbn; by rewrite ParseDuration_String].
  erewrite (flags_Parse_step formal (lit "rate-limit")); [|reflexivity..|cbn; by rewrite ParseInt_Itoa].
  erewrite (flags_Parse_step formal (lit "rate-window")); [|reflexivity..|cbn; by rewrite ParseDuration_String].
  erewrite (flags_Parse_step formal (lit "max-msg-size")); [|reflexivity..|cbn; by rewrite ParseInt_Itoa].
  erewrite (flags_Parse_step formal (lit "ping-window")); [|reflexivity..|cbn; by rewrite ParseDuration_String].
  erewrite (flags_Parse_step formal (lit "addr")); [|reflexivity..].
  erewrite (flags_Parse_step formal (lit "cert")); [|reflexivity..].
  erewrite (flags_Parse_step formal (lit "key")); [|reflexivity..].
  destruct c as [? ? ? ? ? ? ? ? ? ? w]. by destruct w.
Qed.

Lemma Parse_command c :
  config_int64 c →
  Parse (command_line c) = Go (set_client (sanitizeName unicode_IsPrint (ClientName c)) c, 0%Z).
Proof. intros Hc. unfold Parse. by rewrite flags_Parse_command. Qed.

Lemma Parse_int64 args c level :
  Parse args = Go (c, level) → config_int64 c ∧ ∃ s, ClientName c = sanitizeName unicode_IsPrint s.
Proof.
  unfold Parse. destruct (flags_Parse formal args default_flags) as [f|] eqn:Ef; [|done].
  destruct (fl_verInfo f); [done|]. intros [= <- <-]. split; [|by eexists].
  eapply (flags_Parse_preserves formal (λ f, config_int64 (fl_config f)) args default_flags f); [exact flag_Set_int64|exact Ef|].
  unfold config_int64, int64. cbv. repeat split; discriminate.
Qed.

Lemma Parse_exits args code : Parse args = Exited code → code = 0%Z ∨ code = 2%Z.
Proof.
  unfold Parse. destruct (flags_Parse formal args default_flags) as [f|code'] eqn:Ef.
  - destruct (fl_verInfo f); [|done]. intros [= <-]. by left.
  - intros [= <-]. by eapply flags_Parse_exits.
Qed.

(** C8: The command line. One that spells out a configuration of [int64] values
    parses as that configuration with its name cleaned, whatever its strings
    are; whatever the arguments, the numbers that come out are [int64] values
    and the name is clean; and a command line that is refused exits with
    status 0 (help, version) or 2, never 1. *)
Theorem command_line_parses :
  (∀ c, config_int64 c →
    Parse (command_line c) = Go (set_client (sanitizeName unicode_IsPrint (ClientName c)) c, 0%Z)) ∧
  (∀ args c level, Parse args = Go (c, level) →
    config_int64 c ∧ ∃ s, ClientName c = sanitizeName unicode_IsPrint s) ∧
  (∀ args code, Parse args = Exited code → code = 0%Z ∨ code = 2%Z).
Proof. split; [apply Parse_command|split; [apply Parse_int64|apply Parse_exits]]. Qed.
End Parse.

(** ** An instance *)

(** Numbers as their eight bytes in two's complement. *)
Definition toy_Itoa (z : Z) : gostring := be_put 8 (wrapu64 z).
Definition toy_ParseInt (s : gostring) : option Z := if (len s =? 8)%Z then Some (wrap64 (be_get s)) else None.
Definition toy_flags : FlagLib := {|
  strconv_ParseInt := toy_ParseInt; strconv_Itoa := toy_Itoa;
  time_ParseDuration := toy_ParseInt; Duration_String := toy_Itoa;
  slog_UnmarshalText s := if bool_decide (s = lit "info") then Some 0%Z else None;
  unicode_IsPrint r := (32 <=? r)%Z
|}.

Lemma toy_flag_laws : FlagLaws toy_flags.
Proof.
  assert (∀ s z, toy_ParseInt s = Some z → int64 z) as Hr.
  { intros s z. unfold toy_ParseInt. destruct (len s =? 8)%Z; [|done]. intros [= <-].
    unfold int64, wrap64, MinInt64, MaxInt64. pose proof (Z.mod_pos_bound (be_get s + 2 ^ 63) (2 ^ 64) ltac:(lia)). lia. }
  assert (∀ z, int64 z → toy_ParseInt (toy_Itoa z) = Some z) as Hi.
  { intros z Hz. unfold toy_ParseInt, toy_Itoa. rewrite len_be_put. change (Z.of_nat 8 =? 8)%Z with true. cbv iota.
    f_equal. unfold wrapu64. pose proof (Z.mod_pos_bound z (2 ^ 64) ltac:(lia)).
    rewrite be_get_put_small by (change (256 ^ Z.of_nat 8)%Z with (2 ^ 64)%Z; lia).
    unfold int64, wrap64, MinInt64, MaxInt64 in *. rewrite Z.add_mod_idemp_l by lia. rewrite Z.mod_small by lia. lia. }
  split; [exact Hr|exact Hi|exact Hr|exact Hi].
Qed.

Lemma command_line_parses_witness :
  Parse (F:=toy_flags) (command_line (F:=toy_flags) (set_port 9000 (fl_config default_flags)))
    = Go (set_port 9000 (fl_config default_flags), 0%Z).
Proof.
  rewrite (proj1 (command_line_parses (F:=toy_flags) (FL:=toy_flag_laws)));
    [vm_compute; reflexivity|unfold config_int64, int64; vm_compute; repeat split; discriminate].
Defined.

(** Arguments after the first that is no flag are not looked at. *)
Example Parse_stops : Parse (F:=toy_flags) [lit "start"; lit "-p"; lit "x"] = Go (fl_config default_flags, 0%Z).
Proof. vm_compute. reflexivity. Qed.
