(* ===== verification/Net.v ===== *)
(** * Network addresses in Go (package net)

    What the program uses of package [net] to tell who is calling: splitting
    and joining "host:port", parsing and printing IP addresses, and the test
    for a loopback address. An IP address is its bytes: none ([nil]), 4 or 16. *)

From S2P Require Import Prelude.

Local Open Scope Z_scope.

(** The characters addresses are made of. *)
Definition dot : byte := byte_of_Z 46.
Definition colon : byte := byte_of_Z 58.
Definition percent : byte := byte_of_Z 37.
Definition lbracket : byte := byte_of_Z 91.
Definition rbracket : byte := byte_of_Z 93.

Definition digit (c : byte) : option Z :=
  let z := Z_of_byte c in if (48 <=? z) && (z <=? 57) then Some (z - 48) else None.
Definition hexdigit (c : byte) : option Z :=
  let z := Z_of_byte c in
  if (48 <=? z) && (z <=? 57) then Some (z - 48)
  else if (97 <=? z) && (z <=? 102) then Some (z - 87)
  else if (65 <=? z) && (z <=? 70) then Some (z - 55)
  else None.

(** The text before and after the first [b]. *)
Fixpoint cut (b : byte) (s : gostring) : option (gostring * gostring) :=
  match s with
  | [] => None
  | c :: s' => if bool_decide (c = b) then Some ([], s')
               else '(x, y) ← cut b s'; Some (c :: x, y)
  end.
(** The text before and after the last [b]. *)
Fixpoint cut_last (b : byte) (s : gostring) : option (gostring * gostring) :=
  match s with
  | [] => None
  | c :: s' =>
      match cut_last b s' with
      | Some (x, y) => Some (c :: x, y)
      | None => if bool_decide (c = b) then Some ([], s') else None
      end
  end.

(** ** Parsing *)

(** netip's [parseIPv4Fields]: [prev] is the character before, [fields] the
    octets that are complete. *)
Fixpoint parseIPv4Fields (s : gostring) (prev : option byte) (val : Z) (digLen : nat) (fields : bytes) : option bytes :=
  match s with
  | [] => if (length fields <? 3)%nat then None else Some (fields ++ [byte_of_Z val])
  | c :: s' =>
      match digit c with
      | Some d =>
          if (digLen =? 1)%nat && (val =? 0) then None else
          let val := val * 10 + d in
          if 255 <? val then None else parseIPv4Fields s' (Some c) val (S digLen) fields
      | None =>
          if negb (bool_decide (c = dot)) then None else
          if bool_decide (prev = None) || bool_decide (s' = []) || bool_decide (prev = Some dot) then None else
          if (length fields =? 3)%nat then None else
          parseIPv4Fields s' (Some c) 0 0 (fields ++ [byte_of_Z val])
      end
  end.

(** The hexadecimal digits at the start of a field: how many, their value, and
    what follows. *)
Fixpoint hex_field (s : gostring) (off : nat) (acc : Z) : option (nat * Z * gostring) :=
  match s with
  | [] => Some (off, acc, [])
  | c :: s' =>
      match hexdigit c with
      | None => Some (off, acc, s)
      | Some d =>
          let acc := Z.shiftl acc 4 + d in
          if (3 <? off)%nat then None else
          if MaxUint16 <? acc then None else hex_field s' (S off) acc
      end
  end.

(** The loop of [parseIPv6]: the bytes parsed, where the ellipsis stands, and
    the text left. A turn adds two bytes, so eight are enough. *)
Fixpoint ipv6_fields (fuel : nat) (s : gostring) (ip : bytes) (ellipsis : option nat) : option (bytes * option nat * gostring) :=
  if (16 <=? length ip)%nat then Some (ip, ellipsis, s) else
  match fuel with
  | O => None
  | S fuel' =>
      '(off, acc, rest) ← hex_field s 0 0;
      if (off =? 0)%nat then None else
      if bool_decide (head rest = Some dot) then
        if bool_decide (ellipsis = None) && negb (length ip =? 12)%nat then None else
        if (16 <? length ip + 4)%nat then None else
        f ← parseIPv4Fields s None 0 0 [];
        Some (ip ++ f, ellipsis, [])
      else
        let ip := ip ++ [byte_of_Z (Z.shiftr acc 8); byte_of_Z acc] in
        match rest with
        | [] => Some (ip, ellipsis, [])
        | c :: rest =>
            if negb (bool_decide (c = colon)) then None else
            match rest with
            | [] => None
            | c :: rest' =>
                if bool_decide (c = colon) then
                  if bool_decide (ellipsis = None) then
                    match rest' with
                    | [] => Some (ip, Some (length ip), [])
                    | _ => ipv6_fields fuel' rest' ip (Some (length ip))
                    end
                  else None
                else ipv6_fields fuel' rest ip ellipsis
            end
        end
  end.

(** After the loop: everything used, the ellipsis expanded. *)
Definition ipv6_finish (r : bytes * option nat * gostring) : option bytes :=
  let '(ip, ellipsis, s) := r in
  if negb (bool_decide (s = [])) then None else
  match ellipsis with
  | None => if (length ip <? 16)%nat then None else Some ip
  | Some e =>
      if (length ip <? 16)%nat then Some (take e ip ++ zeros (16 - length ip) ++ drop e ip) else None
  end.

(** [parseIPv6], of an address without a zone *)
Definition parseIPv6 (s : gostring) : option bytes :=
  match s with
  | a :: b :: s' =>
      if bool_decide (a = colon) && bool_decide (b = colon) then
        if bool_decide (s' = []) then Some (zeros 16)
        else ipv6_fields 8 s' [] (Some 0%nat) ≫= ipv6_finish
      else ipv6_fields 8 s [] None ≫= ipv6_finish
  | _ => ipv6_fields 8 s [] None ≫= ipv6_finish
  end.

(** The prefix of an IPv4 address as 16 bytes. *)
Definition v4InV6Prefix : bytes := zeros 10 ++ [byte_of_Z 0xff; byte_of_Z 0xff].
Definition IPv6loopback : bytes := zeros 15 ++ [byte_of_Z 1].

(** [netip.ParseAddr], by the first of the characters that decide. An address
    with a zone is none to [net.ParseIP], and an empty zone is an error. *)
Fixpoint ParseAddr (s t : gostring) : option bytes :=
  match t with
  | [] => None
  | c :: t' =>
      if bool_decide (c = dot) then f ← parseIPv4Fields s None 0 0 []; Some (v4InV6Prefix ++ f)
      else if bool_decide (c = colon) then
        if bool_decide (cut percent s = None) then parseIPv6 s else None
      else if bool_decide (c = percent) then None
      else ParseAddr s t'
  end.

(** [net.ParseIP]: the 16 bytes of the address, or [nil]. *)
Definition net_ParseIP (s : gostring) : bytes := default [] (ParseAddr s s).

(** [ip.To4()] *)
Definition To4 (ip : bytes) : option bytes :=
  if (len ip =? 4)%Z then Some ip
  else if (len ip =? 16)%Z && bool_decide (take 12 ip = v4InV6Prefix) then Some (drop 12 ip)
  else None.

Definition net_IsLoopback (ip : bytes) : bool :=
  match To4 ip with
  | Some ip4 => bool_decide (head ip4 = Some (byte_of_Z 127))
  | None => bool_decide (ip = IPv6loopback)
  end.

(** ** Printing *)

(** [strconv.Itoa] of a byte *)
Definition itoa8 (b : byte) : gostring :=
  let z := Z_of_byte b in
  let d n := byte_of_Z (48 + n) in
  if z <? 10 then [d z] else
  if z <? 100 then [d (z / 10); d (z mod 10)] else
  [d (z / 100); d ((z / 10) mod 10); d (z mod 10)].

Definition dotted (a b c d : byte) : gostring :=
  itoa8 a ++ [dot] ++ itoa8 b ++ [dot] ++ itoa8 c ++ [dot] ++ itoa8 d.

Definition hex_char (z : Z) : byte := byte_of_Z (if z <? 10 then 48 + z else 87 + z).
(** netip's [appendHex] *)
Definition appendHex (x : Z) : gostring :=
  (if 0x1000 <=? x then [hex_char (Z.shiftr x 12)] else []) ++
  (if 0x100 <=? x then [hex_char (Z.land (Z.shiftr x 8) 0xf)] else []) ++
  (if 0x10 <=? x then [hex_char (Z.land (Z.shiftr x 4) 0xf)] else []) ++
  [hex_char (Z.land x 0xf)].

(** The eight 16-bit fields of an address. *)
Fixpoint fields16 (ip : bytes) : list Z :=
  match ip with a :: b :: ip' => be_get [a; b] :: fields16 ip' | _ => [] end.

(** How many fields from here on are zero. *)
Fixpoint zero_run (l : list Z) : nat :=
  match l with x :: l' => if x =? 0 then S (zero_run l') else O | [] => O end.

(** The first longest run of at least two zero fields: its start and its end. *)
Fixpoint longest_run (i : nat) (l : list Z) (best : nat * nat) : nat * nat :=
  match l with
  | [] => best
  | _ :: l' =>
      let n := zero_run l in
      longest_run (S i) l' (if (2 <=? n)%nat && (best.2 - best.1 <? n)%nat then (i, i + n)%nat else best)
  end.

(** netip's [appendTo6] from field [i] on *)
Fixpoint appendTo6 (run : nat * nat) (i : nat) (l : list Z) : gostring :=
  match l with
  | [] => []
  | x :: l' =>
      if (run.1 <=? i)%nat && (i <? run.2)%nat then
        (if (i =? run.1)%nat then [colon; colon] else []) ++ appendTo6 run (S i) l'
      else
        (if (0 <? i)%nat && negb (i =? run.2)%nat then [colon] else []) ++ appendHex x ++ appendTo6 run (S i) l'
  end.

Fixpoint hexString (b : bytes) : gostring :=
  match b with
  | [] => []
  | c :: b' => hex_char (Z.shiftr (Z_of_byte c) 4) :: hex_char (Z.land (Z_of_byte c) 0xf) :: hexString b'
  end.

(** [ip.String()] *)
Definition net_IP_String (ip : bytes) : gostring :=
  if bool_decide (ip = []) then lit "<nil>" else
  match To4 ip with
  | Some [a; b; c; d] => dotted a b c d
  | _ =>
      if (len ip =? 16)%Z then let l := fields16 ip in appendTo6 (longest_run 0 l (8, 8)%nat) 0 l
      else lit "?" ++ hexString ip
  end.

(** ** Host and port *)

Definition has (b : byte) (s : gostring) : bool := bool_decide (b ∈ s).

Definition net_SplitHostPort (hostport : gostring) : outcome (gostring * gostring) :=
  match cut_last colon hostport with
  | None => Err (EExternal "missing port in address")
  | Some (before, port) =>
      if bool_decide (head hostport = Some lbracket) then
        match cut rbracket hostport with
        | None => Err (EExternal "missing ']' in address")
        | Some (h, rest) =>
            if bool_decide (rest = []) then Err (EExternal "missing port in address") else
            if (length h + 1 =? length before)%nat then
              if has lbracket (drop 1 hostport) then Err (EExternal "unexpected '[' in address") else
              if has rbracket rest then Err (EExternal "unexpected ']' in address") else
              Ret (drop 1 h, port)
            else if bool_decide (head rest = Some colon)
            then Err (EExternal "too many colons in address") else Err (EExternal "missing port in address")
        end
      else
        if has colon before then Err (EExternal "too many colons in address") else
        if has lbracket hostport then Err (EExternal "unexpected '[' in address") else
        if has rbracket hostport then Err (EExternal "unexpected ']' in address") else
        Ret (before, port)
  end.

Definition net_JoinHostPort (host port : gostring) : gostring :=
  if has colon host then [lbracket] ++ host ++ [rbracket; colon] ++ port else host ++ [colon] ++ port.

Example ip_examples :
  net_ParseIP (lit "127.0.0.1") = v4InV6Prefix ++ (byte_of_Z <$> [127; 0; 0; 1]) ∧
  net_ParseIP (lit "127.0.0.01") = [] ∧ net_ParseIP (lit "256.0.0.1") = [] ∧ net_ParseIP (lit "1.2.3") = [] ∧
  net_ParseIP (lit "::1") = IPv6loopback ∧ net_ParseIP (lit "::1%eth0") = [] ∧ net_ParseIP (lit "1::2::3") = [] ∧
  net_ParseIP (lit "::ffff:10.0.0.1") = net_ParseIP (lit "10.0.0.1") ∧
  net_IP_String (net_ParseIP (lit "fe80:0:0:0:1:0:0:ABcd")) = lit "fe80::1:0:0:abcd" ∧
  net_IP_String (net_ParseIP (lit "1:2:3:4:5:6:0:0")) = lit "1:2:3:4:5:6::" ∧
  net_IP_String (zeros 16) = lit "::" ∧ net_IP_String [] = lit "<nil>" ∧
  net_SplitHostPort (lit "[::1]:8080") = Ret (lit "::1", lit "8080") ∧
  is_ret (net_SplitHostPort (lit "::1:8080")) = false ∧ is_ret (net_SplitHostPort (lit "[::1]")) = false.
Proof. vm_compute. repeat split. Qed.

(** ** Host and port: facts *)

Lemma cut_last_app b s t : b ∉ t → cut_last b (s ++ b :: t) = Some (s, t).
Proof.
  intros Ht. induction s as [|c s IH]; cbn.
  - assert (cut_last b t = None) as ->.
    { induction t as [|c t IHt]; [done|]. cbn. apply not_elem_of_cons in Ht as [Hc Ht]. rewrite IHt by done.
      by rewrite bool_decide_false by done. }
    by rewrite bool_decide_true.
  - by rewrite IH.
Qed.

Lemma cut_app b s t : b ∉ s → cut b (s ++ b :: t) = Some (s, t).
Proof.
  intros Hs. induction s as [|c s IH]; cbn; [by rewrite bool_decide_true|].
  apply not_elem_of_cons in Hs as [Hc Hs]. rewrite bool_decide_false by done. by rewrite IH.
Qed.

Lemma has_false b s : b ∉ s → has b s = false.
Proof. intros Hb. by apply bool_decide_false. Qed.

(** Text without the characters that separate. *)
Definition unbracketed (s : gostring) : Prop := (lbracket ∉ s) ∧ (rbracket ∉ s).

Lemma unbracketed_app s t : unbracketed s → unbracketed t → unbracketed (s ++ t).
Proof. intros [H1 H2] [H3 H4]. split; by rewrite elem_of_app; intros [?|?]. Qed.

(** What [net_JoinHostPort] joins, [net_SplitHostPort] splits. *)
Lemma SplitHostPort_Join host port :
  unbracketed host → unbracketed port → colon ∉ port →
  net_SplitHostPort (net_JoinHostPort host port) = Ret (host, port).
Proof.
  intros [Hl Hr] [Hpl Hpr] Hpc. unfold net_JoinHostPort. destruct (has colon host) eqn:Eh.
  - unfold net_SplitHostPort.
    replace ([lbracket] ++ host ++ [rbracket; colon] ++ port) with ((lbracket :: host ++ [rbracket]) ++ colon :: port)
      by (cbn; by rewrite <-app_assoc).
    rewrite cut_last_app by done. rewrite bool_decide_true by done.
    replace ((lbracket :: host ++ [rbracket]) ++ colon :: port) with ((lbracket :: host) ++ rbracket :: colon :: port)
      by (cbn; by rewrite <-app_assoc).
    rewrite cut_app by (rewrite not_elem_of_cons; split; [done|exact Hr]).
    rewrite bool_decide_false by done. rewrite (proj2 (Nat.eqb_eq _ _)) by (cbn; rewrite length_app; cbn; lia).
    change (drop 1 ((lbracket :: host) ++ rbracket :: colon :: port)) with (host ++ rbracket :: colon :: port).
    rewrite has_false by (rewrite elem_of_app, !elem_of_cons; intros [?|[?|[?|?]]]; done).
    by rewrite has_false by (rewrite elem_of_cons; intros [?|?]; done).
  - unfold has in Eh. apply bool_decide_eq_false in Eh. unfold net_SplitHostPort. cbn [app].
    rewrite cut_last_app by done. rewrite bool_decide_false.
    2:{ destruct host as [|c host]; [done|]. cbn. intros [= ->]. apply Hl. by left. }
    rewrite has_false by done.
    rewrite has_false by (rewrite elem_of_app, elem_of_cons; intros [?|[?|?]]; done).
    by rewrite has_false by (rewrite elem_of_app, elem_of_cons; intros [?|[?|?]]; done).
Qed.

(** ** Dotted addresses *)

Lemma digit_char n : 0 <= n < 10 → digit (byte_of_Z (48 + n)) = Some n.
Proof.
  intros Hn. unfold digit. rewrite Z_of_byte_of_Z, Z.mod_small by lia.
  rewrite (proj2 (Z.leb_le 48 (48 + n))), (proj2 (Z.leb_le (48 + n) 57)) by lia. cbn [andb]. f_equal. lia.
Qed.

Lemma digit_not_separator c n : digit c = Some n → c ≠ dot ∧ c ≠ colon ∧ c ≠ percent.
Proof. intros Hc. split; [|split]; by intros ->. Qed.

Lemma parseIPv4Fields_digit n s prev val k fields :
  0 <= n < 10 → (k = 1%nat → val ≠ 0) → val * 10 + n <= 255 →
  parseIPv4Fields (byte_of_Z (48 + n) :: s) prev val k fields =
    parseIPv4Fields s (Some (byte_of_Z (48 + n))) (val * 10 + n) (S k) fields.
Proof.
  intros Hn Hk Hv. cbn [parseIPv4Fields]. rewrite digit_char by done.
  replace ((k =? 1)%nat && (val =? 0)) with false.
  2:{ destruct (Nat.eqb_spec k 1); [|done]. cbn. symmetry. apply Z.eqb_neq. auto. }
  by rewrite (proj2 (Z.ltb_ge 255 (val * 10 + n))) by lia.
Qed.

(** The digits of an octet. *)
Lemma itoa8_digits b :
  (∃ n, itoa8 b = [byte_of_Z (48 + n)] ∧ 0 <= n < 10 ∧ Z_of_byte b = n) ∨
  (∃ m n, itoa8 b = [byte_of_Z (48 + m); byte_of_Z (48 + n)] ∧ 1 <= m < 10 ∧ 0 <= n < 10 ∧ Z_of_byte b = m * 10 + n) ∨
  (∃ l m n, itoa8 b = [byte_of_Z (48 + l); byte_of_Z (48 + m); byte_of_Z (48 + n)] ∧
    1 <= l < 10 ∧ 0 <= m < 10 ∧ 0 <= n < 10 ∧ Z_of_byte b = (l * 10 + m) * 10 + n).
Proof.
  unfold itoa8. pose proof (Z_of_byte_range b) as Hb. set (z := Z_of_byte b) in *. clearbody z.
  destruct (Z.ltb_spec z 10); [left; exists z; split; [done|lia]|]. destruct (Z.ltb_spec z 100); [right; left|right; right].
  - exists (z / 10), (z mod 10). split; [done|]. lia_div.
  - exists (z / 100), ((z / 10) mod 10), (z mod 10). split; [done|]. lia_div.
Qed.

Lemma parseIPv4Fields_itoa8 b s prev fields :
  ∃ c k, c ≠ dot ∧ parseIPv4Fields (itoa8 b ++ s) prev 0 0 fields = parseIPv4Fields s (Some c) (Z_of_byte b) k fields.
Proof.
  pose proof (Z_of_byte_range b).
  destruct (itoa8_digits b) as [(n & -> & Hn & Hb)|[(m & n & -> & Hm & Hn & Hb)|(l & m & n & -> & Hl & Hm & Hn & Hb)]];
    cbn [app]; rewrite !parseIPv4Fields_digit by lia; rewrite Z.mul_0_l, Z.add_0_l, <-Hb;
    do 2 eexists; (split; [|done]); eapply digit_not_separator, digit_char; lia.
Qed.

Lemma parseIPv4Fields_octet b s prev fields :
  s ≠ [] → (length fields < 3)%nat →
  parseIPv4Fields (itoa8 b ++ dot :: s) prev 0 0 fields = parseIPv4Fields s (Some dot) 0 0 (fields ++ [b]).
Proof.
  intros Hs Hf. destruct (parseIPv4Fields_itoa8 b (dot :: s) prev fields) as (c & k & Hc & ->).
  cbn [parseIPv4Fields]. change (digit dot) with (@None Z). cbv iota. rewrite (bool_decide_true (dot = dot)) by done. cbn [negb].
  rewrite !bool_decide_false by (done || congruence). cbn [orb].
  rewrite (proj2 (Nat.eqb_neq (length fields) 3)) by lia. by rewrite byte_of_Z_of_byte.
Qed.

Lemma parseIPv4Fields_last b prev fields :
  length fields = 3%nat → parseIPv4Fields (itoa8 b) prev 0 0 fields = Some (fields ++ [b]).
Proof.
  intros Hf. destruct (parseIPv4Fields_itoa8 b [] prev fields) as (c & k & _ & H). rewrite app_nil_r in H. rewrite H.
  cbn [parseIPv4Fields]. rewrite (proj2 (Nat.ltb_ge (length fields) 3)) by lia. by rewrite byte_of_Z_of_byte.
Qed.

Definition digits (s : gostring) : Prop := Forall (λ c, is_Some (digit c)) s.

Lemma digits_itoa8 b : digits (itoa8 b).
Proof.
  destruct (itoa8_digits b) as [(n & -> & Hn & Hb)|[(m & n & -> & Hm & Hn & Hb)|(l & m & n & -> & Hl & Hm & Hn & Hb)]];
    repeat constructor; rewrite digit_char by lia; by eexists.
Qed.

(** The first separator decides how an address is parsed. *)
Lemma ParseAddr_digits s d t : digits d → ParseAddr s (d ++ t) = ParseAddr s t.
Proof.
  induction 1 as [|c d [n Hc] Hd IH]; [done|]. cbn [app ParseAddr].
  destruct (digit_not_separator c n Hc) as (H1 & H2 & H3). by rewrite !bool_decide_false by done.
Qed.

Lemma itoa8_nonempty b s : itoa8 b ++ s ≠ [].
Proof. unfold itoa8. by destruct (Z_of_byte b <? 10), (Z_of_byte b <? 100). Qed.

Lemma ParseIP_dotted a b c d : net_ParseIP (dotted a b c d) = v4InV6Prefix ++ [a; b; c; d].
Proof.
  unfold net_ParseIP, dotted. cbn [app]. rewrite ParseAddr_digits by apply digits_itoa8.
  cbn [ParseAddr]. rewrite bool_decide_true by done.
  rewrite !parseIPv4Fields_octet by (first [apply itoa8_nonempty | cbn; lia | rewrite <-(app_nil_r (itoa8 d)); apply itoa8_nonempty]).
  by rewrite parseIPv4Fields_last.
Qed.

Lemma To4_v4 a b c d : To4 (v4InV6Prefix ++ [a; b; c; d]) = Some [a; b; c; d].
Proof. done. Qed.

Lemma IP_String_v4 a b c d : net_IP_String (v4InV6Prefix ++ [a; b; c; d]) = dotted a b c d.
Proof. unfold net_IP_String. by rewrite To4_v4. Qed.

(** ** Parsed addresses have 16 bytes *)

Lemma length_IPv4Fields s prev val n fields f :
  (length fields <= 3)%nat → parseIPv4Fields s prev val n fields = Some f → length f = 4%nat.
Proof.
  revert prev val n fields. induction s as [|c s IH]; intros prev val n fields Hf; cbn.
  - destruct (Nat.leb_spec (length fields) 2); [done|]. intros [= <-]. rewrite length_app. cbn. lia.
  - destruct (digit c); [destruct (_ && _); [done|]; destruct (255 <? _); [done|by apply IH]|].
    destruct (negb _); [done|]. destruct (_ || _); [done|].
    destruct (Nat.eqb_spec (length fields) 3); [done|]. apply IH. rewrite length_app. cbn. lia.
Qed.

Lemma length_ipv6_fields fuel s ip e ip' e' s' :
  Nat.Even (length ip) → (length ip <= 16)%nat → ipv6_fields fuel s ip e = Some (ip', e', s') → (length ip' <= 16)%nat.
Proof.
  revert s ip e. induction fuel as [|fuel IH]; intros s ip e He Hl; cbn [ipv6_fields].
  { destruct (Nat.leb_spec 16 (length ip)); [|done]. by intros [= <- _ _]. }
  destruct (Nat.leb_spec 16 (length ip)); [by intros [= <- _ _]|].
  assert (length ip <= 14)%nat as Hl' by (destruct He; lia).
  destruct (hex_field s 0 0) as [[[off acc] rest]|]; cbn [mbind option_bind]; [|done]. destruct (off =? 0)%nat; [done|].
  case_bool_decide.
  { destruct (_ && _); [done|]. destruct (Nat.ltb_spec 16 (length ip + 4)); [done|].
    destruct (parseIPv4Fields s None 0 0 []) as [f|] eqn:Ef; cbn; [|done]. intros [= <- _ _].
    apply length_IPv4Fields in Ef; [|cbn; lia]. rewrite length_app. lia. }
  set (ip2 := ip ++ _). assert (length ip2 = 2 + length ip)%nat as H2 by (unfold ip2; rewrite length_app; cbn; lia).
  assert (Nat.Even (length ip2)) as He2 by (rewrite H2; by apply Nat.Even_succ_succ).
  assert (length ip2 <= 16)%nat as Hl2 by lia. clearbody ip2.
  destruct rest as [|c1 [|c2 [|c3 rest]]]; repeat case_match; intros Hr; simplify_eq; try done; try lia; by eapply IH.
Qed.

Lemma length_ParseAddr s t ip : ParseAddr s t = Some ip → length ip = 16%nat.
Proof.
  induction t as [|c t IH]; cbn; [done|]. case_bool_decide.
  { destruct (parseIPv4Fields s None 0 0 []) as [f|] eqn:Ef; cbn; [|done]. intros [= <-].
    apply length_IPv4Fields in Ef; [|cbn; lia]. cbn. lia. }
  case_bool_decide; [|by case_bool_decide]. case_bool_decide; [|done].
  assert (∀ s e, ipv6_fields 8 s [] e ≫= ipv6_finish = Some ip → length ip = 16%nat) as H6.
  { clear. intros s e. destruct (ipv6_fields 8 s [] e) as [[[ip' e'] s']|] eqn:Ef; cbn; [|done].
    apply length_ipv6_fields in Ef; [|by exists 0%nat|cbn; lia]. case_bool_decide; [|done]. cbn.
    destruct e' as [e'|], (Nat.leb_spec (length ip') 15); try done; intros [= <-]; [|lia].
    unfold zeros. rewrite !length_app, length_replicate, length_take, length_drop. lia. }
  unfold parseIPv6. destruct s as [|a [|b s]]; [by apply H6..|]. destruct (_ && _); [|by apply H6].
  case_bool_decide; [by intros [= <-]|apply H6].
Qed.

Lemma ParseIP_cases s : net_ParseIP s = [] ∨ length (net_ParseIP s) = 16%nat.
Proof.
  unfold net_ParseIP. destruct (ParseAddr s s) eqn:E; [|by left]. right. by eapply length_ParseAddr.
Qed.

(** ** Loopback addresses *)

Definition loopback (ip : bytes) : Prop :=
  ip = IPv6loopback ∨ ∃ b c d, ip = v4InV6Prefix ++ [byte_of_Z 127; b; c; d].

Lemma IsLoopback_spec ip : length ip = 16%nat → net_IsLoopback ip = true ↔ loopback ip.
Proof.
  intros Hl. unfold net_IsLoopback, To4, len. rewrite Hl.
  change (Z.of_nat 16 =? 4) with false. change (Z.of_nat 16 =? 16) with true. cbn [andb].
  case_bool_decide as Hp.
  - assert (ip = v4InV6Prefix ++ drop 12 ip) as E by (rewrite <-Hp; by rewrite take_drop).
    assert (length (drop 12 ip) = 4%nat) as Hd by (rewrite length_drop; lia).
    destruct (drop 12 ip) as [|a [|b [|c [|d [|]]]]]; try done. rewrite bool_decide_eq_true. split.
    + intros [= ->]. right. eauto.
    + intros [->|(b' & c' & d' & ->)]; [done|]. by simplify_eq.
  - rewrite bool_decide_eq_true. split; [by left|]. intros [?|(b & c & d & ->)]; [done|]. by destruct Hp.
Qed.

(** ** The address the server reports for a caller *)

Lemma digits_plain s : digits s → unbracketed s ∧ colon ∉ s.
Proof.
  intros Hs. assert (∀ b, digit b = None → b ∉ s) as H.
  { intros b Hb Hin. eapply Forall_forall in Hs; [|exact Hin]. rewrite Hb in Hs. by destruct Hs. }
  split; [split|]; by apply H.
Qed.

Lemma dotted_unbracketed a b c d : unbracketed (dotted a b c d).
Proof.
  assert (unbracketed [dot]) as Hd by (split; by apply (bool_decide_unpack (_ ∉ _))).
  unfold dotted. repeat apply unbracketed_app; first [exact Hd | apply digits_plain, digits_itoa8].
Qed.
