(* ===== verification/NetFacts.v ===== *)
(** * An IP address reads back from its text (package net)

    [net_ParseIP] inverts [net_IP_String] on 16-byte addresses, so that the
    address of a caller, which reaches the program as text, is the caller's. *)

From S2P Require Import Prelude Net.

Local Open Scope Z_scope.

(** ** Fields *)

Definition field_ok (x : Z) : Prop := 0 <= x < 65536.

Lemma hexdigit_char d : 0 <= d < 16 → hexdigit (hex_char d) = Some d.
Proof.
  intros Hd. assert (d ∈ seqZ 0 16) as H by (apply elem_of_seqZ; lia). revert H.
  change (seqZ 0 16) with [0;1;2;3;4;5;6;7;8;9;10;11;12;13;14;15].
  rewrite !elem_of_cons. intros H. repeat destruct H as [->|H]; [done..|]. by apply elem_of_nil in H.
Qed.

(** Where a field ends. *)
Definition field_end (s : gostring) : Prop := match s with [] => True | c :: _ => hexdigit c = None end.

Lemma hex_field_stop s off acc : field_end s → hex_field s off acc = Some (off, acc, s).
Proof. destruct s as [|c s]; cbn; [done|]. by intros ->. Qed.

Lemma hex_field_digit d s off acc :
  0 <= d < 16 → (off <= 3)%nat → 0 <= acc * 16 + d < 65536 →
  hex_field (hex_char d :: s) off acc = hex_field s (S off) (acc * 16 + d).
Proof.
  intros Hd Ho Ha. cbn [hex_field]. rewrite hexdigit_char by done.
  rewrite Z.shiftl_mul_pow2 by lia. change (2 ^ 4) with 16.
  rewrite (proj2 (Nat.ltb_ge 3 off)) by lia. unfold MaxUint16. by rewrite (proj2 (Z.ltb_ge 65535 (acc * 16 + d))) by lia.
Qed.

(** The digits of a field. *)
Lemma nibbles x :
  field_ok x →
  let d3 := Z.shiftr x 12 in let d2 := Z.land (Z.shiftr x 8) 0xf in
  let d1 := Z.land (Z.shiftr x 4) 0xf in let d0 := Z.land x 0xf in
  x = ((d3 * 16 + d2) * 16 + d1) * 16 + d0 ∧ 0 <= d3 < 16 ∧ 0 <= d2 < 16 ∧ 0 <= d1 < 16 ∧ 0 <= d0 < 16 ∧
  (x < 0x1000 → d3 = 0) ∧ (x < 0x100 → d2 = 0) ∧ (x < 0x10 → d1 = 0).
Proof.
  unfold field_ok. intros Hx. cbv zeta. change 0xf with (Z.ones 4).
  rewrite !Z.land_ones, !Z.shiftr_div_pow2 by lia.
  change (2 ^ 12) with 4096. change (2 ^ 8) with 256. change (2 ^ 4) with 16. lia_div.
Qed.

Lemma hex_field_appendHex x s :
  field_ok x → field_end s → ∃ n, hex_field (appendHex x ++ s) 0 0 = Some (S n, x, s).
Proof.
  intros Hx Hs. unfold appendHex. destruct (nibbles x Hx) as (Ex & H3 & H2 & H1 & H0 & Z3 & Z2 & Z1).
  set (d3 := Z.shiftr x 12) in *. set (d2 := Z.land (Z.shiftr x 8) 0xf) in *.
  set (d1 := Z.land (Z.shiftr x 4) 0xf) in *. set (d0 := Z.land x 0xf) in *. clearbody d0 d1 d2 d3.
  unfold field_ok in Hx.
  destruct (Z.leb_spec 0x1000 x), (Z.leb_spec 0x100 x), (Z.leb_spec 0x10 x); try lia; cbn [app];
    rewrite !hex_field_digit by lia; rewrite hex_field_stop by done; eexists; repeat f_equal; lia.
Qed.

Lemma appendHex_chars x c : field_ok x → c ∈ appendHex x → is_Some (hexdigit c).
Proof.
  intros Hx. unfold appendHex. destruct (nibbles x Hx) as (_ & H3 & H2 & H1 & H0 & _).
  rewrite !elem_of_app. intros Hc.
  assert (∃ d, 0 <= d < 16 ∧ c = hex_char d) as (d & Hd & ->).
  { destruct Hc as [Hc|[Hc|[Hc|Hc]]]; repeat case_match; rewrite ?elem_of_nil, ?list_elem_of_singleton in Hc; try done;
      (eexists; split; [|exact Hc]; assumption). }
  rewrite hexdigit_char by done. by eexists.
Qed.

Lemma appendHex_nonempty x : ∃ c t, appendHex x = c :: t.
Proof. unfold appendHex. destruct (_ <=? x), (_ <=? x), (_ <=? x); by eexists _, _. Qed.

(** ** The text of several fields *)

Fixpoint tail_text (l : list Z) : gostring :=
  match l with [] => [] | x :: l' => colon :: appendHex x ++ tail_text l' end.
Definition fields_text (l : list Z) : gostring :=
  match l with [] => [] | x :: l' => appendHex x ++ tail_text l' end.
Definition fields_bytes (l : list Z) : bytes := concat (be_put 2 <$> l).

Lemma length_fields_bytes l : length (fields_bytes l) = (2 * length l)%nat.
Proof.
  induction l as [|x l IH]; [done|]. unfold fields_bytes in *. rewrite fmap_cons. cbn [concat].
  rewrite length_app, length_be_put, IH. cbn [length]. lia.
Qed.

Lemma colon_no_digit : hexdigit colon = None.
Proof. done. Qed.

(** One turn of the loop. *)
Lemma ipv6_fields_turn fuel x s ip e :
  (length ip < 16)%nat → field_ok x → field_end s → head s ≠ Some dot →
  ipv6_fields (S fuel) (appendHex x ++ s) ip e =
    match s with
    | [] => Some (ip ++ be_put 2 x, e, [])
    | c :: s' =>
        if negb (bool_decide (c = colon)) then None else
        match s' with
        | [] => None
        | c' :: s'' =>
            if bool_decide (c' = colon) then
              if bool_decide (e = None) then
                match s'' with
                | [] => Some (ip ++ be_put 2 x, Some (length (ip ++ be_put 2 x)), [])
                | _ => ipv6_fields fuel s'' (ip ++ be_put 2 x) (Some (length (ip ++ be_put 2 x)))
                end
              else None
            else ipv6_fields fuel s' (ip ++ be_put 2 x) e
        end
    end.
Proof.
  intros Hl Hx Hs Hd. cbn [ipv6_fields]. rewrite (proj2 (Nat.leb_gt 16 (length ip))) by lia.
  destruct (hex_field_appendHex x s Hx Hs) as [n ->]. cbn [mbind option_bind]. cbn [Nat.eqb].
  rewrite bool_decide_false by done.
  replace [byte_of_Z (Z.shiftr x 8); byte_of_Z x] with (be_put 2 x); [done|]. cbn [be_put]. do 2 f_equal.
Qed.

(** The text of fields starts with a digit of the first. *)
Lemma fields_text_head x l s : field_ok x → ∃ c t, appendHex x ++ tail_text l ++ s = c :: t ∧ c ≠ colon.
Proof.
  intros Hx. destruct (appendHex_nonempty x) as (c & t & E).
  assert (is_Some (hexdigit c)) as [d Hd] by (apply (appendHex_chars x); [done|rewrite E; by left]).
  exists c, (t ++ tail_text l ++ s). rewrite E. split; [done|]. intros ->. by rewrite colon_no_digit in Hd.
Qed.

Lemma fields_bytes_cons x l : fields_bytes (x :: l) = be_put 2 x ++ fields_bytes l.
Proof. done. Qed.

Lemma fields_bytes_one x : fields_bytes [x] = be_put 2 x.
Proof. rewrite fields_bytes_cons. apply app_nil_r. Qed.

(** A field, a colon, and another field. *)
Lemma ipv6_fields_next fuel x y l s ip e :
  (length ip < 16)%nat → field_ok x → field_ok y →
  ipv6_fields (S fuel) (appendHex x ++ colon :: appendHex y ++ tail_text l ++ s) ip e =
    ipv6_fields fuel (appendHex y ++ tail_text l ++ s) (ip ++ be_put 2 x) e.
Proof.
  intros Hl Hx Hy. rewrite ipv6_fields_turn by done. rewrite bool_decide_true by done. cbn [negb].
  destruct (fields_text_head y l s Hy) as (c & t & -> & Hc). by rewrite bool_decide_false by done.
Qed.

(** Fields up to the end. *)
Lemma ipv6_fields_end l x ip e fuel :
  Forall field_ok (x :: l) → (length ip + 2 * length (x :: l) <= 16)%nat → (length (x :: l) <= fuel)%nat →
  ipv6_fields fuel (appendHex x ++ tail_text l) ip e = Some (ip ++ fields_bytes (x :: l), e, []).
Proof.
  revert x ip fuel. induction l as [|y l IH]; intros x ip fuel [Hx Hf]%Forall_cons_1 Hl Hn; cbn [length] in *;
    (destruct fuel as [|fuel]; [lia|]).
  - rewrite ipv6_fields_turn by (done || lia). cbn [tail_text].
    by rewrite fields_bytes_one.
  - cbn [tail_text]. pose proof (ipv6_fields_next fuel x y l [] ip e) as H. rewrite !app_nil_r in H.
    rewrite H by (lia || done || by apply Forall_cons_1 in Hf as [? _]).
    rewrite IH; [|done|rewrite length_app, length_be_put; cbn [length]; lia|lia].
    by rewrite (fields_bytes_cons x), app_assoc.
Qed.

(** Fields up to the ellipsis. *)
Lemma ipv6_fields_ellipsis l x ip r k :
  Forall field_ok (x :: l) → (length ip + 2 * length (x :: l) <= 16)%nat →
  ipv6_fields (length (x :: l) + k) (appendHex x ++ tail_text l ++ colon :: colon :: r) ip None =
    let ip := ip ++ fields_bytes (x :: l) in
    match r with [] => Some (ip, Some (length ip), []) | _ => ipv6_fields k r ip (Some (length ip)) end.
Proof.
  revert x ip. induction l as [|y l IH]; intros x ip [Hx Hf]%Forall_cons_1 Hl; cbn [length Nat.add] in *.
  - cbn [tail_text app]. rewrite ipv6_fields_turn by (done || lia). rewrite !bool_decide_true by done. cbn [negb].
    by rewrite fields_bytes_one.
  - cbn [tail_text]. rewrite <-app_comm_cons, <-app_assoc.
    rewrite ipv6_fields_next by (lia || done || by apply Forall_cons_1 in Hf as [? _]).
    change (S (length l + k))%nat with (length (y :: l) + k)%nat.
    rewrite IH; [|done|rewrite length_app, length_be_put; cbn [length]; lia].
    cbv zeta. by rewrite (fields_bytes_cons x), !app_assoc.
Qed.

(** All eight fields. *)
Lemma parseIPv6_full l :
  Forall field_ok l → length l = 8%nat → parseIPv6 (fields_text l) = Some (fields_bytes l).
Proof.
  intros Hf Hl. destruct l as [|x l]; [done|]. cbn [fields_text].
  assert (parseIPv6 (appendHex x ++ tail_text l) = ipv6_fields 8 (appendHex x ++ tail_text l) [] None ≫= ipv6_finish) as ->.
  { destruct (fields_text_head x l []) as (c & t & E & Hc); [by apply Forall_cons_1 in Hf as [? _]|].
    rewrite app_nil_r in E. rewrite E. unfold parseIPv6. destruct t; [done|]. by rewrite bool_decide_false. }
  rewrite ipv6_fields_end by (done || (cbn [length] in *; lia)). cbn [mbind option_bind app]. unfold ipv6_finish.
  rewrite bool_decide_true by done. cbn [negb]. by rewrite length_fields_bytes, Hl.
Qed.

(** Fields around an ellipsis. *)
Lemma parseIPv6_ellipsis l1 l2 :
  Forall field_ok l1 → Forall field_ok l2 → (length l1 + length l2 < 8)%nat →
  parseIPv6 (fields_text l1 ++ colon :: colon :: fields_text l2) =
    Some (fields_bytes l1 ++ zeros (16 - 2 * (length l1 + length l2)) ++ fields_bytes l2).
Proof.
  intros H1 H2 Hl.
  assert (ipv6_finish (fields_bytes l1 ++ fields_bytes l2, Some (length (fields_bytes l1)), []) =
    Some (fields_bytes l1 ++ zeros (16 - 2 * (length l1 + length l2)) ++ fields_bytes l2)) as Hfin.
  { unfold ipv6_finish. rewrite bool_decide_true by done. cbn [negb].
    rewrite length_app, !length_fields_bytes. rewrite (proj2 (Nat.ltb_lt _ _)) by lia.
    rewrite take_app_length', drop_app_length' by (symmetry; apply length_fields_bytes).
    do 3 f_equal. f_equal. lia. }
  destruct l1 as [|x l1].
  - cbn [fields_text app parseIPv6]. rewrite bool_decide_true by done. cbn [andb].
    destruct l2 as [|y l2]; [done|].
    destruct (fields_text_head y l2 []) as (c & t & E & Hc); [by apply Forall_cons_1 in H2 as [? _]|].
    rewrite app_nil_r in E. rewrite bool_decide_false by (cbn [fields_text]; by rewrite E).
    cbn [fields_text]. rewrite ipv6_fields_end by (done || (cbn [length] in *; lia)). exact Hfin.
  - assert (field_ok x) as Hx by by apply Forall_cons_1 in H1 as [? _]. cbn [fields_text]. rewrite <-app_assoc.
    set (r := fields_text l2) in *.
    assert (parseIPv6 (appendHex x ++ tail_text l1 ++ colon :: colon :: r) =
      ipv6_fields 8 (appendHex x ++ tail_text l1 ++ colon :: colon :: r) [] None ≫= ipv6_finish) as ->.
    { destruct (fields_text_head x l1 (colon :: colon :: r)) as (c & t & E & Hc); [done|].
      rewrite E. unfold parseIPv6. destruct t; [done|]. by rewrite bool_decide_false. }
    replace (ipv6_fields 8) with (ipv6_fields (length (x :: l1) + (7 - length l1))) by (f_equal; cbn [length] in *; lia).
    rewrite ipv6_fields_ellipsis by (done || (cbn [length] in *; lia)). cbv zeta. cbn [app].
    destruct l2 as [|y l2]; [|].
    { subst r. cbn [fields_text mbind option_bind]. change (fields_bytes []) with (@nil byte) in *.
      rewrite (app_nil_r (fields_bytes (x :: l1))) in Hfin. exact Hfin. }
    destruct (fields_text_head y l2 []) as (c & t & E & Hc); [by apply Forall_cons_1 in H2 as [? _]|].
    rewrite app_nil_r in E. subst r. cbn [fields_text]. rewrite E, <-E.
    rewrite ipv6_fields_end; [exact Hfin|done| |cbn [length] in *; lia].
    rewrite length_fields_bytes. cbn [length] in *. lia.
Qed.

(** ** What is printed *)

Section Printing.
Context (run : nat * nat) (Hrun : (run.1 < run.2)%nat).

Lemma appendTo6_after l i : (run.2 < i)%nat → appendTo6 run i l = tail_text l.
Proof.
  revert i. induction l as [|x l IH]; intros i Hi; cbn [appendTo6 tail_text]; [done|].
  rewrite (proj2 (Nat.ltb_ge i run.2)), andb_false_r, (proj2 (Nat.eqb_neq i run.2)), (proj2 (Nat.ltb_lt 0 i)) by lia.
  cbn [andb negb app]. by rewrite IH by lia.
Qed.

Lemma appendTo6_in n l i :
  (run.1 < i)%nat → (i + n = run.2)%nat → appendTo6 run i l = fields_text (drop n l).
Proof.
  revert l i. induction n as [|n IH]; intros [|x l] i H1 H2; cbn [appendTo6 drop fields_text]; try done.
  - rewrite (proj2 (Nat.ltb_ge i run.2)), andb_false_r, (proj2 (Nat.eqb_eq i run.2)), andb_false_r by lia.
    cbn [app negb]. by rewrite appendTo6_after by lia.
  - rewrite (proj2 (Nat.leb_le run.1 i)), (proj2 (Nat.ltb_lt i run.2)), (proj2 (Nat.eqb_neq i run.1)) by lia.
    cbn [andb app]. apply IH; lia.
Qed.

Lemma appendTo6_start l :
  l ≠ [] → appendTo6 run run.1 l = colon :: colon :: fields_text (drop (run.2 - run.1) l).
Proof.
  destruct l as [|x l]; [done|]. intros _. cbn [appendTo6].
  rewrite (proj2 (Nat.leb_le run.1 run.1)), (proj2 (Nat.ltb_lt run.1 run.2)), Nat.eqb_refl by lia. cbn [andb app].
  rewrite (appendTo6_in (run.2 - S run.1)) by lia. by replace (run.2 - run.1)%nat with (S (run.2 - S run.1))%nat by lia.
Qed.

Lemma appendTo6_before k l i :
  (0 < i)%nat → (i + k = run.1)%nat → (k < length l)%nat →
  appendTo6 run i l = tail_text (take k l) ++ colon :: colon :: fields_text (drop (k + (run.2 - run.1)) l).
Proof.
  revert l i. induction k as [|k IH]; intros l i H1 H2 H3.
  - replace i with run.1 by lia. rewrite appendTo6_start by by destruct l; [cbn in H3; lia|]. done.
  - destruct l as [|x l]; [cbn in H3; lia|]. cbn [appendTo6 take tail_text Nat.add drop length] in *.
    rewrite (proj2 (Nat.leb_gt run.1 i)), (proj2 (Nat.ltb_lt 0 i)), (proj2 (Nat.eqb_neq i run.2)) by lia.
    cbn [andb negb app]. rewrite (IH l (S i)) by lia. by rewrite <-app_assoc.
Qed.

Lemma appendTo6_run l :
  (run.1 < length l)%nat →
  appendTo6 run 0 l = fields_text (take run.1 l) ++ colon :: colon :: fields_text (drop run.2 l).
Proof.
  intros Hl. pose proof (appendTo6_start l) as Hs. destruct l as [|x l]; [cbn in Hl; lia|]. cbn [length] in Hl.
  pose proof (appendTo6_before (pred run.1) l 1) as Hb. pose proof Hrun as Hr.
  destruct (decide (run.1 = 0%nat)) as [E|E].
  - rewrite E, Nat.sub_0_r in Hs. rewrite E. by rewrite Hs.
  - cbn [appendTo6]. rewrite (proj2 (Nat.leb_gt run.1 0)) by lia. cbn [andb Nat.ltb Nat.leb app].
    rewrite Hb by lia. replace (pred run.1 + (run.2 - run.1))%nat with (pred run.2) by lia.
    replace (take run.1 (x :: l)) with (x :: take (pred run.1) l) by (by destruct run.1).
    replace (drop run.2 (x :: l)) with (drop (pred run.2) l) by (destruct run.2; [lia|done]).
    cbn [fields_text]. by rewrite <-app_assoc.
Qed.
End Printing.

Lemma appendTo6_no_run n l i :
  (0 < i)%nat → (i + length l <= n)%nat → appendTo6 (n, n) i l = tail_text l.
Proof.
  revert i. induction l as [|x l IH]; intros i Hi Hn; cbn [appendTo6 tail_text fst snd length] in *; [done|].
  rewrite (proj2 (Nat.leb_gt n i)), (proj2 (Nat.ltb_lt 0 i)), (proj2 (Nat.eqb_neq i n)) by lia.
  cbn [andb negb app]. by rewrite IH by lia.
Qed.

Lemma appendTo6_full l : length l = 8%nat → appendTo6 (8, 8)%nat 0 l = fields_text l.
Proof.
  destruct l as [|x l]; [done|]. intros Hl. cbn [length] in Hl. cbn [appendTo6 fst snd Nat.leb Nat.ltb andb app fields_text].
  by rewrite appendTo6_no_run by lia.
Qed.

(** The run it leaves out is a run of zeros. *)
Lemma zero_run_spec l : take (zero_run l) l = replicate (zero_run l) 0 ∧ (zero_run l <= length l)%nat.
Proof.
  induction l as [|x l [IH1 IH2]]; cbn [zero_run]; [done|]. destruct (Z.eqb_spec x 0) as [->|]; [|split; [done|cbn; lia]].
  cbn. split; [by f_equal|lia].
Qed.

Definition run_ok (l : list Z) (r : nat * nat) : Prop :=
  r = (8, 8)%nat ∨ (r.1 < r.2 <= length l)%nat ∧ take (r.2 - r.1) (drop r.1 l) = replicate (r.2 - r.1) 0.

Lemma longest_run_ok l i k best :
  run_ok l best → k = drop i l → run_ok l (longest_run i k best).
Proof.
  revert i best. induction k as [|x k IH]; intros i best Hb Hk; cbn [longest_run]; [done|].
  apply IH; [|by rewrite <-drop_drop with (n := 1%nat), <-Hk || (replace (S i) with (i + 1)%nat by lia; by rewrite <-drop_drop, <-Hk)].
  destruct ((2 <=? zero_run (x :: k))%nat && _) eqn:E; [|done].
  apply andb_prop in E as [E1%Nat.leb_le _]. right. cbn [fst snd].
  destruct (zero_run_spec (x :: k)) as [Hz Hl]. set (n := zero_run (x :: k)) in *. clearbody n.
  apply (f_equal length) in Hk as Hlen. rewrite length_drop in Hlen. split; [lia|].
  replace (i + n - i)%nat with n by lia. by rewrite <-Hk.
Qed.

(** ** Reading back *)

Lemma fields16_ok n ip :
  length ip = (2 * n)%nat → Forall field_ok (fields16 ip) ∧ length (fields16 ip) = n ∧ fields_bytes (fields16 ip) = ip.
Proof.
  revert ip. induction n as [|n IH]; intros ip Hl; [by destruct ip|].
  destruct ip as [|a [|b ip]]; cbn [length] in Hl; [lia..|].
  destruct (IH ip) as (Hf & Hn & Hb); [lia|]. cbn [fields16 length]. split; [|split; [by rewrite Hn|]].
  - apply Forall_cons_2; [|done]. unfold field_ok. apply (be_get_range [a; b]).
  - rewrite fields_bytes_cons, Hb. change (be_put 2 (be_get [a; b])) with (be_put (length [a; b]) (be_get [a; b])).
    by rewrite be_put_get.
Qed.

Lemma fields_bytes_app l k : fields_bytes (l ++ k) = fields_bytes l ++ fields_bytes k.
Proof. unfold fields_bytes. by rewrite fmap_app, concat_app. Qed.

Lemma fields_bytes_zeros n : fields_bytes (replicate n 0) = zeros (2 * n).
Proof.
  induction n as [|n IH]; [done|]. cbn [replicate]. rewrite fields_bytes_cons, IH.
  by replace (2 * S n)%nat with (S (S (2 * n))) by lia.
Qed.

(** The characters of the text decide how it is parsed. *)
Definition v6_char (c : byte) : Prop := is_Some (hexdigit c) ∨ c = colon.

Lemma tail_text_chars l : Forall field_ok l → Forall v6_char (tail_text l).
Proof.
  induction 1 as [|x l Hx Hl IH]; [done|]. cbn [tail_text]. apply Forall_cons_2; [by right|].
  apply Forall_app_2; [|done]. apply Forall_forall. intros c Hc. left. by apply (appendHex_chars x).
Qed.
Lemma fields_text_chars l : Forall field_ok l → Forall v6_char (fields_text l).
Proof.
  destruct 1 as [|x l Hx Hl]; [done|]. cbn [fields_text]. apply Forall_app_2; [|by apply tail_text_chars].
  apply Forall_forall. intros c Hc. left. by apply (appendHex_chars x).
Qed.

Lemma cut_absent b s : b ∉ s → cut b s = None.
Proof.
  induction s as [|c s IH]; cbn; [done|]. intros [Hc Hs]%not_elem_of_cons.
  rewrite bool_decide_false by done. by rewrite IH.
Qed.

Lemma v6_char_not c : hexdigit c = None → c ≠ colon → ¬ v6_char c.
Proof. intros Hh Hc [H|H]; [|done]. rewrite Hh in H. by destruct H. Qed.

Lemma ParseAddr_v6 s t : Forall v6_char s → Forall v6_char t → colon ∈ t → ParseAddr s t = parseIPv6 s.
Proof.
  intros Hs. assert (¬ v6_char dot ∧ ¬ v6_char percent) as [Hd Hp] by (split; by apply v6_char_not).
  induction 1 as [|c t Hc Ht IH]; [by intros ?%elem_of_nil|]. intros Hin. cbn [ParseAddr].
  rewrite bool_decide_false by by intros ->. case_bool_decide as Ec.
  - rewrite cut_absent; [by rewrite bool_decide_true|]. intros H. by eapply Forall_forall in Hs.
  - rewrite bool_decide_false by by intros ->. apply IH. apply elem_of_cons in Hin as [?|Hin]; [congruence|done].
Qed.

Lemma v6_text_chars l r :
  Forall field_ok l → length l = 8%nat → run_ok l r →
  Forall v6_char (appendTo6 r 0 l) ∧ colon ∈ appendTo6 r 0 l ∧ parseIPv6 (appendTo6 r 0 l) = Some (fields_bytes l).
Proof.
  intros Hf Hl [->|[Hr Hz]].
  - rewrite appendTo6_full by done. split; [by apply fields_text_chars|]. split; [|by apply parseIPv6_full].
    destruct l as [|x [|y l]]; [done..|]. cbn [fields_text tail_text]. apply elem_of_app. right. by left.
  - rewrite appendTo6_run by lia.
    assert (Forall field_ok (take r.1 l)) as H1 by by apply Forall_take.
    assert (Forall field_ok (drop r.2 l)) as H2 by by apply Forall_drop. split; [|split].
    + apply Forall_app_2; [by apply fields_text_chars|]. apply Forall_cons_2; [by right|].
      apply Forall_cons_2; [by right|]. by apply fields_text_chars.
    + apply elem_of_app. right. by left.
    + rewrite parseIPv6_ellipsis by (done || (rewrite length_take, length_drop; lia)). f_equal.
      rewrite length_take, length_drop.
      replace (16 - 2 * (r.1 `min` length l + (length l - r.2)))%nat with (2 * (r.2 - r.1))%nat by lia.
      rewrite <-fields_bytes_zeros, <-!fields_bytes_app, <-Hz.
      replace (drop r.2 l) with (drop (r.2 - r.1) (drop r.1 l)) by (rewrite drop_drop; f_equal; lia).
      by rewrite take_drop, take_drop.
Qed.

(** A 16-byte address reads back. *)
Lemma ParseIP_String ip : length ip = 16%nat → net_ParseIP (net_IP_String ip) = ip.
Proof.
  intros Hl. unfold net_IP_String. rewrite bool_decide_false by by intros ->.
  assert (len ip = 16) as Hl' by (unfold len; lia).
  destruct (To4 ip) as [ip4|] eqn:E4.
  - unfold To4 in E4. rewrite Hl' in E4. cbn [Z.eqb Pos.eqb andb] in E4. case_bool_decide as Hp; [|done].
    injection E4 as <-. assert (length (drop 12 ip) = 4%nat) as Hd by (rewrite length_drop; lia).
    destruct (drop 12 ip) as [|a [|b [|c [|d [|]]]]] eqn:Ed; try done.
    rewrite ParseIP_dotted, <-Hp, <-Ed. apply take_drop.
  - rewrite Hl'. cbn [Z.eqb Pos.eqb]. destruct (fields16_ok 8 ip Hl) as (Hf & Hn & Hb).
    destruct (v6_text_chars (fields16 ip) (longest_run 0 (fields16 ip) (8, 8)%nat)) as (Hc & Hin & Hp); [done..| |].
    { apply longest_run_ok; [by left|done]. }
    cbv zeta. unfold net_ParseIP. rewrite ParseAddr_v6 by done. by rewrite Hp, Hb.
Qed.

(** ** The address of a caller *)

Lemma v6_char_unbracketed s : Forall v6_char s → unbracketed s.
Proof.
  intros Hs. split; intros H; eapply Forall_forall in Hs; try exact H; by eapply v6_char_not in Hs.
Qed.

Lemma IP_String_unbracketed ip : length ip = 16%nat → unbracketed (net_IP_String ip).
Proof.
  intros Hl. unfold net_IP_String. rewrite bool_decide_false by by intros ->.
  assert (len ip = 16) as -> by (unfold len; lia). cbn [Z.eqb Pos.eqb].
  destruct (fields16_ok 8 ip Hl) as (Hf & Hn & Hb).
  assert (unbracketed (appendTo6 (longest_run 0 (fields16 ip) (8, 8)%nat) 0 (fields16 ip))).
  { apply v6_char_unbracketed. apply v6_text_chars; [done..|]. apply longest_run_ok; [by left|done]. }
  destruct (To4 ip) as [[|a [|b [|c [|d [|]]]]]|]; try done. apply dotted_unbracketed.
Qed.

(** What a server reports for a caller, [JoinHostPort(ip.String(), port)], names
    the caller. *)
Lemma SplitHostPort_caller ip port :
  length ip = 16%nat → digits port →
  ∃ host, net_SplitHostPort (net_JoinHostPort (net_IP_String ip) port) = Ret (host, port) ∧ net_ParseIP host = ip.
Proof.
  intros Hl Hp. apply digits_plain in Hp as [Hp Hc]. exists (net_IP_String ip). split; [|by apply ParseIP_String].
  apply SplitHostPort_Join; [by apply IP_String_unbracketed|done..].
Qed.
