(* ===== verification/Crypto.v ===== *)
(** * Cryptographic primitives

    The primitives the program calls from Go's [crypto] packages: SHA-256 and
    SHA-512, AES-GCM, Ed25519 and X25519. They are the operations of the class
    [Crypto]; the facts the program relies on (decryption inverts encryption,
    a signature verifies under its own key, both sides of a Diffie-Hellman
    exchange agree, output sizes) are the fields of [CryptoLaws]. [toy_crypto]
    is a concrete (insecure) instance that satisfies every law; it is not
    declared to the instance search, so that nothing resolves to it silently. *)

From S2P Require Import Prelude.

Class Crypto := {
  sha256_Sum : bytes → bytes;
  sha512_Sum : bytes → bytes;
  gcm_Seal : bytes → bytes → bytes → bytes;          (* key, nonce, plaintext *)
  gcm_Open : bytes → bytes → bytes → option bytes;   (* key, nonce, ciphertext *)
  ed25519_NewKeyFromSeed : bytes → bytes;
  ed25519_Public : bytes → bytes;
  ed25519_Sign : bytes → bytes → bytes;
  ed25519_Verify : bytes → bytes → bytes → bool;
  x25519_Public : bytes → bytes;
  x25519_ECDH : bytes → bytes → option bytes
}.

Class CryptoLaws (C : Crypto) : Prop := {
  sha256_length x : length (sha256_Sum x) = 32;
  sha512_length x : length (sha512_Sum x) = 64;
  gcm_open_seal k n p : gcm_Open k n (gcm_Seal k n p) = Some p;
  gcm_open_inv k n c p : gcm_Open k n c = Some p → c = gcm_Seal k n p;
  gcm_seal_length k n p : length (gcm_Seal k n p) = length p + 16;
  ed25519_public_length seed :
    length seed = 32 → length (ed25519_Public (ed25519_NewKeyFromSeed seed)) = 32;
  ed25519_sign_length k m : length (ed25519_Sign k m) = 64;
  ed25519_verify_sign seed m :
    length seed = 32 →
    ed25519_Verify (ed25519_Public (ed25519_NewKeyFromSeed seed)) m
      (ed25519_Sign (ed25519_NewKeyFromSeed seed) m) = true;
  x25519_public_length a : length (x25519_Public a) = 32;
  x25519_agree a b : x25519_ECDH a (x25519_Public b) = x25519_ECDH b (x25519_Public a)
}.

(** [aes.NewCipher]: the key must be 16, 24 or 32 bytes. *)
Definition aes_NewCipher (key : bytes) : outcome bytes :=
  if bool_decide (length key = 16 ∨ length key = 24 ∨ length key = 32) then Ret key
  else Err (EFmt "crypto/aes: invalid key size" [len key]).

(** ** A concrete instance *)

Definition toy_fill (n : nat) (l : bytes) : bytes := vec_to_list (array_of n l).
Definition byte_xor (a b : byte) : byte := byte_of_Z (Z.lxor (Z_of_byte a) (Z_of_byte b)).
Definition toy_tag (k n : bytes) : bytes := toy_fill 8 (drop 4 n) ++ toy_fill 8 (drop 8 k).

Definition toy_open (k n c : bytes) : option bytes :=
  let m := length c - 16 in
  if bool_decide (16 ≤ length c ∧ drop m c = toy_tag k n) then Some (take m c) else None.

Definition toy_crypto : Crypto := {|
  sha256_Sum x := toy_fill 32 x;
  sha512_Sum x := toy_fill 64 x;
  gcm_Seal k n p := p ++ toy_tag k n;
  gcm_Open := toy_open;
  ed25519_NewKeyFromSeed seed := seed;
  ed25519_Public k := k;
  ed25519_Sign k m := toy_fill 64 (k ++ m);
  ed25519_Verify pub m sig := bool_decide (sig = toy_fill 64 (pub ++ m));
  x25519_Public a := toy_fill 32 a;
  x25519_ECDH a pub := Some (zip_with byte_xor (toy_fill 32 a) (toy_fill 32 pub))
|}.

Lemma length_toy_fill n l : length (toy_fill n l) = n.
Proof. unfold toy_fill. apply length_vec_to_list. Qed.

Lemma length_toy_tag k n : length (toy_tag k n) = 16.
Proof. unfold toy_tag. by rewrite length_app, !length_toy_fill. Qed.

Lemma byte_xor_comm a b : byte_xor a b = byte_xor b a.
Proof. unfold byte_xor. by rewrite Z.lxor_comm. Qed.

Lemma toy_fill_idemp n l : toy_fill n (toy_fill n l) = toy_fill n l.
Proof. unfold toy_fill. by rewrite array_of_vec. Qed.

Lemma zip_with_comm {A B} (f : A → A → B) l k :
  (∀ x y, f x y = f y x) → zip_with f l k = zip_with f k l.
Proof.
  intros Hf. revert k. induction l as [|x l IH]; intros [|y k]; simpl; auto.
  by rewrite Hf, IH.
Qed.

Lemma toy_open_seal k n p : toy_open k n (p ++ toy_tag k n) = Some p.
Proof.
  unfold toy_open. rewrite length_app, length_toy_tag, Nat.add_sub, drop_app_length.
  rewrite bool_decide_true by (split; [lia|done]). by rewrite take_app_length.
Qed.

Lemma toy_open_inv k n c p : toy_open k n c = Some p → c = p ++ toy_tag k n.
Proof.
  unfold toy_open. case_bool_decide as E; [|done]. intros [= <-].
  destruct E as [_ <-]. by rewrite take_drop.
Qed.

Lemma toy_crypto_laws : CryptoLaws toy_crypto.
Proof.
  split; intros; cbn [sha256_Sum sha512_Sum gcm_Seal gcm_Open ed25519_NewKeyFromSeed
    ed25519_Public ed25519_Sign ed25519_Verify x25519_Public x25519_ECDH toy_crypto] in *;
    rewrite ?length_app, ?length_toy_fill, ?length_toy_tag;
    auto using toy_open_seal, toy_open_inv.
  - by apply bool_decide_true.
  - by rewrite !toy_fill_idemp, zip_with_comm by apply byte_xor_comm.
Qed.

(** A 32-byte key is accepted by [aes.NewCipher]. *)
Lemma aes_NewCipher_32 key : length key = 32 → aes_NewCipher key = Ret key.
Proof. intros E. unfold aes_NewCipher. rewrite bool_decide_true; auto. Qed.
