(* ===== verification/Keys.v ===== *)
(** * Identity keys (keys/generate.go)

    Hexadecimal text form of a 32-byte key with its parsers ([FromHex], the
    JSON and SQL scanners), and the loading of the identity key pair from the
    executable's directory ([AutoLoad]). The directory is the list of its
    entries in [os.ReadDir] order (sorted by name). *)

From S2P Require Import Prelude Config Crypto.

Abbreviation Key := (vec byte 32).
Abbreviation PubKey := (vec byte 32) (only parsing).
Abbreviation PrivateKey := (vec byte 32) (only parsing).

Definition NilKey : Key := vreplicate 32 x00.

(** ** encoding/hex *)

Definition hexchar (v : Z) : byte :=
  if (v <? 10)%Z then byte_of_Z (48 + v) else byte_of_Z (87 + v).

Fixpoint hex_EncodeToString (l : bytes) : gostring :=
  match l with
  | [] => []
  | b :: l' => hexchar (Z_of_byte b / 16) :: hexchar (Z_of_byte b mod 16) :: hex_EncodeToString l'
  end.

(** [reverseHexTable], [None] for the entries above 0x0f. *)
Definition unhex (c : byte) : option Z :=
  let z := Z_of_byte c in
  if ((48 <=? z) && (z <=? 57))%Z then Some (z - 48)%Z
  else if ((97 <=? z) && (z <=? 102))%Z then Some (z - 87)%Z
  else if ((65 <=? z) && (z <=? 70))%Z then Some (z - 55)%Z
  else None.

Definition InvalidByteError (c : byte) : error := EFmt "encoding/hex: invalid byte" [Z_of_byte c].
Definition ErrLength : error := ENew "encoding/hex: odd length hex string".

Fixpoint hex_DecodeString (s : gostring) : outcome bytes :=
  match s with
  | [] => Ret []
  | [p] => match unhex p with None => Err (InvalidByteError p) | Some _ => Err ErrLength end
  | p :: q :: s' =>
      match unhex p, unhex q with
      | None, _ => Err (InvalidByteError p)
      | Some _, None => Err (InvalidByteError q)
      | Some a, Some b =>
          rest ← hex_DecodeString s';
          Ret (byte_of_Z (Z.lor (Z.shiftl a 4) b) :: rest)
      end
  end.

(** ** Text form of a key *)

Definition Key_String (p : Key) : gostring := hex_EncodeToString (vec_to_list p).

Definition FromHex (s : gostring) : outcome Key :=
  if bool_decide (s = []) then Err (ENew "keys: empty key") else
  buf ← wrap_err "keys: decode hex" (hex_DecodeString s);
  if negb (len buf =? 32)%Z then Err (EFmt "keys: unexpected key length" [len buf])
  else Ret (array_of 32 buf).

Definition quote : byte := byte_of_Z 34.
Definition minQuotedHexLen : Z := 2.

Definition MarshalJSON (p : Key) : outcome bytes := Ret (quote :: Key_String p ++ [quote]).

Definition parseHexQuoted (b : bytes) : outcome gostring :=
  if (len b <? minQuotedHexLen)%Z then Err (ENew "keys: too short for quoted hex") else
  first ← index b 0;
  last ← index b (len b - 1);
  if negb (bool_decide (first = quote)) || negb (bool_decide (last = quote))
  then Err (ENew "keys: not a quoted string")
  else slice b 1 (len b - 1).

(** [UnmarshalJSON] and [Scan] assign [*p] only on success. *)
Definition UnmarshalJSON (b : bytes) : outcome Key :=
  s ← parseHexQuoted b;
  FromHex s.

Definition Value (p : Key) : outcome gostring := Ret (Key_String p).

(** The dynamic type of the column value handed to [Scan]. *)
Inductive sqlval :=
| SqlText (s : gostring)
| SqlBlob (b : bytes)
| SqlOther.

Definition Scan (src : sqlval) : outcome Key :=
  match src with
  | SqlText s => FromHex s
  | SqlBlob b => FromHex b
  | SqlOther => Err (ENew "keys: cannot scan type")
  end.

(** ** Key pairs *)

Record Keys := MkKeys {
  Public : Key;
  Private : Key;
  sign : bytes
}.

Record dirent := MkDirent {
  de_name : gostring;
  de_isdir : bool;
  de_data : option bytes   (* [None]: [os.ReadFile] fails *)
}.

(** What the operating system answers during one [AutoLoad]. *)
Record osenv := MkOs {
  os_exe_ok : bool;               (* os.Executable *)
  os_readdir_ok : bool;           (* os.ReadDir *)
  os_write_ok : bool;             (* os.WriteFile *)
  os_rand : option (vec byte 32)  (* rand.Read, [None]: it fails *)
}.

Fixpoint write_file (name : gostring) (data : bytes) (d : list dirent) : list dirent :=
  match d with
  | [] => [MkDirent name false (Some data)]
  | e :: d' =>
      if bool_decide (de_name e = name) then MkDirent name false (Some data) :: d'
      else if bytes_ltb name (de_name e) then MkDirent name false (Some data) :: e :: d'
      else e :: write_file name data d'
  end.

Definition HasPrefix (s pre : gostring) : bool := bool_decide (take (length pre) s = pre).
Definition HasSuffix (s suf : gostring) : bool :=
  bool_decide (length suf ≤ length s ∧ drop (length s - length suf) s = suf).

Definition is_key_entry (e : dirent) : bool :=
  negb (de_isdir e) && HasPrefix (de_name e) (lit ".") && HasSuffix (de_name e) (lit "_key").

Fixpoint first_key (d : list dirent) : option dirent :=
  match d with
  | [] => None
  | e :: d' => if is_key_entry e then Some e else first_key d'
  end.

Section AutoLoad.
Context `{C : Crypto}.

Definition findExistingKey (o : osenv) (d : list dirent) : option dirent :=
  if os_readdir_ok o then first_key d else None.

Definition generateRandomSeed (o : osenv) : outcome bytes :=
  match os_rand o with
  | Some seed => Ret (vec_to_list seed)
  | None => Panic "keys: generate random seed"
  end.

Definition keys_of_seed (seed : bytes) : Keys :=
  let priv := ed25519_NewKeyFromSeed seed in
  MkKeys (array_of 32 (ed25519_Public priv)) (array_of 32 seed) priv.

Definition Derive (k : Keys) : gostring :=
  hex_EncodeToString (take 8 (sha256_Sum (vec_to_list (Private k)))).

Definition key_file_name (k : Keys) : gostring := lit "." ++ Derive k ++ lit "_key".

(** The seed of the entry [findExistingKey] chose, when it has the right size. *)
Definition load_existing (o : osenv) (d : list dirent) : option Keys :=
  match findExistingKey o d with
  | Some e => match de_data e with
              | Some seed => if (len seed =? 32)%Z then Some (keys_of_seed seed) else None
              | None => None
              end
  | None => None
  end.

Definition AutoLoad (o : osenv) (d : list dirent) : outcome (Keys * list dirent) :=
  if negb (os_exe_ok o) then Panic "keys: get executable path" else
  match load_existing o d with
  | Some k => Ret (k, d)
  | None =>
      seed ← generateRandomSeed o;
      let k := keys_of_seed seed in
      if os_write_ok o then Ret (k, write_file (key_file_name k) seed d)
      else Panic "keys: write key file"
  end.

Definition Sign (k : Keys) (msg : bytes) : bytes := ed25519_Sign (sign k) msg.
Definition Verify (pubKey : PubKey) (msg sig : bytes) : bool :=
  ed25519_Verify (vec_to_list pubKey) msg sig.

(** What [AutoLoad] establishes of a key pair. *)
Definition keys_wf (k : Keys) : Prop :=
  ∃ seed, length seed = 32 ∧ k = keys_of_seed seed.
End AutoLoad.

(** ** Hexadecimal text *)

Definition lower (c : byte) : byte :=
  let z := Z_of_byte c in
  if ((65 <=? z) && (z <=? 90))%Z then byte_of_Z (z + 32) else c.

Definition hex_ok (c : byte) : bool :=
  match unhex c with
  | Some v => bool_decide (lower c = hexchar v) && (0 <=? v)%Z && (v <? 16)%Z
  | None => true
  end.

Lemma hex_ok_all c : hex_ok c = true.
Proof. destruct c; reflexivity. Qed.

Lemma hexchar_lower c v : unhex c = Some v → lower c = hexchar v ∧ (0 <= v < 16)%Z.
Proof.
  intros E. pose proof (hex_ok_all c) as H. unfold hex_ok in H. rewrite E in H.
  apply andb_prop in H as [[H1%bool_decide_eq_true H2]%andb_prop H3]. split; [done|lia].
Qed.

(** Case analysis on a nibble. *)
Ltac nibble_cases v :=
  let Hin := fresh in
  assert (v ∈ [0;1;2;3;4;5;6;7;8;9;10;11;12;13;14;15]%Z) as Hin
    by (rewrite list_elem_of_In; simpl; lia);
  repeat (apply elem_of_cons in Hin as [->|Hin]); [..|by apply not_elem_of_nil in Hin].

Lemma unhex_lower c : unhex (lower c) = unhex c.
Proof. destruct c; reflexivity. Qed.

Lemma unhex_hexchar v c :
  (0 <= v < 16)%Z → lower c = hexchar v → unhex c = Some v.
Proof. intros Hv Hc. rewrite <-unhex_lower, Hc. nibble_cases v; reflexivity. Qed.

Lemma nibbles_byte a b :
  (0 <= a < 16)%Z → (0 <= b < 16)%Z → Z.lor (Z.shiftl a 4) b = (16 * a + b)%Z.
Proof. intros Ha Hb. nibble_cases a; nibble_cases b; reflexivity. Qed.

Lemma byte_nibbles_range c : (0 <= Z_of_byte c / 16 < 16 ∧ 0 <= Z_of_byte c mod 16 < 16)%Z.
Proof.
  pose proof (Z_of_byte_range c). split; [|apply Z.mod_pos_bound; lia].
  split; [apply Z.div_pos; lia|apply Z.div_lt_upper_bound; lia].
Qed.

Lemma byte_nibbles c : Z.lor (Z.shiftl (Z_of_byte c / 16) 4) (Z_of_byte c mod 16) = Z_of_byte c.
Proof.
  destruct (byte_nibbles_range c). rewrite nibbles_byte by done.
  symmetry. apply Z.div_mod. lia.
Qed.

(** Induction two characters at a time, as the decoder reads. *)
Lemma list_ind2 {A} (P : list A → Prop) :
  P [] → (∀ x, P [x]) → (∀ x y l, P l → P (x :: y :: l)) → ∀ l, P l.
Proof.
  intros H0 H1 H2. fix IH 1. intros [|x [|y l]]; [done|done|]. apply H2, IH.
Qed.

Lemma hex_decode_lower s buf :
  hex_DecodeString s = Ret buf → lower <$> s = hex_EncodeToString buf.
Proof.
  revert buf. induction s as [|p|p q s IH] using list_ind2; intros buf; cbn.
  - by intros [= <-].
  - by destruct (unhex p).
  - destruct (unhex p) as [a|] eqn:Ep; [|done]. destruct (unhex q) as [b|] eqn:Eq; [|done].
    destruct (hex_DecodeString s) as [rest| |]; try done. cbn. intros [= <-].
    apply hexchar_lower in Ep as [-> Ha], Eq as [-> Hb].
    cbn. rewrite (IH rest) by done.
    rewrite Z_of_byte_of_Z, nibbles_byte by done. rewrite (Z.mod_small (16 * a + b)) by lia.
    repeat f_equal; [rewrite Z.mul_comm, Z.div_add_l, Z.div_small by lia; lia|].
    rewrite Z.mul_comm, Z.add_comm, Z.mod_add by lia. by rewrite Z.mod_small.
Qed.

Lemma hex_decode_complete buf s :
  lower <$> s = hex_EncodeToString buf → hex_DecodeString s = Ret buf.
Proof.
  revert s. induction buf as [|c buf IH]; intros s; cbn.
  - by destruct s.
  - destruct s as [|p [|q s]]; try done. cbn. intros [= Hp Hq Hs].
    destruct (byte_nibbles_range c) as [Hhi Hlo].
    rewrite (unhex_hexchar _ _ Hhi Hp), (unhex_hexchar _ _ Hlo Hq).
    rewrite (IH _ Hs). cbn. by rewrite byte_nibbles, byte_of_Z_of_byte.
Qed.

Lemma lower_hexchar v : (0 <= v < 16)%Z → lower (hexchar v) = hexchar v.
Proof. intros Hv. nibble_cases v; reflexivity. Qed.

Lemma lower_hex_encode buf : lower <$> hex_EncodeToString buf = hex_EncodeToString buf.
Proof.
  induction buf as [|c buf IH]; cbn; [done|]. destruct (byte_nibbles_range c).
  by rewrite !lower_hexchar, IH.
Qed.

Lemma length_hex_encode buf : length (hex_EncodeToString buf) = 2 * length buf.
Proof. induction buf; cbn; lia. Qed.

Lemma hex_encode_inj b1 b2 : hex_EncodeToString b1 = hex_EncodeToString b2 → b1 = b2.
Proof.
  intros E. assert (hex_DecodeString (hex_EncodeToString b1) = Ret b2) as H2
    by (apply hex_decode_complete; by rewrite lower_hex_encode).
  rewrite (hex_decode_complete b1) in H2 by apply lower_hex_encode. by simplify_eq.
Qed.

Lemma length_Key_String k : length (Key_String k) = 64.
Proof. unfold Key_String. by rewrite length_hex_encode, length_vec_to_list. Qed.

Global Instance Key_String_inj : Inj (=) (=) Key_String.
Proof. intros k1 k2 E%hex_encode_inj. by apply vec_to_list_inj2. Qed.

Lemma FromHex_ret s k : FromHex s = Ret k ↔ lower <$> s = Key_String k.
Proof.
  unfold FromHex, Key_String. split.
  - case_bool_decide; [done|]. destruct (hex_DecodeString s) as [buf| |] eqn:E; try done.
    cbn. destruct (Z.eqb_spec (len buf) 32) as [Hl|]; [|done]. cbn. intros [= <-].
    rewrite vec_of_array_of by (unfold len in Hl; lia). by apply hex_decode_lower.
  - intros E. case_bool_decide as Hs.
    { subst s. apply (f_equal length) in E.
      by rewrite length_hex_encode, length_vec_to_list in E. }
    rewrite (hex_decode_complete _ _ E). cbn. by rewrite len_vec, array_of_vec.
Qed.

Lemma FromHex_String k : FromHex (Key_String k) = Ret k.
Proof. apply FromHex_ret. apply lower_hex_encode. Qed.
#[export] Hint Rewrite FromHex_String : chat.

Lemma FromHex_no_panic s : is_panic (FromHex s) = false.
Proof.
  unfold FromHex. case_bool_decide; [done|].
  assert (is_panic (hex_DecodeString s) = false) as Hp.
  { induction s as [|p|p q s IH] using list_ind2; cbn; [done|by destruct (unhex p)|].
    destruct (unhex p), (unhex q); cbn; try done.
    destruct s as [|x s]; [done|]. specialize (IH ltac:(done)).
    by destruct (hex_DecodeString (x :: s)). }
  destruct (hex_DecodeString s); cbn in *; try done. by destruct (_ =? _)%Z.
Qed.

Lemma index_ok data i : (0 <= i < len data)%Z → ∃ b, index data i = Ret b ∧ data !! Z.to_nat i = Some b.
Proof.
  intros Hi. unfold index. rewrite (proj2 (Z.leb_le _ _)) by lia.
  destruct (lookup_lt_is_Some_2 data (Z.to_nat i)) as [b ->]; [unfold len in Hi; lia|eauto].
Qed.

Lemma parseHexQuoted_quoted s : parseHexQuoted (quote :: s ++ [quote]) = Ret s.
Proof.
  assert (len (quote :: s ++ [quote]) = len s + 2)%Z as Hl
    by (rewrite len_cons, len_app, len_cons, len_nil; lia).
  pose proof (len_nonneg s). unfold parseHexQuoted, minQuotedHexLen. rewrite Hl.
  rewrite (proj2 (Z.ltb_ge _ _)) by lia.
  assert (index (quote :: s ++ [quote]) 0 = Ret quote) as -> by done.
  assert (index (quote :: s ++ [quote]) (len s + 2 - 1) = Ret quote) as ->.
  { unfold index. rewrite (proj2 (Z.leb_le _ _)) by lia.
    replace (Z.to_nat (len s + 2 - 1)) with (S (length s)) by (unfold len; lia).
    change (quote :: s ++ [quote]) with ((quote :: s) ++ [quote]).
    rewrite lookup_app_r by (cbn; lia). cbn [length]. by rewrite Nat.sub_diag. }
  cbn [mbind outcome_bind]. rewrite bool_decide_true by done. cbn [negb orb].
  apply (slice_app [quote] s [quote]); unfold len; cbn [length]; lia.
Qed.

(** ** Finding and storing the identity key *)

Lemma first_key_write name data d :
  is_key_entry (MkDirent name false (Some data)) = true →
  first_key d = None →
  first_key (write_file name data d) = Some (MkDirent name false (Some data)).
Proof.
  intros Hk. induction d as [|e d IH]; cbn [first_key write_file]; [by rewrite Hk|].
  destruct (is_key_entry e) eqn:He; [done|]. intros Hd.
  case_bool_decide; [cbn; by rewrite Hk|].
  destruct (bytes_ltb _ _); cbn; [by rewrite Hk|]. rewrite He. by apply IH.
Qed.

Section AutoLoadLemmas.
Context `{CL : CryptoLaws}.

Lemma length_key_file_name k : length (key_file_name k) = 21.
Proof.
  unfold key_file_name, Derive. rewrite !length_app, length_hex_encode, length_take.
  by rewrite sha256_length.
Qed.

Lemma is_key_entry_key_file k data : is_key_entry (MkDirent (key_file_name k) false data) = true.
Proof.
  unfold is_key_entry. cbn [de_isdir de_name negb andb]. apply andb_true_intro. split.
  - by apply bool_decide_true.
  - apply bool_decide_true. rewrite length_key_file_name. split; [cbn; lia|].
    unfold key_file_name. rewrite app_assoc. apply drop_app_length'.
    unfold Derive. rewrite length_app, length_hex_encode, length_take, sha256_length. done.
Qed.

Lemma load_existing_wf o d k : load_existing o d = Some k → keys_wf k.
Proof.
  unfold load_existing. destruct (findExistingKey o d) as [e|]; [|done].
  destruct (de_data e) as [seed|]; [|done]. destruct (Z.eqb_spec (len seed) 32); [|done].
  intros [= <-]. exists seed. unfold len in *. split; [lia|done].
Qed.

Lemma AutoLoad_wf o d k d' : AutoLoad o d = Ret (k, d') → keys_wf k.
Proof.
  unfold AutoLoad. destruct (os_exe_ok o); [|done]. cbn [negb].
  destruct (load_existing o d) eqn:E; [intros [= <- <-]; by eapply load_existing_wf|].
  unfold generateRandomSeed. destruct (os_rand o) as [seed|]; [|done]. cbn.
  destruct (os_write_ok o); [|done]. intros [= <- <-].
  exists (vec_to_list seed). by rewrite length_vec_to_list.
Qed.

Lemma Verify_Sign k msg : keys_wf k → Verify (Public k) msg (Sign k msg) = true.
Proof.
  intros (seed & Hl & ->). unfold Verify, Sign, keys_of_seed. cbn [Public sign].
  rewrite vec_of_array_of by by apply ed25519_public_length.
  by apply ed25519_verify_sign.
Qed.
End AutoLoadLemmas.

(** ** Properties *)

(** [FromHex] accepts exactly the 64-digit hexadecimal spellings (in either
    case) of a key and returns that key: it is the inverse of [String] up to
    the case of the digits. *)
Theorem FromHex_correct (s : gostring) (k : Key) :
  FromHex s = Ret k ↔ lower <$> s = Key_String k.
Proof. apply FromHex_ret. Qed.

(** C34: The three serialised forms of a key read back as the key: the hex text,
    the JSON string ([MarshalJSON]/[UnmarshalJSON]) and the SQL column
    ([Value]/[Scan], text or blob); no parser panics on any input. *)
Theorem key_roundtrips (k : Key) :
  FromHex (Key_String k) = Ret k ∧
  (b ← MarshalJSON k; UnmarshalJSON b) = Ret k ∧
  (v ← Value k; Scan (SqlText v)) = Ret k ∧
  (v ← Value k; Scan (SqlBlob v)) = Ret k ∧
  ∀ b, is_panic (UnmarshalJSON b) = false.
Proof.
  cbn. unfold UnmarshalJSON. rewrite parseHexQuoted_quoted. cbn. rewrite !FromHex_String.
  repeat split. intros b. unfold parseHexQuoted, minQuotedHexLen.
  destruct (Z.ltb_spec (len b) 2); [done|].
  destruct (index_ok b 0) as (x & -> & _); [lia|].
  destruct (index_ok b (len b - 1)) as (y & -> & _); [lia|]. cbn.
  destruct (_ || _); [done|]. rewrite slice_ok by lia. apply FromHex_no_panic.
Qed.

(** C33: Identity persistence: if the directory holds no key file, the pair
    generated by [AutoLoad] is loaded again, unchanged, by every later
    [AutoLoad] of the directory it left, whatever the random source then
    answers; and its signatures verify under its public key. *)
Theorem AutoLoad_persistent `{CL : CryptoLaws} (o o' : osenv) (d d' : list dirent) (k : Keys) :
  first_key d = None →
  AutoLoad o d = Ret (k, d') →
  os_exe_ok o' = true → os_readdir_ok o' = true →
  AutoLoad o' d' = Ret (k, d') ∧ ∀ msg, Verify (Public k) msg (Sign k msg) = true.
Proof.
  intros Hd Hload Hexe Hread. split; [|intros; eapply Verify_Sign, AutoLoad_wf, Hload].
  revert Hload. unfold AutoLoad. destruct (os_exe_ok o); [|done]. cbn [negb].
  assert (load_existing o d = None) as ->.
  { unfold load_existing, findExistingKey. rewrite Hd. by destruct (os_readdir_ok o). }
  unfold generateRandomSeed. destruct (os_rand o) as [seed|]; [|done].
  cbn [mbind outcome_bind]. destruct (os_write_ok o); [|done]. intros [= <- <-].
  rewrite Hexe. cbn [negb]. unfold load_existing, findExistingKey. rewrite Hread.
  rewrite first_key_write by (try apply is_key_entry_key_file; done).
  cbn [de_data]. by rewrite len_vec.
Qed.

Definition wit_os : osenv := MkOs true true true (Some (array_of 32 (lit "a random seed"))).

Lemma AutoLoad_persistent_witness :
  match AutoLoad (C:=toy_crypto) wit_os [] with
  | Ret (k, d') => AutoLoad (C:=toy_crypto) wit_os d' = Ret (k, d')
  | _ => False
  end.
Proof.
  destruct (AutoLoad (C:=toy_crypto) wit_os []) as [[k d']| |] eqn:E; [|vm_compute in E; discriminate E..].
  exact (proj1 (AutoLoad_persistent (CL:=toy_crypto_laws) wit_os wit_os [] d' k eq_refl E eq_refl eq_refl)).
Defined.

(** A key file that sorts first and does not hold 32 readable bytes shadows
    every other one: [AutoLoad] then makes a new identity out of the random
    source, also when a sound key file follows in the directory. *)
Theorem AutoLoad_shadowed `{C : Crypto} (o : osenv) (d : list dirent) (e : dirent) (seed : vec byte 32) :
  os_exe_ok o = true → os_write_ok o = true → os_rand o = Some seed →
  first_key d = Some e → (∀ s, de_data e = Some s → len s ≠ 32%Z) →
  ∃ d', AutoLoad o d = Ret (keys_of_seed (vec_to_list seed), d').
Proof.
  intros Hexe Hw Hr He Hbad. unfold AutoLoad. rewrite Hexe. cbn [negb].
  assert (load_existing o d = None) as ->.
  { unfold load_existing, findExistingKey. destruct (os_readdir_ok o); [|done].
    rewrite He. destruct (de_data e) as [s|]; [|done].
    destruct (Z.eqb_spec (len s) 32); [|done]. by destruct (Hbad s). }
  unfold generateRandomSeed. rewrite Hr. cbn. rewrite Hw. eauto.
Qed.

Definition wit_dir : list dirent :=
  [MkDirent (lit ".0_key") false (Some []);
   MkDirent (lit ".1_key") false (Some (vec_to_list (array_of 32 (lit "the old identity"))))].

Lemma AutoLoad_shadowed_witness :
  ∃ d', AutoLoad (C:=toy_crypto) wit_os wit_dir
    = Ret (keys_of_seed (C:=toy_crypto) (vec_to_list (array_of 32 (lit "a random seed"))), d').
Proof.
  apply (AutoLoad_shadowed (C:=toy_crypto) wit_os wit_dir (MkDirent (lit ".0_key") false (Some [])));
    [reflexivity..|].
  intros s [= <-]. discriminate.
Defined.
