(* ===== verification/Mux.v ===== *)
(** * The request multiplexer (net/http's ServeMux, as the program uses it)

    Patterns "[METHOD ]/path" whose segments are literals, [{name}] wildcards
    or, at the end, a slash that stands for any rest; the matching of a request
    by its segments, literals before wildcards before rests; the cleaning of
    paths with its redirections; the answers for a method or a path that no
    pattern has; and the registration, which refuses patterns of which neither
    is more specific. No pattern of the program names a host. *)

From S2P Require Import Prelude Net Keys Paths.

(** ** Escaped text *)

(** [url.PathUnescape]; [None]: an error. *)
Fixpoint url_PathUnescape (s : gostring) : option gostring :=
  match s with
  | [] => Some []
  | c :: s' =>
      if bool_decide (c = percent) then
        match s' with
        | a :: b :: s'' =>
            match unhex a, unhex b with
            | Some x, Some y => cons (byte_of_Z (16 * x + y)) <$> url_PathUnescape s''
            | _, _ => None
            end
        | _ => None
        end
      else cons c <$> url_PathUnescape s'
  end.

(** The multiplexer's own: text that is not validly escaped stays. *)
Definition pathUnescape (s : gostring) : gostring := default s (url_PathUnescape s).

Lemma unescape_plain s : percent ∉ s → url_PathUnescape s = Some s.
Proof.
  induction s as [|c s IH]; [done|]. intros [Hc Hs]%not_elem_of_cons. cbn.
  rewrite bool_decide_false by done. by rewrite IH.
Qed.

Lemma pathUnescape_plain s : percent ∉ s → pathUnescape s = s.
Proof. intros Hs. unfold pathUnescape. by rewrite unescape_plain. Qed.

(** ** Patterns *)

Inductive seg := SLit (s : gostring) | SWild | SRest.
Global Instance seg_eq_dec : EqDecision seg.
Proof. solve_decision. Defined.

Definition space : byte := byte_of_Z 32.

Definition parse_seg (w : gostring) : seg :=
  if HasPrefix w (lit "{") && HasSuffix w (lit "}") then SWild else SLit (pathUnescape w).

Fixpoint parse_segs (l : list gostring) : list seg :=
  match l with
  | [] => []
  | [w] => if bool_decide (w = []) then [SRest] else [parse_seg w]
  | w :: l' => parse_seg w :: parse_segs l'
  end.

Record pattern := MkPattern { p_method : gostring; p_segs : list seg }.

Definition parsePattern (s : gostring) : pattern :=
  let '(method, path) := default ([], s) (cut space s) in
  MkPattern method (parse_segs (tail (strings_Split slash path))).

(** ** Matching *)

(** The segments of a request's path, unescaped; [None] is the slash at the
    end. *)
Fixpoint request_segs (l : list gostring) : list (option gostring) :=
  match l with
  | [] => []
  | [w] => if bool_decide (w = []) then [None] else [Some (pathUnescape w)]
  | w :: l' => Some (pathUnescape w) :: request_segs l'
  end.

Definition path_segs (path : gostring) : list (option gostring) := request_segs (tail (strings_Split slash path)).

Section Mux.
Context {H : Type}.

(** A node of the tree: what is left of each pattern that got there. *)
Definition node := list (list seg * H).

Definition child (s : seg) (n : node) : node :=
  omap (λ p, match p.1 with t :: l => if bool_decide (t = s) then Some (l, p.2) else None | [] => None end) n.

(** The pattern that ends at a node. *)
Definition ending (l : list seg) (n : node) : option H := snd <$> list_find (λ p, p.1 = l) n ≫= λ ip, Some ip.2.

Fixpoint matchPath (n : node) (path : list (option gostring)) (matches : list gostring) : option (H * list gostring) :=
  match path with
  | [] => h ← ending [] n; Some (h, matches)
  | w :: path' =>
      let lit_match := match w with Some s => matchPath (child (SLit s) n) path' matches | None => None end in
      match lit_match with
      | Some r => Some r
      | None =>
          let wild_match := match w with
                            | Some s => matchPath (child SWild n) path' (matches ++ [s])
                            | None => None
                            end in
          match wild_match with
          | Some r => Some r
          | None => h ← ending [SRest] n; Some (h, matches)
          end
      end
  end.

(** A multiplexer: its patterns with their handlers. *)
Definition mux := list (pattern * H).

(** The tree of one method; handlers carry the segments of their pattern. *)
Definition method_tree (m : gostring) (x : mux) : list (list seg * (list seg * H)) :=
  omap (λ ph, if bool_decide (p_method ph.1 = m) then Some (p_segs ph.1, (p_segs ph.1, ph.2)) else None) x.
End Mux.
Arguments node : clear implicits.
Arguments mux : clear implicits.

Section Find.
Context {H : Type}.

Definition tree_match_segs (x : mux H) (method : gostring) (segs : list (option gostring)) :
    option ((list seg * H) * list gostring) :=
  let go m := matchPath (method_tree m x) segs [] in
  match go method with
  | Some r => Some r
  | None =>
      match (if bool_decide (method = lit "HEAD") then go (lit "GET") else None) with
      | Some r => Some r
      | None => go []
      end
  end.
Definition tree_match (x : mux H) (method path : gostring) := tree_match_segs x method (path_segs path).

Definition ends_slash (path : gostring) : bool := bool_decide (last path = Some slash).

(** A match that no trailing rest took part in, or an empty one. *)
Definition exactMatch (r : option ((list seg * H) * list gostring)) (path : gostring) : bool :=
  match r with
  | None => false
  | Some ((segs, _), _) =>
      if negb (bool_decide (last segs = Some SRest)) then true
      else if negb (bool_decide (path = [])) && negb (ends_slash path) then false
      else bool_decide (length segs = length (filter (λ b, b = slash) path))
  end.

Definition cleanPath (p : gostring) : gostring :=
  if bool_decide (p = []) then [slash] else
  let p := if bool_decide (head p = Some slash) then p else slash :: p in
  let np := filepath_Clean p in
  if ends_slash p && negb (bool_decide (np = [slash])) then np ++ [slash] else np.

(** What the multiplexer answers with. *)
Inductive mux_result :=
| Handler (h : H) (matches : list gostring)
| Redirect (path : gostring)     (* 307, since Go 1.26 *)
| NotAllowed                     (* 405 *)
| NotFound.                      (* 404 *)

(** The redirection to the same path with a slash, if that is an exact match. *)
Definition redirects (x : mux H) (method path : gostring) : bool :=
  negb (exactMatch (tree_match x method path) path) && negb (ends_slash path) &&
  exactMatch (tree_match x method (path ++ [slash])) (path ++ [slash]).

Definition mux_allowed (x : mux H) (path : gostring) : bool :=
  existsb (λ ph, negb (bool_decide (p_method ph.1 = [])) &&
    match matchPath (method_tree (p_method ph.1) x) (path_segs path) [] with Some _ => true | None => false end) x.

Definition findHandler (x : mux H) (method escapedPath : gostring) : mux_result :=
  let connect := bool_decide (method = lit "CONNECT") in
  let path := if connect then escapedPath else cleanPath escapedPath in
  let r := tree_match x method path in
  if redirects x method path then Redirect (path ++ [slash])
  else if negb connect && negb (bool_decide (path = escapedPath)) then Redirect path
  else match r with
       | Some ((_, h), matches) => Handler h matches
       | None =>
           if mux_allowed x path || (negb (ends_slash path) && mux_allowed x (path ++ [slash]))
           then NotAllowed else NotFound
       end.

(** ** Registration *)

(** How the requests of two patterns compare. *)
Inductive rel := Equivalent | MoreGeneral | MoreSpecific | Overlaps | Disjoint.

Definition combine (r1 r2 : rel) : rel :=
  match r1, r2 with
  | Equivalent, r | r, Equivalent => r
  | Disjoint, _ | _, Disjoint => Disjoint
  | MoreGeneral, MoreGeneral => MoreGeneral
  | MoreSpecific, MoreSpecific => MoreSpecific
  | _, _ => Overlaps
  end.

Definition compare_seg (s1 s2 : seg) : rel :=
  match s1, s2 with
  | SLit a, SLit b => if bool_decide (a = b) then Equivalent else Disjoint
  | SLit _, _ => MoreSpecific
  | _, SLit _ => MoreGeneral
  | _, _ => Equivalent
  end.

(** A rest against what is left of the other pattern: a rest at both ends is
    the same, and a rest covers any other ending that is not empty. *)
Fixpoint compare_segs (l1 l2 : list seg) : rel :=
  match l1, l2 with
  | [], [] => Equivalent
  | [SRest], [SRest] => Equivalent
  | [SRest], _ :: _ => MoreGeneral
  | _ :: _, [SRest] => MoreSpecific
  | s1 :: l1', s2 :: l2' => combine (compare_seg s1 s2) (compare_segs l1' l2')
  | _, _ => Disjoint
  end.

Definition compare_method (m1 m2 : gostring) : rel :=
  if bool_decide (m1 = m2) then Equivalent
  else if bool_decide (m1 = []) then MoreGeneral
  else if bool_decide (m2 = []) then MoreSpecific
  else if bool_decide (m1 = lit "GET") && bool_decide (m2 = lit "HEAD") then MoreGeneral
  else if bool_decide (m2 = lit "GET") && bool_decide (m1 = lit "HEAD") then MoreSpecific
  else Disjoint.

Definition conflicts (p1 p2 : pattern) : bool :=
  match combine (compare_method (p_method p1) (p_method p2)) (compare_segs (p_segs p1) (p_segs p2)) with
  | Equivalent | Overlaps => true
  | _ => false
  end.

(** [mux.Handle]: panics on a conflict with a pattern it has. *)
Definition mux_Handle (s : gostring) (h : H) (x : mux H) : outcome (mux H) :=
  let p := parsePattern s in
  if existsb (λ q, conflicts p q.1) x then Panic "pattern conflicts with pattern" else Ret (x ++ [(p, h)]).

Fixpoint register (l : list (gostring * H)) (x : mux H) : outcome (mux H) :=
  match l with
  | [] => Ret x
  | (s, h) :: l' => x' ← mux_Handle s h x; register l' x'
  end.
End Find.
Arguments mux_result : clear implicits.

(** ** Cleaned paths *)

Lemma clean_plain rooted l : Forall plain l → clean_elems rooted l = l.
Proof.
  intros Hl. unfold clean_elems. assert (∀ out, foldl (clean_step rooted) out l = reverse l ++ out) as Hf.
  { induction Hl as [|w l (H0 & H1 & H2 & _) _ IH]; intros out; [done|]. cbn [foldl].
    unfold clean_step at 2. rewrite !bool_decide_false by done. cbn [orb]. by rewrite IH, reverse_cons, <-app_assoc. }
  by rewrite Hf, app_nil_r, reverse_involutive.
Qed.

Lemma Split_path l : Forall plain l → l ≠ [] → strings_Split slash (slash :: strings_Join slash l) = [] :: l.
Proof.
  intros Hl Hn. cbn [strings_Split]. rewrite bool_decide_true by done. f_equal. apply Split_Join; [done|].
  eapply Forall_impl; [exact Hl|]. by intros w (_ & _ & _ & ?).
Qed.

Lemma last_join l : Forall plain l → l ≠ [] → ends_slash (slash :: strings_Join slash l) = false.
Proof.
  intros Hl Hn. unfold ends_slash. apply bool_decide_false. destruct (exists_last Hn) as (l' & w & ->).
  apply Forall_app in Hl as [Hl' (H0 & _ & _ & Hs)%Forall_singleton].
  assert (∃ s, slash :: strings_Join slash (l' ++ [w]) = s ++ w) as [s ->].
  { destruct l' as [|a l']; [by exists [slash]|]. rewrite Join_snoc by done.
    exists (slash :: strings_Join slash (a :: l') ++ [slash]). by rewrite <-app_comm_cons, <-app_assoc. }
  rewrite last_app. destruct (last w) as [b|] eqn:Eb; [|by apply last_None in Eb].
  intros [= ->]. apply Hs. by apply last_Some_elem_of.
Qed.

(** A path of plain elements is clean. *)
Lemma cleanPath_plain l : Forall plain l → l ≠ [] → cleanPath (slash :: strings_Join slash l) = slash :: strings_Join slash l.
Proof.
  intros Hl Hn. unfold cleanPath. rewrite bool_decide_false by done. cbn [head]. rewrite bool_decide_true by done.
  rewrite last_join by done. cbn [andb]. unfold filepath_Clean.
  change (filepath_IsAbs (slash :: strings_Join slash l)) with true. cbv iota.
  rewrite Split_path by done. unfold clean_elems. cbn [foldl]. change (clean_step true [] []) with (@nil gostring).
  fold (clean_elems true l). by rewrite clean_plain.
Qed.

Lemma request_segs_plain l : Forall (λ w, w ≠ [] ∧ percent ∉ w) l → request_segs l = Some <$> l.
Proof.
  induction 1 as [|w l [Hn Hp] _ IH]; [done|]. destruct l as [|w' l].
  - cbn. by rewrite bool_decide_false, pathUnescape_plain.
  - change (request_segs (w :: w' :: l)) with (Some (pathUnescape w) :: request_segs (w' :: l)).
    by rewrite pathUnescape_plain, IH.
Qed.

Lemma path_segs_plain l :
  Forall (λ w, plain w ∧ percent ∉ w) l → l ≠ [] → path_segs (slash :: strings_Join slash l) = Some <$> l.
Proof.
  intros Hl Hn. unfold path_segs. rewrite Split_path; [|by eapply Forall_impl; [exact Hl|]; intros ? []|done].
  cbn [tail]. apply request_segs_plain. eapply Forall_impl; [exact Hl|]. intros w [(Hw & _) Hp]. by split.
Qed.

(** ** Exact matches *)

Section Exact.
Context {H : Type}.

(** A clean path matched by a pattern without a rest reaches its handler. *)
Lemma find_exact (x : mux H) method path segs h ms :
  method ≠ lit "CONNECT" → cleanPath path = path →
  tree_match x method path = Some ((segs, h), ms) → last segs ≠ Some SRest →
  findHandler x method path = Handler h ms.
Proof.
  intros Hm Hc Ht Hl. unfold findHandler. rewrite (bool_decide_false (method = _)) by done. rewrite Hc.
  unfold redirects. rewrite Ht. unfold exactMatch at 1. rewrite (bool_decide_false (last segs = _)) by done.
  cbn [negb andb]. by rewrite bool_decide_true.
Qed.

Lemma tree_match_method (x : mux H) method path r :
  matchPath (method_tree method x) (path_segs path) [] = Some r → tree_match x method path = Some r.
Proof. intros Hr. unfold tree_match, tree_match_segs. by rewrite Hr. Qed.

(** The same path with a slash at the end. *)
Lemma path_segs_slash l :
  Forall (λ w, plain w ∧ percent ∉ w) l → l ≠ [] →
  path_segs ((slash :: strings_Join slash l) ++ [slash]) = (Some <$> l) ++ [None].
Proof.
  intros Hl Hn. assert (Forall plain l) as Hp by (eapply Forall_impl; [exact Hl|]; by intros w []).
  unfold path_segs. rewrite Split_app_word by (apply not_elem_of_nil). rewrite Split_path by done.
  change (tail (([] :: l) ++ [[]])) with (l ++ [@nil byte]). clear Hn Hp. induction Hl as [|w l [(Hw & _) Hpc] _ IH]; [done|]. destruct l as [|w' l].
  - cbn. by rewrite pathUnescape_plain.
  - transitivity (Some (pathUnescape w) :: request_segs ((w' :: l) ++ [[]])); [done|].
    by rewrite pathUnescape_plain, IH.
Qed.

Lemma count_slashes l :
  Forall plain l → l ≠ [] → length (filter (λ b, b = slash) (slash :: strings_Join slash l)) = length l.
Proof.
  assert (∀ k, slash ∉ k → filter (λ b, b = slash) k = []) as Hk.
  { intros k. induction k as [|b k IH]; [done|]. intros [Hb Hk]%not_elem_of_cons.
    rewrite filter_cons_False by (intros ->; by apply Hb). by apply IH. }
  intros Hl Hn. induction Hl as [|w l (_ & _ & _ & Hw) Hl IH]; [done|]. destruct l as [|w' l].
  - cbn [strings_Join]. rewrite filter_cons_True by done. by rewrite Hk.
  - change (strings_Join slash (w :: w' :: l)) with (w ++ slash :: strings_Join slash (w' :: l)).
    rewrite filter_cons_True, filter_app, Hk by done. cbn [app length]. by rewrite IH.
Qed.

(** A clean path that falls under a pattern with a rest reaches its handler,
    unless a slash at the end would make the rest empty. *)
Lemma find_rest (x : mux H) method l segs h ms ms' :
  method ≠ lit "CONNECT" → Forall (λ w, plain w ∧ percent ∉ w) l → l ≠ [] →
  tree_match_segs x method (Some <$> l) = Some ((segs, h), ms) →
  tree_match_segs x method ((Some <$> l) ++ [None]) = Some ((segs, h), ms') →
  last segs = Some SRest → length segs ≤ length l →
  findHandler x method (slash :: strings_Join slash l) = Handler h ms.
Proof.
  intros Hm Hl Hn Ht Ht' Hr Hlen. assert (Forall plain l) as Hp by (eapply Forall_impl; [exact Hl|]; by intros w []).
  unfold findHandler. rewrite (bool_decide_false (method = _)) by done. cbv zeta. rewrite cleanPath_plain by done.
  assert (redirects x method (slash :: strings_Join slash l) = false) as ->.
  { unfold redirects, tree_match. apply andb_false_intro2. rewrite path_segs_slash, Ht' by done.
    cbn [exactMatch]. rewrite (bool_decide_true (last segs = _)) by done. cbn [negb].
    assert (ends_slash ((slash :: strings_Join slash l) ++ [slash]) = true) as ->.
    { unfold ends_slash. rewrite last_snoc. by apply bool_decide_true. }
    rewrite andb_false_r. apply bool_decide_false. rewrite filter_app, length_app, count_slashes by done.
    change (length (filter (λ b, b = slash) [slash])) with 1. lia. }
  unfold tree_match. rewrite path_segs_plain, Ht by done. by rewrite (bool_decide_true (_ = _)).
Qed.

(** A literal that no pattern has at a node. *)
Lemma child_other k (n : node H) : Forall (λ p, head p.1 ≠ Some (SLit k)) n → child (SLit k) n = [].
Proof.
  unfold child. induction 1 as [|[l h] n Hp _ IH]; [done|]. cbn. destruct l as [|t l]; cbn in *; [done|].
  rewrite bool_decide_false; [done|]. by intros ->; apply Hp.
Qed.
End Exact.
