(* ===== verification/Signal.v ===== *)
(** * Signal envelopes (signal/signal.go)

    The binary envelope every message between two peers travels in: marker,
    type, sender key, message id, content. [New] fills a zeroed buffer at a
    running offset and [Parse] reads at a running offset, both with Go's
    bounds checks, so that an out-of-range access is a [Panic]. *)

From S2P Require Import Prelude Config Keys.

Abbreviation UUID := (vec byte 16).

(** [uuid.Nil] *)
Definition NilUUID : UUID := vreplicate 16 x00.
Global Arguments NilUUID : simpl never.

Module signal.

(** [Type] is a string type: [Parse] may yield values outside the constants. *)
Abbreviation Type_ := (list byte) (only parsing).

Definition Message : Type_ := lit "message".
Definition Delete : Type_ := lit "delete".
Definition Update : Type_ := lit "update".
Definition FileMeta : Type_ := lit "file_meta".
Definition KeyExchange : Type_ := lit "key_exchange".
Definition InfoRequest : Type_ := lit "info_request".
Definition InfoResponse : Type_ := lit "info_response".
Definition InfoChanged : Type_ := lit "info_changed".
Definition PeerAccepted : Type_ := lit "peer_accepted".

Record Signal := MkSignal {
  Type' : Type_;
  From : Key;
  ID : UUID;
  Content : bytes
}.

Definition Marker : byte := x01.
Definition headerPrefixLen : Z := 3.

Definition u16Vrf (n : Z) : outcome Z :=
  if ((n <? 0) || (n >? MaxUint16))%Z then Err (ENew "signal: length exceeds uint16") else Ret n.

Definition u32Vrf (n : Z) : outcome Z :=
  if ((n <? 0) || (n >? MaxUint32))%Z then Err (ENew "signal: length exceeds uint32") else Ret n.

Definition New (typ : Type_) (from : Key) (id : UUID) (content : bytes) : outcome bytes :=
  let typeBytes := typ in
  let buf := zeros (1 + 2 + length typeBytes + 32 + 16 + 4 + length content) in
  let off := 0%Z in
  buf ← set_at buf off Marker;
  let off := (off + 1)%Z in
  tpbt ← u16Vrf (len typeBytes);
  buf ← put_uint_at 2 buf off tpbt;
  let off := (off + 2)%Z in
  buf ← copy_at buf off typeBytes;
  let off := (off + len typeBytes)%Z in
  buf ← copy_at buf off (vec_to_list from);
  let off := (off + AesKeySize)%Z in
  buf ← copy_at buf off (vec_to_list id);
  let off := (off + 16)%Z in
  ctn ← u32Vrf (len content);
  buf ← put_uint_at 4 buf off ctn;
  let off := (off + 4)%Z in
  copy_at buf off content.

Definition Parse (data : bytes) : outcome Signal :=
  if (len data <? headerPrefixLen)%Z then Err (ENew "signal: buffer too short for header") else
  let off := 0%Z in
  b ← index data off;
  if negb (bool_decide (b = Marker)) then Err (ENew "signal: missing marker byte") else
  let off := (off + 1)%Z in
  typeLen ← uint_at 2 data off;
  let off := (off + 2)%Z in
  if (len data <? off + typeLen + AesKeySize + 16 + 4)%Z
  then Err (ENew "signal: buffer too short for header") else
  typ ← slice data off (off + typeLen);
  let off := (off + typeLen)%Z in
  from ← slice data off (off + AesKeySize);
  let off := (off + AesKeySize)%Z in
  id ← slice data off (off + 16);
  let off := (off + 16)%Z in
  contentLen ← uint_at 4 data off;
  let off := (off + 4)%Z in
  if (len data - off <? contentLen)%Z
  then Err (EFmt "signal: content length mismatch: want, have" [contentLen; (len data - off)%Z]) else
  content ← slice data off (off + contentLen);
  Ret (MkSignal typ (array_of 32 from) (array_of 16 id) content).

(** ** Specification: the layout of an envelope *)

Definition layout (s : Signal) : bytes :=
  [Marker] ++ be_put 2 (len (Type' s)) ++ Type' s ++ vec_to_list (From s) ++
  vec_to_list (ID s) ++ be_put 4 (len (Content s)) ++ Content s.

(** The lengths fit their wire fields. *)
Definition fits (s : Signal) : Prop :=
  (len (Type' s) <= MaxUint16)%Z ∧ (len (Content s) <= MaxUint32)%Z.

Global Instance fits_dec s : Decision (fits s).
Proof. apply _. Defined.

(** ** Lemmas *)

Lemma u16Vrf_ok n : (0 <= n <= MaxUint16)%Z → u16Vrf n = Ret n.
Proof.
  intros. unfold u16Vrf. rewrite Z.gtb_ltb.
  by rewrite (proj2 (Z.ltb_ge _ _)), (proj2 (Z.ltb_ge _ _)) by lia.
Qed.

Lemma u32Vrf_ok n : (0 <= n <= MaxUint32)%Z → u32Vrf n = Ret n.
Proof.
  intros. unfold u32Vrf. rewrite Z.gtb_ltb.
  by rewrite (proj2 (Z.ltb_ge _ _)), (proj2 (Z.ltb_ge _ _)) by lia.
Qed.

Lemma New_layout s :
  fits s → New (Type' s) (From s) (ID s) (Content s) = Ret (layout s).
Proof.
  destruct s as [typ from id content]. intros [Ht Hc]. cbn [Type' Content] in *.
  unfold New, layout, AesKeySize. cbn [Type' From ID Content].
  change (zeros ?n) with ([] ++ zeros n).
  fill_step. rewrite u16Vrf_ok by solve_len. cbn [mbind outcome_bind].
  fill_step. fill_step. fill_step. fill_step.
  rewrite u32Vrf_ok by solve_len. cbn [mbind outcome_bind]. fill_step. fill_step.
  fill_done.
Qed.

Lemma New_type_too_long typ from id content :
  (MaxUint16 < len typ)%Z →
  New typ from id content = Err (ENew "signal: length exceeds uint16").
Proof.
  intros Ht. unfold New. change (zeros ?n) with ([] ++ zeros n). fill_step.
  unfold u16Vrf. by rewrite Z.gtb_ltb, (proj2 (Z.ltb_lt MaxUint16 _)), orb_true_r by done.
Qed.

Lemma New_content_too_long typ from id content :
  (len typ <= MaxUint16)%Z → (MaxUint32 < len content)%Z →
  New typ from id content = Err (ENew "signal: length exceeds uint32").
Proof.
  intros Ht Hc. unfold New, AesKeySize. change (zeros ?n) with ([] ++ zeros n). fill_step.
  rewrite u16Vrf_ok by (pose proof (len_nonneg typ); lia). cbn [mbind outcome_bind].
  do 4 fill_step. unfold u32Vrf.
  by rewrite Z.gtb_ltb, (proj2 (Z.ltb_lt MaxUint32 _)), orb_true_r by done.
Qed.

Lemma New_ret_inv typ from id content buf :
  New typ from id content = Ret buf →
  fits (MkSignal typ from id content) ∧ buf = layout (MkSignal typ from id content).
Proof.
  intros Hn. assert (fits (MkSignal typ from id content)) as Hf.
  { unfold fits. cbn [Type' Content].
    destruct (Z.le_gt_cases (len typ) MaxUint16); [|by rewrite New_type_too_long in Hn by lia].
    destruct (Z.le_gt_cases (len content) MaxUint32); [done|].
    by rewrite New_content_too_long in Hn by lia. }
  split; [done|]. pose proof (New_layout _ Hf) as Hn'. cbn [Type' From ID Content] in Hn'.
  congruence.
Qed.

Lemma Parse_layout s tr : fits s → Parse (layout s ++ tr) = Ret s.
Proof.
  destruct s as [typ from id content]. intros [Ht Hc]. cbn [Type' Content] in *.
  unfold MaxUint16, MaxUint32 in *.
  remember (layout _ ++ tr) as data eqn:H. unfold layout in H. cbn [Type' From ID Content] in H.
  rewrite <-!app_assoc in H.
  assert (len data = 55 + len typ + len content + len tr)%Z as Hl by (subst data; solve_len).
  unfold Parse, headerPrefixLen, AesKeySize. rewrite Hl.
  rewrite (proj2 (Z.ltb_ge _ _)) by solve_len.
  assert (index data 0 = Ret Marker) as -> by (by subst data).
  cbn [mbind outcome_bind]. rewrite bool_decide_true by done. cbn [negb].
  read_step H. rewrite (proj2 (Z.ltb_ge _ _)) by solve_len.
  read_step H. read_step H. read_step H. read_step H.
  rewrite (proj2 (Z.ltb_ge _ _)) by solve_len. read_step H.
  by rewrite !array_of_vec.
Qed.

(** On every buffer [Parse] either returns an error or returns an envelope
    whose layout the buffer starts with. *)
Lemma Parse_post data : post (λ s, fits s ∧ ∃ tr, data = layout s ++ tr) (Parse data).
Proof.
  unfold Parse, headerPrefixLen, AesKeySize.
  destruct (Z.ltb_spec (len data) 3) as [|Hlen]; [done|].
  destruct data as [|b rest]; [by cbv in Hlen|].
  assert (index (b :: rest) 0 = Ret b) as -> by done. cbn [mbind outcome_bind].
  case_bool_decide as Hb; cbn [negb]; [subst b|done].
  remember (Marker :: rest) as data eqn:H. change (Marker :: rest) with ([Marker] ++ rest) in H.
  cursor H as tl Htl.
  destruct (Z.ltb_spec (len data) (0 + 1 + 2 + tl + 32 + 16 + 4)) as [|Hlen']; [done|].
  cursor H as typ Htyp. cursor H as from Hfrom. cursor H as id Hid. cursor H as cl Hcl.
  destruct (Z.ltb_spec (len data - (0 + 1 + 2 + tl + 32 + 16 + 4)) cl) as [|Hlen'']; [done|].
  cursor H as content Hcontent. cbn [post]. split.
  - unfold fits, MaxUint16, MaxUint32. cbn [Type' Content]. lia.
  - eexists. rewrite H. unfold layout. cbn [Type' From ID Content].
    rewrite !array_cursor, Htyp, Hcontent by done. by rewrite <-!app_assoc.
Qed.

(** ** Properties *)

(** [New] on every input: an envelope whose type or content does not fit
    its length field is refused with the matching error (the type is checked
    first); any other yields exactly the specified layout, and the writes into
    the preallocated buffer never run out of bounds. *)
Theorem New_correct (typ : list byte) (from : Key) (id : UUID) (content : bytes) :
  New typ from id content =
    if (len typ >? MaxUint16)%Z then Err (ENew "signal: length exceeds uint16")
    else if (len content >? MaxUint32)%Z then Err (ENew "signal: length exceeds uint32")
    else Ret (layout (MkSignal typ from id content)).
Proof.
  rewrite !Z.gtb_ltb.
  destruct (Z.ltb_spec MaxUint16 (len typ)); [by apply New_type_too_long|].
  destruct (Z.ltb_spec MaxUint32 (len content)); [by apply New_content_too_long|].
  by apply (New_layout (MkSignal typ from id content)).
Qed.

(** C32: [Parse] accepts exactly the buffers that start with the layout of an
    envelope, and returns that envelope; bytes after the content are ignored. *)
Theorem Parse_correct (data : bytes) (s : Signal) :
  Parse data = Ret s ↔ ∃ tr, data = layout s ++ tr ∧ fits s.
Proof.
  split; [|intros (tr & -> & Hf); by apply Parse_layout].
  intros Hp. destruct (post_ret _ _ _ (Parse_post data) Hp) as [? [tr ?]]. eauto.
Qed.

(** [Parse] of an arbitrary (possibly hostile) buffer never panics. *)
Theorem Parse_no_panic (data : bytes) : is_panic (Parse data) = false.
Proof. eapply post_no_panic, Parse_post. Qed.

(** What [New] builds, [Parse] reads back, whatever bytes follow it. *)
Theorem Parse_New (typ : list byte) (from : Key) (id : UUID) (content buf tr : bytes) :
  New typ from id content = Ret buf →
  Parse (buf ++ tr) = Ret (MkSignal typ from id content).
Proof.
  intros [Hf ->]%New_ret_inv. by apply Parse_layout.
Qed.

Lemma Parse_New_witness :
  Parse (layout (MkSignal Delete NilKey NilUUID (lit "bye")) ++ lit "junk")
    = Ret (MkSignal Delete NilKey NilUUID (lit "bye")).
Proof. apply Parse_New. vm_compute. reflexivity. Defined.

End signal.
