(* ===== verification/Message.v ===== *)
(** * Message codec (message/message.go)

    The binary form of a chat message and its attachments, as stored in the
    database and sent inside a [signal.Message] envelope. Encoder and decoder
    follow the source: a preallocated buffer filled at a running offset, reads
    guarded by explicit length checks, and the width conversions that panic.

    A [time.Time] is its number of nanoseconds since the Unix epoch. *)

From S2P Require Import Prelude Config Keys Signal.

Abbreviation Time := Z (only parsing).

Module message.

Definition idSize : Z := 16.
Definition u16Size : Z := 2.
Definition u32Size : Z := 4.
Definition u64Size : Z := 8.
Definition timeFieldSize : Z := 8.

(** [t.UnixNano()]: computed in [int64] arithmetic. *)
Definition UnixNano (t : Time) : Z := wrap64 t.
(** [time.Unix(0, n).UTC()] *)
Definition time_Unix0 (n : Z) : Time := n.

(** [toWireUint[T]] at the type [T] whose largest value is [maxV]. *)
Definition toWireUint (maxV n : Z) : outcome Z :=
  if (n <? 0)%Z then Panic "message: negative value cannot be encoded as unsigned"
  else if (n >? maxV)%Z then Panic "message: value overflows"
  else Ret n.

Definition toInt64 (n : Z) : outcome Z :=
  if (n >? MaxInt64)%Z then Panic "message: value overflows int64" else Ret n.

Record Attachment := MkAttachment {
  AttID : UUID;
  Name : gostring;
  MIMEType : gostring;
  Size : Z;
  Data : bytes
}.

Record Message := MkMessage {
  MsgID : UUID;
  FromPubKey : Key;
  To : gostring;
  MsgContent : gostring;
  MsgTime : Time;
  CreatedAt : Time;
  UpdatedAt : Time;
  Attachments : list Attachment
}.

(** [NewMessage]: the id is a fresh [uuid.New()], the times are [time.Now()]. *)
Definition NewMessage (newID : UUID) (now : Time) (to content : gostring)
    (attachments : list Attachment) : Message :=
  MkMessage newID NilKey to content now now now attachments.

Definition attachmentEncodedSize (a : Attachment) : nat :=
  16 + 2 + length (Name a) + 2 + length (MIMEType a) + 8 + 4 + length (Data a).

Definition encodeAttachment (buf : bytes) (off : Z) (a : Attachment) : outcome (bytes * Z) :=
  buf ← copy_at buf off (vec_to_list (AttID a));
  let off := (off + idSize)%Z in
  let nameBytes := Name a in
  w ← toWireUint MaxUint16 (len nameBytes);
  buf ← put_uint_at 2 buf off w;
  let off := (off + u16Size)%Z in
  buf ← copy_at buf off nameBytes;
  let off := (off + len nameBytes)%Z in
  let mimeBytes := MIMEType a in
  w ← toWireUint MaxUint16 (len mimeBytes);
  buf ← put_uint_at 2 buf off w;
  let off := (off + u16Size)%Z in
  buf ← copy_at buf off mimeBytes;
  let off := (off + len mimeBytes)%Z in
  w ← toWireUint MaxUint64 (Size a);
  buf ← put_uint_at 8 buf off w;
  let off := (off + u64Size)%Z in
  w ← toWireUint MaxUint32 (len (Data a));
  buf ← put_uint_at 4 buf off w;
  let off := (off + u32Size)%Z in
  buf ← copy_at buf off (Data a);
  let off := (off + len (Data a))%Z in
  Ret (buf, off).

(** [for _, a := range m.Attachments { off = encodeAttachment(buf, off, a) }] *)
Fixpoint encodeAttachments (buf : bytes) (off : Z) (l : list Attachment) : outcome bytes :=
  match l with
  | [] => Ret buf
  | a :: l' => '(buf, off) ← encodeAttachment buf off a; encodeAttachments buf off l'
  end.

Definition encodedSize (m : Message) : nat :=
  16 + 32 + 2 + length (To m) + 4 + length (MsgContent m) + 8 + 8 + 8 + 2 +
  sum_list (attachmentEncodedSize <$> Attachments m).

Definition Encode (m : Message) : outcome bytes :=
  let toBytes := To m in
  let contentBytes := MsgContent m in
  let buf := zeros (encodedSize m) in
  let off := 0%Z in
  buf ← copy_at buf off (vec_to_list (MsgID m));
  let off := (off + idSize)%Z in
  buf ← copy_at buf off (vec_to_list (FromPubKey m));
  let off := (off + AesKeySize)%Z in
  w ← toWireUint MaxUint16 (len toBytes);
  buf ← put_uint_at 2 buf off w;
  let off := (off + u16Size)%Z in
  buf ← copy_at buf off toBytes;
  let off := (off + len toBytes)%Z in
  w ← toWireUint MaxUint32 (len contentBytes);
  buf ← put_uint_at 4 buf off w;
  let off := (off + u32Size)%Z in
  buf ← copy_at buf off contentBytes;
  let off := (off + len contentBytes)%Z in
  w ← toWireUint MaxUint64 (UnixNano (MsgTime m));
  buf ← put_uint_at 8 buf off w;
  let off := (off + timeFieldSize)%Z in
  w ← toWireUint MaxUint64 (UnixNano (CreatedAt m));
  buf ← put_uint_at 8 buf off w;
  let off := (off + timeFieldSize)%Z in
  w ← toWireUint MaxUint64 (UnixNano (UpdatedAt m));
  buf ← put_uint_at 8 buf off w;
  let off := (off + timeFieldSize)%Z in
  w ← toWireUint MaxUint16 (len (Attachments m));
  buf ← put_uint_at 2 buf off w;
  let off := (off + u16Size)%Z in
  encodeAttachments buf off (Attachments m).

Definition decodeAttachment (data : bytes) (off : Z) : outcome (Attachment * Z) :=
  if (len data <? off + idSize + u16Size)%Z
  then Err (ENew "message: buffer truncated at attachment id") else
  id ← slice data off (off + idSize);
  let off := (off + idSize)%Z in
  nameLen ← uint_at 2 data off;
  let off := (off + u16Size)%Z in
  if (len data <? off + nameLen + u16Size)%Z
  then Err (ENew "message: buffer truncated at attachment name") else
  name ← slice data off (off + nameLen);
  let off := (off + nameLen)%Z in
  mimeLen ← uint_at 2 data off;
  let off := (off + u16Size)%Z in
  if (len data <? off + mimeLen + u64Size + u32Size)%Z
  then Err (ENew "message: buffer truncated at attachment mime") else
  mime ← slice data off (off + mimeLen);
  let off := (off + mimeLen)%Z in
  rawSize ← uint_at 8 data off;
  size ← toInt64 rawSize;
  let off := (off + u64Size)%Z in
  dataLen ← uint_at 4 data off;
  let off := (off + u32Size)%Z in
  if (len data <? off + dataLen)%Z
  then Err (ENew "message: buffer truncated at attachment data") else
  if (dataLen >? 0)%Z then
    d ← slice data off (off + dataLen);
    Ret (MkAttachment (array_of 16 id) name mime size d, (off + dataLen)%Z)
  else Ret (MkAttachment (array_of 16 id) name mime size [], off).

(** [for range attCount { ... m.Attachments = append(m.Attachments, a) }] *)
Fixpoint decodeAttachments (n : nat) (data : bytes) (off : Z) : outcome (list Attachment) :=
  match n with
  | O => Ret []
  | S n' =>
      '(a, off) ← decodeAttachment data off;
      rest ← decodeAttachments n' data off;
      Ret (a :: rest)
  end.

Definition ToMessage (data : bytes) : outcome Message :=
  let off := 0%Z in
  if (len data <? idSize + AesKeySize + u16Size)%Z
  then Err (ENew "message: buffer too short for header") else
  id ← slice data off (off + idSize);
  let off := (off + idSize)%Z in
  from ← slice data off (off + AesKeySize);
  let off := (off + AesKeySize)%Z in
  dLen ← uint_at 2 data off;
  let off := (off + u16Size)%Z in
  if (len data <? off + dLen + u32Size)%Z
  then Err (ENew "message: buffer truncated at to") else
  to ← slice data off (off + dLen);
  let off := (off + dLen)%Z in
  contentLen ← uint_at 4 data off;
  let off := (off + u32Size)%Z in
  if (len data <? off + contentLen + 3 * timeFieldSize + u16Size)%Z
  then Err (ENew "message: buffer truncated at content") else
  content ← slice data off (off + contentLen);
  let off := (off + contentLen)%Z in
  raw ← uint_at 8 data off;
  nanos ← toInt64 raw;
  let off := (off + timeFieldSize)%Z in
  raw ← uint_at 8 data off;
  createdNanos ← toInt64 raw;
  let off := (off + timeFieldSize)%Z in
  raw ← uint_at 8 data off;
  updatedNanos ← toInt64 raw;
  let off := (off + timeFieldSize)%Z in
  attCount ← uint_at 2 data off;
  let off := (off + u16Size)%Z in
  atts ← decodeAttachments (Z.to_nat attCount) data off;
  Ret (MkMessage (array_of 16 id) (array_of 32 from) to content
    (time_Unix0 nanos) (time_Unix0 createdNanos) (time_Unix0 updatedNanos) atts).

(** [searchText]: the text a message is indexed under. *)
Definition searchText (m : Message) : gostring :=
  MsgContent m ++
  concat ((λ a, if bool_decide (Name a = []) then [] else lit " " ++ Name a) <$> Attachments m).

(** ** Specification: the layout of a message *)

Definition att_layout (a : Attachment) : bytes :=
  vec_to_list (AttID a) ++ be_put 2 (len (Name a)) ++ Name a ++
  be_put 2 (len (MIMEType a)) ++ MIMEType a ++ be_put 8 (Size a) ++
  be_put 4 (len (Data a)) ++ Data a.

(** The header, with the three raw time fields and the attachment count. *)
Definition head_layout (id : UUID) (from : Key) (to content : bytes) (t c u n : Z) : bytes :=
  vec_to_list id ++ vec_to_list from ++ be_put 2 (len to) ++ to ++
  be_put 4 (len content) ++ content ++ be_put 8 t ++ be_put 8 c ++ be_put 8 u ++ be_put 2 n.

Definition layout (m : Message) : bytes :=
  head_layout (MsgID m) (FromPubKey m) (To m) (MsgContent m) (UnixNano (MsgTime m))
    (UnixNano (CreatedAt m)) (UnixNano (UpdatedAt m)) (len (Attachments m)) ++
  concat (att_layout <$> Attachments m).

(** What fits the wire fields. *)
Definition att_ok (a : Attachment) : Prop :=
  (len (Name a) <= MaxUint16 ∧ len (MIMEType a) <= MaxUint16 ∧
   0 <= Size a <= MaxInt64 ∧ len (Data a) <= MaxUint32)%Z.

Definition encodable (m : Message) : Prop :=
  (len (To m) <= MaxUint16 ∧ len (MsgContent m) <= MaxUint32 ∧
   0 <= UnixNano (MsgTime m) ∧ 0 <= UnixNano (CreatedAt m) ∧ 0 <= UnixNano (UpdatedAt m) ∧
   len (Attachments m) <= MaxUint16)%Z ∧ Forall att_ok (Attachments m).

(** Times a message carries over the wire without aliasing (1970 to 2262). *)
Definition time_ok (t : Time) : Prop := (0 <= t <= MaxInt64)%Z.
Definition times_ok (m : Message) : Prop :=
  time_ok (MsgTime m) ∧ time_ok (CreatedAt m) ∧ time_ok (UpdatedAt m).

Global Instance att_ok_dec a : Decision (att_ok a).
Proof. apply _. Defined.
Global Instance encodable_dec m : Decision (encodable m).
Proof. apply _. Defined.

(** ** Lemmas: the encoder *)

Lemma toWireUint_ok maxV n : (0 <= n <= maxV)%Z → toWireUint maxV n = Ret n.
Proof.
  intros. unfold toWireUint. rewrite Z.gtb_ltb.
  by rewrite (proj2 (Z.ltb_ge n 0)), (proj2 (Z.ltb_ge maxV n)) by lia.
Qed.

Lemma toWireUint_bad maxV n : (n < 0 ∨ maxV < n)%Z → is_panic (toWireUint maxV n) = true.
Proof.
  intros. unfold toWireUint. rewrite Z.gtb_ltb.
  destruct (Z.ltb_spec n 0); [done|]. destruct (Z.ltb_spec maxV n); [done|]. lia.
Qed.

Lemma toInt64_ok n : (n <= MaxInt64)%Z → toInt64 n = Ret n.
Proof. intros. unfold toInt64. by rewrite Z.gtb_ltb, (proj2 (Z.ltb_ge _ _)) by lia. Qed.

Lemma UnixNano_range t : (MinInt64 <= UnixNano t <= MaxInt64)%Z.
Proof. apply wrap64_range. Qed.

Lemma UnixNano_id t : time_ok t → UnixNano t = t.
Proof. intros [? ?]. apply wrap64_small. unfold MinInt64. lia. Qed.

Ltac wire :=
  lazymatch goal with
  | |- mbind _ (toWireUint ?maxV ?n) = _ =>
      rewrite (toWireUint_ok maxV n) by first [done | solve_len]
  end; cbn [mbind outcome_bind].

Lemma length_att_layout a : length (att_layout a) = attachmentEncodedSize a.
Proof. unfold att_layout, attachmentEncodedSize. simpl_len. lia. Qed.

Lemma encodeAttachment_layout done_ k off a :
  att_ok a → off = len done_ → attachmentEncodedSize a ≤ k →
  encodeAttachment (done_ ++ zeros k) off a =
    Ret ((done_ ++ att_layout a) ++ zeros (k - attachmentEncodedSize a),
         (off + len (att_layout a))%Z).
Proof.
  destruct a as [id name mime size d]. intros (Hn & Hm & Hs & Hd) -> Hk.
  unfold encodeAttachment, attachmentEncodedSize, idSize, u16Size, u32Size, u64Size in *.
  cbn [AttID Name MIMEType Size Data] in *.
  unfold MaxUint16, MaxUint32, MaxInt64 in *.
  fill_step. wire. fill_step. fill_step. wire. fill_step. fill_step.
  rewrite (toWireUint_ok MaxUint64) by (unfold MaxUint64; lia). cbn [mbind outcome_bind].
  fill_step. wire. fill_step. fill_step.
  do 2 f_equal; [|unfold att_layout; cbn [AttID Name MIMEType Size Data]; solve_len].
  unfold att_layout. cbn [AttID Name MIMEType Size Data]. rewrite <-!app_assoc.
  do 8 f_equal. simpl_len. f_equal. f_equal. lia.
Qed.

Lemma encodeAttachments_layout l done_ k off :
  Forall att_ok l → off = len done_ → k = sum_list (attachmentEncodedSize <$> l) →
  encodeAttachments (done_ ++ zeros k) off l = Ret (done_ ++ concat (att_layout <$> l)).
Proof.
  intros Hl. revert done_ k off. induction Hl as [|a l Ha Hl IH]; intros done_ k off Hoff Hk.
  - subst k. cbn. change (zeros 0) with (@nil byte). by rewrite app_nil_r.
  - cbn -[attachmentEncodedSize] in Hk. cbn [encodeAttachments].
    rewrite encodeAttachment_layout by (done || lia). cbn [mbind outcome_bind].
    rewrite IH; [|solve_len|lia]. cbn. by rewrite <-app_assoc.
Qed.

Lemma Encode_layout m : encodable m → Encode m = Ret (layout m).
Proof.
  destruct m as [id from to content t c u atts].
  intros [(Hto & Hco & Ht & Hc & Hu & Hn) Hatts].
  unfold Encode, encodedSize, layout, head_layout, idSize, u16Size, u32Size, timeFieldSize, AesKeySize.
  cbn [MsgID FromPubKey To MsgContent MsgTime CreatedAt UpdatedAt Attachments] in *.
  pose proof (UnixNano_range t) as Rt. pose proof (UnixNano_range c) as Rc.
  pose proof (UnixNano_range u) as Ru.
  unfold MaxUint16, MaxUint32, MaxUint64, MaxInt64 in *. change (zeros ?n) with ([] ++ zeros n).
  fill_step. fill_step. wire. fill_step. fill_step. wire. fill_step. fill_step.
  do 3 (wire; fill_step).
  wire. fill_step.
  rewrite encodeAttachments_layout; [by rewrite <-!app_assoc|done|solve_len|].
  simpl_len. lia.
Qed.

Lemma wire_cases maxV n :
  ((0 <= n <= maxV)%Z ∧ toWireUint maxV n = Ret n) ∨
  (¬ (0 <= n <= maxV)%Z ∧ ∃ s, toWireUint maxV n = Panic s).
Proof.
  destruct (decide (0 <= n <= maxV)%Z) as [H|H]; [left|right]; (split; [done|]).
  - by apply toWireUint_ok.
  - pose proof (toWireUint_bad maxV n ltac:(lia)) as Hp.
    destruct (toWireUint maxV n); try done. eauto.
Qed.

Ltac wire_or_panic :=
  lazymatch goal with
  | |- is_panic (mbind _ (toWireUint ?maxV ?n)) = true =>
      destruct (wire_cases maxV n) as [[? ->]|[? [? ->]]]; cbn [mbind outcome_bind]; [|done]
  end.

(** A value that does not fit its field makes the encoder panic. *)
Lemma encodeAttachment_panic done_ k off a :
  (Size a <= MaxInt64)%Z → ¬ att_ok a → off = len done_ → attachmentEncodedSize a ≤ k →
  is_panic (encodeAttachment (done_ ++ zeros k) off a) = true.
Proof.
  destruct a as [id name mime size d]. intros Hs Hbad -> Hk.
  unfold encodeAttachment, attachmentEncodedSize, att_ok, idSize, u16Size, u32Size, u64Size in *.
  cbn [AttID Name MIMEType Size Data] in *.
  fill_step. wire_or_panic. fill_step. fill_step. wire_or_panic. fill_step. fill_step.
  wire_or_panic. fill_step. wire_or_panic. exfalso. apply Hbad. lia.
Qed.

Lemma encodeAttachments_panic l done_ k off :
  Forall (λ a, Size a <= MaxInt64)%Z l → ¬ Forall att_ok l → off = len done_ →
  k = sum_list (attachmentEncodedSize <$> l) →
  is_panic (encodeAttachments (done_ ++ zeros k) off l) = true.
Proof.
  intros Hl. revert done_ k off. induction Hl as [|a l Ha Hl IH]; intros done_ k off Hbad Hoff Hk.
  - by destruct Hbad.
  - cbn -[attachmentEncodedSize] in Hk. cbn [encodeAttachments].
    destruct (decide (att_ok a)) as [Hok|Hok].
    + rewrite encodeAttachment_layout by (done || lia). cbn [mbind outcome_bind].
      apply IH; [|solve_len|lia]. intros Hall. apply Hbad. by constructor.
    + pose proof (encodeAttachment_panic done_ k off a Ha Hok Hoff ltac:(lia)) as Hp.
      by destruct (encodeAttachment (done_ ++ zeros k) off a).
Qed.

Lemma Encode_panic m :
  Forall (λ a, Size a <= MaxInt64)%Z (Attachments m) → ¬ encodable m →
  is_panic (Encode m) = true.
Proof.
  destruct m as [id from to content t c u atts]. intros Hs Hbad.
  unfold Encode, encodedSize, encodable, idSize, u16Size, u32Size, timeFieldSize, AesKeySize in *.
  cbn [MsgID FromPubKey To MsgContent MsgTime CreatedAt UpdatedAt Attachments] in *.
  change (zeros ?n) with ([] ++ zeros n).
  fill_step. fill_step. wire_or_panic. fill_step. fill_step. wire_or_panic. fill_step. fill_step.
  wire_or_panic. fill_step. wire_or_panic. fill_step. wire_or_panic. fill_step.
  wire_or_panic. fill_step.
  apply encodeAttachments_panic; [done| |solve_len|simpl_len; lia].
  intros Hall. apply Hbad. split; [lia|done].
Qed.

(** ** Lemmas: the decoder on what the encoder wrote *)

Lemma decodeAttachment_layout data pre a post off :
  data = pre ++ att_layout a ++ post → off = len pre → att_ok a →
  decodeAttachment data off = Ret (a, (off + len (att_layout a))%Z).
Proof.
  destruct a as [id name mime size d]. intros H -> (Hn & Hm & Hs & Hd).
  assert (len data = len pre + len (att_layout (MkAttachment id name mime size d)) + len post)%Z as Hl
    by (subst data; solve_len).
  unfold decodeAttachment, att_layout, idSize, u16Size, u32Size, u64Size in *.
  cbn [AttID Name MIMEType Size Data] in *. unfold MaxUint16, MaxUint32, MaxInt64 in *.
  revert Hl. simpl_len. intros Hl. rewrite Hl. rewrite <-!app_assoc in H.
  rewrite (proj2 (Z.ltb_ge _ _)) by solve_len. read_step H. read_step H.
  rewrite (proj2 (Z.ltb_ge _ _)) by solve_len. read_step H. read_step H.
  rewrite (proj2 (Z.ltb_ge _ _)) by solve_len. read_step H. read_step H.
  rewrite toInt64_ok by (unfold MaxInt64; lia). cbn [mbind outcome_bind]. read_step H.
  rewrite (proj2 (Z.ltb_ge _ _)) by solve_len. rewrite Z.gtb_ltb.
  destruct (Z.ltb_spec 0 (len d)) as [|Hd0].
  - read_step H. rewrite array_of_vec. do 2 f_equal. solve_len.
  - rewrite array_of_vec. rewrite (len_0_nil d) by (pose proof (len_nonneg d); lia).
    do 2 f_equal. solve_len.
Qed.

Lemma decodeAttachments_layout l data pre post off :
  data = pre ++ concat (att_layout <$> l) ++ post → off = len pre → Forall att_ok l →
  decodeAttachments (length l) data off = Ret l.
Proof.
  intros H Hoff Hl. revert pre off H Hoff. induction Hl as [|a l Ha Hl IH]; intros pre off H Hoff; [done|].
  cbn [length decodeAttachments]. cbn in H. rewrite <-app_assoc in H.
  rewrite (decodeAttachment_layout _ _ _ _ _ H) by done. cbn [mbind outcome_bind].
  rewrite app_assoc in H. rewrite (IH _ _ H) by solve_len. done.
Qed.

(** The message read back: the times that the [int64] field holds. *)
Definition stored_times (m : Message) : Message :=
  MkMessage (MsgID m) (FromPubKey m) (To m) (MsgContent m) (UnixNano (MsgTime m))
    (UnixNano (CreatedAt m)) (UnixNano (UpdatedAt m)) (Attachments m).

Lemma stored_times_id m : times_ok m → stored_times m = m.
Proof. destruct m. intros (?&?&?). unfold stored_times. cbn in *. by rewrite !UnixNano_id. Qed.

Lemma ToMessage_layout m tr : encodable m → ToMessage (layout m ++ tr) = Ret (stored_times m).
Proof.
  destruct m as [id from to content t c u atts].
  intros [(Hto & Hco & Ht & Hc & Hu & Hn) Hatts].
  pose proof (UnixNano_range t) as Rt. pose proof (UnixNano_range c) as Rc.
  pose proof (UnixNano_range u) as Ru.
  remember (layout _ ++ tr) as data eqn:H.
  assert (len data = len (layout (MkMessage id from to content t c u atts)) + len tr)%Z as Hl
    by (subst data; solve_len).
  unfold layout, head_layout, ToMessage, stored_times, idSize, u16Size, u32Size, timeFieldSize, AesKeySize in *.
  cbn [MsgID FromPubKey To MsgContent MsgTime CreatedAt UpdatedAt Attachments] in *.
  unfold MaxUint16, MaxUint32, MaxInt64 in *.
  revert Hl. simpl_len. intros Hl. rewrite Hl. rewrite <-!app_assoc in H.
  rewrite (proj2 (Z.ltb_ge _ _)) by solve_len. rewrite <-(app_nil_l (_ ++ _)) in H.
  read_step H. read_step H. read_step H.
  rewrite (proj2 (Z.ltb_ge _ _)) by solve_len. read_step H. read_step H.
  rewrite (proj2 (Z.ltb_ge _ _)) by solve_len. read_step H.
  do 3 (read_step H; rewrite toInt64_ok by (unfold MaxInt64; lia); cbn [mbind outcome_bind]).
  read_step H. unfold len at 1. rewrite Nat2Z.id.
  rewrite (decodeAttachments_layout _ _ _ _ _ H) by first [done | solve_len].
  cbn [mbind outcome_bind]. by rewrite !array_of_vec.
Qed.

(** ** Lemmas: the decoder on arbitrary bytes *)

Definition overflow_msg : string := "message: value overflows int64".

Lemma toInt64_cases n :
  ((n <= MaxInt64)%Z ∧ toInt64 n = Ret n) ∨ ((MaxInt64 < n)%Z ∧ toInt64 n = Panic overflow_msg).
Proof.
  unfold toInt64. rewrite Z.gtb_ltb. destruct (Z.ltb_spec MaxInt64 n); [right|left]; done.
Qed.

Ltac int64_or_panic :=
  lazymatch goal with
  | |- context [mbind _ (toInt64 ?n)] =>
      destruct (toInt64_cases n) as [[? ->]|[? ->]]; cbn [mbind outcome_bind]; [|done]
  end.

Lemma decodeAttachment_post data pre rest off :
  data = pre ++ rest → off = len pre →
  post_or overflow_msg (λ '(a, off'), att_ok a ∧
    ∃ rest', rest = att_layout a ++ rest' ∧ off' = (off + len (att_layout a))%Z)
    (decodeAttachment data off).
Proof.
  intros H ->. pose proof H as H0.
  unfold decodeAttachment, idSize, u16Size, u32Size, u64Size.
  destruct (Z.ltb_spec (len data) (len pre + 16 + 2)) as [|L1]; [done|].
  cursor H as id Hid. cursor H as nl Hnl.
  destruct (Z.ltb_spec (len data) (len pre + 16 + 2 + nl + 2)) as [|L2]; [done|].
  cursor H as name Hname. cursor H as ml Hml.
  destruct (Z.ltb_spec (len data) (len pre + 16 + 2 + nl + 2 + ml + 8 + 4)) as [|L3]; [done|].
  cursor H as mime Hmime. cursor H as sz Hsz. int64_or_panic. cursor H as dl Hdl.
  destruct (Z.ltb_spec (len data) (len pre + 16 + 2 + nl + 2 + ml + 8 + 4 + dl)) as [|L4]; [done|].
  rewrite Z.gtb_ltb.
  destruct (Z.ltb_spec 0 dl) as [Hpos|Hzero].
  - cursor H as d Hd. cbn [post_or]. split.
    + unfold att_ok, MaxUint16, MaxUint32. cbn [Name MIMEType Size Data]. lia.
    + eexists. unfold att_layout. cbn [AttID Name MIMEType Size Data].
      rewrite array_cursor, Hname, Hmime, Hd by done. rewrite <-!app_assoc.
      split; [done|simpl_len; lia].
  - cbn [post_or]. assert (dl = 0%Z) as -> by lia. split.
    + unfold att_ok, MaxUint16, MaxUint32. cbn [Name MIMEType Size Data].
      change (len (@nil byte)) with 0%Z. lia.
    + eexists. unfold att_layout. cbn [AttID Name MIMEType Size Data].
      change (len (@nil byte)) with 0%Z.
      rewrite array_cursor, Hname, Hmime, (app_nil_r (be_put 4 0)) by done. rewrite <-!app_assoc.
      split; [done|simpl_len; lia].
Qed.

Lemma decodeAttachments_post n data pre rest off :
  data = pre ++ rest → off = len pre →
  post_or overflow_msg (λ l, length l = n ∧ Forall att_ok l ∧
    ∃ rest', rest = concat (att_layout <$> l) ++ rest') (decodeAttachments n data off).
Proof.
  revert pre rest off. induction n as [|n IH]; intros pre rest off H Hoff; cbn [decodeAttachments].
  { cbn. repeat split; [constructor|by exists rest]. }
  pose proof (decodeAttachment_post data pre rest off H Hoff) as Ha.
  destruct (decodeAttachment data off) as [[a off']| |]; [|done..].
  destruct Ha as [Hok (rest' & -> & ->)]. cbn [mbind outcome_bind]. rewrite app_assoc in H.
  specialize (IH _ _ (off + len (att_layout a))%Z H ltac:(solve_len)).
  destruct (decodeAttachments n data _) as [l| |]; [|done..].
  destruct IH as (Hl & Hall & rest'' & ->). cbn. split; [by rewrite Hl|]. split; [by constructor|].
  exists rest''. by rewrite <-app_assoc.
Qed.

Lemma ToMessage_post data :
  post_or overflow_msg (λ m, encodable m ∧ times_ok m ∧ ∃ tr, data = layout m ++ tr) (ToMessage data).
Proof.
  unfold ToMessage, idSize, u16Size, u32Size, timeFieldSize, AesKeySize.
  destruct (Z.ltb_spec (len data) (16 + 32 + 2)) as [|L1]; [done|].
  assert (∃ r, data = [] ++ r) as [rest0 H] by (by exists data).
  cursor H as id Hid. cursor H as from Hfrom. cursor H as dl Hdl.
  destruct (Z.ltb_spec (len data) (0 + 16 + 32 + 2 + dl + 4)) as [|L2]; [done|].
  cursor H as to Hto. cursor H as cl Hcl.
  destruct (Z.ltb_spec (len data) (0 + 16 + 32 + 2 + dl + 4 + cl + 3 * 8 + 2)) as [|L3]; [done|].
  cursor H as content Hcontent.
  cursor H as t Ht. int64_or_panic. cursor H as c Hc. int64_or_panic.
  cursor H as u Hu. int64_or_panic. cursor H as n Hn.
  lazymatch type of H with _ = ?p ++ ?r =>
    lazymatch goal with |- context [decodeAttachments ?k _ ?off] =>
      pose proof (decodeAttachments_post k data p r off H ltac:(cursor_side H)) as Hatts end end.
  destruct (decodeAttachments _ _ _) as [l| |]; [|done..]. cbn [mbind outcome_bind post_or].
  destruct Hatts as (Hll & Hall & rest' & ->).
  assert (len l = n) as Hln by (unfold len; lia).
  assert (∀ v, 0 <= v <= MaxInt64 → UnixNano v = v)%Z as HU by (intros; by apply UnixNano_id).
  unfold time_Unix0. split; [|split].
  - unfold encodable. cbn [MsgID FromPubKey To MsgContent MsgTime CreatedAt UpdatedAt Attachments].
    rewrite !HU by lia. split; [|done]. unfold MaxUint16, MaxUint32. lia.
  - unfold times_ok, time_ok. cbn [MsgTime CreatedAt UpdatedAt]. lia.
  - exists rest'. unfold layout, head_layout.
    cbn [MsgID FromPubKey To MsgContent MsgTime CreatedAt UpdatedAt Attachments].
    rewrite !HU by lia. rewrite !array_cursor, Hto, Hcontent, Hln by done.
    rewrite H. by rewrite <-!app_assoc.
Qed.

(** ** Properties *)

(** C31: [Encode] on every message (whose attachment sizes are [int64] values):
    if every field fits its wire width and no time is before 1970 it returns
    exactly the specified layout, writing within the preallocated buffer and
    filling it completely; otherwise it panics. *)
Theorem Encode_correct (m : Message) :
  Forall (λ a, Size a <= MaxInt64)%Z (Attachments m) →
  if decide (encodable m) then Encode m = Ret (layout m) ∧ length (layout m) = encodedSize m
  else is_panic (Encode m) = true.
Proof.
  intros Hs. destruct (decide (encodable m)); [|by apply Encode_panic].
  split; [by apply Encode_layout|].
  assert (length (concat (att_layout <$> Attachments m))
    = sum_list (attachmentEncodedSize <$> Attachments m)) as Hc.
  { induction (Attachments m) as [|a l IH]; [done|]. inversion Hs; simplify_eq.
    cbn -[attachmentEncodedSize]. by rewrite length_app, length_att_layout, IH. }
  unfold layout, head_layout, encodedSize. simpl_len. lia.
Qed.

Definition wit_att : Attachment :=
  MkAttachment (array_of 16 (lit "file")) (lit "cat.png") (lit "image/png") 3 (lit "abc").
Definition wit_msg : Message :=
  MkMessage (array_of 16 (lit "m1")) (array_of 32 (lit "alice")) (lit "bob") (lit "hello")
    1700000000000000000 1700000000000000000 1700000001000000000 [wit_att].

Lemma Encode_correct_witness :
  Encode wit_msg = Ret (layout wit_msg) ∧
  is_panic (Encode (MkMessage NilUUID NilKey [] [] (-1) 0 0 [])) = true.
Proof.
  split.
  - assert (Forall (λ a, Size a <= MaxInt64)%Z (Attachments wit_msg)) as Hs
      by (repeat constructor; cbv; discriminate).
    pose proof (Encode_correct wit_msg Hs) as H.
    destruct (decide (encodable wit_msg)) as [_|Hn]; [exact (proj1 H)|].
    destruct Hn. apply (bool_decide_unpack (encodable wit_msg)). vm_compute. exact I.
  - assert (Forall (λ a, Size a <= MaxInt64)%Z
      (Attachments (MkMessage NilUUID NilKey [] [] (-1) 0 0 []))) as Hs by constructor.
    pose proof (Encode_correct _ Hs) as H.
    destruct (decide (encodable _)) as [He|_]; [|exact H].
    exfalso. destruct He as [(_ & _ & He & _) _]. vm_compute in He. by apply He.
Defined.

(** C29: Round trip: a message whose times lie between 1970 and 2262 decodes to
    itself from its encoding, whatever bytes follow. *)
Theorem ToMessage_Encode (m : Message) (buf tr : bytes) :
  Forall (λ a, Size a <= MaxInt64)%Z (Attachments m) → times_ok m → Encode m = Ret buf →
  ToMessage (buf ++ tr) = Ret m.
Proof.
  intros Hs Ht He. destruct (decide (encodable m)) as [Hok|Hbad].
  - rewrite (Encode_layout m Hok) in He. simplify_eq.
    rewrite ToMessage_layout by done. by rewrite stored_times_id.
  - apply Encode_panic in Hbad; [|done]. by rewrite He in Hbad.
Qed.

Lemma ToMessage_Encode_witness :
  ∃ buf, Encode wit_msg = Ret buf ∧ ToMessage (buf ++ lit "tail") = Ret wit_msg.
Proof.
  destruct (Encode wit_msg) as [buf| |] eqn:E; [|vm_compute in E; discriminate E..].
  exists buf. split; [reflexivity|]. apply (ToMessage_Encode wit_msg buf); [| |exact E].
  - repeat constructor; cbv; discriminate.
  - repeat split; cbv; discriminate.
Defined.

(** C30: [ToMessage] accepts exactly the buffers that start with the layout of a
    message, and returns that message: the encoding is unambiguous and the
    decoder accepts nothing else. *)
Theorem ToMessage_correct (data : bytes) (m : Message) :
  ToMessage data = Ret m ↔ encodable m ∧ times_ok m ∧ ∃ tr, data = layout m ++ tr.
Proof.
  split.
  - intros E. pose proof (ToMessage_post data) as H. by rewrite E in H.
  - intros (He & Ht & tr & ->). rewrite ToMessage_layout by done. by rewrite stored_times_id.
Qed.

(** The only panic of [ToMessage] is the [int64] conversion of a time or a
    size (its reads never run out of bounds), and any buffer with a well
    formed header whose first time field is above [MaxInt64] triggers it:
    decoding is not total on bytes a peer controls. *)
Theorem ToMessage_panics :
  (∀ data s, ToMessage data = Panic s → s = overflow_msg) ∧
  (∀ id from to content t c u n tr,
     (len to <= MaxUint16)%Z → (len content <= MaxUint32)%Z → (MaxInt64 < t <= MaxUint64)%Z →
     ToMessage (head_layout id from to content t c u n ++ tr) = Panic overflow_msg).
Proof.
  split.
  { intros data s E. pose proof (ToMessage_post data) as H. by rewrite E in H. }
  intros id from to content t c u n tr Hto Hco Ht.
  remember (head_layout _ _ _ _ _ _ _ _ ++ tr) as data eqn:H.
  assert (len data = 80 + len to + len content + len tr)%Z as Hl
    by (subst data; unfold head_layout; solve_len).
  unfold head_layout, ToMessage, idSize, u16Size, u32Size, timeFieldSize, AesKeySize in *.
  rewrite Hl. rewrite <-!app_assoc in H. rewrite <-(app_nil_l (_ ++ _)) in H.
  unfold MaxUint16, MaxUint32, MaxUint64, MaxInt64 in *.
  rewrite (proj2 (Z.ltb_ge _ _)) by solve_len. read_step H. read_step H. read_step H.
  rewrite (proj2 (Z.ltb_ge _ _)) by solve_len. read_step H. read_step H.
  rewrite (proj2 (Z.ltb_ge _ _)) by solve_len. read_step H. read_step H.
  unfold toInt64, MaxInt64. by rewrite Z.gtb_ltb, (proj2 (Z.ltb_lt _ _)) by lia.
Qed.

Lemma ToMessage_panics_witness :
  ToMessage (head_layout NilUUID NilKey (lit "bob") (lit "boom") (2 ^ 63) 0 0 0)
    = Panic overflow_msg.
Proof.
  rewrite <-(app_nil_r (head_layout _ _ _ _ _ _ _ _)).
  apply (proj2 ToMessage_panics); [| |split]; cbv; (reflexivity || discriminate).
Defined.
End message.
