(* ===== verification/Wire.v ===== *)
(** * Payload codecs of the client (client/client.go, client/session.go)

    The payloads that travel inside an envelope besides chat messages: file
    metadata, the answer to an info request and the key-exchange data of the
    handshake. *)

From S2P Require Import Prelude Config Keys Signal.

Definition lenPrefixSize : Z := 2.

Definition u16Len (n : Z) : outcome Z :=
  if ((n <? 0) || (n >? MaxUint16))%Z then Panic "client: length exceeds uint16" else Ret n.
Definition u32Len (n : Z) : outcome Z :=
  if ((n <? 0) || (n >? MaxUint32))%Z then Panic "client: length exceeds uint32" else Ret n.
Definition u64FromInt64 (n : Z) : outcome Z :=
  if (n <? 0)%Z then Panic "client: negative size" else Ret n.
Definition int64FromU64 (n : Z) : outcome Z :=
  if (n >? MaxInt64)%Z then Panic "client: size exceeds int64" else Ret n.

(** ** File metadata *)

Record fileMeta := MkFileMeta {
  fm_Name : gostring;
  fm_Size : Z;
  fm_MIME : gostring
}.

Definition encodeFileMeta (m : fileMeta) : outcome bytes :=
  let nameBytes := fm_Name m in
  let mimeBytes := fm_MIME m in
  let buf := zeros (2 + length nameBytes + 8 + 2 + length mimeBytes) in
  let off := 0%Z in
  w ← u16Len (len nameBytes);
  buf ← put_uint_at 2 buf off w;
  let off := (off + 2)%Z in
  buf ← copy_at buf off nameBytes;
  let off := (off + len nameBytes)%Z in
  w ← u64FromInt64 (fm_Size m);
  buf ← put_uint_at 8 buf off w;
  let off := (off + 8)%Z in
  w ← u16Len (len mimeBytes);
  buf ← put_uint_at 2 buf off w;
  let off := (off + 2)%Z in
  copy_at buf off mimeBytes.

Definition decodeFileMeta (data : bytes) : outcome fileMeta :=
  if (len data <? lenPrefixSize)%Z then Err (ENew "client: file meta too short") else
  let off := 0%Z in
  nameLen ← uint_at 2 data off;
  let off := (off + 2)%Z in
  if (len data <? off + nameLen + 8 + 2)%Z
  then Err (ENew "client: file meta truncated at name") else
  name ← slice data off (off + nameLen);
  let off := (off + nameLen)%Z in
  raw ← uint_at 8 data off;
  size ← int64FromU64 raw;
  let off := (off + 8)%Z in
  mimeLen ← uint_at 2 data off;
  let off := (off + 2)%Z in
  if (len data <? off + mimeLen)%Z
  then Err (ENew "client: file meta truncated at mime") else
  mime ← slice data off (off + mimeLen);
  Ret (MkFileMeta name size mime).

(** ** Info responses *)

Record infoResponseData := MkInfoResponse {
  ir_Name : gostring;
  ir_ProfilePic : bytes
}.

Definition encodeInfoResponse (r : infoResponseData) : outcome bytes :=
  let nameBytes := ir_Name r in
  let buf := zeros (2 + length nameBytes + 4 + length (ir_ProfilePic r)) in
  let off := 0%Z in
  w ← u16Len (len nameBytes);
  buf ← put_uint_at 2 buf off w;
  let off := (off + 2)%Z in
  buf ← copy_at buf off nameBytes;
  let off := (off + len nameBytes)%Z in
  w ← u32Len (len (ir_ProfilePic r));
  buf ← put_uint_at 4 buf off w;
  let off := (off + 4)%Z in
  copy_at buf off (ir_ProfilePic r).

Definition decodeInfoResponse (data : bytes) : outcome infoResponseData :=
  if (len data <? lenPrefixSize)%Z then Err (ENew "client: info response too short") else
  let off := 0%Z in
  nameLen ← uint_at 2 data off;
  let off := (off + 2)%Z in
  if (len data <? off + nameLen + 4)%Z
  then Err (ENew "client: info response truncated at name") else
  name ← slice data off (off + nameLen);
  let off := (off + nameLen)%Z in
  picLen ← uint_at 4 data off;
  let off := (off + 4)%Z in
  if (len data <? off + picLen)%Z
  then Err (ENew "client: info response truncated at pic") else
  pic ← slice data off (off + picLen);
  Ret (MkInfoResponse name pic).

(** ** Key exchange *)

Record keyExchangeData := MkKeyExchange {
  kx_PubKey : Key;
  kx_StaticPubKey : Key;
  kx_ClientName : gostring;
  kx_Signature : bytes
}.

Definition encodeKeyExchange (d : keyExchangeData) : outcome bytes :=
  let nameBytes := kx_ClientName d in
  let buf := zeros (32 * 2 + 2 + length nameBytes + 2 + length (kx_Signature d)) in
  let off := 0%Z in
  buf ← copy_at buf off (vec_to_list (kx_PubKey d));
  let off := (off + AesKeySize)%Z in
  buf ← copy_at buf off (vec_to_list (kx_StaticPubKey d));
  let off := (off + AesKeySize)%Z in
  w ← u16Len (len nameBytes);
  buf ← put_uint_at 2 buf off w;
  let off := (off + 2)%Z in
  buf ← copy_at buf off nameBytes;
  let off := (off + len nameBytes)%Z in
  w ← u16Len (len (kx_Signature d));
  buf ← put_uint_at 2 buf off w;
  let off := (off + 2)%Z in
  copy_at buf off (kx_Signature d).

Definition decodeKeyExchange (data : bytes) : outcome keyExchangeData :=
  if (len data <? AesKeySize * 2 + 2)%Z
  then Err (ENew "session: key exchange data too short") else
  let off := 0%Z in
  pub ← slice data off (off + AesKeySize);
  let off := (off + AesKeySize)%Z in
  static ← slice data off (off + AesKeySize);
  let off := (off + AesKeySize)%Z in
  nameLen ← uint_at 2 data off;
  let off := (off + 2)%Z in
  if (len data <? off + nameLen + 2)%Z
  then Err (ENew "session: key exchange data truncated at name") else
  name ← slice data off (off + nameLen);
  let off := (off + nameLen)%Z in
  sigLen ← uint_at 2 data off;
  let off := (off + 2)%Z in
  if (len data <? off + sigLen)%Z
  then Err (ENew "session: key exchange data truncated at signature") else
  sig ← slice data off (off + sigLen);
  Ret (MkKeyExchange (array_of 32 pub) (array_of 32 static) name sig).

(** ** Layouts *)

Definition fm_layout (m : fileMeta) : bytes :=
  be_put 2 (len (fm_Name m)) ++ fm_Name m ++ be_put 8 (fm_Size m) ++
  be_put 2 (len (fm_MIME m)) ++ fm_MIME m.

Definition ir_layout (r : infoResponseData) : bytes :=
  be_put 2 (len (ir_Name r)) ++ ir_Name r ++ be_put 4 (len (ir_ProfilePic r)) ++ ir_ProfilePic r.

Definition kx_layout (d : keyExchangeData) : bytes :=
  vec_to_list (kx_PubKey d) ++ vec_to_list (kx_StaticPubKey d) ++
  be_put 2 (len (kx_ClientName d)) ++ kx_ClientName d ++
  be_put 2 (len (kx_Signature d)) ++ kx_Signature d.

Definition fm_ok (m : fileMeta) : Prop :=
  (len (fm_Name m) <= MaxUint16 ∧ 0 <= fm_Size m <= MaxInt64 ∧ len (fm_MIME m) <= MaxUint16)%Z.
Definition ir_ok (r : infoResponseData) : Prop :=
  (len (ir_Name r) <= MaxUint16 ∧ len (ir_ProfilePic r) <= MaxUint32)%Z.
Definition kx_ok (d : keyExchangeData) : Prop :=
  (len (kx_ClientName d) <= MaxUint16 ∧ len (kx_Signature d) <= MaxUint16)%Z.

Definition size_msg : string := "client: size exceeds int64".

(** ** Lemmas *)

Lemma u16Len_ok n : (0 <= n <= MaxUint16)%Z → u16Len n = Ret n.
Proof.
  intros. unfold u16Len. rewrite Z.gtb_ltb.
  by rewrite (proj2 (Z.ltb_ge n 0)), (proj2 (Z.ltb_ge MaxUint16 n)) by lia.
Qed.
Lemma u32Len_ok n : (0 <= n <= MaxUint32)%Z → u32Len n = Ret n.
Proof.
  intros. unfold u32Len. rewrite Z.gtb_ltb.
  by rewrite (proj2 (Z.ltb_ge n 0)), (proj2 (Z.ltb_ge MaxUint32 n)) by lia.
Qed.
Lemma u64FromInt64_ok n : (0 <= n)%Z → u64FromInt64 n = Ret n.
Proof. intros. unfold u64FromInt64. by rewrite (proj2 (Z.ltb_ge n 0)) by lia. Qed.
Lemma int64FromU64_ok n : (n <= MaxInt64)%Z → int64FromU64 n = Ret n.
Proof. intros. unfold int64FromU64. by rewrite Z.gtb_ltb, (proj2 (Z.ltb_ge _ _)) by lia. Qed.

Ltac len16 :=
  lazymatch goal with
  | |- mbind _ (u16Len ?n) = _ => rewrite (u16Len_ok n) by solve_len
  | |- mbind _ (u32Len ?n) = _ => rewrite (u32Len_ok n) by solve_len
  | |- mbind _ (u64FromInt64 ?n) = _ => rewrite (u64FromInt64_ok n) by solve_len
  end; cbn [mbind outcome_bind].

Lemma encodeFileMeta_layout m : fm_ok m → encodeFileMeta m = Ret (fm_layout m).
Proof.
  destruct m as [name size mime]. intros (Hn & Hs & Hm).
  unfold encodeFileMeta, fm_layout. cbn [fm_Name fm_Size fm_MIME] in *.
  change (zeros ?n) with ([] ++ zeros n).
  len16. fill_step. fill_step. len16. fill_step. len16. fill_step. fill_step. fill_done.
Qed.

Lemma encodeInfoResponse_layout r : ir_ok r → encodeInfoResponse r = Ret (ir_layout r).
Proof.
  destruct r as [name pic]. intros (Hn & Hp).
  unfold encodeInfoResponse, ir_layout. cbn [ir_Name ir_ProfilePic] in *.
  change (zeros ?n) with ([] ++ zeros n).
  len16. fill_step. fill_step. len16. fill_step. fill_step. fill_done.
Qed.

Lemma encodeKeyExchange_layout d : kx_ok d → encodeKeyExchange d = Ret (kx_layout d).
Proof.
  destruct d as [pub static name sig]. intros (Hn & Hs).
  unfold encodeKeyExchange, kx_layout, AesKeySize.
  cbn [kx_PubKey kx_StaticPubKey kx_ClientName kx_Signature] in *.
  change (zeros ?n) with ([] ++ zeros n).
  fill_step. fill_step. len16. fill_step. fill_step. len16. fill_step. fill_step. fill_done.
Qed.

Lemma decodeFileMeta_layout m tr : fm_ok m → decodeFileMeta (fm_layout m ++ tr) = Ret m.
Proof.
  destruct m as [name size mime]. intros (Hn & Hs & Hm).
  remember (fm_layout _ ++ tr) as data eqn:H. unfold fm_layout, decodeFileMeta, lenPrefixSize in *.
  cbn [fm_Name fm_Size fm_MIME] in *. rewrite <-!app_assoc in H.
  assert (len data = 12 + len name + len mime + len tr)%Z as -> by (subst data; solve_len).
  rewrite <-(app_nil_l (_ ++ _)) in H. unfold MaxUint16, MaxInt64 in *.
  rewrite (proj2 (Z.ltb_ge _ _)) by solve_len. read_step H.
  rewrite (proj2 (Z.ltb_ge _ _)) by solve_len. read_step H. read_step H.
  rewrite int64FromU64_ok by (unfold MaxInt64; lia). cbn [mbind outcome_bind].
  read_step H. rewrite (proj2 (Z.ltb_ge _ _)) by solve_len. by read_step H.
Qed.

Lemma decodeFileMeta_post data :
  post_or size_msg (λ m, fm_ok m ∧ ∃ tr, data = fm_layout m ++ tr) (decodeFileMeta data).
Proof.
  unfold decodeFileMeta, lenPrefixSize.
  destruct (Z.ltb_spec (len data) 2) as [|L1]; [done|].
  assert (∃ r, data = [] ++ r) as [rest0 H] by (by exists data).
  cursor H as nl Hnl. destruct (Z.ltb_spec (len data) (0 + 2 + nl + 8 + 2)) as [|L2]; [done|].
  cursor H as name Hname. cursor H as sz Hsz.
  unfold int64FromU64. rewrite Z.gtb_ltb. destruct (Z.ltb_spec MaxInt64 sz); [done|].
  cbn [mbind outcome_bind]. cursor H as ml Hml.
  destruct (Z.ltb_spec (len data) (0 + 2 + nl + 8 + 2 + ml)) as [|L3]; [done|].
  cursor H as mime Hmime. cbn [post_or]. split.
  - unfold fm_ok, MaxUint16. cbn [fm_Name fm_Size fm_MIME]. lia.
  - eexists. rewrite H. unfold fm_layout. cbn [fm_Name fm_Size fm_MIME].
    rewrite Hname, Hmime. by rewrite <-!app_assoc.
Qed.

Lemma decodeInfoResponse_layout r tr : ir_ok r → decodeInfoResponse (ir_layout r ++ tr) = Ret r.
Proof.
  destruct r as [name pic]. intros (Hn & Hp).
  remember (ir_layout _ ++ tr) as data eqn:H. unfold ir_layout, decodeInfoResponse, lenPrefixSize in *.
  cbn [ir_Name ir_ProfilePic] in *. rewrite <-!app_assoc in H.
  assert (len data = 6 + len name + len pic + len tr)%Z as -> by (subst data; solve_len).
  rewrite <-(app_nil_l (_ ++ _)) in H. unfold MaxUint16, MaxUint32 in *.
  rewrite (proj2 (Z.ltb_ge _ _)) by solve_len. read_step H.
  rewrite (proj2 (Z.ltb_ge _ _)) by solve_len. read_step H. read_step H.
  rewrite (proj2 (Z.ltb_ge _ _)) by solve_len. by read_step H.
Qed.

Lemma decodeInfoResponse_post data :
  post (λ r, ir_ok r ∧ ∃ tr, data = ir_layout r ++ tr) (decodeInfoResponse data).
Proof.
  unfold decodeInfoResponse, lenPrefixSize.
  destruct (Z.ltb_spec (len data) 2) as [|L1]; [done|].
  assert (∃ r, data = [] ++ r) as [rest0 H] by (by exists data).
  cursor H as nl Hnl. destruct (Z.ltb_spec (len data) (0 + 2 + nl + 4)) as [|L2]; [done|].
  cursor H as name Hname. cursor H as pl Hpl.
  destruct (Z.ltb_spec (len data) (0 + 2 + nl + 4 + pl)) as [|L3]; [done|].
  cursor H as pic Hpic. cbn [post]. split.
  - unfold ir_ok, MaxUint16, MaxUint32. cbn [ir_Name ir_ProfilePic]. lia.
  - eexists. rewrite H. unfold ir_layout. cbn [ir_Name ir_ProfilePic].
    rewrite Hname, Hpic. by rewrite <-!app_assoc.
Qed.

Lemma decodeKeyExchange_layout d tr : kx_ok d → decodeKeyExchange (kx_layout d ++ tr) = Ret d.
Proof.
  destruct d as [pub static name sig]. intros (Hn & Hs).
  remember (kx_layout _ ++ tr) as data eqn:H. unfold kx_layout, decodeKeyExchange, AesKeySize in *.
  cbn [kx_PubKey kx_StaticPubKey kx_ClientName kx_Signature] in *. rewrite <-!app_assoc in H.
  assert (len data = 68 + len name + len sig + len tr)%Z as -> by (subst data; solve_len).
  rewrite <-(app_nil_l (_ ++ _)) in H. unfold MaxUint16 in *.
  rewrite (proj2 (Z.ltb_ge _ _)) by solve_len. read_step H. read_step H. read_step H.
  rewrite (proj2 (Z.ltb_ge _ _)) by solve_len. read_step H. read_step H.
  rewrite (proj2 (Z.ltb_ge _ _)) by solve_len. read_step H. by rewrite !array_of_vec.
Qed.

Lemma decodeKeyExchange_post data :
  post (λ d, kx_ok d ∧ ∃ tr, data = kx_layout d ++ tr) (decodeKeyExchange data).
Proof.
  unfold decodeKeyExchange, AesKeySize.
  destruct (Z.ltb_spec (len data) (32 * 2 + 2)) as [|L1]; [done|].
  assert (∃ r, data = [] ++ r) as [rest0 H] by (by exists data).
  cursor H as pub Hpub. cursor H as static Hstatic. cursor H as nl Hnl.
  destruct (Z.ltb_spec (len data) (0 + 32 + 32 + 2 + nl + 2)) as [|L2]; [done|].
  cursor H as name Hname. cursor H as sl Hsl.
  destruct (Z.ltb_spec (len data) (0 + 32 + 32 + 2 + nl + 2 + sl)) as [|L3]; [done|].
  cursor H as sig Hsig. cbn [post]. split.
  - unfold kx_ok, MaxUint16. cbn [kx_ClientName kx_Signature]. lia.
  - eexists. rewrite H. unfold kx_layout.
    cbn [kx_PubKey kx_StaticPubKey kx_ClientName kx_Signature].
    rewrite !array_cursor, Hname, Hsig by done. by rewrite <-!app_assoc.
Qed.

Lemma u16Len_panic n : (MaxUint16 < n)%Z → u16Len n = Panic "client: length exceeds uint16".
Proof.
  intros. unfold u16Len. by rewrite Z.gtb_ltb, (proj2 (Z.ltb_lt MaxUint16 n)), orb_true_r by lia.
Qed.

(** ** Properties *)

(** File metadata: the encoder yields the layout whenever the fields fit,
    the decoder accepts exactly the buffers that start with a layout and
    returns the metadata laid out, and its only panic is the conversion of a
    declared size above [MaxInt64]. *)
Theorem fileMeta_codec :
  (∀ m, fm_ok m → encodeFileMeta m = Ret (fm_layout m)) ∧
  (∀ data m, decodeFileMeta data = Ret m ↔ fm_ok m ∧ ∃ tr, data = fm_layout m ++ tr) ∧
  (∀ data s, decodeFileMeta data = Panic s → s = size_msg).
Proof.
  split; [apply encodeFileMeta_layout|]. split.
  - intros data m. split; [|intros (Hm & tr & ->); by apply decodeFileMeta_layout].
    intros E. pose proof (decodeFileMeta_post data) as H. by rewrite E in H.
  - intros data s E. pose proof (decodeFileMeta_post data) as H. by rewrite E in H.
Qed.

Lemma fileMeta_codec_witness :
  encodeFileMeta (MkFileMeta (lit "a.txt") 12 (lit "text/plain"))
    = Ret (fm_layout (MkFileMeta (lit "a.txt") 12 (lit "text/plain"))).
Proof. apply (proj1 fileMeta_codec). repeat split; cbv; discriminate. Defined.

(** Info responses: the codec round-trips exactly as specified, decoding
    never panics on any bytes, and encoding a name longer than 65535 bytes
    panics (nothing in the profile update limits a name to that length). *)
Theorem infoResponse_codec :
  (∀ r, ir_ok r → encodeInfoResponse r = Ret (ir_layout r)) ∧
  (∀ data r, decodeInfoResponse data = Ret r ↔ ir_ok r ∧ ∃ tr, data = ir_layout r ++ tr) ∧
  (∀ data, is_panic (decodeInfoResponse data) = false) ∧
  (∀ r, (MaxUint16 < len (ir_Name r))%Z → is_panic (encodeInfoResponse r) = true).
Proof.
  split; [apply encodeInfoResponse_layout|]. split; [|split].
  - intros data r. split; [|intros (Hr & tr & ->); by apply decodeInfoResponse_layout].
    intros E. exact (post_ret _ _ _ (decodeInfoResponse_post data) E).
  - intros data. eapply post_no_panic, decodeInfoResponse_post.
  - intros r Hr. unfold encodeInfoResponse. by rewrite u16Len_panic.
Qed.

Lemma infoResponse_codec_witness :
  encodeInfoResponse (MkInfoResponse (lit "alice") (lit "png"))
    = Ret (ir_layout (MkInfoResponse (lit "alice") (lit "png"))).
Proof. apply (proj1 infoResponse_codec). repeat split; cbv; discriminate. Defined.

(** Key exchange: what a peer with a name and signature of at most 65535
    bytes encodes, the other side decodes unchanged; the decoder accepts
    nothing else and never panics. *)
Theorem keyExchange_codec :
  (∀ d, kx_ok d → encodeKeyExchange d = Ret (kx_layout d)) ∧
  (∀ data d, decodeKeyExchange data = Ret d ↔ kx_ok d ∧ ∃ tr, data = kx_layout d ++ tr) ∧
  (∀ data, is_panic (decodeKeyExchange data) = false).
Proof.
  split; [apply encodeKeyExchange_layout|]. split.
  - intros data d. split; [|intros (Hd & tr & ->); by apply decodeKeyExchange_layout].
    intros E. exact (post_ret _ _ _ (decodeKeyExchange_post data) E).
  - intros data. eapply post_no_panic, decodeKeyExchange_post.
Qed.

Lemma keyExchange_codec_witness :
  encodeKeyExchange (MkKeyExchange NilKey NilKey (lit "bob") (lit "sig"))
    = Ret (kx_layout (MkKeyExchange NilKey NilKey (lit "bob") (lit "sig"))).
Proof. apply (proj1 keyExchange_codec). repeat split; cbv; discriminate. Defined.
