(* ===== verification/RateLimit.v ===== *)
(** * The per-session message limiter (client/ratelimit.go)

    A token bucket under a mutex: [Allow] is one atomic step that reads the
    clock, refills by whole intervals and takes a token. Durations and times
    are nanoseconds; the arithmetic is that of [int64], division included. *)

From S2P Require Import Prelude Config.

Local Open Scope Z_scope.

Record msgLimiter := MkLimiter {
  lim_limit : Z;
  lim_window : Z;
  lim_tokens : Z;
  lim_last : Z
}.

Definition newMsgLimiter (limit window now : Z) : msgLimiter :=
  MkLimiter limit window limit now.

(** [t.Sub(u)]: the difference, saturated to the [Duration] range. *)
Definition time_Sub (t u : Z) : Z := Z.max MinInt64 (Z.min MaxInt64 (t - u)).

(** [a / b] on [int64]: truncates, panics on a zero divisor. *)
Definition div64 (a b : Z) : outcome Z :=
  if b =? 0 then Panic "runtime error: integer divide by zero" else Ret (wrap64 (Z.quot a b)).

Definition Allow (l : msgLimiter) (now : Z) : outcome (bool * msgLimiter) :=
  let elapsed := time_Sub now (lim_last l) in
  interval ← div64 (lim_window l) (lim_limit l);
  let interval := if interval =? 0 then Nanosecond else interval in
  refill ← div64 elapsed interval;
  let l :=
    if refill >? 0 then
      let tokens := wrap64 (lim_tokens l + refill) in
      MkLimiter (lim_limit l) (lim_window l)
        (if tokens >? lim_limit l then lim_limit l else tokens)
        (lim_last l + wrap64 (refill * interval))
    else l in
  if lim_tokens l >? 0
  then Ret (true, MkLimiter (lim_limit l) (lim_window l) (lim_tokens l - 1) (lim_last l))
  else Ret (false, l).

(** [Allow] called at each of the given times: how many calls were allowed. *)
Fixpoint allow_run (l : msgLimiter) (times : list Z) : outcome (Z * msgLimiter) :=
  match times with
  | [] => Ret (0, l)
  | t :: ts =>
      '(b, l) ← Allow l t;
      '(n, l) ← allow_run l ts;
      Ret ((if b : bool then 1 else 0) + n, l)
  end.

(** ** Specification *)

(** The refill interval for sane parameters. *)
Definition interval_of (l : msgLimiter) : Z := Z.max 1 (lim_window l / lim_limit l).

(** Parameters and times below 2^62 (146 years, in nanoseconds). *)
Definition big : Z := 2 ^ 62.
Definition limiter_wf (l : msgLimiter) : Prop :=
  0 < lim_limit l < big ∧ 0 <= lim_window l < big ∧ 0 <= lim_tokens l <= lim_limit l ∧
  0 <= lim_last l < big.

Global Instance limiter_wf_dec l : Decision (limiter_wf l).
Proof. apply _. Defined.

(** What one call does, without machine arithmetic. *)
Definition allow_spec (l : msgLimiter) (now : Z) : bool * msgLimiter :=
  let refill := (now - lim_last l) / interval_of l in
  let tokens := Z.min (lim_limit l) (lim_tokens l + refill) in
  let last := lim_last l + refill * interval_of l in
  (0 <? tokens, MkLimiter (lim_limit l) (lim_window l) (Z.max 0 (tokens - 1)) last).

(** ** Lemmas *)

Lemma interval_pos l : 0 < interval_of l.
Proof. unfold interval_of. lia. Qed.

Lemma wrap64_big z : 0 <= z < 2 ^ 63 → wrap64 z = z.
Proof. intros. apply wrap64_small. unfold MinInt64, MaxInt64. lia. Qed.

Lemma interval_computed l :
  limiter_wf l →
  ∃ i, div64 (lim_window l) (lim_limit l) = Ret i ∧
    (if i =? 0 then Nanosecond else i) = interval_of l.
Proof.
  intros (Hl & Hw & _). unfold div64, interval_of, big in *.
  rewrite (proj2 (Z.eqb_neq (lim_limit l) 0)) by lia.
  rewrite Z.quot_div_nonneg by lia.
  pose proof (Z.div_pos (lim_window l) (lim_limit l) ltac:(lia) ltac:(lia)).
  pose proof (Z.div_le_upper_bound (lim_window l) (lim_limit l) (lim_window l) ltac:(lia) ltac:(nia)).
  rewrite wrap64_big by lia. eexists. split; [done|]. unfold Nanosecond.
  destruct (Z.eqb_spec (lim_window l / lim_limit l) 0); lia.
Qed.

Lemma Allow_spec l now :
  limiter_wf l → lim_last l <= now < big → Allow l now = Ret (allow_spec l now).
Proof.
  intros Hwf Hnow. unfold Allow. destruct (interval_computed l Hwf) as (i & -> & Hi).
  cbn [mbind outcome_bind]. rewrite Hi. pose proof (interval_pos l) as Hpos.
  destruct Hwf as (Hl & Hw & Ht & Hlast). unfold big in *.
  assert (time_Sub now (lim_last l) = now - lim_last l) as ->
    by (unfold time_Sub, MinInt64, MaxInt64; lia).
  unfold allow_spec. set (iv := interval_of l) in *.
  pose proof (Z.div_pos (now - lim_last l) iv ltac:(lia) ltac:(lia)) as Hr0.
  pose proof (Z.mul_div_le (now - lim_last l) iv ltac:(lia)) as Hr1.
  unfold div64. rewrite (proj2 (Z.eqb_neq iv 0)) by lia.
  rewrite Z.quot_div_nonneg by lia. set (r := (now - lim_last l) / iv) in *.
  assert (r <= r * iv) by nia.
  rewrite (wrap64_big r) by lia. cbn [mbind outcome_bind]. rewrite !Z.gtb_ltb.
  rewrite (wrap64_big (r * iv)), (wrap64_big (lim_tokens l + r)) by lia.
  destruct (Z.ltb_spec 0 r) as [Hr|Hr]; cbn [lim_tokens lim_limit lim_window lim_last].
  - destruct (Z.ltb_spec (lim_limit l) (lim_tokens l + r)); cbn [lim_tokens lim_limit lim_window lim_last].
    + rewrite Z.min_l by lia. rewrite (proj2 (Z.ltb_lt _ _)) by lia.
      repeat f_equal; lia.
    + rewrite Z.min_r by lia. rewrite (proj2 (Z.ltb_lt _ _)) by lia. repeat f_equal; lia.
  - assert (r = 0) as Hr' by lia. rewrite Hr', Z.add_0_r, Z.min_r by lia.
    destruct (Z.ltb_spec 0 (lim_tokens l)); destruct l as [li wi to la]; cbn in *; repeat f_equal; lia.
Qed.

Lemma allow_spec_wf l now :
  limiter_wf l → lim_last l <= now < big →
  let l' := (allow_spec l now).2 in
  limiter_wf l' ∧ lim_last l <= lim_last l' <= now ∧ interval_of l' = interval_of l.
Proof.
  intros (Hl & Hw & Ht & Hlast) Hnow. pose proof (interval_pos l) as Hpos.
  unfold allow_spec. cbn [snd]. set (iv := interval_of l) in *.
  pose proof (Z.div_pos (now - lim_last l) iv ltac:(lia) ltac:(lia)) as Hr0.
  pose proof (Z.mul_div_le (now - lim_last l) iv ltac:(lia)) as Hr1.
  set (r := (now - lim_last l) / iv) in *.
  unfold limiter_wf. cbn [lim_limit lim_window lim_tokens lim_last].
  repeat split; try done; nia.
Qed.

(** Whatever the clock does, a call takes one token at most, and is granted
    when there is one. *)
Lemma Allow_token l now :
  limiter_wf l → 0 <= now < big →
  ∃ b l', Allow l now = Ret (b, l') ∧ limiter_wf l' ∧ lim_tokens l - 1 <= lim_tokens l' ∧ (0 < lim_tokens l → b = true).
Proof.
  intros Hwf Hnow. destruct (Z.le_gt_cases (lim_last l) now) as [Hle|Hgt].
  - rewrite Allow_spec by (done || lia). destruct (allow_spec_wf l now Hwf ltac:(lia)) as (Hwf' & _ & _).
    destruct (allow_spec l now) as [b l'] eqn:E. exists b, l'. split; [done|]. split; [done|].
    unfold allow_spec in E. pose proof (interval_pos l). destruct Hwf as (_ & _ & Ht & _).
    pose proof (Z.div_pos (now - lim_last l) (interval_of l) ltac:(lia) ltac:(lia)). simplify_eq. cbn.
    split; [lia|]. intros Hpos. apply Z.ltb_lt. lia.
  - unfold Allow. destruct (interval_computed l Hwf) as (i & -> & Hi). cbn [mbind outcome_bind]. rewrite Hi.
    pose proof (interval_pos l) as Hpos. destruct Hwf as (Hl & Hw & Ht & Hlast). unfold big in *.
    assert (time_Sub now (lim_last l) = now - lim_last l) as -> by (unfold time_Sub, MinInt64, MaxInt64; lia).
    unfold div64. rewrite (proj2 (Z.eqb_neq (interval_of l) 0)) by lia.
    assert (now - lim_last l <= Z.quot (now - lim_last l) (interval_of l) <= 0) as Hq.
    { replace (now - lim_last l) with (- (lim_last l - now)) by lia. rewrite Z.quot_opp_l by lia.
      rewrite Z.quot_div_nonneg by lia. pose proof (Z.div_pos (lim_last l - now) (interval_of l) ltac:(lia) ltac:(lia)).
      pose proof (Z.div_le_upper_bound (lim_last l - now) (interval_of l) (lim_last l - now) ltac:(lia) ltac:(nia)). lia. }
    rewrite wrap64_small by (unfold MinInt64, MaxInt64; lia). cbn [mbind outcome_bind]. rewrite !Z.gtb_ltb.
    rewrite (proj2 (Z.ltb_ge 0 (Z.quot (now - lim_last l) (interval_of l)))) by lia.
    destruct (Z.ltb_spec 0 (lim_tokens l)); eexists _, _; (split; [done|]); (split; [unfold limiter_wf, big; cbn; lia|]); cbn; (split; [lia|intros; done || lia]).
Qed.

(** Tokens spent are paid for by the initial tokens and by elapsed time. *)
Lemma allow_run_bound times l now :
  limiter_wf l → lim_last l <= now → Sorted Z.le (now :: times) → Forall (λ t, t < big) times →
  ∃ n l', allow_run l times = Ret (n, l') ∧ limiter_wf l' ∧ 0 <= n ∧
    interval_of l' = interval_of l ∧ lim_last l <= lim_last l' <= default now (last times) ∧
    (n + lim_tokens l' - lim_tokens l) * interval_of l <= lim_last l' - lim_last l.
Proof.
  revert l now. induction times as [|t ts IH]; intros l now Hwf Hlast Hsort Hbig.
  { exists 0, l. cbn. repeat split; try (done || lia); apply Hwf. }
  apply Sorted_inv in Hsort as [Hsort Hhd]. inversion Hhd; simplify_eq.
  inversion Hbig; simplify_eq.
  cbn [allow_run]. rewrite Allow_spec by (done || lia).
  destruct (allow_spec_wf l t Hwf ltac:(lia)) as (Hwf' & Hl' & Hi').
  destruct (allow_spec l t) as [b l1] eqn:E. cbn [snd] in *. cbn [mbind outcome_bind].
  destruct (IH l1 t Hwf' ltac:(lia) Hsort ltac:(done)) as (n & l2 & -> & Hwf2 & Hn & Hi2 & Hl2 & Hb).
  cbn [mbind outcome_bind]. eexists _, l2. split; [done|]. split; [done|].
  split; [destruct b; lia|]. split; [congruence|].
  assert (default now (last (t :: ts)) = default t (last ts)) as ->.
  { clear. destruct ts as [|u ts]; [done|]. rewrite last_cons.
    by destruct (last (u :: ts)) eqn:El; [|apply last_None in El]. }
  split; [lia|]. rewrite Hi' in Hb. pose proof (interval_pos l) as Hpos.
  unfold allow_spec in E. set (iv := interval_of l) in *.
  pose proof (Z.div_pos (t - lim_last l) iv ltac:(lia) ltac:(lia)) as Hr0.
  set (r := (t - lim_last l) / iv) in *. simplify_eq. cbn [lim_tokens lim_last] in *.
  destruct Hwf as (? & ? & ? & ?).
  destruct (Z.ltb_spec 0 (lim_limit l `min` (lim_tokens l + r))); nia.
Qed.

(** ** Properties *)

(** C35: With a positive limit and machine-sized parameters, [Allow] computes
    the token-bucket specification: refill by the whole intervals elapsed,
    capped at the limit, grant iff a token is left; the [int64] arithmetic
    never wraps and the bucket stays between 0 and the limit. *)
Theorem Allow_correct (l : msgLimiter) (now : Z) :
  limiter_wf l → lim_last l <= now < big →
  Allow l now = Ret (allow_spec l now) ∧ limiter_wf (allow_spec l now).2.
Proof. intros. split; [by apply Allow_spec|by apply allow_spec_wf]. Qed.

Lemma Allow_correct_witness :
  Allow (newMsgLimiter 2 10 100) 103 = Ret (true, MkLimiter 2 10 1 100).
Proof.
  rewrite (proj1 (Allow_correct (newMsgLimiter 2 10 100) 103
    ltac:(vm_compute; repeat split; discriminate) ltac:(vm_compute; split; (discriminate || reflexivity)))).
  vm_compute. reflexivity.
Defined.

(** Rate bound: a fresh limiter grants, over any calls at non-decreasing
    times, at most [limit] plus one per refill interval elapsed since its
    creation; in particular no run panics. *)
Theorem allow_rate_bound (limit window t0 : Z) (times : list Z) :
  0 < limit < big → 0 <= window < big → 0 <= t0 →
  Sorted Z.le (t0 :: times) → Forall (λ t, t < big) (t0 :: times) →
  ∃ n l', allow_run (newMsgLimiter limit window t0) times = Ret (n, l') ∧
    0 <= n <= limit + (default t0 (last times) - t0) / Z.max 1 (window / limit).
Proof.
  intros Hl Hw Ht0 Hs Hb. inversion Hb; simplify_eq.
  set (l := newMsgLimiter limit window t0).
  assert (limiter_wf l) as Hwf by (unfold limiter_wf; cbn; lia).
  destruct (allow_run_bound times l t0 Hwf (Z.le_refl _) Hs ltac:(done))
    as (n & l' & Hr & Hwf' & Hn & _ & Hlast & Hbound).
  exists n, l'. split; [done|]. split; [done|].
  fold (interval_of l) in *. change (Z.max 1 (window / limit)) with (interval_of l).
  pose proof (interval_pos l). destruct Hwf' as (_ & _ & Ht' & _).
  cut (n - limit <= (default t0 (last times) - t0) / interval_of l); [lia|].
  apply Z.div_le_lower_bound; [lia|]. change (lim_tokens l) with limit in Hbound.
  change (lim_last l) with t0 in *. nia.
Qed.

Lemma allow_rate_bound_witness :
  ∃ n l', allow_run (newMsgLimiter 2 10 100) [101; 101; 101; 106] = Ret (n, l') ∧
    0 <= n <= 2 + (106 - 100) / Z.max 1 (10 / 2).
Proof.
  apply (allow_rate_bound 2 10 100 [101; 101; 101; 106]).
  - split; reflexivity.
  - split; [discriminate|reflexivity].
  - discriminate.
  - repeat first [apply Sorted_cons | apply Sorted_nil | apply HdRel_cons | apply HdRel_nil];
      discriminate.
  - repeat first [apply Forall_cons_2 | apply Forall_nil_2]; reflexivity.
Defined.

(** Liveness: once a refill interval has passed since the last refill, the
    next call is allowed, however exhausted the bucket was. *)
Theorem Allow_recovers (l : msgLimiter) (now : Z) :
  limiter_wf l → lim_last l + interval_of l <= now < big →
  ∃ l', Allow l now = Ret (true, l').
Proof.
  intros Hwf Hnow. pose proof (interval_pos l) as Hpos.
  rewrite Allow_spec by (done || lia). unfold allow_spec.
  assert (1 <= (now - lim_last l) / interval_of l) by (apply Z.div_le_lower_bound; lia).
  destruct Hwf as (? & ? & ? & ?). rewrite (proj2 (Z.ltb_lt _ _)) by lia. eauto.
Qed.

Lemma Allow_recovers_witness : ∃ l', Allow (MkLimiter 2 10 0 100) 105 = Ret (true, l').
Proof.
  apply Allow_recovers; vm_compute; repeat split; (discriminate || reflexivity).
Defined.

(** A zero limit (the flag [-rate-limit 0] is accepted) makes every call
    panic with a division by zero. *)
Theorem Allow_zero_limit (window tokens last now : Z) :
  Allow (MkLimiter 0 window tokens last) now = Panic "runtime error: integer divide by zero".
Proof. done. Qed.
