(* ===== verification/Base64.v ===== *)
(** * Standard base64 (encoding/base64, as [store/store.go] uses it)

    [StdEncoding.EncodeToString] and [DecodeString]: groups of three bytes,
    [=] padding, carriage returns and line feeds ignored on input. *)

From S2P Require Import Prelude.

Definition b64char (v : Z) : byte :=
  if (v <? 26)%Z then byte_of_Z (65 + v)
  else if (v <? 52)%Z then byte_of_Z (71 + v)
  else if (v <? 62)%Z then byte_of_Z (v - 4)
  else if (v =? 62)%Z then byte_of_Z 43 else byte_of_Z 47.

Definition b64val (c : byte) : option Z :=
  let z := Z_of_byte c in
  if ((65 <=? z) && (z <=? 90))%Z then Some (z - 65)%Z
  else if ((97 <=? z) && (z <=? 122))%Z then Some (z - 71)%Z
  else if ((48 <=? z) && (z <=? 57))%Z then Some (z + 4)%Z
  else if (z =? 43)%Z then Some 62%Z
  else if (z =? 47)%Z then Some 63%Z else None.

Definition b64pad : byte := byte_of_Z 61.

(** The four characters of a 24-bit group, and the three bytes of a group. *)
Definition group_chars (v : Z) : byte * byte * byte * byte :=
  (b64char (Z.land (Z.shiftr v 18) 63), b64char (Z.land (Z.shiftr v 12) 63),
   b64char (Z.land (Z.shiftr v 6) 63), b64char (Z.land v 63)).
Definition group_of (a b c : byte) : Z :=
  Z.lor (Z.lor (Z.shiftl (Z_of_byte a) 16) (Z.shiftl (Z_of_byte b) 8)) (Z_of_byte c).

Fixpoint base64_EncodeToString (l : bytes) : gostring :=
  match l with
  | [] => []
  | [a] => let '(w, x, _, _) := group_chars (group_of a x00 x00) in [w; x; b64pad; b64pad]
  | [a; b] => let '(w, x, y, _) := group_chars (group_of a b x00) in [w; x; y; b64pad]
  | a :: b :: c :: l' =>
      let '(w, x, y, z) := group_chars (group_of a b c) in
      w :: x :: y :: z :: base64_EncodeToString l'
  end.

Definition CorruptInputError : error := ENew "illegal base64 data".

(** Assembles decoded sextets. *)
Definition group_val (w x y z : Z) : Z :=
  Z.lor (Z.lor (Z.shiftl w 18) (Z.shiftl x 12)) (Z.lor (Z.shiftl y 6) z).
Definition byte2 (v : Z) : byte := byte_of_Z (Z.shiftr v 16).
Definition byte1 (v : Z) : byte := byte_of_Z (Z.shiftr v 8).
Definition byte0 (v : Z) : byte := byte_of_Z v.

Fixpoint decode_quads (s : gostring) : outcome bytes :=
  match s with
  | [] => Ret []
  | c1 :: c2 :: c3 :: c4 :: s' =>
      match b64val c1, b64val c2, b64val c3, b64val c4 with
      | Some w, Some x, Some y, Some z =>
          rest ← decode_quads s';
          let v := group_val w x y z in
          Ret (byte2 v :: byte1 v :: byte0 v :: rest)
      | Some w, Some x, Some y, None =>
          if bool_decide (c4 = b64pad ∧ s' = [])
          then let v := group_val w x y 0 in Ret [byte2 v; byte1 v]
          else Err CorruptInputError
      | Some w, Some x, None, _ =>
          if bool_decide (c3 = b64pad ∧ c4 = b64pad ∧ s' = [])
          then Ret [byte2 (group_val w x 0 0)]
          else Err CorruptInputError
      | _, _, _, _ => Err CorruptInputError
      end
  | _ => Err CorruptInputError
  end.

Definition not_newline (c : byte) : Prop := c ≠ byte_of_Z 10 ∧ c ≠ byte_of_Z 13.

Definition base64_DecodeString (s : gostring) : outcome bytes :=
  decode_quads (filter not_newline s).

(** ** Round trip *)

Lemma sextets_ok (f : Z → bool) :
  forallb f (seqZ 0 64) = true → ∀ v, (0 <= v < 64)%Z → f v = true.
Proof.
  intros Hf v Hv. rewrite forallb_forall in Hf. apply Hf.
  apply list_elem_of_In, elem_of_seqZ. lia.
Qed.

Lemma b64val_char v : (0 <= v < 64)%Z → b64val (b64char v) = Some v.
Proof.
  intros Hv. apply (bool_decide_unpack (b64val (b64char v) = Some v)).
  apply Is_true_true. revert v Hv. apply sextets_ok. vm_compute. reflexivity.
Qed.

Lemma b64char_not_newline v : (0 <= v < 64)%Z → not_newline (b64char v).
Proof.
  intros Hv. apply (bool_decide_unpack (not_newline (b64char v))).
  apply Is_true_true. revert v Hv. apply sextets_ok. vm_compute. reflexivity.
Qed.

Lemma pad_not_newline : not_newline b64pad.
Proof. apply (bool_decide_unpack (not_newline b64pad)). vm_compute. exact I. Qed.

Lemma low6_range v : (0 <= Z.land v 63 < 64)%Z.
Proof. change 63%Z with (Z.ones 6). rewrite Z.land_ones by lia. apply Z.mod_pos_bound. lia. Qed.

Lemma group_of_arith a b c :
  group_of a b c = (Z_of_byte a * 65536 + Z_of_byte b * 256 + Z_of_byte c)%Z.
Proof.
  unfold group_of. pose proof (Z_of_byte_range a). pose proof (Z_of_byte_range b).
  pose proof (Z_of_byte_range c).
  rewrite <-Z.lor_assoc, (lor_add (Z_of_byte b)) by lia.
  rewrite (lor_add (Z_of_byte a)) by lia. lia.
Qed.

Lemma group_val_arith w x y z :
  (0 <= w < 64)%Z → (0 <= x < 64)%Z → (0 <= y < 64)%Z → (0 <= z < 64)%Z →
  group_val w x y z = (w * 262144 + x * 4096 + y * 64 + z)%Z.
Proof.
  intros. unfold group_val. rewrite (lor_add y) by lia.
  rewrite <-Z.lor_assoc, (lor_add x) by lia. rewrite (lor_add w) by lia. lia.
Qed.

Lemma sextet_arith v n : (0 <= n)%Z → Z.land (Z.shiftr v n) 63 = ((v / 2 ^ n) mod 64)%Z.
Proof.
  intros. change 63%Z with (Z.ones 6). by rewrite Z.land_ones, Z.shiftr_div_pow2 by lia.
Qed.

(** Decoding the sextets of a group gives the group back. *)
Lemma group_val_sextets a b c :
  let v := group_of a b c in
  group_val (Z.land (Z.shiftr v 18) 63) (Z.land (Z.shiftr v 12) 63)
    (Z.land (Z.shiftr v 6) 63) (Z.land v 63) = v.
Proof.
  cbv zeta. rewrite group_val_arith by apply low6_range.
  rewrite !sextet_arith by lia. rewrite <-(Z.shiftr_0_r (group_of a b c)) at 4.
  rewrite sextet_arith by lia. rewrite group_of_arith.
  pose proof (Z_of_byte_range a). pose proof (Z_of_byte_range b). pose proof (Z_of_byte_range c).
  set (v := (Z_of_byte a * 65536 + Z_of_byte b * 256 + Z_of_byte c)%Z).
  assert (0 <= v < 16777216)%Z by lia.
  change (2 ^ 18)%Z with 262144%Z. change (2 ^ 12)%Z with 4096%Z. change (2 ^ 6)%Z with 64%Z.
  change (2 ^ 0)%Z with 1%Z. lia_div.
Qed.

Lemma group_bytes a b c :
  byte2 (group_of a b c) = a ∧ byte1 (group_of a b c) = b ∧ byte0 (group_of a b c) = c.
Proof.
  pose proof (Z_of_byte_range a). pose proof (Z_of_byte_range b). pose proof (Z_of_byte_range c).
  unfold byte2, byte1, byte0. rewrite !Z.shiftr_div_pow2, group_of_arith by lia.
  change (2 ^ 16)%Z with 65536%Z. change (2 ^ 8)%Z with 256%Z.
  repeat split; apply Z_of_byte_inj; rewrite Z_of_byte_of_Z; lia_div.
Qed.

(** A padded group carries zero in the sextets that are left out. *)
Lemma group_low1 a : (Z.land (group_of a x00 x00) 63 = 0 ∧ Z.land (Z.shiftr (group_of a x00 x00) 6) 63 = 0)%Z.
Proof.
  rewrite <-(Z.shiftr_0_r (group_of _ _ _)) at 1. rewrite !sextet_arith, group_of_arith by lia.
  change (Z_of_byte x00) with 0%Z. change (2 ^ 6)%Z with 64%Z. change (2 ^ 0)%Z with 1%Z. lia_div.
Qed.
Lemma group_low2 a b : (Z.land (group_of a b x00) 63 = 0)%Z.
Proof.
  rewrite <-(Z.shiftr_0_r (group_of _ _ _)) at 1. rewrite sextet_arith, group_of_arith by lia.
  change (Z_of_byte x00) with 0%Z. change (2 ^ 0)%Z with 1%Z. lia_div.
Qed.

Lemma list_ind3 {A} (P : list A → Prop) :
  P [] → (∀ x, P [x]) → (∀ x y, P [x; y]) → (∀ x y z l, P l → P (x :: y :: z :: l)) → ∀ l, P l.
Proof.
  intros H0 H1 H2 H3. fix IH 1. intros [|x [|y [|z l]]]; [done..|]. apply H3, IH.
Qed.

Lemma encode_not_newline l : Forall not_newline (base64_EncodeToString l).
Proof.
  induction l as [|a|a b|a b c l IH] using list_ind3; cbn;
    repeat constructor; auto using b64char_not_newline, low6_range, pad_not_newline;
    try (apply b64char_not_newline, low6_range); apply pad_not_newline.
Qed.

Lemma decode_encode_quads l : decode_quads (base64_EncodeToString l) = Ret l.
Proof.
  induction l as [|a|a b|a b c l IH] using list_ind3; [done|..]; cbn;
    rewrite !b64val_char by apply low6_range.
  - destruct (group_low1 a) as [E1 E2]. pose proof (group_val_sextets a x00 x00) as E.
    cbv zeta in E. rewrite E1, E2 in E. rewrite E.
    by rewrite (proj1 (group_bytes a x00 x00)).
  - pose proof (group_val_sextets a b x00) as E. cbv zeta in E.
    rewrite (group_low2 a b) in E. rewrite E.
    by destruct (group_bytes a b x00) as (-> & -> & _).
  - rewrite IH. cbn. pose proof (group_val_sextets a b c) as E. cbv zeta in E. rewrite E.
    by destruct (group_bytes a b c) as (-> & -> & ->).
Qed.

Lemma base64_roundtrip l : base64_DecodeString (base64_EncodeToString l) = Ret l.
Proof.
  unfold base64_DecodeString. rewrite filter_all by apply encode_not_newline.
  apply decode_encode_quads.
Qed.
