(* ===== verification/Monad.v ===== *)
(** * Stateful Go code

    A Go function that works on shared state is a function from the state to
    an outcome and the state it leaves: the state survives an error return and
    a panic, as it does in Go. [attempt] turns the error of a call into a
    value, for [if err := f(); err != nil]; [ignore] is [_ = f()]. Reasoning
    goes through [wp] (what holds of the outcome and the state left) and
    [preserves] (an invariant survives, however the call ends). *)

From S2P Require Import Prelude.

Definition M (S A : Type) : Type := S → outcome A * S.

Global Instance M_ret S : MRet (M S) := λ A a s, (Ret a, s).
Global Instance M_bind S : MBind (M S) := λ A B f m s,
  match m s with
  | (Ret a, s') => f a s'
  | (Err e, s') => (Err e, s')
  | (Panic p, s') => (Panic p, s')
  end.

Section Operations.
Context {S A : Type}.

Definition get_state : M S S := λ s, (Ret s, s).
Definition gets {B} (f : S → B) : M S B := λ s, (Ret (f s), s).
Definition modify (f : S → S) : M S unit := λ s, (Ret tt, f s).
Definition throw (e : error) : M S A := λ s, (Err e, s).
Definition panic (p : string) : M S A := λ s, (Panic p, s).
Definition lift (o : outcome A) : M S A := λ s, (o, s).

(** [v, err := m]: the error becomes a value, a panic goes on. *)
Definition attempt (m : M S A) : M S (A + error) := λ s,
  match m s with
  | (Ret a, s') => (Ret (inl a), s')
  | (Err e, s') => (Ret (inr e), s')
  | (Panic p, s') => (Panic p, s')
  end.

(** [_ = m] *)
Definition ignore (m : M S A) : M S unit := λ s,
  match m s with
  | (Panic p, s') => (Panic p, s')
  | (_, s') => (Ret tt, s')
  end.

(** [if err != nil { return fmt.Errorf("ctx: %w", err) }] *)
Definition wrapping (ctx : string) (m : M S A) : M S A := λ s,
  match m s with
  | (Err e, s') => (Err (EWrap ctx e), s')
  | r => r
  end.

(** What a call leaves. *)
Definition wp (m : M S A) (Q : outcome A → S → Prop) (s : S) : Prop := Q (m s).1 (m s).2.

(** [I] survives the call, whatever its outcome. *)
Definition preserves (I : S → Prop) (m : M S A) : Prop := ∀ s, I s → I (m s).2.
End Operations.

Definition when {S} (c : bool) (m : M S unit) : M S unit := if c then m else mret tt.

(** A call on a component of the state. *)
Definition zoom {S T A} (get : S → T) (set : T → S → S) (m : M T A) : M S A := λ s,
  let '(o, t) := m (get s) in (o, set t s).

(** [for _, x := range l { body(x) }], left to right, stopping at an error. *)
Fixpoint for_each {S A} (l : list A) (body : A → M S unit) : M S unit :=
  match l with
  | [] => mret tt
  | x :: l' => body x ≫= λ _, for_each l' body
  end.

(** [for _, x := range l { out = append(out, f(x)) }] *)
Fixpoint map_each {S A B} (f : A → M S B) (l : list A) : M S (list B) :=
  match l with
  | [] => mret []
  | x :: l' => y ← f x; ys ← map_each f l'; mret (y :: ys)
  end.

(** ** Equations *)

Lemma bind_run {S A B} (m : M S A) (f : A → M S B) s :
  (m ≫= f) s = match m s with
               | (Ret a, s') => f a s'
               | (Err e, s') => (Err e, s')
               | (Panic p, s') => (Panic p, s')
               end.
Proof. done. Qed.

Lemma bind_ret_run {S A B} (m : M S A) (f : A → M S B) s s' a :
  m s = (Ret a, s') → (m ≫= f) s = f a s'.
Proof. intros E. by rewrite bind_run, E. Qed.

Lemma bind_err_run {S A B} (m : M S A) (f : A → M S B) s s' e :
  m s = (Err e, s') → (m ≫= f) s = (Err e, s').
Proof. intros E. by rewrite bind_run, E. Qed.

Lemma ignore_state {S A} (m : M S A) s : (ignore m s).2 = (m s).2.
Proof. unfold ignore. by destruct (m s) as [[]]. Qed.
Lemma attempt_state {S A} (m : M S A) s : (attempt m s).2 = (m s).2.
Proof. unfold attempt. by destruct (m s) as [[]]. Qed.
Lemma wrapping_state {S A} ctx (m : M S A) s : (wrapping ctx m s).2 = (m s).2.
Proof. unfold wrapping. by destruct (m s) as [[]]. Qed.

(** ** Weakest preconditions *)

Section Wp.
Context {S : Type}.

Lemma wp_mono {A} (m : M S A) Q Q' s : (∀ o s', Q o s' → Q' o s') → wp m Q s → wp m Q' s.
Proof. unfold wp. auto. Qed.

Lemma wp_conseq {A} (m : M S A) Q Q' s : wp m Q s → (∀ o s', Q o s' → Q' o s') → wp m Q' s.
Proof. unfold wp. auto. Qed.

Lemma wp_ret {A} (a : A) (Q : outcome A → S → Prop) s : Q (Ret a) s → wp (mret a) Q s.
Proof. done. Qed.

Lemma wp_lift {A} (o : outcome A) (Q : outcome A → S → Prop) s : Q o s → wp (lift o) Q s.
Proof. done. Qed.

Lemma wp_modify f (Q : outcome () → S → Prop) s : Q (Ret tt) (f s) → wp (modify f) Q s.
Proof. done. Qed.

Lemma wp_gets {A} (f : S → A) (Q : outcome A → S → Prop) s : Q (Ret (f s)) s → wp (gets f) Q s.
Proof. done. Qed.

Lemma wp_throw {A} e (Q : outcome A → S → Prop) s : Q (Err e) s → wp (throw e) Q s.
Proof. done. Qed.

Lemma wp_panic {A} p (Q : outcome A → S → Prop) s : Q (Panic p) s → wp (panic p) Q s.
Proof. done. Qed.

Lemma wp_bind {A B} (m : M S A) (f : A → M S B) Q s :
  wp m (λ o s', match o with
                | Ret a => wp (f a) Q s'
                | Err e => Q (Err e) s'
                | Panic p => Q (Panic p) s'
                end) s →
  wp (m ≫= f) Q s.
Proof. unfold wp. rewrite bind_run. by destruct (m s) as [[]]. Qed.

Lemma wp_attempt {A} (m : M S A) Q s :
  wp m (λ o s', match o with
                | Ret a => Q (Ret (inl a)) s'
                | Err e => Q (Ret (inr e)) s'
                | Panic p => Q (Panic p) s'
                end) s →
  wp (attempt m) Q s.
Proof. unfold wp, attempt. by destruct (m s) as [[]]. Qed.

Lemma wp_ignore {A} (m : M S A) Q s :
  wp m (λ o s', match o with Panic p => Q (Panic p) s' | _ => Q (Ret tt) s' end) s →
  wp (ignore m) Q s.
Proof. unfold wp, ignore. by destruct (m s) as [[]]. Qed.

Lemma wp_wrapping {A} ctx (m : M S A) Q s :
  wp m (λ o s', match o with Err e => Q (Err (EWrap ctx e)) s' | _ => Q o s' end) s →
  wp (wrapping ctx m) Q s.
Proof. unfold wp, wrapping. by destruct (m s) as [[]]. Qed.
End Wp.

(** Step a [wp] goal over a bind, an [attempt], ... with the lemma [L] that
    specifies the call at its head. *)
Ltac wp_head :=
  repeat lazymatch goal with
  | |- wp (mbind _ _) _ _ => apply wp_bind
  | |- wp (attempt _) _ _ => apply wp_attempt
  | |- wp (ignore _) _ _ => apply wp_ignore
  | |- wp (wrapping _ _) _ _ => apply wp_wrapping
  | |- wp (lift _) _ _ => apply wp_lift
  | |- wp (mret _) _ _ => apply wp_ret
  | |- wp (modify _) _ _ => apply wp_modify
  | |- wp (gets _) _ _ => apply wp_gets
  | |- wp (throw _) _ _ => apply wp_throw
  | |- wp (panic _) _ _ => apply wp_panic
  | |- wp (if _ then _ else _) _ _ => fail
  end.
Tactic Notation "wp_call" uconstr(L) :=
  wp_head; eapply wp_conseq; [apply L|cbn beta; intros ? ?].
Tactic Notation "wp_use" uconstr(L) "as" simple_intropattern(o) simple_intropattern(w) simple_intropattern(H) :=
  wp_head; eapply wp_conseq; [apply L|cbn beta; intros o w H].

(** ** Preservation *)

Section Preserves.
Context {S : Type} (I : S → Prop).

Lemma preserves_ret {A} (a : A) : preserves I (mret a).
Proof. by intros s. Qed.
Lemma preserves_throw {A} e : preserves I (throw (A:=A) e).
Proof. by intros s. Qed.
Lemma preserves_panic {A} p : preserves I (panic (A:=A) p).
Proof. by intros s. Qed.
Lemma preserves_lift {A} (o : outcome A) : preserves I (lift o).
Proof. by intros s. Qed.
Lemma preserves_gets {A} (f : S → A) : preserves I (gets f).
Proof. by intros s. Qed.
Lemma preserves_wp {A} (m : M S A) s : preserves I m → I s → wp m (λ _ s', I s') s.
Proof. intros Hm. apply Hm. Qed.
Lemma preserves_modify f : (∀ s, I s → I (f s)) → preserves I (modify f).
Proof. intros Hf s. apply Hf. Qed.

Lemma preserves_bind {A B} (m : M S A) (f : A → M S B) :
  preserves I m → (∀ a, preserves I (f a)) → preserves I (m ≫= f).
Proof.
  intros Hm Hf s Hs. specialize (Hm s Hs). rewrite bind_run.
  destruct (m s) as [[a|e|p] s']; [by apply Hf|done..].
Qed.

Lemma preserves_attempt {A} (m : M S A) : preserves I m → preserves I (attempt m).
Proof. intros Hm s Hs. specialize (Hm s Hs). unfold attempt. by destruct (m s) as [[]]. Qed.
Lemma preserves_attempt_lift {A B} (o : outcome A) (f : A + error → M S B) :
  (∀ a, o = Ret a → preserves I (f (inl a))) → (∀ e, preserves I (f (inr e))) →
  preserves I (attempt (lift o) ≫= f).
Proof. intros Ha He s Hs. rewrite bind_run. destruct o; cbn; [by apply Ha|by apply He|done]. Qed.
Lemma preserves_ignore {A} (m : M S A) : preserves I m → preserves I (ignore m).
Proof. intros Hm s Hs. specialize (Hm s Hs). unfold ignore. by destruct (m s) as [[]]. Qed.
Lemma preserves_wrapping {A} ctx (m : M S A) : preserves I m → preserves I (wrapping ctx m).
Proof. intros Hm s Hs. specialize (Hm s Hs). unfold wrapping. by destruct (m s) as [[]]. Qed.
Lemma preserves_when c m : preserves I m → preserves I (when c m).
Proof. intros Hm. destruct c; [done|apply preserves_ret]. Qed.
Lemma preserves_for_each {A} (l : list A) body :
  (∀ x, preserves I (body x)) → preserves I (for_each l body).
Proof.
  intros Hb. induction l; [apply preserves_ret|]. by apply preserves_bind.
Qed.
End Preserves.

#[export] Hint Resolve preserves_ret preserves_throw preserves_panic preserves_lift
  preserves_gets preserves_bind preserves_attempt preserves_ignore preserves_wrapping
  preserves_when preserves_for_each : chat.

(** Walk through a handler's control flow. *)
Ltac preserve_step :=
  lazymatch goal with
  | |- forall _, _ => intro
  | |- preserves _ (mbind _ _) => apply preserves_bind
  | |- preserves _ (attempt _) => apply preserves_attempt
  | |- preserves _ (ignore _) => apply preserves_ignore
  | |- preserves _ (wrapping _ _) => apply preserves_wrapping
  | |- preserves _ (when _ _) => apply preserves_when
  | |- preserves _ (for_each _ _) => apply preserves_for_each
  | |- preserves _ _ => first [solve [auto with chat nocore] | case_match]
  end.
Ltac preserve := repeat preserve_step.

(** ** Calls without an error result *)

(** A Go function without an error result returns or panics. *)
Definition no_err {S A} (m : M S A) : Prop := ∀ s e, (m s).1 ≠ Err e.

Section NoErr.
Context {S : Type}.

Lemma no_err_ret {A} (a : A) : no_err (S:=S) (mret a).
Proof. done. Qed.
Lemma no_err_panic {A} p : no_err (S:=S) (panic (A:=A) p).
Proof. done. Qed.
Lemma no_err_gets {A} (f : S → A) : no_err (gets f).
Proof. done. Qed.
Lemma no_err_get_state : no_err (S:=S) get_state.
Proof. done. Qed.
Lemma no_err_modify f : no_err (S:=S) (modify f).
Proof. done. Qed.
Lemma no_err_lift {A} (o : outcome A) : (∀ e, o ≠ Err e) → no_err (S:=S) (lift o).
Proof. intros Ho s e. apply Ho. Qed.
Lemma no_err_attempt {A} (m : M S A) : no_err (attempt m).
Proof. intros s e. unfold attempt. by destruct (m s) as [[]]. Qed.
Lemma no_err_ignore {A} (m : M S A) : no_err (ignore m).
Proof. intros s e. unfold ignore. by destruct (m s) as [[]]. Qed.
Lemma no_err_bind {A B} (m : M S A) (f : A → M S B) :
  no_err m → (∀ a, no_err (f a)) → no_err (m ≫= f).
Proof.
  intros Hm Hf s e. rewrite bind_run. specialize (Hm s).
  destruct (m s) as [[a|e'|p] s']; [apply Hf|by destruct (Hm e')|done].
Qed.
Lemma no_err_zoom {T A} (get : S → T) set (m : M T A) : no_err m → no_err (zoom get set m).
Proof. intros Hm s e. unfold zoom. specialize (Hm (get s) e). by destruct (m (get s)). Qed.
End NoErr.

#[export] Hint Resolve no_err_ret no_err_panic no_err_gets no_err_get_state no_err_modify no_err_lift
  no_err_attempt no_err_ignore : chat.

Ltac no_err_step :=
  lazymatch goal with
  | |- forall _, _ => intro
  | |- no_err (mbind _ _) => apply no_err_bind
  | |- no_err _ => first [solve [auto with chat nocore] | case_match]
  end.
Ltac no_errors := repeat no_err_step.
