(* ===== verification/Platform.v ===== *)
(** * Code the program calls but does not contain

    Third-party packages and platform services, as operational classes with
    the laws the program relies on: [google/uuid], the textual formats of
    [time], [encoding/json] on an envelope, the SQL engine's choices (row order
    of a scan, [LIKE]), and the [Env] of one run: the clock, fresh identifiers,
    randomness and the faults of the database driver and of the network, each
    indexed by the number of calls made so far. [toy_platform] and [toy_env]
    are concrete instances satisfying every law. *)

From S2P Require Import Prelude Config Crypto Keys Signal.

Class UuidLib := {
  uuid_String : UUID → gostring;
  uuid_Parse : gostring → option UUID
}.
Class UuidLaws (U : UuidLib) : Prop := {
  uuid_parse_string u : uuid_Parse (uuid_String u) = Some u;
  uuid_string_nonempty u : uuid_String u ≠ []
}.

(** [uuid.UUID.Scan]: an empty column leaves the nil id. *)
Definition uuid_Scan `{UuidLib} (s : gostring) : option UUID :=
  if bool_decide (s = []) then Some NilUUID else uuid_Parse s.

(** Times are nanoseconds since the epoch. *)
Class TimeLib := {
  Format_RFC3339 : Z → gostring;            (* t.Format(time.RFC3339) *)
  Parse_RFC3339 : gostring → option Z;      (* time.Parse(time.RFC3339, s) *)
  time_String : Z → gostring                (* t.String() *)
}.
Class TimeLaws (T : TimeLib) : Prop := {
  parse_format t : (0 <= t <= MaxInt64)%Z →
    Parse_RFC3339 (Format_RFC3339 t) = Some (t - t mod Second)%Z;
  parse_time_String t : Parse_RFC3339 (time_String t) = None;
  (* the fields of a time of UTC have fixed widths, the widest unit first *)
  format_ordered t u : (0 <= t <= MaxInt64)%Z → (0 <= u <= MaxInt64)%Z →
    bytes_le (Format_RFC3339 t) (Format_RFC3339 u) → (t / Second <= u / Second)%Z
}.

(** [json.Unmarshal] into a [signal.Signal]: a control byte is not JSON, and
    invalid input leaves the zero value. *)
Definition zero_Signal : signal.Signal := signal.MkSignal [] NilKey NilUUID [].
Class JsonLib := {
  json_Unmarshal_Signal : bytes → signal.Signal
}.
Class JsonLaws (J : JsonLib) : Prop := {
  json_control_byte b l : (Z_of_byte b < 9)%Z → json_Unmarshal_Signal (b :: l) = zero_Signal
}.

Class SqlLib := {
  sql_scan : ∀ {V : Type}, gmap gostring V → list (gostring * V);
  sql_like : gostring → gostring → bool    (* value, pattern *)
}.
Class SqlLaws (Q : SqlLib) : Prop := {
  sql_scan_perm {V} (m : gmap gostring V) : sql_scan m ≡ₚ map_to_list m
}.

Class Platform := {
  pf_crypto :: Crypto;
  pf_uuid :: UuidLib;
  pf_time :: TimeLib;
  pf_json :: JsonLib;
  pf_sql :: SqlLib
}.
Class PlatformLaws (P : Platform) : Prop := {
  pl_crypto :: CryptoLaws pf_crypto;
  pl_uuid :: UuidLaws pf_uuid;
  pl_time :: TimeLaws pf_time;
  pl_json :: JsonLaws pf_json;
  pl_sql :: SqlLaws pf_sql
}.

Class Env := {
  env_now : nat → Z;
  env_uuid : nat → UUID;
  env_nonce : nat → option (vec byte 12);  (* rand.Read, [None]: it fails *)
  env_db : nat → option string;            (* [Some what]: the driver fails *)
  env_cache : nat → bool;                  (* the cached item has not expired *)
  env_net : nat → option string;           (* [Some what]: the connection fails *)
  env_ecdh : nat → option (vec byte 32);   (* X25519 GenerateKey, [None]: it fails *)
  env_range : nat → ∀ {V : Type}, gmap Key V → list (Key * V)   (* order of a [Range] *)
}.

(** A run without faults of the database or the random source. *)
Definition no_faults (E : Env) : Prop :=
  (∀ t, @env_db E t = None) ∧ (∀ t, is_Some (@env_nonce E t)).

(** [sync.Map.Range] visits every entry once, in some order. *)
Definition range_ok (E : Env) : Prop := ∀ t V (m : gmap Key V), @env_range E t V m ≡ₚ map_to_list m.

(** A run without faults of the network or of key generation. *)
Definition net_ok (E : Env) : Prop :=
  (∀ t, @env_net E t = None) ∧ (∀ t, is_Some (@env_ecdh E t)).

Lemma uuid_String_inj `{UL : UuidLaws} u v : uuid_String u = uuid_String v → u = v.
Proof. intros E. apply (f_equal uuid_Parse) in E. rewrite !uuid_parse_string in E. by simplify_eq. Qed.

(** ** Concrete instances *)

Definition toy_uuid : UuidLib := {|
  uuid_String u := hex_EncodeToString (vec_to_list u);
  uuid_Parse s := match hex_DecodeString s with
                  | Ret b => if (len b =? 16)%Z then Some (array_of 16 b) else None
                  | _ => None
                  end
|}.
Definition toy_time : TimeLib := {|
  Format_RFC3339 t := be_put 8 (t / Second);
  Parse_RFC3339 s := if (len s =? 8)%Z then Some (be_get s * Second)%Z else None;
  time_String t := lit "t"
|}.
Definition toy_json : JsonLib := {| json_Unmarshal_Signal _ := zero_Signal |}.
Definition toy_sql : SqlLib := {|
  sql_scan V m := map_to_list m;
  sql_like v p := bool_decide (v = p)
|}.

Definition toy_platform : Platform := {|
  pf_crypto := toy_crypto; pf_uuid := toy_uuid; pf_time := toy_time;
  pf_json := toy_json; pf_sql := toy_sql
|}.

Lemma toy_platform_laws : PlatformLaws toy_platform.
Proof.
  split; [apply toy_crypto_laws| | | |]; split; cbn; try done.
  - intros u. rewrite (hex_decode_complete (vec_to_list u)) by apply lower_hex_encode.
    by rewrite len_vec, array_of_vec.
  - intros u. intros E. apply (f_equal length) in E.
    by rewrite length_hex_encode, length_vec_to_list in E.
  - intros t Ht. rewrite len_be_put. unfold Second. cbn.
    change (Z.of_nat 8 =? 8)%Z with true. cbv iota.
    rewrite be_get_put_small; [f_equal; lia_div|]. unfold MaxInt64 in *.
    change (256 ^ Z.of_nat 8)%Z with 18446744073709551616%Z. lia_div.
  - intros t u Ht Hu Hle. apply bytes_le_be_get in Hle; [|done]. unfold Second, MaxInt64 in *.
    rewrite !be_get_put_small in Hle; [done|..]; change (256 ^ Z.of_nat 8)%Z with 18446744073709551616%Z; lia_div.
Qed.

Definition toy_env : Env := {|
  env_now t := (1700000000000000000 + Z.of_nat t mod 1000000000)%Z;
  env_uuid t := array_of 16 (be_put 16 (Z.of_nat (S t)));
  env_nonce t := Some (array_of 12 (be_put 12 (Z.of_nat t)));
  env_db t := None;
  env_cache t := true;
  env_net t := None;
  env_ecdh t := Some (array_of 32 (be_put 4 (Z.of_nat t) ++ lit "ephemeral"));
  env_range t V m := map_to_list m
|}.

Lemma toy_env_no_faults : no_faults toy_env.
Proof. split; intros t; [done|by eexists]. Qed.

Lemma toy_env_net_ok : net_ok toy_env.
Proof. split; intros t; [done|by eexists]. Qed.
