(* ===== verification/Store.v ===== *)
(** * The encrypted store (store/*.go)

    The six tables of the SQLite database, the decrypted-message cache, and
    the operations of the five stores. Every statement may fail (the driver
    is asked through [Env]); a statement is its effect on the tables. A table
    is a finite map from its primary key, as text, to the rest of the row; no
    statement of the program binds NULL, so [COALESCE] is the identity. *)

From S2P Require Import Prelude Net Config Crypto Keys Signal Monad Platform Base64.

(** ** State *)

Record chat_row := MkChatRow { cr_value : gostring; cr_created_at : gostring }.
Record peer_row := MkPeerRow {
  pr_peer_ip : gostring; pr_name : gostring; pr_nickname : gostring;
  pr_status : gostring; pr_last_seen : gostring; pr_profile_pic : gostring
}.
Record file_row := MkFileRow { fr_data : bytes; fr_msg_id : gostring; fr_created_at : gostring }.
Record search_row := MkSearchRow { sr_from_name : gostring; sr_to_name : gostring; sr_search_text : gostring }.
Record outbox_row := MkOutboxRow {
  or_target_pub_key : gostring; or_signal_type : gostring; or_signal_from : gostring;
  or_signal_id : gostring; or_signal_content : bytes; or_created_at : gostring; or_retry_count : Z
}.
Record profile_row := MkProfileRow { pf_name : gostring; pf_profile_pic : gostring }.

Record DB := MkDB {
  chats : gmap gostring chat_row;
  known_peers : gmap gostring peer_row;
  files : gmap gostring file_row;
  chat_search : gmap gostring search_row;
  outbox : gmap gostring outbox_row;
  profile : option profile_row   (* the row with rowid 1 *)
}.

(** The database, the cache of package go-cache, and how many times the
    environment was consulted. *)
Record SW := MkSW { db : DB; cache : gmap gostring gostring; tick : nat }.

Definition empty_DB : DB := MkDB ∅ ∅ ∅ ∅ ∅ None.
Definition empty_SW : SW := MkSW empty_DB ∅ 0.

Definition set_chats f d := MkDB (f (chats d)) (known_peers d) (files d) (chat_search d) (outbox d) (profile d).
Definition set_known_peers f d := MkDB (chats d) (f (known_peers d)) (files d) (chat_search d) (outbox d) (profile d).
Definition set_files f d := MkDB (chats d) (known_peers d) (f (files d)) (chat_search d) (outbox d) (profile d).
Definition set_chat_search f d := MkDB (chats d) (known_peers d) (files d) (f (chat_search d)) (outbox d) (profile d).
Definition set_outbox f d := MkDB (chats d) (known_peers d) (files d) (chat_search d) (f (outbox d)) (profile d).
Definition set_profile f d := MkDB (chats d) (known_peers d) (files d) (chat_search d) (outbox d) (f (profile d)).

(** [time.Time{}]: January 1 of year 1. *)
Definition zero_time : Z := (-62135596800 * Second)%Z.

Section Store.
Context {P : Platform} {E : Env}.

(** ** The environment *)

Definition next : M SW nat := λ w, (Ret (tick w), MkSW (db w) (cache w) (S (tick w))).
Definition time_Now : M SW Z := t ← next; mret (env_now t).
Definition uuid_New : M SW UUID := t ← next; mret (env_uuid t).
Definition rand_nonce : M SW bytes :=
  t ← next;
  match env_nonce t with
  | Some n => mret (vec_to_list n)
  | None => throw (EExternal "rand")
  end.

(** [db.ExecContext]: the statement's effect, or a driver error and none. *)
Definition db_exec (f : DB → DB) : M SW unit :=
  t ← next;
  match env_db t with
  | Some what => throw (EExternal what)
  | None => modify (λ w, MkSW (f (db w)) (cache w) (tick w))
  end.

(** An insertion that a constraint may refuse. *)
Definition db_exec_opt (f : DB → option DB) : M SW unit :=
  t ← next;
  match env_db t with
  | Some what => throw (EExternal what)
  | None =>
      d ← gets db;
      match f d with
      | Some d' => modify (λ w, MkSW d' (cache w) (tick w))
      | None => throw (EExternal "UNIQUE constraint failed")
      end
  end.

(** [db.QueryContext], [db.QueryRowContext] *)
Definition db_query {A} (q : DB → A) : M SW A :=
  t ← next;
  match env_db t with
  | Some what => throw (EExternal what)
  | None => gets (λ w, q (db w))
  end.

(** go-cache: an item that was set is found until it expires or is deleted. *)
Definition cache_Set (k v : gostring) : M SW unit :=
  modify (λ w, MkSW (db w) (<[k := v]> (cache w)) (tick w)).
Definition cache_Delete (k : gostring) : M SW unit :=
  modify (λ w, MkSW (db w) (delete k (cache w)) (tick w)).
Definition cache_Get (k : gostring) : M SW (option gostring) :=
  t ← next;
  if env_cache t then gets (λ w, cache w !! k) else mret None.

(** ** Encryption at rest *)

Definition aesKey (secret : Key) : bytes := take (Z.to_nat AesKeySize) (sha512_Sum (vec_to_list secret)).

Definition encryptRaw (secret : Key) (plain : bytes) : M SW bytes :=
  block ← wrapping "store: new cipher" (lift (aes_NewCipher (aesKey secret)));
  nonce ← wrapping "store: random nonce" rand_nonce;
  mret (nonce ++ gcm_Seal block nonce plain).

Definition decryptRaw (secret : Key) (data : bytes) : outcome bytes :=
  block ← wrap_err "store: new cipher" (aes_NewCipher (aesKey secret));
  let n := NonceSize in
  if (len data <? n)%Z then Err (ENew "store: invalid ciphertext") else
  nonce ← slice data 0 n;
  ct ← slice_from data n;
  match gcm_Open block nonce ct with
  | Some plain => Ret plain
  | None => Err (EWrap "store: open" (EExternal "cipher: message authentication failed"))
  end.

Definition encrypt (secret : Key) (plain : bytes) : M SW gostring :=
  raw ← encryptRaw secret plain;
  mret (base64_EncodeToString raw).

Definition decrypt (secret : Key) (data : gostring) : outcome bytes :=
  raw ← wrap_err "store: decode base64" (base64_DecodeString data);
  decryptRaw secret raw.

(** A column parsed by a [sql.Scanner] or by the caller. *)
Definition scan_opt {A} (what : string) (o : option A) : outcome A :=
  match o with Some a => Ret a | None => Err (EExternal what) end.

(** [for rows.Next()]: stops at the first row that does not scan. *)
Fixpoint scan_rows {A B} (f : A → outcome B) (rows : list A) : outcome (list B) :=
  match rows with
  | [] => Ret []
  | r :: rows' => b ← f r; out ← scan_rows f rows'; Ret (b :: out)
  end.

End Store.

(** ** chats.go *)

Module ChatStore.

Record ChatSummary := MkSummary { cs_ID : UUID; cs_CreatedAt : Z }.

Section S.
Context {P : Platform} {E : Env}.

Definition PutWithID (id : UUID) (value : gostring) (secret : Key) : M SW unit :=
  encrypted ← wrapping "store: encrypt" (encrypt secret value);
  now ← time_Now;
  wrapping "store: put" (db_exec (set_chats
    (<[uuid_String id := MkChatRow encrypted (Format_RFC3339 now)]>)));;
  cache_Delete (uuid_String id).

Definition CacheStore (id : UUID) (decrypted : gostring) : M SW unit :=
  cache_Set (uuid_String id) decrypted.

Definition CacheLoad (id : UUID) : M SW (option gostring) := cache_Get (uuid_String id).

Definition Get (id : UUID) (secret : Key) : M SW gostring :=
  row ← wrapping "store: get" (db_query (λ d, chats d !! uuid_String id));
  match row with
  | None => throw ENotExist
  | Some r => wrapping "store: decrypt" (lift (decrypt secret (cr_value r)))
  end.

Definition Update (id : UUID) (value : gostring) (secret : Key) : M SW unit :=
  exists_ ← wrapping "store: update check"
    (db_query (λ d, bool_decide (is_Some (chats d !! uuid_String id))));
  if negb exists_ then throw ENotExist else PutWithID id value secret.

(** [ORDER BY created_at, id] *)
Definition chat_le (a b : gostring * chat_row) : Prop :=
  if bool_decide (cr_created_at a.2 = cr_created_at b.2) then bytes_le a.1 b.1
  else bytes_le (cr_created_at a.2) (cr_created_at b.2).
Global Instance chat_le_dec : RelDecision chat_le.
Proof. intros a b. unfold chat_le. destruct (bool_decide _); apply _. Defined.

Definition scan_chat (r : gostring * chat_row) : outcome ChatSummary :=
  id ← wrap_err "store: parse id" (scan_opt "invalid UUID" (uuid_Parse r.1));
  t ← wrap_err "store: parse created_at" (scan_opt "parsing time" (Parse_RFC3339 (cr_created_at r.2)));
  Ret (MkSummary id t).

Definition List : M SW (list ChatSummary) :=
  rows ← wrapping "store: list" (db_query (λ d, merge_sort chat_le (sql_scan (chats d))));
  lift (scan_rows scan_chat rows).

Definition IndexSearch (id : UUID) (fromName toName searchText : gostring) : M SW unit :=
  wrapping "store: index search" (db_exec (set_chat_search
    (<[uuid_String id := MkSearchRow fromName toName searchText]>))).

Definition deleteSearchIndex (id : UUID) : M SW unit :=
  wrapping "store: delete search index" (db_exec (set_chat_search (delete (uuid_String id)))).

Definition search_match (pat : gostring) (r : gostring * search_row) : bool :=
  sql_like (sr_from_name r.2) pat || sql_like (sr_to_name r.2) pat || sql_like (sr_search_text r.2) pat.

Definition Search (query : gostring) (limit : Z) : M SW (list gostring) :=
  let pat := lit "%" ++ query ++ lit "%" in
  rows ← wrapping "store: search" (db_query (λ d,
    merge_sort bytes_le (fst <$> filter (λ r, search_match pat r = true) (sql_scan (chat_search d)))));
  mret (if (limit >? 0)%Z then take (Z.to_nat limit) rows else rows).

Definition Delete (id : UUID) : M SW unit :=
  wrapping "store: delete" (db_exec (set_chats (delete (uuid_String id))));;
  ignore (deleteSearchIndex id);;
  cache_Delete (uuid_String id).

End S.
End ChatStore.

(** ** peers.go *)

Definition Pending : gostring := lit "pending".
Definition Accepted : gostring := lit "accepted".
Definition Rejected : gostring := lit "rejected".

Module KnownPeerStore.

Record KnownPeer := MkPeer {
  PeerIP : bytes;
  PubKey : Key;
  PeerName : gostring;
  Nickname : gostring;
  Status : gostring;
  Online : bool;
  LastSeen : Z;
  ProfilePic : UUID
}.

Section S.
Context {P : Platform} {E : Env}.

Definition peer_to_row (p : KnownPeer) : peer_row :=
  MkPeerRow (net_IP_String (PeerIP p)) (PeerName p) (Nickname p) (Status p)
    (time_String (LastSeen p)) (uuid_String (ProfilePic p)).

Definition Add (peer : KnownPeer) : M SW unit :=
  wrapping "store: add known peer" (db_exec (set_known_peers
    (<[Key_String (PubKey peer) := peer_to_row peer]>))).

Definition scan_peer (r : gostring * peer_row) : outcome KnownPeer :=
  pk ← FromHex r.1;
  pic ← scan_opt "invalid UUID" (uuid_Scan (pr_profile_pic r.2));
  Ret (MkPeer (net_ParseIP (pr_peer_ip r.2)) pk (pr_name r.2) (pr_nickname r.2) (pr_status r.2)
    false (default zero_time (Parse_RFC3339 (pr_last_seen r.2))) pic).

Definition Get (pubKey : Key) : M SW KnownPeer :=
  row ← wrapping "store: get known peer" (db_query (λ d, known_peers d !! Key_String pubKey));
  match row with
  | None => throw ENotExist
  | Some r => wrapping "store: get known peer" (lift (scan_peer (Key_String pubKey, r)))
  end.

Definition List : M SW (list KnownPeer) :=
  rows ← wrapping "store: list known peers" (db_query (λ d, sql_scan (known_peers d)));
  wrapping "store: scan peer" (lift (scan_rows scan_peer rows)).

End S.
End KnownPeerStore.

(** ** files.go *)

Module FileStore.

Section S.
Context {P : Platform} {E : Env}.

Definition PutWithID (secret : Key) (id : UUID) (msgID : gostring) (data : bytes) : M SW unit :=
  encrypted ← wrapping "store: encrypt file" (encryptRaw secret data);
  now ← time_Now;
  wrapping "store: file put" (db_exec (set_files
    (<[uuid_String id := MkFileRow encrypted msgID (Format_RFC3339 now)]>))).

Definition Get (secret : Key) (id : UUID) : M SW bytes :=
  row ← wrapping "store: file get" (db_query (λ d, files d !! uuid_String id));
  match row with
  | None => throw ENotExist
  | Some r => wrapping "store: file decrypt" (lift (decryptRaw secret (fr_data r)))
  end.

Definition Delete (id : UUID) : M SW unit :=
  wrapping "store: file delete" (db_exec (set_files (delete (uuid_String id)))).

End S.
End FileStore.

(** ** outbox.go *)

Module OutboxStore.

Record OutboxSignal := MkOutbox {
  ob_ID : UUID;
  TargetPubKey : Key;
  SignalType : gostring;
  SignalFrom : Key;
  SignalID : UUID;
  SignalContent : bytes;
  ob_CreatedAt : Z;
  RetryCount : Z
}.

Section S.
Context {P : Platform} {E : Env}.

Definition Put (targetPubKey : Key) (rawSignalBytes : bytes) (secret : Key) : M SW UUID :=
  enc ← wrapping "store: encrypt outbox" (encryptRaw secret rawSignalBytes);
  let meta := json_Unmarshal_Signal rawSignalBytes in
  id ← uuid_New;
  now ← time_Now;
  wrapping "store: outbox put" (db_exec_opt (λ d,
    match outbox d !! uuid_String id with
    | Some _ => None
    | None => Some (set_outbox (<[uuid_String id :=
        MkOutboxRow (Key_String targetPubKey) (signal.Type' meta) (Key_String (signal.From meta))
          (uuid_String (signal.ID meta)) enc (Format_RFC3339 now) 0]>) d)
    end));;
  mret id.

(** [ORDER BY created_at]: the text of a time in whole seconds; what ties is in
    the order of the scan, which may be any. *)
Definition created_le (a b : gostring * outbox_row) : Prop :=
  bytes_le (or_created_at a.2) (or_created_at b.2).
Global Instance created_le_dec : RelDecision created_le.
Proof. intros a b. unfold created_le. apply _. Defined.

(** The columns both queries read; [content] is the decrypted payload. *)
Definition scan_entry (content : bytes) (r : gostring * outbox_row) : outcome OutboxSignal :=
  id ← wrap_err "store: outbox scan" (scan_opt "invalid UUID" (uuid_Scan r.1));
  target ← wrap_err "store: outbox scan" (FromHex (or_target_pub_key r.2));
  from ← wrap_err "store: outbox scan" (FromHex (or_signal_from r.2));
  sid ← wrap_err "store: outbox scan" (scan_opt "invalid UUID" (uuid_Scan (or_signal_id r.2)));
  t ← wrap_err "store: outbox parse created_at" (scan_opt "parsing time" (Parse_RFC3339 (or_created_at r.2)));
  Ret (MkOutbox id target (or_signal_type r.2) from sid content t (or_retry_count r.2)).

Definition scan_get (secret : Key) (r : gostring * outbox_row) : outcome OutboxSignal :=
  e ← scan_entry [] r;
  plain ← wrap_err "store: outbox decrypt" (decryptRaw secret (or_signal_content r.2));
  Ret (MkOutbox (ob_ID e) (TargetPubKey e) (SignalType e) (SignalFrom e) (SignalID e) plain
    (ob_CreatedAt e) (RetryCount e)).

Definition Get (targetPubKey secret : Key) : M SW (list OutboxSignal) :=
  rows ← wrapping "store: outbox get" (db_query (λ d, merge_sort created_le
    (filter (λ r, or_target_pub_key r.2 = Key_String targetPubKey) (sql_scan (outbox d)))));
  lift (scan_rows (scan_get secret) rows).

Definition List : M SW (list OutboxSignal) :=
  rows ← wrapping "store: outbox list" (db_query (λ d, merge_sort created_le (sql_scan (outbox d))));
  lift (scan_rows (scan_entry []) rows).

Definition Delete (id : UUID) : M SW unit :=
  wrapping "store: outbox delete" (db_exec (set_outbox (delete (uuid_String id)))).

Definition inc_retry (r : outbox_row) : outbox_row :=
  MkOutboxRow (or_target_pub_key r) (or_signal_type r) (or_signal_from r) (or_signal_id r)
    (or_signal_content r) (or_created_at r) (or_retry_count r + 1).

Definition IncrementRetry (id : UUID) : M SW unit :=
  wrapping "store: outbox increment retry" (db_exec (set_outbox (alter inc_retry (uuid_String id)))).

End S.
End OutboxStore.

(** ** profile.go *)

Module ProfileStore.

Record Profile := MkProfile { prof_Name : gostring; prof_ProfilePic : UUID }.

Section S.
Context {P : Platform} {E : Env}.

Definition Get : M SW Profile :=
  row ← wrapping "store: get profile" (db_query profile);
  match row with
  | None => mret (MkProfile [] NilUUID)
  | Some r =>
      pic ← wrapping "store: get profile" (lift (scan_opt "invalid UUID" (uuid_Scan (pf_profile_pic r))));
      mret (MkProfile (pf_name r) pic)
  end.

Definition Update (name : gostring) (fileID : UUID) : M SW unit :=
  ignore (db_exec (set_profile (λ r, match r with Some _ => r | None => Some (MkProfileRow [] []) end)));;
  let idStr := if bool_decide (fileID = NilUUID) then [] else uuid_String fileID in
  wrapping "store: set profile" (db_exec (set_profile (λ r,
    match r with Some _ => Some (MkProfileRow name idStr) | None => None end))).

End S.
End ProfileStore.

(** ** Facts about the statements *)

Section Facts.
Context {P : Platform} {E : Env} {PL : PlatformLaws P}.

(** The database and the cache are untouched. *)
Definition same (w w' : SW) : Prop := db w' = db w ∧ cache w' = cache w.

Lemma next_wp w : wp next (λ o w', same w w' ∧ o = Ret (tick w)) w.
Proof. by repeat split. Qed.

Lemma time_Now_wp w : wp time_Now (λ o w', same w w' ∧ o = Ret (env_now (tick w))) w.
Proof. by repeat split. Qed.

Lemma uuid_New_wp w : wp uuid_New (λ o w', same w w' ∧ o = Ret (env_uuid (tick w))) w.
Proof. by repeat split. Qed.

Lemma db_exec_wp f w :
  wp (db_exec f) (λ o w', cache w' = cache w ∧
    match o with
    | Ret _ => db w' = f (db w)
    | Err _ => db w' = db w ∧ ¬ no_faults E
    | Panic _ => False
    end) w.
Proof.
  unfold wp, db_exec, next. rewrite bind_run. cbn.
  destruct (env_db (tick w)) eqn:Ed; cbn; [|done]. split; [done|]. split; [done|].
  intros [Hd _]. by rewrite Hd in Ed.
Qed.

Lemma db_query_wp {A} (q : DB → A) w :
  wp (db_query q) (λ o w', same w w' ∧
    match o with
    | Ret a => a = q (db w)
    | Err _ => ¬ no_faults E
    | Panic _ => False
    end) w.
Proof.
  unfold wp, db_query, next. rewrite bind_run. cbn.
  destruct (env_db (tick w)) eqn:Ed; cbn; [|done]. split; [done|].
  intros [Hd _]. by rewrite Hd in Ed.
Qed.

Lemma cache_Get_wp k w :
  wp (cache_Get k) (λ o w', same w w' ∧ (o = Ret None ∨ o = Ret (cache w !! k))) w.
Proof.
  unfold wp, cache_Get, next. rewrite bind_run. cbn.
  destruct (env_cache (tick w)); cbn; repeat split; auto.
Qed.

(** ** Facts about encryption at rest *)

Lemma length_aesKey secret : length (aesKey secret) = 32.
Proof. unfold aesKey. rewrite length_take, sha512_length. done. Qed.

Lemma aes_aesKey secret : aes_NewCipher (aesKey secret) = Ret (aesKey secret).
Proof. apply aes_NewCipher_32, length_aesKey. Qed.

Lemma decryptRaw_seal secret (nonce : vec byte 12) plain :
  decryptRaw secret (vec_to_list nonce ++ gcm_Seal (aesKey secret) nonce plain) = Ret plain.
Proof.
  unfold decryptRaw, NonceSize. rewrite aes_aesKey. cbn [wrap_err mbind outcome_bind].
  rewrite (proj2 (Z.ltb_ge _ _)) by solve_len.
  rewrite slice_prefix by solve_len.
  cbn [mbind outcome_bind]. rewrite slice_from_app by solve_len.
  cbn [mbind outcome_bind]. by rewrite gcm_open_seal.
Qed.

Lemma decryptRaw_no_panic secret data : is_panic (decryptRaw secret data) = false.
Proof.
  unfold decryptRaw, NonceSize. rewrite aes_aesKey. cbn [wrap_err mbind outcome_bind].
  destruct (Z.ltb_spec (len data) 12); [done|]. unfold slice_from.
  rewrite !slice_ok by lia. cbn [mbind outcome_bind]. by destruct (gcm_Open _ _ _).
Qed.

Lemma decode_quads_no_panic s : is_panic (decode_quads s) = false.
Proof.
  assert (∀ n s, length s ≤ n → is_panic (decode_quads s) = false) as H; [|by eapply H].
  clear s. intros n. induction n as [|n IH]; intros [|c1 [|c2 [|c3 [|c4 s]]]] Hl; try done; cbn in Hl; [lia|].
  cbn. destruct (b64val c1), (b64val c2), (b64val c3), (b64val c4); try done; try by case_bool_decide.
  specialize (IH s ltac:(lia)). by destruct (decode_quads s).
Qed.

Lemma decrypt_no_panic secret data : is_panic (decrypt secret data) = false.
Proof.
  unfold decrypt, base64_DecodeString. pose proof (decode_quads_no_panic (filter not_newline data)).
  destruct (decode_quads _) as [raw| |]; [|done..]. apply decryptRaw_no_panic.
Qed.

Lemma rand_nonce_wp w :
  wp rand_nonce (λ o w', same w w' ∧
    match o with
    | Ret n => ∃ v : vec byte 12, n = vec_to_list v
    | Err _ => ¬ no_faults E
    | Panic _ => False
    end) w.
Proof.
  unfold rand_nonce. wp_use next_wp as o w' [Hs ->].
  destruct (env_nonce (tick w)) as [n|] eqn:En; (split; [done|]); [by exists n|].
  intros [_ Hn]. destruct (Hn (tick w)) as [? Hx]. by rewrite Hx in En.
Qed.

Lemma encryptRaw_wp secret plain w :
  wp (encryptRaw secret plain) (λ o w', same w w' ∧
    match o with
    | Ret c => decryptRaw secret c = Ret plain
    | Err _ => ¬ no_faults E
    | Panic _ => False
    end) w.
Proof.
  unfold encryptRaw. rewrite aes_aesKey. wp_head.
  wp_use rand_nonce_wp as o w' [Hs Ho]. destruct o as [n|e|p]; [|done..].
  destruct Ho as [v ->]. apply wp_ret. split; [done|]. apply decryptRaw_seal.
Qed.

Lemma encrypt_wp secret plain w :
  wp (encrypt secret plain) (λ o w', same w w' ∧
    match o with
    | Ret c => decrypt secret c = Ret plain
    | Err _ => ¬ no_faults E
    | Panic _ => False
    end) w.
Proof.
  unfold encrypt. wp_use encryptRaw_wp as o w' [Hs Ho].
  destruct o as [c|e|p]; [|done..]. apply wp_ret. split; [done|].
  unfold decrypt. by rewrite base64_roundtrip.
Qed.
End Facts.

(** ** The chat store as a map of plaintexts *)

Section Chats.
Context {P : Platform} {E : Env} {PL : PlatformLaws P}.

(** The plaintext of a stored message. *)
Definition plain_at (secret : Key) (d : DB) (k : gostring) : option gostring :=
  match chats d !! k with
  | Some r => match decrypt secret (cr_value r) with Ret v => Some v | _ => None end
  | None => None
  end.

(** Cache coherence: what is cached is what the database holds. *)
Definition coherent (secret : Key) (w : SW) : Prop :=
  ∀ k v, cache w !! k = Some v → plain_at secret (db w) k = Some v.

Lemma coherent_same secret w w' : same w w' → coherent secret w → coherent secret w'.
Proof. intros [Hd Hc] Hw k v. rewrite Hd, Hc. apply Hw. Qed.

Lemma plain_at_insert secret d k r v :
  decrypt secret (cr_value r) = Ret v →
  plain_at secret (set_chats (<[k := r]>) d) k = Some v.
Proof. intros Hr. unfold plain_at. cbn. by rewrite lookup_insert_eq, Hr. Qed.

Lemma plain_at_insert_ne secret d k k' r :
  k ≠ k' → plain_at secret (set_chats (<[k := r]>) d) k' = plain_at secret d k'.
Proof. intros Hr. unfold plain_at. cbn. by rewrite lookup_insert_ne. Qed.

Lemma plain_at_delete secret d k : plain_at secret (set_chats (delete k) d) k = None.
Proof. unfold plain_at. cbn. by rewrite lookup_delete_eq. Qed.

Lemma plain_at_delete_ne secret d k k' :
  k ≠ k' → plain_at secret (set_chats (delete k) d) k' = plain_at secret d k'.
Proof. intros Hr. unfold plain_at. cbn. by rewrite lookup_delete_ne. Qed.

Lemma PutWithID_wp id value secret w :
  wp (ChatStore.PutWithID id value secret) (λ o w',
    match o with
    | Ret _ => ∃ r, decrypt secret (cr_value r) = Ret value ∧
        db w' = set_chats (<[uuid_String id := r]>) (db w) ∧
        cache w' = delete (uuid_String id) (cache w)
    | Err _ => same w w' ∧ ¬ no_faults E
    | Panic _ => False
    end) w.
Proof.
  unfold ChatStore.PutWithID. wp_use (encrypt_wp (P:=P)) as o1 w1 [[Hd1 Hc1] H1].
  destruct o1 as [enc|e|p]; [|by repeat split|done].
  wp_use time_Now_wp as o2 w2 [[Hd2 Hc2] ->].
  wp_use db_exec_wp as o3 w3 [Hc3 H3].
  destruct o3 as [[]|e|p]; [|unfold same; intuition congruence|done].
  unfold wp, cache_Delete, modify. cbn. eexists. split; [|split]; [|by rewrite H3, Hd2, Hd1|congruence].
  exact H1.
Qed.

Lemma ChatGet_wp id secret w :
  wp (ChatStore.Get id secret) (λ o w', same w w' ∧
    match o with
    | Ret v => plain_at secret (db w) (uuid_String id) = Some v
    | Err e => no_faults E → plain_at secret (db w) (uuid_String id) = None ∧
        (chats (db w) !! uuid_String id = None ↔ e = ENotExist)
    | Panic _ => False
    end) w.
Proof.
  unfold ChatStore.Get, plain_at. wp_use (db_query_wp (E:=E)) as o1 w1 [Hs H1].
  destruct o1 as [row|e|p]; [|split; [done|intros Hn; by destruct (H1 Hn)]|done]. subst row.
  destruct (chats (db w) !! uuid_String id) as [r|]; [|split; [done|intros _; by split]].
  pose proof (decrypt_no_panic secret (cr_value r)) as Hp. wp_head.
  destruct (decrypt secret (cr_value r)) as [v|e|p]; split; try done.
Qed.

Lemma ChatUpdate_wp id value secret w :
  wp (ChatStore.Update id value secret) (λ o w',
    match o with
    | Ret _ => is_Some (chats (db w) !! uuid_String id) ∧ ∃ r, decrypt secret (cr_value r) = Ret value ∧
        db w' = set_chats (<[uuid_String id := r]>) (db w) ∧
        cache w' = delete (uuid_String id) (cache w)
    | Err e => same w w' ∧
        (no_faults E → chats (db w) !! uuid_String id = None ∧ e = ENotExist)
    | Panic _ => False
    end) w.
Proof.
  unfold ChatStore.Update. wp_use (db_query_wp (E:=E)) as o1 w1 [[Hd1 Hc1] H1].
  destruct o1 as [b|e|p]; [|split; [done|intros Hn; by destruct (H1 Hn)]|done]. subst b.
  case_bool_decide as Hex; cbn [negb].
  - eapply wp_mono; [|apply PutWithID_wp]. cbn beta. rewrite Hd1, Hc1.
    intros [[]|e|p] w2; [by eauto| |done]. unfold same. rewrite Hd1, Hc1.
    intros [? Hf]. split; [done|]. intros Hn. by destruct (Hf Hn).
  - apply eq_None_not_Some in Hex. unfold wp, throw. cbn. unfold same. auto.
Qed.

Lemma ChatDelete_wp id w :
  wp (ChatStore.Delete id) (λ o w',
    match o with
    | Ret _ => chats (db w') = delete (uuid_String id) (chats (db w)) ∧ files (db w') = files (db w) ∧
        known_peers (db w') = known_peers (db w) ∧ outbox (db w') = outbox (db w) ∧
        profile (db w') = profile (db w) ∧ cache w' = delete (uuid_String id) (cache w)
    | Err _ => same w w' ∧ ¬ no_faults E
    | Panic _ => False
    end) w.
Proof.
  unfold ChatStore.Delete. wp_use db_exec_wp as o1 w1 [Hc1 H1].
  destruct o1 as [[]|e|p]; [|by unfold same; intuition congruence|done].
  unfold ChatStore.deleteSearchIndex. wp_use db_exec_wp as o2 w2 [Hc2 H2].
  destruct o2 as [[]|e|p]; [| |done]; unfold wp, cache_Delete, modify; cbn.
  - by rewrite H2, H1, Hc2, Hc1.
  - destruct H2 as [-> _]. by rewrite H1, Hc2, Hc1.
Qed.
End Chats.
