(* ===== verification/MessageStore.v ===== *)
(** * Messages in the store (message/message.go)

    The operations of package [message] on a store: storing, reading through
    the cache, updating, deleting and searching messages, and storing
    attachments as files. *)

From S2P Require Import Prelude Config Crypto Keys Signal Message Monad Platform Base64 Store.

Definition set_MsgID (id : UUID) (m : message.Message) : message.Message :=
  message.MkMessage id (message.FromPubKey m) (message.To m) (message.MsgContent m)
    (message.MsgTime m) (message.CreatedAt m) (message.UpdatedAt m) (message.Attachments m).
Definition set_FromPubKey (k : Key) (m : message.Message) : message.Message :=
  message.MkMessage (message.MsgID m) k (message.To m) (message.MsgContent m)
    (message.MsgTime m) (message.CreatedAt m) (message.UpdatedAt m) (message.Attachments m).
Definition set_Content (c : gostring) (m : message.Message) : message.Message :=
  message.MkMessage (message.MsgID m) (message.FromPubKey m) (message.To m) c
    (message.MsgTime m) (message.CreatedAt m) (message.UpdatedAt m) (message.Attachments m).
Definition set_CreatedAt (t : Z) (m : message.Message) : message.Message :=
  message.MkMessage (message.MsgID m) (message.FromPubKey m) (message.To m) (message.MsgContent m)
    (message.MsgTime m) t (message.UpdatedAt m) (message.Attachments m).
Definition set_UpdatedAt (t : Z) (m : message.Message) : message.Message :=
  message.MkMessage (message.MsgID m) (message.FromPubKey m) (message.To m) (message.MsgContent m)
    (message.MsgTime m) (message.CreatedAt m) t (message.Attachments m).
Definition set_MsgTime (t : Z) (m : message.Message) : message.Message :=
  message.MkMessage (message.MsgID m) (message.FromPubKey m) (message.To m) (message.MsgContent m)
    t (message.CreatedAt m) (message.UpdatedAt m) (message.Attachments m).
Definition set_Attachments (l : list message.Attachment) (m : message.Message) : message.Message :=
  message.MkMessage (message.MsgID m) (message.FromPubKey m) (message.To m) (message.MsgContent m)
    (message.MsgTime m) (message.CreatedAt m) (message.UpdatedAt m) l.

Module msgstore.
Section S.
Context {P : Platform} {E : Env}.

(** The slice is updated in place: the list returned is what it then holds. *)
Fixpoint StoreAttachments (secret : Key) (msgID : gostring) (attachments : list message.Attachment)
    : M SW (list message.Attachment) :=
  match attachments with
  | [] => mret []
  | a :: l =>
      if (len (message.Data a) =? 0)%Z
      then rest ← StoreAttachments secret msgID l; mret (a :: rest)
      else
        id ← (if bool_decide (message.AttID a = NilUUID) then uuid_New else mret (message.AttID a));
        wrapping "message: store attachment" (FileStore.PutWithID secret id msgID (message.Data a));;
        rest ← StoreAttachments secret msgID l;
        mret (message.MkAttachment id (message.Name a) (message.MIMEType a)
                (len (message.Data a)) [] :: rest)
  end.

Definition indexAndCache (id : UUID) (fromName : gostring) (msg : message.Message) (plain : bytes)
    : M SW unit :=
  ignore (ChatStore.IndexSearch id fromName (message.To msg) (message.searchText msg));;
  ChatStore.CacheStore id plain.

Definition loadPlain (secret : Key) (id : UUID) : M SW gostring :=
  cached ← ChatStore.CacheLoad id;
  match cached with
  | Some v => mret v
  | None =>
      plain ← wrapping "message: store get" (ChatStore.Get id secret);
      ChatStore.CacheStore id plain;;
      mret plain
  end.

(** [Put] assigns [msg.ID] when it is nil: the message it leaves is returned
    with the call's result. *)
Definition Put (secret : Key) (fromName : gostring) (msg : message.Message)
    : M SW (message.Message * (UUID + error)) :=
  plain ← wrapping "message: encode" (lift (message.Encode msg));
  '(id, msg) ←
    (if bool_decide (message.MsgID msg = NilUUID)
     then id ← uuid_New; mret (id, set_MsgID id msg)
     else mret (message.MsgID msg, msg));
  r ← attempt (wrapping "message: store put" (ChatStore.PutWithID id plain secret));
  match r with
  | inr e => mret (msg, inr e)
  | inl _ => indexAndCache id fromName msg plain;; mret (msg, inl id)
  end.

Definition Get (secret : Key) (id : UUID) : M SW message.Message :=
  plain ← loadPlain secret id;
  msg ← wrapping "message: decode" (lift (message.ToMessage plain));
  mret (set_MsgID id msg).

Definition Update (secret : Key) (id : UUID) (fromName : gostring) (msg : message.Message)
    : M SW unit :=
  existing ← attempt (Get secret id);
  let msg := match existing with inl e => set_CreatedAt (message.CreatedAt e) msg | inr _ => msg end in
  now ← time_Now;
  let msg := set_UpdatedAt now msg in
  plain ← wrapping "message: encode" (lift (message.Encode msg));
  wrapping "message: store update" (ChatStore.Update id plain secret);;
  indexAndCache id fromName msg plain.

Definition Delete (secret : Key) (id : UUID) : M SW unit :=
  r ← attempt (loadPlain secret id);
  match r with
  | inl plain =>
      d ← attempt (lift (message.ToMessage plain));
      match d with
      | inl msg => for_each (message.Attachments msg) (λ a, ignore (FileStore.Delete (message.AttID a)))
      | inr _ => mret tt
      end
  | inr _ => mret tt
  end;;
  wrapping "message: store delete" (ChatStore.Delete id).

(** [for _, id := range ids { ... continue ... append }] *)
Fixpoint load_found (secret : Key) (ids : list gostring) : M SW (list message.Message) :=
  match ids with
  | [] => mret []
  | id :: ids' =>
      match uuid_Parse id with
      | None => load_found secret ids'
      | Some msgID =>
          r ← attempt (Get secret msgID);
          match r with
          | inl msg => out ← load_found secret ids'; mret (msg :: out)
          | inr _ => load_found secret ids'
          end
      end
  end.

Definition Search (secret : Key) (query : gostring) (limit : Z) : M SW (list message.Message) :=
  if bool_decide (query = []) then mret [] else
  ids ← wrapping "message: search index" (ChatStore.Search query limit);
  load_found secret ids.

End S.
End msgstore.

(** ** The store as a map of messages *)

Section View.
Context {P : Platform} {E : Env} {PL : PlatformLaws P}.
Variable secret : Key.
Import msgstore.

(** The message stored under an id: its row decrypted and decoded, with the
    id it is filed under. *)
Definition msg_view (d : DB) (id : UUID) : option message.Message :=
  v ← plain_at secret d (uuid_String id);
  match message.ToMessage v with Ret m => Some (set_MsgID id m) | _ => None end.

(** Every row that opens holds the encoding of a message. *)
Definition decodable (d : DB) : Prop :=
  ∀ k v, plain_at secret d k = Some v → ∃ m, message.ToMessage v = Ret m.

(** The invariant of the message store. *)
Definition store_inv (w : SW) : Prop := coherent secret w ∧ decodable (db w).

(** The tables the message operations leave alone. *)
Definition same_tables (d d' : DB) : Prop :=
  known_peers d' = known_peers d ∧ outbox d' = outbox d ∧ profile d' = profile d.

(** A Go [int64] field. *)
Definition sizes_ok (m : message.Message) : Prop :=
  Forall (λ a, message.Size a <= MaxInt64)%Z (message.Attachments m).

Lemma Encode_cases m :
  sizes_ok m →
  (message.encodable m ∧ message.Encode m = Ret (message.layout m)) ∨
  (¬ message.encodable m ∧ ∃ p, message.Encode m = Panic p).
Proof.
  intros Hs. destruct (decide (message.encodable m)) as [He|He]; [left|right].
  - split; [done|]. by apply message.Encode_layout.
  - split; [done|]. pose proof (message.Encode_panic m Hs He) as Hp.
    destruct (message.Encode m); [done..|]. eauto.
Qed.

Lemma ToMessage_layout0 m :
  message.encodable m → message.ToMessage (message.layout m) = Ret (message.stored_times m).
Proof. intros. by rewrite <-(message.ToMessage_layout m []), app_nil_r. Qed.

Lemma store_inv_same w w' : same w w' → store_inv w → store_inv w'.
Proof. intros Hs [Hc Hd]. split; [by eapply coherent_same|]. by destruct Hs as [-> _]. Qed.

Lemma plain_at_chats d d' k : chats d' = chats d → plain_at secret d' k = plain_at secret d k.
Proof. unfold plain_at. by intros ->. Qed.

Lemma msg_view_chats d d' id : chats d' = chats d → msg_view d' id = msg_view d id.
Proof. intros. unfold msg_view. by erewrite plain_at_chats. Qed.

Lemma store_inv_chats w w' :
  chats (db w') = chats (db w) → cache w' = cache w → store_inv w → store_inv w'.
Proof.
  intros Hd Hc [H1 H2]. split.
  - intros k v. rewrite Hc, (plain_at_chats (db w)) by done. apply H1.
  - intros k v. rewrite (plain_at_chats (db w)) by done. apply H2.
Qed.

(** Caching what the database holds is harmless. *)
Lemma coherent_cache w k v :
  plain_at secret (db w) k = Some v → coherent secret w →
  coherent secret (MkSW (db w) (<[k := v]> (cache w)) (tick w)).
Proof.
  intros Hv Hw k' v'. cbn. destruct (decide (k = k')) as [<-|].
  - rewrite lookup_insert_eq. by intros [= <-].
  - rewrite lookup_insert_ne by done. apply Hw.
Qed.

(** ** Specifications of the operations *)

Lemma loadPlain_wp id w :
  store_inv w →
  wp (loadPlain secret id) (λ o w', db w' = db w ∧ store_inv w' ∧
    match o with
    | Ret v => plain_at secret (db w) (uuid_String id) = Some v
    | Err _ => no_faults E → plain_at secret (db w) (uuid_String id) = None
    | Panic _ => False
    end) w.
Proof.
  intros Hw. unfold loadPlain, ChatStore.CacheLoad. wp_use cache_Get_wp as o1 w1 [Hs1 H1].
  pose proof (store_inv_same _ _ Hs1 Hw) as Hw1. destruct Hs1 as [Hd1 Hc1].
  assert (o1 = Ret None ∨ ∃ v, o1 = Ret (Some v) ∧ plain_at secret (db w) (uuid_String id) = Some v)
    as [->|(v & -> & Hv)].
  { destruct H1 as [->|H1]; [by left|]. destruct (cache w !! uuid_String id) as [v|] eqn:Ev; subst o1.
    - right. exists v. split; [done|]. by apply Hw.
    - by left. }
  2: { by apply wp_ret. }
  wp_use (ChatGet_wp (P:=P)) as o2 w2 [Hs2 H2]. pose proof (store_inv_same _ _ Hs2 Hw1) as Hw2.
  destruct Hs2 as [Hd2 Hc2]. rewrite Hd1 in H2.
  destruct o2 as [v|e|p]; [| |done].
  - unfold ChatStore.CacheStore, cache_Set. wp_head. cbn. split; [congruence|]. split; [|done].
    split; [|apply Hw2]. apply coherent_cache; [|apply Hw2]. by rewrite Hd2, Hd1.
  - split; [congruence|]. split; [done|]. by intros [? _]%H2.
Qed.

Lemma msg_view_plain d id v :
  plain_at secret d (uuid_String id) = Some v →
  msg_view d id = match message.ToMessage v with Ret m => Some (set_MsgID id m) | _ => None end.
Proof. intros Hv. unfold msg_view. by rewrite Hv. Qed.

Lemma Get_wp id w :
  store_inv w →
  wp (Get secret id) (λ o w', db w' = db w ∧ store_inv w' ∧
    match o with
    | Ret m => msg_view (db w) id = Some m
    | Err _ => no_faults E → msg_view (db w) id = None
    | Panic _ => False
    end) w.
Proof.
  intros Hw. unfold Get. wp_use (loadPlain_wp id w Hw) as o1 w1 (Hd & Hw1 & H1).
  destruct o1 as [v|e|p]; [| |done].
  - destruct (proj2 Hw _ _ H1) as [m Hm]. rewrite (msg_view_plain _ _ v H1). wp_head. rewrite Hm. by apply wp_ret.
  - split; [done|]. split; [done|]. intros Hn. unfold msg_view. by rewrite (H1 Hn).
Qed.

Lemma indexAndCache_wp id fromName msg plain w :
  wp (indexAndCache id fromName msg plain) (λ o w', o = Ret tt ∧
    chats (db w') = chats (db w) ∧ files (db w') = files (db w) ∧ same_tables (db w) (db w') ∧
    cache w' = <[uuid_String id := plain]> (cache w)) w.
Proof.
  unfold indexAndCache, ChatStore.IndexSearch, ChatStore.CacheStore, cache_Set.
  wp_use db_exec_wp as o w1 [Hc H1]. destruct o as [[]|e|p]; [| |done]; wp_head; cbn; rewrite Hc.
  - by rewrite H1.
  - by rewrite (proj1 H1).
Qed.

(** Filing a well-formed plaintext, then caching it, keeps the invariant and
    updates the view at its id only. *)
Lemma stored_inv d c t w0 id m v r :
  store_inv w0 → message.ToMessage v = Ret m → decrypt secret (cr_value r) = Ret v →
  chats d = <[uuid_String id := r]> (chats (db w0)) →
  c = <[uuid_String id := v]> (delete (uuid_String id) (cache w0)) →
  store_inv (MkSW d c t) ∧
  ∀ id', msg_view d id' = if decide (id' = id) then Some (set_MsgID id m) else msg_view (db w0) id'.
Proof.
  intros [Hc Hp] Hm Hr Hd ->.
  assert (∀ k, plain_at secret d k = if decide (k = uuid_String id) then Some v
    else plain_at secret (db w0) k) as Hpl.
  { intros k. unfold plain_at. rewrite Hd. case_decide as Hk; subst.
    - by rewrite lookup_insert_eq, Hr.
    - by rewrite lookup_insert_ne by done. }
  split; [split|].
  - intros k v'. cbn. rewrite Hpl. case_decide as Hk; subst.
    + by rewrite lookup_insert_eq.
    + rewrite lookup_insert_ne, lookup_delete_ne by done. apply Hc.
  - intros k v'. cbn. rewrite Hpl. case_decide; [|apply Hp]. intros [= <-]. by exists m.
  - intros id'. unfold msg_view. rewrite Hpl.
    destruct (decide (id' = id)) as [->|Hne]; [rewrite decide_True by done; cbn; by rewrite Hm|].
    rewrite decide_False; [done|]. by intros ?%uuid_String_inj.
Qed.

(** What [Put] files: the message under its own id, or a fresh one. *)
Definition stored_as (id : UUID) (m : message.Message) : message.Message :=
  set_MsgID id (message.stored_times m).

(** The outcome [Put] promises. *)
Definition Put_post (msg : message.Message) (w : SW) (o : outcome (message.Message * (UUID + error)))
    (w' : SW) : Prop :=
  store_inv w' ∧ same_tables (db w) (db w') ∧ files (db w') = files (db w) ∧
  match o with
  | Ret (msg', inl id) =>
      msg' = set_MsgID id msg ∧ (message.MsgID msg ≠ NilUUID → id = message.MsgID msg) ∧
      (∀ id', msg_view (db w') id' =
        if decide (id' = id) then Some (stored_as id msg) else msg_view (db w) id') ∧
      ∃ r, chats (db w') = <[uuid_String id := r]> (chats (db w))
  | Ret (_, inr _) => db w' = db w ∧ ¬ no_faults E
  | Err _ => False
  | Panic _ => db w' = db w ∧ ¬ message.encodable msg
  end.

Lemma Put_tail_wp fromName msg id w w1 :
  store_inv w → same w w1 → message.encodable msg →
  (message.MsgID msg ≠ NilUUID → id = message.MsgID msg) →
  wp (r ← attempt (wrapping "message: store put" (ChatStore.PutWithID id (message.layout msg) secret));
      match r with
      | inr e => mret (set_MsgID id msg, inr e)
      | inl _ => indexAndCache id fromName (set_MsgID id msg) (message.layout msg);;
                 mret (set_MsgID id msg, inl id)
      end) (Put_post msg w) w1.
Proof.
  intros Hw [Hd1 Hc1] He Hid. unfold Put_post, same_tables.
  wp_use (PutWithID_wp (P:=P)) as o2 w2 H2. rewrite Hd1, Hc1 in H2. destruct o2 as [[]|e|p]; [| |done].
  - destruct H2 as (r & Hr & Hd2 & Hc2).
    wp_use indexAndCache_wp as o3 w3 (-> & Hch & Hf & Ht & Hc3). wp_head.
    destruct (stored_inv (db w3) (cache w3) (tick w3) w id (message.stored_times msg)
      (message.layout msg) r Hw) as [Hi Hv]; [by apply ToMessage_layout0|done|..].
    { by rewrite Hch, Hd2. }
    { by rewrite Hc3, Hc2. }
    rewrite Hd2 in Ht, Hf. destruct w3. do 3 (split; [done|]). split; [done|]. split; [done|].
    split; [done|]. eexists. by rewrite Hch, Hd2.
  - destruct H2 as [[Hd2 Hc2] Hf]. wp_head. rewrite Hd2, Hd1.
    split; [|done]. apply (store_inv_same w); [|done]. by split; congruence.
Qed.

Lemma Put_wp fromName msg w :
  store_inv w → sizes_ok msg → wp (Put secret fromName msg) (Put_post msg w) w.
Proof.
  intros Hw Hs. unfold Put.
  destruct (Encode_cases msg Hs) as [[He ->]|[He [p ->]]]; [|by wp_head].
  wp_head. case_bool_decide as Hn.
  - wp_use uuid_New_wp as o1 w1 [Hs1 ->]. apply wp_ret. by apply Put_tail_wp.
  - apply wp_ret. pose proof (Put_tail_wp fromName msg (message.MsgID msg) w w) as Ht.
    replace (set_MsgID (message.MsgID msg) msg) with msg in Ht by (by destruct msg).
    by apply Ht.
Qed.

(** What [Update] writes: the message with the creation time it found and the
    current time as update time. *)
Definition updated (created now : Z) (m : message.Message) : message.Message :=
  set_UpdatedAt now (set_CreatedAt created m).

(** The creation time [Update] keeps. *)
Definition keeps_created (w : SW) (id : UUID) (msg : message.Message) (c : Z) : Prop :=
  match msg_view (db w) id with
  | Some e => c = message.CreatedAt e ∨ (c = message.CreatedAt msg ∧ ¬ no_faults E)
  | None => c = message.CreatedAt msg
  end.

Definition Update_post (id : UUID) (msg : message.Message) (w : SW) (o : outcome unit) (w' : SW) : Prop :=
  store_inv w' ∧ same_tables (db w) (db w') ∧ files (db w') = files (db w) ∧
  match o with
  | Ret _ => is_Some (chats (db w) !! uuid_String id) ∧
      (∃ r, chats (db w') = <[uuid_String id := r]> (chats (db w))) ∧
      ∃ c t, keeps_created w id msg c ∧
        ∀ id', msg_view (db w') id' =
          if decide (id' = id) then Some (stored_as id (updated c (env_now t) msg))
          else msg_view (db w) id'
  | Err e => db w' = db w ∧
      (no_faults E → chats (db w) !! uuid_String id = None ∧ e = EWrap "message: store update" ENotExist)
  | Panic _ => db w' = db w ∧
      ∃ c t, keeps_created w id msg c ∧ ¬ message.encodable (updated c (env_now t) msg)
  end.

Lemma Update_tail_wp id fromName msg c t w w1 :
  store_inv w → sizes_ok msg → store_inv w1 → db w1 = db w → keeps_created w id msg c →
  wp (let msg := updated c (env_now t) msg in
      plain ← wrapping "message: encode" (lift (message.Encode msg));
      wrapping "message: store update" (ChatStore.Update id plain secret);;
      indexAndCache id fromName msg plain) (Update_post id msg w) w1.
Proof.
  intros Hw Hs Hw1 Hd1 Hk. unfold Update_post, same_tables. cbv zeta.
  destruct (Encode_cases (updated c (env_now t) msg) Hs) as [[He ->]|[He [p ->]]].
  2: { wp_head. rewrite Hd1. eauto 10. }
  wp_use (ChatUpdate_wp (P:=P)) as o2 w2 H2. rewrite Hd1 in H2. destruct o2 as [[]|e|p]; [| |done].
  - destruct H2 as (Hex & r & Hr & Hd2 & Hc2).
    wp_use indexAndCache_wp as o3 w3 (-> & Hch & Hf & Ht & Hc3).
    destruct (stored_inv (db w3) (cache w3) (tick w3) w1 id
      (message.stored_times (updated c (env_now t) msg))
      (message.layout (updated c (env_now t) msg)) r Hw1) as [Hi Hv];
      [by apply ToMessage_layout0|exact Hr|..].
    { by rewrite Hch, Hd2, Hd1. }
    { by rewrite Hc3, Hc2. }
    rewrite Hd2 in Ht, Hf. rewrite Hd1 in Hv.
    assert (∃ r, chats (db w3) = <[uuid_String id := r]> (chats (db w))) by (eexists; by rewrite Hch, Hd2).
    destruct w3. repeat (split; [done|]). eauto.
  - destruct H2 as [[Hd2 Hc2] Hf]. rewrite Hd2, Hd1.
    split; [by apply (store_inv_same w1)|]. repeat (split; [done|]).
    intros Hn. by destruct (Hf Hn) as [? ->].
Qed.

Lemma Update_wp id fromName msg w :
  store_inv w → sizes_ok msg → wp (Update secret id fromName msg) (Update_post id msg w) w.
Proof.
  intros Hw Hs. unfold Update. wp_use (Get_wp id w Hw) as o1 w1 (Hd1 & Hw1 & H1).
  destruct o1 as [e|e|p]; [| |done].
  - wp_use time_Now_wp as o2 w2 [Hs2 ->].
    apply (Update_tail_wp id fromName msg (message.CreatedAt e)); try done.
    + by apply (store_inv_same w1).
    + destruct Hs2 as [-> _]. done.
    + unfold keeps_created. rewrite H1. by left.
  - wp_use time_Now_wp as o2 w2 [Hs2 ->].
    pose proof (Update_tail_wp id fromName msg (message.CreatedAt msg) (tick w1) w w2 Hw Hs) as Ht.
    unfold updated in Ht. replace (set_CreatedAt (message.CreatedAt msg) msg) with msg in Ht by (by destruct msg).
    apply Ht.
    + by apply (store_inv_same w1).
    + destruct Hs2 as [-> _]. done.
    + unfold keeps_created. destruct (msg_view (db w) id); [right|done]. split; [done|]. intros Hn. by specialize (H1 Hn).
Qed.

(** Removing files one by one, ignoring failures: only listed files go, and
    without faults all of them do. *)
Definition files_removed (keys : list gostring) (d d' : DB) : Prop :=
  (∀ k, files d' !! k = files d !! k ∨ (files d' !! k = None ∧ k ∈ keys)) ∧
  (no_faults E → ∀ k, k ∈ keys → files d' !! k = None).

Definition attachment_keys (l : list message.Attachment) : list gostring :=
  (λ a, uuid_String (message.AttID a)) <$> l.

Lemma files_removed_refl d d' : files d' = files d → files_removed [] d d'.
Proof. intros Hf. split; [left; by rewrite Hf|]. by intros _ k ?%elem_of_nil. Qed.

Lemma files_removed_cons k ks d d1 d2 :
  (files d1 = delete k (files d) ∨ files d1 = files d ∧ ¬ no_faults E) →
  files_removed ks d1 d2 → files_removed (k :: ks) d d2.
Proof.
  intros Hf [H1 H2]. split.
  - intros k'. rewrite elem_of_cons. destruct (H1 k') as [->|[-> Hin]]; [|auto].
    destruct Hf as [->|[-> _]]; [|auto]. destruct (decide (k' = k)) as [->|].
    + right. by rewrite lookup_delete_eq; auto.
    + left. by rewrite lookup_delete_ne.
  - intros Hn k' [->|Hin]%elem_of_cons; [|by apply H2].
    destruct Hf as [Hf|[_ []]]; [|done].
    destruct (H1 k) as [->|[? _]]; [|done]. by rewrite Hf, lookup_delete_eq.
Qed.

Lemma FileDelete_wp id w :
  wp (ignore (FileStore.Delete id)) (λ o w', o = Ret tt ∧
    chats (db w') = chats (db w) ∧ cache w' = cache w ∧ same_tables (db w) (db w') ∧
    (files (db w') = delete (uuid_String id) (files (db w)) ∨
     files (db w') = files (db w) ∧ ¬ no_faults E)) w.
Proof.
  unfold FileStore.Delete. wp_use db_exec_wp as o1 w1 [Hc1 H1]. rewrite Hc1.
  destruct o1 as [[]|e|p]; [| |done].
  - rewrite H1. repeat (split; [done|]). by left.
  - destruct H1 as [-> ?]. repeat (split; [done|]). by right.
Qed.

Lemma deleteFiles_wp l w :
  wp (for_each l (λ a, ignore (FileStore.Delete (message.AttID a)))) (λ o w', o = Ret tt ∧
    chats (db w') = chats (db w) ∧ cache w' = cache w ∧ same_tables (db w) (db w') ∧
    files_removed (attachment_keys l) (db w) (db w')) w.
Proof.
  revert w. induction l as [|a l IH]; intros w.
  { apply wp_ret. repeat (split; [done|]). by apply files_removed_refl. }
  cbn [for_each]. apply wp_bind. eapply wp_mono; [|apply FileDelete_wp].
  intros o1 w1 (-> & Hch1 & Hc1 & Ht1 & Hf1).
  eapply wp_mono; [|apply IH]. intros o2 w2 (-> & Hch2 & Hc2 & Ht2 & Hr). unfold same_tables in *.
  repeat (split; [intuition congruence|]). by apply (files_removed_cons _ _ _ (db w1)).
Qed.

Definition msg_files (d : DB) (id : UUID) : list gostring :=
  match msg_view d id with Some m => attachment_keys (message.Attachments m) | None => [] end.

Definition Delete_post (id : UUID) (w : SW) (o : outcome unit) (w' : SW) : Prop :=
  store_inv w' ∧ same_tables (db w) (db w') ∧
  (∀ k, files (db w') !! k = files (db w) !! k ∨
        (files (db w') !! k = None ∧ k ∈ msg_files (db w) id)) ∧
  match o with
  | Ret _ => chats (db w') = delete (uuid_String id) (chats (db w)) ∧
      (∀ id', msg_view (db w') id' = if decide (id' = id) then None else msg_view (db w) id') ∧
      (no_faults E → ∀ k, k ∈ msg_files (db w) id → files (db w') !! k = None)
  | Err _ => ¬ no_faults E ∧ chats (db w') = chats (db w)
  | Panic _ => False
  end.

Lemma delete_inv w w' id :
  store_inv w → chats (db w') = delete (uuid_String id) (chats (db w)) →
  cache w' = delete (uuid_String id) (cache w) →
  store_inv w' ∧
  ∀ id', msg_view (db w') id' = if decide (id' = id) then None else msg_view (db w) id'.
Proof.
  intros [Hc Hp] Hd Hca.
  assert (∀ k, plain_at secret (db w') k = if decide (k = uuid_String id) then None
    else plain_at secret (db w) k) as Hpl.
  { intros k. unfold plain_at. rewrite Hd. case_decide; subst;
      [by rewrite lookup_delete_eq|by rewrite lookup_delete_ne]. }
  split; [split|].
  - intros k v. rewrite Hca, Hpl. case_decide; subst;
      [by rewrite lookup_delete_eq|rewrite lookup_delete_ne by done; apply Hc].
  - intros k v. rewrite Hpl. case_decide; [done|apply Hp].
  - intros id'. unfold msg_view. rewrite Hpl.
    destruct (decide (id' = id)) as [->|Hne]; [by rewrite decide_True|].
    rewrite decide_False; [done|]. by intros ?%uuid_String_inj.
Qed.

(** The row goes, after the files in [l] went. *)
Lemma Delete_tail_wp id w w1 :
  store_inv w1 → chats (db w1) = chats (db w) → same_tables (db w) (db w1) →
  files_removed (msg_files (db w) id) (db w) (db w1) →
  wp (wrapping "message: store delete" (ChatStore.Delete id)) (Delete_post id w) w1.
Proof.
  intros Hw1 Hch1 Ht1 [Hf1 Hf2]. unfold Delete_post, same_tables in *.
  wp_use (ChatDelete_wp (P:=P)) as o w2 H. destruct o as [[]|e|p]; [| |done].
  - destruct H as (Hch & Hf & Hk & Ho & Hp & Hc).
    destruct (delete_inv w1 w2 id Hw1 Hch Hc) as [Hi Hv].
    rewrite Hf, Hk, Ho, Hp. repeat (split; [done|]). rewrite Hch, Hch1. split; [done|].
    split; [|done]. intros id'. rewrite Hv. case_decide; [done|]. by apply msg_view_chats.
  - destruct H as [[Hd Hc] Hn]. rewrite Hd. split; [by apply (store_inv_same w1)|]. auto.
Qed.

Lemma Delete_wp id w : store_inv w → wp (Delete secret id) (Delete_post id w) w.
Proof.
  intros Hw. unfold Delete. wp_use (loadPlain_wp id w Hw) as o1 w1 (Hd1 & Hw1 & H1).
  assert (files_removed [] (db w) (db w1)) as Hr0 by (apply files_removed_refl; by rewrite Hd1).
  destruct o1 as [v|e|p]; [| |done].
  - destruct (proj2 Hw _ _ H1) as [m0 Hp].
    assert (msg_files (db w) id = match message.ToMessage v with
      Ret m => attachment_keys (message.Attachments m) | _ => [] end) as Hmf.
    { unfold msg_files. rewrite (msg_view_plain _ _ v H1). by destruct (message.ToMessage v). }
    rewrite Hp in *. apply wp_bind, wp_bind, wp_attempt, wp_lift.
    eapply wp_mono; [|apply deleteFiles_wp]. intros o2 w2 (-> & Hch & Hc & Ht & Hr).
    rewrite Hd1 in *. apply Delete_tail_wp; rewrite ?Hmf; try done.
    apply (store_inv_chats w1); [by rewrite Hd1|done..].
  - apply wp_bind, wp_ret, Delete_tail_wp; rewrite ?Hd1; try done.
    split; [auto|]. intros Hn k. unfold msg_files, msg_view. rewrite (H1 Hn).
    by intros ?%elem_of_nil.
Qed.

(** ** Search *)

(** The message an index key leads to. *)
Definition found (d : DB) (k : gostring) : option message.Message :=
  id ← uuid_Parse k; msg_view d id.

Lemma found_spec d k m :
  found d k = Some m →
  uuid_Parse k = Some (message.MsgID m) ∧ msg_view d (message.MsgID m) = Some m.
Proof.
  unfold found, msg_view. destruct (uuid_Parse k) as [id|]; [cbn|done].
  destruct (plain_at _ _ _) as [v|] eqn:Ev; [cbn|done].
  destruct (message.ToMessage v) as [m'|e|p] eqn:Em; [|done..].
  intros [= <-]. cbn. by rewrite Ev; cbn; rewrite Em.
Qed.

Lemma load_found_wp ids w :
  store_inv w →
  wp (load_found secret ids) (λ o w', db w' = db w ∧ store_inv w' ∧
    ∃ out, o = Ret out ∧ out `sublist_of` omap (found (db w)) ids ∧
      (no_faults E → out = omap (found (db w)) ids)) w.
Proof.
  revert w. induction ids as [|k ids IH]; intros w Hw; [by apply wp_ret; eauto 10|].
  cbn [load_found]. change (omap ?f (k :: ids)) with
    (match f k with Some y => y :: omap f ids | None => omap f ids end).
  destruct (uuid_Parse k) as [id|] eqn:Ek.
  2: { replace (found (db w) k) with (@None message.Message) by (unfold found; by rewrite Ek). by apply IH. }
  replace (found (db w) k) with (msg_view (db w) id) by (unfold found; by rewrite Ek).
  wp_use (Get_wp id w Hw) as o1 w1 (Hd1 & Hw1 & H1). destruct o1 as [m|e|p]; [| |done].
  - apply wp_bind. eapply wp_mono; [|by apply IH]. rewrite Hd1, H1.
    intros o2 w2 (Hd2 & Hw2 & out & -> & Hs & Hn). apply wp_ret.
    split; [done|]. split; [done|]. eexists. split; [done|].
    split; [by constructor|]. intros Hf. by rewrite (Hn Hf).
  - eapply wp_mono; [|by apply IH]. cbn beta. rewrite Hd1.
    intros o2 w2 (Hd2 & Hw2 & out & -> & Hs & Hn).
    split; [done|]. split; [done|]. eexists. split; [done|]. split.
    + destruct (msg_view (db w) id); [by constructor|done].
    + intros Hf. by rewrite (H1 Hf), (Hn Hf).
Qed.

Definition indexed (d : DB) (query k : gostring) : Prop :=
  ∃ r, chat_search d !! k = Some r ∧
    ChatStore.search_match (lit "%" ++ query ++ lit "%") (k, r) = true.

Definition Search_post (query : gostring) (limit : Z) (w : SW)
    (o : outcome (list message.Message)) (w' : SW) : Prop :=
  db w' = db w ∧ store_inv w' ∧
  match o with
  | Ret out =>
      (∀ m, m ∈ out → msg_view (db w) (message.MsgID m) = Some m ∧
        ∃ k, uuid_Parse k = Some (message.MsgID m) ∧ indexed (db w) query k) ∧
      (0 < limit → len out <= limit)%Z ∧
      (no_faults E → query ≠ [] → (limit <= 0)%Z →
        ∀ k m, indexed (db w) query k → found (db w) k = Some m → m ∈ out)
  | Err _ => ¬ no_faults E
  | Panic _ => False
  end.

Lemma search_rows d query :
  ∀ k, k ∈ merge_sort bytes_le (fst <$> filter (λ r,
        ChatStore.search_match (lit "%" ++ query ++ lit "%") r = true) (sql_scan (chat_search d)))
    ↔ indexed d query k.
Proof.
  intros k. rewrite merge_sort_Permutation, list_elem_of_fmap. unfold indexed. split.
  - intros ([k' r] & -> & [Hm Hin]%list_elem_of_filter). rewrite sql_scan_perm in Hin.
    exists r. split; [by apply elem_of_map_to_list|done].
  - intros (r & Hr & Hm). exists (k, r). split; [done|]. apply list_elem_of_filter.
    split; [done|]. rewrite sql_scan_perm. by apply elem_of_map_to_list.
Qed.

Lemma Search_wp query limit w :
  store_inv w → wp (Search secret query limit) (Search_post query limit w) w.
Proof.
  intros Hw. unfold Search, Search_post. case_bool_decide as Hq.
  { apply wp_ret. split; [done|]. split; [done|]. split; [by intros m ?%elem_of_nil|].
    split; [|done]. intros. change (len (@nil message.Message)) with 0%Z. lia. }
  unfold ChatStore.Search. wp_use db_query_wp as o1 w1 [Hs1 H1].
  pose proof (store_inv_same _ _ Hs1 Hw) as Hw1. destruct Hs1 as [Hd1 Hc1].
  destruct o1 as [rows|e|p]; [|done..]. apply wp_ret.
  set (ids := if (limit >? 0)%Z then _ else rows).
  eapply wp_mono; [|by apply load_found_wp]. rewrite Hd1.
  intros o2 w2 (Hd2 & Hw2 & out & -> & Hsub & Hn). split; [done|]. split; [done|].
  assert (∀ k, k ∈ ids → indexed (db w) query k) as Hids.
  { intros k Hk. apply search_rows. rewrite <-H1. unfold ids in Hk.
    destruct (limit >? 0)%Z; [|done].
    apply elem_of_take in Hk as (i & Hi & _). by eapply list_elem_of_lookup_2. }
  split; [|split].
  - intros m Hm. apply (elem_of_sublist _ _ _ Hm) in Hsub as Hm'. clear Hm; rename Hm' into Hm.
    apply list_elem_of_omap in Hm as (k & Hk & Hf). apply found_spec in Hf as [? ?]. eauto.
  - intros Hl. apply sublist_length in Hsub. unfold len.
    pose proof (length_omap_le (found (db w)) ids). unfold ids in *.
    rewrite Z.gtb_ltb, (proj2 (Z.ltb_lt _ _)) in * by done.
    rewrite length_take in *. lia.
  - intros Hf _ Hl k m Hk Hm. rewrite (Hn Hf). apply list_elem_of_omap. exists k. split; [|done].
    unfold ids. rewrite Z.gtb_ltb, (proj2 (Z.ltb_ge _ _)), H1 by done. by apply search_rows.
Qed.

(** The keys of the index rows that match, in order, cut to the limit. *)
Definition hits (d : DB) (query : gostring) (limit : Z) : list gostring :=
  let rows := merge_sort bytes_le (fst <$> filter (λ r,
    ChatStore.search_match (lit "%" ++ query ++ lit "%") r = true) (sql_scan (chat_search d))) in
  if (limit >? 0)%Z then take (Z.to_nat limit) rows else rows.

(** Without faults a search gives the messages its hits lead to. *)
Lemma Search_exact query limit w :
  no_faults E → store_inv w →
  wp (Search secret query limit) (λ o w', db w' = db w ∧ store_inv w' ∧
    o = Ret (if bool_decide (query = []) then [] else omap (found (db w)) (hits (db w) query limit))) w.
Proof.
  intros Hf Hw. unfold Search. case_bool_decide; [by apply wp_ret|].
  unfold ChatStore.Search. wp_use db_query_wp as o1 w1 [Hs1 H1].
  pose proof (store_inv_same _ _ Hs1 Hw) as Hw1. destruct Hs1 as [Hd1 _].
  destruct o1 as [rows|e|p]; [|by destruct (H1 Hf)|done]. apply wp_ret.
  eapply wp_mono; [|by apply load_found_wp]. rewrite Hd1. intros o2 w2 (Hd2 & Hw2 & out & -> & _ & Hn).
  split; [done|]. split; [done|]. rewrite (Hn Hf). unfold hits. by rewrite H1.
Qed.

(** ** The search index *)

Definition index_row (fromName : gostring) (m : message.Message) : search_row :=
  MkSearchRow fromName (message.To m) (message.searchText m).

Lemma indexAndCache_index id fromName msg plain w :
  no_faults E →
  wp (indexAndCache id fromName msg plain) (λ o w', o = Ret tt ∧
    chat_search (db w') = <[uuid_String id := index_row fromName msg]> (chat_search (db w))) w.
Proof.
  intros Hf. unfold indexAndCache, ChatStore.IndexSearch, ChatStore.CacheStore, cache_Set.
  wp_use db_exec_wp as o w1 [_ H1]. destruct o as [[]|e|p]; [|by destruct H1|done]; wp_head. cbn. by rewrite H1.
Qed.

Lemma Put_index fromName msg w :
  no_faults E →
  wp (Put secret fromName msg) (λ o w', chat_search (db w') =
    match o with
    | Ret (_, inl id) => <[uuid_String id := index_row fromName msg]> (chat_search (db w))
    | _ => chat_search (db w)
    end) w.
Proof.
  intros Hf. unfold Put. wp_head. destruct (message.Encode msg) as [plain|e|p]; [|done..].
  set (pick := if bool_decide _ then _ else _).
  assert (wp pick (λ o w1, same w w1 ∧ ∃ id, o = Ret (id, set_MsgID id msg)) w) as Hp.
  { unfold pick. case_bool_decide.
    - wp_use uuid_New_wp as o w1 [Hs ->]. apply wp_ret. split; [done|]. by eexists.
    - apply wp_ret. split; [done|]. exists (message.MsgID msg). by destruct msg. }
  apply wp_bind. eapply wp_mono; [|exact Hp]. intros ? w1 [[Hd1 _] [id ->]].
  wp_use (PutWithID_wp (P:=P)) as o2 w2 H2. rewrite Hd1 in H2.
  destruct o2 as [[]|e|p]; [| |done].
  - destruct H2 as (r & _ & Hd2 & _).
    wp_use (indexAndCache_index id fromName (set_MsgID id msg) plain w2 Hf) as o3 w3 [-> H3]. apply wp_ret.
    rewrite H3, Hd2. done.
  - destruct H2 as [_ Hn]. by destruct (Hn Hf).
Qed.

Lemma Update_index id fromName msg w :
  no_faults E → store_inv w →
  wp (Update secret id fromName msg) (λ o w', chat_search (db w') =
    match o with
    | Ret _ => <[uuid_String id := index_row fromName msg]> (chat_search (db w))
    | _ => chat_search (db w)
    end) w.
Proof.
  intros Hf Hw. unfold Update. wp_use (Get_wp id w Hw) as o1 w1 (Hd1 & _ & H1).
  destruct o1 as [e|e|p]; [| |done].
  all: wp_use time_Now_wp as o2 w2 [[Hd2 _] ->]; rewrite Hd1 in Hd2; wp_head;
    (destruct (message.Encode _) as [plain|e'|p]; [|by rewrite Hd2..]);
    wp_use (ChatUpdate_wp (P:=P)) as o3 w3 H3; rewrite Hd2 in H3;
    (destruct o3 as [[]|e'|p]; [|by destruct H3 as [[-> _] _]; rewrite Hd2|done]);
    destruct H3 as (_ & r & _ & Hd3 & _);
    (eapply wp_conseq; [by apply indexAndCache_index|]); intros o4 w4 [-> H4]; by rewrite H4, Hd3.
Qed.

Lemma ChatDelete_index id w :
  no_faults E →
  wp (wrapping "message: store delete" (ChatStore.Delete id)) (λ _ w',
    chat_search (db w') = delete (uuid_String id) (chat_search (db w))) w.
Proof.
  intros Hf. unfold ChatStore.Delete. wp_use db_exec_wp as o3 w3 [_ H3].
  destruct o3 as [[]|e|p]; [|by destruct H3|done].
  unfold ChatStore.deleteSearchIndex. wp_use db_exec_wp as o4 w4 [_ H4].
  destruct o4 as [[]|e|p]; [|by destruct H4|done]. unfold cache_Delete. apply wp_modify. cbn. by rewrite H4, H3.
Qed.

Lemma deleteFiles_index l w :
  wp (for_each l (λ a, ignore (FileStore.Delete (message.AttID a)))) (λ o w',
    o = Ret tt ∧ chat_search (db w') = chat_search (db w)) w.
Proof.
  revert w. induction l as [|a l IH]; intros w; [by apply wp_ret|]. cbn [for_each]. unfold FileStore.Delete.
  wp_use db_exec_wp as o1 w1 [_ H1].
  assert (chat_search (db w1) = chat_search (db w)) as <- by (destruct o1; [by rewrite H1|by destruct H1 as [-> _]|done]).
  destruct o1 as [[]|e|p]; [apply IH|apply IH|done].
Qed.

Lemma Delete_index id w :
  no_faults E → store_inv w →
  wp (Delete secret id) (λ _ w', chat_search (db w') = delete (uuid_String id) (chat_search (db w))) w.
Proof.
  intros Hf Hw. unfold Delete. wp_use (loadPlain_wp id w Hw) as o1 w1 (Hd1 & _ & H1). rewrite <-Hd1.
  destruct o1 as [v|e|p]; [| |done].
  - destruct (proj2 Hw _ _ H1) as [m ->]. apply wp_bind, wp_bind, wp_attempt, wp_lift.
    eapply wp_mono; [|apply deleteFiles_index]. intros ? w2 [-> <-]. by apply ChatDelete_index.
  - apply wp_bind, wp_ret. by apply ChatDelete_index.
Qed.

(** ** Attachments *)

(** The decrypted contents of a stored file. *)
Definition file_view (d : DB) (k : gostring) : option bytes :=
  r ← files d !! k; match decryptRaw secret (fr_data r) with Ret b => Some b | _ => None end.

Lemma FilePut_wp id msgID data w :
  wp (FileStore.PutWithID secret id msgID data) (λ o w', cache w' = cache w ∧
    chats (db w') = chats (db w) ∧ same_tables (db w) (db w') ∧
    match o with
    | Ret _ => ∀ k, file_view (db w') k =
        if decide (k = uuid_String id) then Some data else file_view (db w) k
    | Err _ => db w' = db w ∧ ¬ no_faults E
    | Panic _ => False
    end) w.
Proof.
  unfold FileStore.PutWithID. wp_use (encryptRaw_wp (P:=P)) as o1 w1 [[Hd1 Hc1] H1].
  destruct o1 as [c|e|p]; [|by rewrite Hd1, Hc1|done].
  wp_use time_Now_wp as o2 w2 [[Hd2 Hc2] ->]. rewrite Hd1 in Hd2.
  wp_use db_exec_wp as o3 w3 [Hc3 H3]. rewrite Hd2 in H3.
  destruct o3 as [[]|e|p]; [| |done]; split; try congruence.
  - rewrite H3. repeat (split; [done|]). intros k. unfold file_view. cbn. case_decide as Hk; subst.
    + rewrite lookup_insert_eq. cbn. by rewrite H1.
    + by rewrite lookup_insert_ne.
  - by destruct H3 as [-> ?].
Qed.

Lemma FileGet_wp id w :
  wp (FileStore.Get secret id) (λ o w', same w w' ∧
    match o with
    | Ret b => file_view (db w) (uuid_String id) = Some b
    | Err e => no_faults E → file_view (db w) (uuid_String id) = None
    | Panic _ => False
    end) w.
Proof.
  unfold FileStore.Get, file_view. wp_use db_query_wp as o1 w1 [Hs H1].
  destruct o1 as [row|e|p]; [|split; [done|intros Hn; by destruct (H1 Hn)]|done]. subst row.
  destruct (files (db w) !! uuid_String id) as [r|]; [|by apply wp_throw].
  pose proof (decryptRaw_no_panic secret (fr_data r)) as Hp. wp_head. cbn.
  by destruct (decryptRaw secret (fr_data r)).
Qed.

(** An attachment before and after it was stored. *)
Definition stored_att (a b : message.Attachment) : Prop :=
  if (len (message.Data a) =? 0)%Z then b = a
  else b = message.MkAttachment (message.AttID b) (message.Name a) (message.MIMEType a)
             (len (message.Data a)) [] ∧
       (message.AttID a ≠ NilUUID → message.AttID b = message.AttID a).

(** The keys written, in order. *)
Fixpoint written (l l' : list message.Attachment) : list gostring :=
  match l, l' with
  | a :: l, b :: l' =>
      if (len (message.Data a) =? 0)%Z then written l l'
      else uuid_String (message.AttID b) :: written l l'
  | _, _ => []
  end.

Definition attachments_stored (l l' : list message.Attachment) (d d' : DB) : Prop :=
  Forall2 stored_att l l' ∧
  (∀ k, k ∉ written l l' → file_view d' k = file_view d k) ∧
  (NoDup (written l l') → Forall2 (λ a b, (len (message.Data a) =? 0)%Z = false →
     file_view d' (uuid_String (message.AttID b)) = Some (message.Data a)) l l').

Lemma attachments_stored_skip a l l' d d' :
  (len (message.Data a) =? 0)%Z = true →
  attachments_stored l l' d d' → attachments_stored (a :: l) (a :: l') d d'.
Proof.
  intros Ha (H1 & H2 & H3). unfold attachments_stored. cbn. rewrite Ha.
  split; [|split; [done|]].
  - constructor; [|done]. unfold stored_att. by rewrite Ha.
  - intros Hnd. constructor; [by rewrite Ha|]. by apply H3.
Qed.

Lemma attachments_stored_cons a b l l' d d1 d' :
  (len (message.Data a) =? 0)%Z = false → stored_att a b →
  (∀ k, file_view d1 k = if decide (k = uuid_String (message.AttID b))
    then Some (message.Data a) else file_view d k) →
  attachments_stored l l' d1 d' → attachments_stored (a :: l) (b :: l') d d'.
Proof.
  intros Ha Hab Hd (H1 & H2 & H3). unfold attachments_stored. cbn. rewrite Ha.
  split; [by constructor|]. split.
  - intros k [Hk Hin]%not_elem_of_cons. rewrite H2, Hd by done. by rewrite decide_False.
  - intros [Hni Hnd]%NoDup_cons. constructor; [|by apply H3].
    intros _. rewrite H2, Hd by done. by rewrite decide_True.
Qed.

Lemma StoreAttachments_wp msgID l w :
  wp (StoreAttachments secret msgID l) (λ o w', cache w' = cache w ∧
    chats (db w') = chats (db w) ∧ same_tables (db w) (db w') ∧
    match o with
    | Ret l' => attachments_stored l l' (db w) (db w')
    | Err _ => ¬ no_faults E
    | Panic _ => False
    end) w.
Proof.
  revert w. induction l as [|a l IH]; intros w.
  { apply wp_ret. repeat (split; [done|]). repeat split; try done; by constructor. }
  cbn [StoreAttachments]. destruct (len (message.Data a) =? 0)%Z eqn:Ea.
  { apply wp_bind. eapply wp_mono; [|apply IH]. intros [l'|e|p] w1 (?&?&?&H); [|by auto..].
    apply wp_ret. repeat (split; [done|]). by apply attachments_stored_skip. }
  set (pick := if bool_decide _ then _ else _).
  assert (wp pick (λ o w', same w w' ∧ ∃ id, o = Ret id ∧
    (message.AttID a ≠ NilUUID → id = message.AttID a)) w) as Hp.
  { unfold pick. case_bool_decide as Hn; [|by apply wp_ret; repeat split; eauto].
    wp_use uuid_New_wp as o w1 [? ->]. split; [done|]. by eexists. }
  apply wp_bind. eapply wp_mono; [|exact Hp]. intros o1 w1 ([Hd1 Hc1] & id & -> & Hid).
  wp_use FilePut_wp as o2 w2 (Hc2 & Hch2 & Ht2 & H2). rewrite Hc1, Hd1 in *.
  destruct o2 as [[]|e|p]; [|by destruct H2|done].
  apply wp_bind. eapply wp_mono; [|apply IH]. unfold same_tables in *.
  intros [l'|e|p] w3 (Hc3 & Hch3 & Ht3 & H3); [apply wp_ret|..|done];
    (repeat (split; [intuition congruence|])); [|done].
  eapply (attachments_stored_cons a _ l l' (db w) (db w2)); [done| |exact H2|done].
  unfold stored_att. by rewrite Ea.
Qed.

Lemma StoreAttachments_index msgID l w :
  wp (StoreAttachments secret msgID l) (λ _ w', chat_search (db w') = chat_search (db w)) w.
Proof.
  apply (preserves_wp (λ w', chat_search (db w') = chat_search (db w))); [|done].
  assert (∀ f, (∀ d, chat_search (f d) = chat_search d) →
    preserves (λ w', chat_search (db w') = chat_search (db w)) (db_exec f)) as Hx.
  { intros f Hf w1 H1. unfold db_exec, next. rewrite bind_run. cbn. destruct (env_db _); cbn; [done|]. by rewrite Hf. }
  assert (∀ p, preserves (λ w', chat_search (db w') = chat_search (db w)) (encryptRaw secret p)) as He.
  { intros p w1 H1. destruct (encryptRaw_wp secret p w1) as [[Hd _] _]. by rewrite Hd. }
  induction l as [|a l IH]; cbn [StoreAttachments]; [preserve|].
  assert (preserves (λ w', chat_search (db w') = chat_search (db w)) uuid_New) by (unfold uuid_New; by intros w1 H1).
  assert (preserves (λ w', chat_search (db w') = chat_search (db w)) time_Now) by (unfold time_Now; by intros w1 H1).
  unfold FileStore.PutWithID. preserve; auto.
Qed.
End View.

(** ** The store as a whole *)

(** A call on the message store by the client. *)
Inductive store_op :=
| OpPut (fromName : gostring) (msg : message.Message)
| OpGet (id : UUID)
| OpUpdate (id : UUID) (fromName : gostring) (msg : message.Message)
| OpDelete (id : UUID)
| OpSearch (query : gostring) (limit : Z)
| OpStoreAttachments (msgID : gostring) (l : list message.Attachment).

Section Theorems.
Context {P : Platform} {E : Env} {PL : PlatformLaws P}.
Variable secret : Key.
Import msgstore.

Definition run_op (op : store_op) (w : SW) : SW :=
  match op with
  | OpPut n m => (Put secret n m w).2
  | OpGet id => (Get secret id w).2
  | OpUpdate id n m => (Update secret id n m w).2
  | OpDelete id => (Delete secret id w).2
  | OpSearch q l => (Search secret q l w).2
  | OpStoreAttachments m l => (StoreAttachments secret m l w).2
  end.

Definition op_ok (op : store_op) : Prop :=
  match op with OpPut _ m | OpUpdate _ _ m => sizes_ok m | _ => True end.

Lemma store_inv_empty : store_inv secret empty_SW.
Proof.
  split; intros k v; unfold plain_at; cbn; by rewrite lookup_empty.
Qed.

Lemma run_op_inv op w : op_ok op → store_inv secret w → store_inv secret (run_op op w).
Proof.
  intros Hop Hw. destruct op; cbn in *.
  - by destruct (Put_wp secret fromName msg w Hw Hop).
  - by destruct (Get_wp secret id w Hw) as (_ & ? & _).
  - by destruct (Update_wp secret id fromName msg w Hw Hop).
  - by destruct (Delete_wp secret id w Hw).
  - by destruct (Search_wp secret query limit w Hw) as (_ & ? & _).
  - destruct (StoreAttachments_wp secret msgID l w) as (Hc & Hch & _).
    by eapply store_inv_chats.
Qed.

(** From a fresh database, any sequence of message-store calls, with any
    driver faults, random-source faults and cache expirations, leaves the
    cache coherent with the encrypted table and every stored row decodable. *)
Theorem store_inv_run (ops : list store_op) :
  Forall op_ok ops → store_inv secret (foldl (flip run_op) empty_SW ops).
Proof.
  intros Hops. assert (∀ w, store_inv secret w → store_inv secret (foldl (flip run_op) w ops)) as H.
  { induction Hops as [|op ops Hop Hops IH]; intros w Hw; [done|]. by apply IH, run_op_inv. }
  apply H, store_inv_empty.
Qed.

(** Without faults, [Put] of a message that fits the wire format succeeds,
    under its own id or a fresh one; [Get] of that id then returns the message
    (its times as the format keeps them), and no other message changed. *)
Theorem Put_Get (fromName : gostring) (msg : message.Message) (w : SW) :
  no_faults E → store_inv secret w → sizes_ok msg → message.encodable msg →
  ∃ id w1 w2,
    Put secret fromName msg w = (Ret (set_MsgID id msg, inl id), w1) ∧
    Get secret id w1 = (Ret (stored_as id msg), w2) ∧ db w2 = db w1 ∧
    (message.MsgID msg ≠ NilUUID → id = message.MsgID msg) ∧
    (∀ id', id' ≠ id → msg_view secret (db w1) id' = msg_view secret (db w) id').
Proof.
  intros Hn Hw Hs He. pose proof (Put_wp secret fromName msg w Hw Hs) as Hp. unfold wp, Put_post in Hp.
  destruct (Put secret fromName msg w) as [o w1]; cbn in Hp.
  destruct Hp as (Hw1 & _ & _ & Hp). destruct o as [[m' [id|e]]|e|p]; try tauto.
  destruct Hp as (-> & Hid & Hv & _). pose proof (Get_wp secret id w1 Hw1) as Hg. unfold wp in Hg.
  destruct (Get secret id w1) as [o2 w2] eqn:Eg; cbn in Hg. destruct Hg as (Hd2 & _ & Hg).
  rewrite Hv, decide_True in Hg by done.
  destruct o2 as [m|e|p]; [|by specialize (Hg Hn)|done]. simplify_eq.
  exists id, w1, w2. repeat (split; [done|]). intros id' Hne. by rewrite Hv, decide_False.
Qed.

(** [Put] on every outcome: a success files the message under one id and
    caches it, a store error changes nothing and happens only under faults, and
    the only panic is a message that does not fit the wire format. *)
Theorem Put_correct (fromName : gostring) (msg : message.Message) (w : SW) :
  store_inv secret w → sizes_ok msg → wp (Put secret fromName msg) (Put_post secret msg w) w.
Proof. apply Put_wp. Qed.

(** [Update] on every outcome: only an existing message is overwritten, the
    creation time found is kept, the update time is the current time, no other
    message or table changes, and an absent message is [ErrNotExist]. *)
Theorem Update_correct (id : UUID) (fromName : gostring) (msg : message.Message) (w : SW) :
  store_inv secret w → sizes_ok msg →
  wp (Update secret id fromName msg) (Update_post secret id msg w) w.
Proof. apply Update_wp. Qed.

(** [Delete] removes the message and, without faults, the stored files of
    exactly the attachments its plaintext names; every other message, file and
    table stays, and an error means a fault. *)
Theorem Delete_correct (id : UUID) (w : SW) :
  store_inv secret w → wp (Delete secret id) (Delete_post secret id w) w.
Proof. apply Delete_wp. Qed.

(** [Search] returns stored messages whose index row matches, no more than
    a positive limit, and all of them without a limit and without faults. *)
Theorem Search_correct (query : gostring) (limit : Z) (w : SW) :
  store_inv secret w → wp (Search secret query limit) (Search_post secret query limit w) w.
Proof. apply Search_wp. Qed.

(** [StoreAttachments] strips the data of each attachment it stores and
    keeps its name and type; each stored file then reads back as that data
    (the ids being distinct), and no other file changes. *)
Theorem StoreAttachments_FileGet msgID l l' w w1 a b :
  no_faults E →
  StoreAttachments secret msgID l w = (Ret l', w1) → NoDup (written l l') →
  (a, b) ∈ zip l l' → (len (message.Data a) =? 0)%Z = false →
  stored_att a b ∧ (FileStore.Get secret (message.AttID b) w1).1 = Ret (message.Data a) ∧
  ∀ k, k ∉ written l l' → file_view secret (db w1) k = file_view secret (db w) k.
Proof.
  intros Hn Hst Hnd Hab Ha. pose proof (StoreAttachments_wp secret msgID l w) as Hp. unfold wp in Hp.
  rewrite Hst in Hp. cbn in Hp. destruct Hp as (_ & _ & _ & Hf & Hfr & Hrd).
  specialize (Hrd Hnd). apply list_elem_of_lookup in Hab as (i & Hi).
  apply lookup_zip_with_Some in Hi as (x & y & [= <- <-] & Hx & Hy).
  pose proof (Forall2_lookup_lr _ _ _ _ _ _ Hf Hx Hy) as Hab.
  pose proof (Forall2_lookup_lr _ _ _ _ _ _ Hrd Hx Hy Ha) as Hv.
  split; [done|]. split; [|done].
  pose proof (FileGet_wp secret (message.AttID b) w1) as Hg. unfold wp in Hg.
  destruct (FileStore.Get secret (message.AttID b) w1) as [[c|e|p] w2]; cbn in *.
  - destruct Hg as [_ Hg]. rewrite Hv in Hg. by simplify_eq.
  - destruct Hg as [_ Hg]. specialize (Hg Hn). by rewrite Hv in Hg.
  - by destruct Hg.
Qed.
End Theorems.

(** ** Witnesses *)

Section Witnesses.
Let K : Key := array_of 32 (lit "secret").

Lemma wit_sizes_ok : sizes_ok message.wit_msg.
Proof. unfold sizes_ok. apply Forall_cons_2; [cbv; discriminate|apply Forall_nil_2]. Qed.

Lemma wit_encodable : message.encodable message.wit_msg.
Proof. by apply (bool_decide_unpack _). Qed.

Lemma Put_Get_witness :
  ∃ id w1 w2,
    msgstore.Put (P:=toy_platform) (E:=toy_env) K (lit "alice") message.wit_msg empty_SW
      = (Ret (set_MsgID id message.wit_msg, inl id), w1) ∧
    msgstore.Get (P:=toy_platform) (E:=toy_env) K id w1 = (Ret (stored_as id message.wit_msg), w2).
Proof.
  destruct (Put_Get (P:=toy_platform) (E:=toy_env) (PL:=toy_platform_laws) K (lit "alice")
    message.wit_msg empty_SW toy_env_no_faults (store_inv_empty (P:=toy_platform) K)
    wit_sizes_ok wit_encodable) as (id & w1 & w2 & H1 & H2 & _).
  exists id, w1, w2. exact (conj H1 H2).
Defined.

Lemma store_inv_run_witness :
  store_inv (P:=toy_platform) K (foldl (flip (run_op (P:=toy_platform) (E:=toy_env) K)) empty_SW
    [OpPut (lit "alice") message.wit_msg; OpDelete (message.MsgID message.wit_msg)]).
Proof.
  apply (store_inv_run (P:=toy_platform) (E:=toy_env) (PL:=toy_platform_laws)).
  apply Forall_cons_2; [exact wit_sizes_ok|]. apply Forall_cons_2; [exact I|apply Forall_nil_2].
Defined.

Lemma Put_correct_witness :
  wp (msgstore.Put (P:=toy_platform) (E:=toy_env) K (lit "alice") message.wit_msg)
    (Put_post (P:=toy_platform) (E:=toy_env) K message.wit_msg empty_SW) empty_SW.
Proof.
  apply (Put_correct (P:=toy_platform) (E:=toy_env) (PL:=toy_platform_laws)).
  - apply store_inv_empty.
  - exact wit_sizes_ok.
Defined.

Lemma Update_correct_witness :
  wp (msgstore.Update (P:=toy_platform) (E:=toy_env) K (message.MsgID message.wit_msg) (lit "alice") message.wit_msg)
    (Update_post (P:=toy_platform) (E:=toy_env) K (message.MsgID message.wit_msg) message.wit_msg empty_SW) empty_SW.
Proof.
  apply (Update_correct (P:=toy_platform) (E:=toy_env) (PL:=toy_platform_laws)).
  - apply store_inv_empty.
  - exact wit_sizes_ok.
Defined.

Lemma Delete_correct_witness :
  wp (msgstore.Delete (P:=toy_platform) (E:=toy_env) K (message.MsgID message.wit_msg))
    (Delete_post (P:=toy_platform) (E:=toy_env) K (message.MsgID message.wit_msg) empty_SW) empty_SW.
Proof.
  apply (Delete_correct (P:=toy_platform) (E:=toy_env) (PL:=toy_platform_laws)), store_inv_empty.
Defined.

Lemma Search_correct_witness :
  wp (msgstore.Search (P:=toy_platform) (E:=toy_env) K (lit "hello") 10)
    (Search_post (P:=toy_platform) (E:=toy_env) K (lit "hello") 10 empty_SW) empty_SW.
Proof.
  apply (Search_correct (P:=toy_platform) (E:=toy_env) (PL:=toy_platform_laws)), store_inv_empty.
Defined.

Lemma StoreAttachments_FileGet_witness :
  ∃ b w1, msgstore.StoreAttachments (P:=toy_platform) (E:=toy_env) K (lit "m") [message.wit_att] empty_SW
      = (Ret [b], w1) ∧
    (FileStore.Get (P:=toy_platform) (E:=toy_env) K (message.AttID b) w1).1 = Ret (lit "abc").
Proof.
  destruct (msgstore.StoreAttachments (P:=toy_platform) (E:=toy_env) K (lit "m") [message.wit_att] empty_SW)
    as [[[|b [|]]|e|p] w1] eqn:Ew; try (vm_compute in Ew; discriminate Ew).
  exists b, w1. split; [reflexivity|].
  apply (StoreAttachments_FileGet (P:=toy_platform) (E:=toy_env) (PL:=toy_platform_laws) K (lit "m")
    [message.wit_att] [b] empty_SW w1 message.wit_att b); [exact toy_env_no_faults|exact Ew|..].
  - assert (written (P:=toy_platform) [message.wit_att] [b] =
      [@uuid_String toy_uuid (message.AttID b)]) as -> by reflexivity.
    apply NoDup_singleton.
  - left.
  - reflexivity.
Defined.
End Witnesses.
