(* ===== verification/Refinement.v ===== *)
(** * The message store refines a map of messages (message/message.go)

    What the client may assume of the message store, as an abstract machine on
    a finite map from ids to messages, and the simulation that the encrypted
    table with its cache and search index implements it. *)

From S2P Require Import Prelude Config Crypto Keys Signal Message Wire Base64 Monad Platform Store MessageStore.

(** ** The abstract machine *)

(** Each message with the words it is found by: who it is from, whom it is to,
    and its text with the names of its attachments. *)
Abbreviation messages := (gmap UUID (message.Message * search_row)).

(** What a caller sees of a call. *)
Inductive store_obs :=
| ObsId (id : UUID)
| ObsMsg (m : message.Message)
| ObsList (l : list message.Message)
| ObsDone
| ObsError
| ObsPanic.

(** The calls that [message.Encode] refuses, at some time. *)
Definition unencodable (op : store_op) : Prop :=
  match op with
  | OpPut _ m => ¬ message.encodable m
  | OpUpdate _ _ m => ∃ c t, ¬ message.encodable (updated c t m)
  | _ => False
  end.

Section Spec.
Context {P : Platform}.

(** A message is found when a query occurs in one of its words. *)
Definition hit (q : gostring) (e : UUID * (message.Message * search_row)) : bool :=
  let r := e.2.2 in
  existsb (λ s, sql_like s (lit "%" ++ q ++ lit "%")) [sr_from_name r; sr_to_name r; sr_search_text r].

(** The order of the texts of ids. *)
Definition id_le (a b : UUID * (message.Message * search_row)) : Prop :=
  bytes_le (uuid_String a.1) (uuid_String b.1).
Global Instance id_le_dec : RelDecision id_le.
Proof. intros a b. unfold id_le. apply _. Defined.

(** What a search answers: nothing for the empty query, else the messages that
    are found, by their ids, the first [limit] of them if it is positive. *)
Definition answers (σ : messages) (q : gostring) (limit : Z) : list message.Message :=
  if bool_decide (q = []) then [] else
  let l := merge_sort id_le (filter (λ e, hit q e = true) (map_to_list σ)) in
  (λ e, e.2.1) <$> (if (0 <? limit)%Z then take (Z.to_nat limit) l else l).

Inductive spec_step (σ : messages) : store_op → store_obs → messages → Prop :=
| spec_put name m id :
    (message.MsgID m ≠ NilUUID → id = message.MsgID m) →
    spec_step σ (OpPut name m) (ObsId id) (<[id := (stored_as id m, index_row name m)]> σ)
| spec_get id m r : σ !! id = Some (m, r) → spec_step σ (OpGet id) (ObsMsg m) σ
| spec_get_none id : σ !! id = None → spec_step σ (OpGet id) ObsError σ
| spec_update id name m old r t :
    σ !! id = Some (old, r) →
    spec_step σ (OpUpdate id name m) ObsDone
      (<[id := (stored_as id (updated (message.CreatedAt old) t m), index_row name m)]> σ)
| spec_update_none id name m : σ !! id = None → spec_step σ (OpUpdate id name m) ObsError σ
| spec_delete id : spec_step σ (OpDelete id) ObsDone (delete id σ)
| spec_search q limit : spec_step σ (OpSearch q limit) (ObsList (answers σ q limit)) σ
| spec_attachments msgID l : spec_step σ (OpStoreAttachments msgID l) ObsDone σ
| spec_panic op : unencodable op → spec_step σ op ObsPanic σ.

(** A run and what it shows. *)
Inductive spec_run (σ : messages) : list store_op → list store_obs → messages → Prop :=
| spec_nil : spec_run σ [] [] σ
| spec_cons op obs σ1 ops trace σ2 :
    spec_step σ op obs σ1 → spec_run σ1 ops trace σ2 → spec_run σ (op :: ops) (obs :: trace) σ2.
End Spec.

(** ** The implementation, observed *)

Section Refinement.
Context {P : Platform} {E : Env} {PL : PlatformLaws P}.
Variable secret : Key.

Definition observed {A} (f : A → store_obs) (r : outcome A * SW) : store_obs * SW :=
  match r with
  | (Ret a, w) => (f a, w)
  | (Err _, w) => (ObsError, w)
  | (Panic _, w) => (ObsPanic, w)
  end.

Definition observe (op : store_op) (w : SW) : store_obs * SW :=
  match op with
  | OpPut n m => observed (λ r, match r.2 with inl id => ObsId id | inr _ => ObsError end) (msgstore.Put secret n m w)
  | OpGet id => observed ObsMsg (msgstore.Get secret id w)
  | OpUpdate id n m => observed (λ _, ObsDone) (msgstore.Update secret id n m w)
  | OpDelete id => observed (λ _, ObsDone) (msgstore.Delete secret id w)
  | OpSearch q l => observed ObsList (msgstore.Search secret q l w)
  | OpStoreAttachments m l => observed (λ _, ObsDone) (msgstore.StoreAttachments secret m l w)
  end.

Fixpoint observe_all (ops : list store_op) (w : SW) : list store_obs * SW :=
  match ops with
  | [] => ([], w)
  | op :: ops' => let '(o, w1) := observe op w in
                  let '(l, w2) := observe_all ops' w1 in (o :: l, w2)
  end.

(** The simulation relation: every row reads as the message the map has, and
    the index holds the words of the messages and no others. *)
Record represents (σ : messages) (w : SW) : Prop := {
  rp_inv : store_inv secret w;
  rp_rows : ∀ id, is_Some (chats (db w) !! uuid_String id) → is_Some (σ !! id);
  rp_view : ∀ id, fst <$> σ !! id = msg_view secret (db w) id;
  rp_index : ∀ id, chat_search (db w) !! uuid_String id = snd <$> σ !! id;
  rp_keys : ∀ k, is_Some (chat_search (db w) !! k) → ∃ id, k = uuid_String id
}.

Lemma represents_chats σ w w' :
  store_inv secret w' → chats (db w') = chats (db w) → chat_search (db w') = chat_search (db w) →
  represents σ w → represents σ w'.
Proof.
  intros Hi Hc Hs []. split; [done|by rewrite Hc| |by rewrite Hs|by rewrite Hs].
  intros id. by rewrite (msg_view_chats _ _ _ _ Hc).
Qed.

Lemma represents_insert σ w w' id r m s :
  store_inv secret w' → represents σ w → chats (db w') = <[uuid_String id := r]> (chats (db w)) →
  (∀ id', msg_view secret (db w') id' = if decide (id' = id) then Some m else msg_view secret (db w) id') →
  chat_search (db w') = <[uuid_String id := s]> (chat_search (db w)) →
  represents (<[id := (m, s)]> σ) w'.
Proof.
  intros Hi [_ Hr Hv Hx Hk] Hc Hv' Hs. split; [done|..].
  - intros i. rewrite Hc. destruct (decide (i = id)) as [->|Hne]; [intros _; exists (m, s); apply lookup_insert_eq|].
    rewrite !lookup_insert_ne by first [done|intros H%uuid_String_inj; congruence]. apply Hr.
  - intros i. rewrite Hv'. case_decide as Hd; [subst; by rewrite lookup_insert_eq|]. by rewrite lookup_insert_ne.
  - intros i. rewrite Hs. destruct (decide (i = id)) as [->|Hne]; [by rewrite !lookup_insert_eq|].
    rewrite !lookup_insert_ne by first [done|intros H%uuid_String_inj; congruence]. apply Hx.
  - intros k. rewrite Hs. destruct (decide (k = uuid_String id)) as [->|Hne]; [by exists id|].
    rewrite lookup_insert_ne by done. apply Hk.
Qed.

Lemma represents_delete σ w w' id :
  store_inv secret w' → represents σ w → chats (db w') = delete (uuid_String id) (chats (db w)) →
  (∀ id', msg_view secret (db w') id' = if decide (id' = id) then None else msg_view secret (db w) id') →
  chat_search (db w') = delete (uuid_String id) (chat_search (db w)) →
  represents (delete id σ) w'.
Proof.
  intros Hi [_ Hr Hv Hx Hk] Hc Hv' Hs. split; [done|..].
  - intros i. rewrite Hc. destruct (decide (i = id)) as [->|Hne]; [by rewrite lookup_delete_eq; intros []|].
    rewrite !lookup_delete_ne by first [done|intros H%uuid_String_inj; congruence]. apply Hr.
  - intros i. rewrite Hv'. case_decide as Hd; [subst; by rewrite lookup_delete_eq|]. by rewrite lookup_delete_ne.
  - intros i. rewrite Hs. destruct (decide (i = id)) as [->|Hne]; [by rewrite !lookup_delete_eq|].
    rewrite !lookup_delete_ne by first [done|intros H%uuid_String_inj; congruence]. apply Hx.
  - intros k [r Hr']. rewrite Hs in Hr'. apply lookup_delete_Some in Hr' as [_ Hr']. by apply Hk; exists r.
Qed.

(** ** Searching *)

(** The index is the list of the messages' words under the texts of their ids. *)
Lemma index_list σ w :
  represents σ w → map_to_list (chat_search (db w)) ≡ₚ (λ e, (uuid_String e.1, e.2.2)) <$> map_to_list σ.
Proof.
  intros [_ _ _ Hx Hk]. apply NoDup_Permutation.
  - apply NoDup_map_to_list.
  - apply NoDup_fmap_2_strong; [|apply NoDup_map_to_list].
    intros [i [m r]] [j [m' r']] Hi Hj [= Hid%uuid_String_inj ->]. subst j.
    apply elem_of_map_to_list in Hi, Hj. by simplify_eq.
  - intros [k r]. rewrite elem_of_map_to_list, list_elem_of_fmap. split.
    + intros Hr. destruct (Hk k ltac:(by exists r)) as [id ->]. rewrite Hx in Hr.
      apply fmap_Some in Hr as ([m r'] & Hr & ->). exists (id, (m, r')). split; [done|]. by apply elem_of_map_to_list.
    + intros ([id [m r']] & [= -> ->] & Hin%elem_of_map_to_list). cbn. by rewrite Hx, Hin.
Qed.

Lemma search_match_hit q k e : ChatStore.search_match (lit "%" ++ q ++ lit "%") (k, e.2.2) = hit q e.
Proof. unfold ChatStore.search_match, hit. cbn. by rewrite orb_false_r, orb_assoc. Qed.

(** Selecting the rows that match is selecting the messages that are found. *)
Lemma matching_keys q (l : list (UUID * (message.Message * search_row))) :
  fst <$> filter (λ r, ChatStore.search_match (lit "%" ++ q ++ lit "%") r = true) ((λ e, (uuid_String e.1, e.2.2)) <$> l)
    = (λ e, uuid_String e.1) <$> filter (λ e, hit q e = true) l.
Proof.
  induction l as [|e l IH]; [done|]. rewrite fmap_cons, !filter_cons, search_match_hit.
  case_decide; [rewrite !fmap_cons|]; by rewrite IH.
Qed.

(** The keys that the query of [Search] returns are those of the messages found. *)
Lemma hits_answers σ w q limit :
  represents σ w →
  let l := merge_sort id_le (filter (λ e, hit q e = true) (map_to_list σ)) in
  hits (db w) q limit = (λ e, uuid_String e.1) <$> (if (0 <? limit)%Z then take (Z.to_nat limit) l else l).
Proof.
  intros HR l. unfold hits. rewrite Z.gtb_ltb. set (rows := merge_sort bytes_le _).
  assert (rows = (λ e, uuid_String e.1) <$> l) as ->; [|by destruct (0 <? limit)%Z; rewrite ?fmap_take].
  apply (Sorted_unique bytes_le).
  - apply Sorted_merge_sort, _.
  - apply (Sorted_fmap _ id_le); [done|]. apply Sorted_merge_sort. intros a b. unfold id_le. apply total, _.
  - unfold rows, l. rewrite !merge_sort_Permutation, sql_scan_perm, (index_list σ w HR).
    by rewrite matching_keys.
Qed.

Lemma found_answers σ w l :
  represents σ w → Forall (λ e, σ !! e.1 = Some e.2) l →
  omap (found secret (db w)) ((λ e, uuid_String e.1) <$> l) = (λ e, e.2.1) <$> l.
Proof.
  intros HR. induction 1 as [|[id [m r]] l He _ IH]; [done|]. cbn in He. rewrite !fmap_cons. cbn [omap list_omap].
  unfold found at 1. cbn. rewrite uuid_parse_string. cbn. rewrite <-(rp_view σ w HR), He. cbn. f_equal. exact IH.
Qed.

Lemma search_answers σ w q limit :
  no_faults E → represents σ w →
  wp (msgstore.Search secret q limit) (λ o w', db w' = db w ∧ store_inv secret w' ∧ o = Ret (answers σ q limit)) w.
Proof.
  intros Hn HR. eapply wp_conseq; [apply Search_exact; [done|apply HR]|]. intros o w' (Hd & Hi & ->).
  split; [done|]. split; [done|]. unfold answers. case_bool_decide; [done|].
  rewrite (hits_answers σ w q limit HR), (found_answers σ w); [done..|].
  assert (Forall (λ e, σ !! e.1 = Some e.2) (merge_sort id_le (filter (λ e, hit q e = true) (map_to_list σ)))) as Hl.
  { rewrite merge_sort_Permutation. apply Forall_forall. by intros [id mr] [_ Hin%elem_of_map_to_list]%list_elem_of_filter. }
  destruct (0 <? limit)%Z; [by apply Forall_take|done].
Qed.

(** ** The simulation *)

Lemma observe_refines op σ w :
  no_faults E → op_ok op → represents σ w →
  let '(obs, w') := observe op w in ∃ σ', spec_step σ op obs σ' ∧ represents σ' w'.
Proof.
  intros Hn Hop HR. pose proof HR as [Hi Hr Hv _ _]. destruct op; cbn [observe op_ok] in *.
  - pose proof (Put_wp secret fromName msg w Hi Hop) as (Hi' & _ & _ & H).
    pose proof (Put_index secret fromName msg w Hn) as Hs. unfold wp in Hs.
    destruct (msgstore.Put secret fromName msg w) as [[[m' [id|e]]|e|p] w']; cbn in *; [| |done|].
    + destruct H as (_ & Hid & Hv' & r & Hc). eexists. split; [by constructor|]. by eapply represents_insert.
    + by destruct H.
    + destruct H as [Hd He]. exists σ. split; [by constructor|]. by eapply represents_chats; [done|by rewrite Hd|by rewrite Hd|].
  - pose proof (Get_wp secret id w Hi) as (Hd & Hi' & H).
    assert (represents σ (msgstore.Get secret id w).2) by (by eapply represents_chats; [done|by rewrite Hd..|]).
    rewrite <-Hv in H. destruct (msgstore.Get secret id w) as [[m|e|p] w']; cbn in *; [| |done]; exists σ; (split; [|done]).
    + apply fmap_Some in H as ([m' r] & Hm & ->). by econstructor.
    + constructor. specialize (H Hn). by apply fmap_None in H.
  - pose proof (Update_wp secret id fromName msg w Hi Hop) as (Hi' & _ & _ & H).
    pose proof (Update_index secret id fromName msg w Hn Hi) as Hs. unfold wp in Hs.
    destruct (msgstore.Update secret id fromName msg w) as [[[]|e|p] w']; cbn in *.
    + destruct H as (Hex & (r & Hc) & cr & t & Hk & Hv'). destruct (Hr id Hex) as [[old ro] Hold].
      unfold keeps_created in Hk. rewrite <-Hv, Hold in Hk. cbn in Hk. destruct Hk as [->|[_ Hk]]; [|done].
      eexists. split; [by eapply spec_update|]. by eapply represents_insert.
    + destruct H as [Hd H]. destruct (H Hn) as [Hnone _].
      exists σ. split; [|by eapply represents_chats; [|by rewrite Hd..|]]. constructor.
      assert (fst <$> σ !! id = None) as Hid%fmap_None; [|done]. rewrite Hv. unfold msg_view, plain_at. by rewrite Hnone.
    + destruct H as (Hd & cr & t & _ & He). exists σ. split; [|by eapply represents_chats; [|by rewrite Hd..|]].
      constructor. by exists cr, (env_now t).
  - pose proof (Delete_wp secret id w Hi) as (Hi' & _ & _ & H).
    pose proof (Delete_index secret id w Hn Hi) as Hs. unfold wp in Hs.
    destruct (msgstore.Delete secret id w) as [[[]|e|p] w']; cbn in *; [|by destruct H|done].
    destruct H as (Hc & Hv' & _). eexists. split; [constructor|]. by eapply represents_delete.
  - pose proof (search_answers σ w query limit Hn HR) as H. unfold wp in H.
    destruct (msgstore.Search secret query limit w) as [o w']. cbn in H. destruct H as (Hd & Hi' & ->).
    exists σ. split; [constructor|by eapply represents_chats; [|by rewrite Hd..|]].
  - destruct (StoreAttachments_wp secret msgID l w) as (Hc & Hch & _ & H).
    pose proof (StoreAttachments_index secret msgID l w) as Hs. unfold wp in Hs.
    destruct (msgstore.StoreAttachments secret msgID l w) as [[l'|e|p] w']; cbn in *; [|done..].
    exists σ. split; [constructor|]. by eapply represents_chats; [by eapply store_inv_chats|..].
Qed.
End Refinement.

(** ** Theorems *)

(** C13: The message store refines a finite map: from a fresh database and without
    faults, whatever sequence of calls is made, what the callers see is a run
    of the abstract machine on the empty map, and the encrypted table with its
    cache and search index ends up representing the map that run ends in. A
    search answers exactly the messages that are found, by their ids, cut to
    its limit. *)
Theorem store_refines `{P : Platform} {E : Env} {PL : PlatformLaws P} (secret : Key) (ops : list store_op) :
  no_faults E → Forall op_ok ops →
  ∃ σ, spec_run ∅ ops (observe_all secret ops empty_SW).1 σ ∧
    represents secret σ (observe_all secret ops empty_SW).2.
Proof.
  intros Hn Hops.
  assert (∀ σ w, represents secret σ w → ∃ σ', spec_run σ ops (observe_all secret ops w).1 σ' ∧
    represents secret σ' (observe_all secret ops w).2) as H.
  { induction Hops as [|op ops Hop Hops IH]; intros σ w HR; [exists σ; split; [constructor|done]|].
    cbn [observe_all]. pose proof (observe_refines secret op σ w Hn Hop HR) as Hs.
    destruct (observe secret op w) as [obs w1]. destruct Hs as (σ1 & Hs1 & HR1).
    destruct (IH σ1 w1 HR1) as (σ2 & Hs2 & HR2). destruct (observe_all secret ops w1) as [trace w2].
    exists σ2. split; [by econstructor|done]. }
  apply H. split; [apply store_inv_empty|..]; intros id; unfold msg_view, plain_at; cbn; rewrite ?lookup_empty;
    first [done|by intros []].
Qed.

Lemma store_refines_witness :
  let ops := [OpPut (lit "%alice%") message.wit_msg; OpGet (message.MsgID message.wit_msg); OpSearch (lit "alice") 5;
              OpDelete (message.MsgID message.wit_msg); OpGet (message.MsgID message.wit_msg)] in
  ∃ σ, spec_run (P:=toy_platform) ∅ ops (observe_all (P:=toy_platform) (E:=toy_env) NilKey ops empty_SW).1 σ.
Proof.
  intros ops.
  assert (Forall op_ok ops) as Hops
    by (apply Forall_cons_2; [exact wit_sizes_ok|]; repeat (apply Forall_cons_2; [exact I|]); apply Forall_nil_2).
  destruct (store_refines (P:=toy_platform) (E:=toy_env) (PL:=toy_platform_laws) NilKey ops toy_env_no_faults Hops)
    as (σ & H & _).
  exists σ. exact H.
Defined.
