(* ===== verification/StoreRace.v ===== *)
(** * The message store, from several goroutines (message/message.go, store/chats.go)

    The handlers of requests and the read loops of sessions call the message
    store from goroutines of their own, and nothing in the store or above it
    holds a lock from one statement to the next: the database runs each
    statement on its own, the cache is atomic per operation. Here each call of
    the message store is a program of its statements and cache operations
    ([interleaved]), any of which may be followed by steps of other goroutines.
    Run alone a program is the call it stands for ([op_prog_run]). However they
    interleave, only messages that were stored are ever read
    ([store_interleavings]); but reading a row and caching it are two steps, and
    a deletion or an update between them leaves the old message in the cache
    ([stale_cache]). *)

From S2P Require Import Prelude Config Crypto Keys Signal Message Monad Platform Base64 Store MessageStore Refinement.

(** ** Programs of atomic steps *)

Section Programs.
Context {S : Type}.

(** A computation that is over, or an atomic call on the shared state and what
    is done with its outcome. *)
Inductive prog (A : Type) :=
| End (o : outcome A)
| Do {B : Type} (m : M S B) (k : outcome B → prog A).
Arguments End {A} o.
Arguments Do {A B} m k.

Definition call {A} (m : M S A) : prog A := Do m End.

(** What is done with the outcome of a program. *)
Fixpoint andThen {A B} (p : prog A) (f : outcome A → prog B) : prog B :=
  match p with
  | End o => f o
  | Do m k => Do m (λ o, andThen (k o) f)
  end.

Global Instance prog_ret : MRet prog := λ A a, End (Ret a).
Global Instance prog_bind : MBind prog := λ A B f p, andThen p (λ o,
  match o with Ret a => f a | Err e => End (Err e) | Panic s => End (Panic s) end).

Definition p_attempt {A} (p : prog A) : prog (A + error) := andThen p (λ o,
  End (match o with Ret a => Ret (inl a) | Err e => Ret (inr e) | Panic s => Panic s end)).
Definition p_ignore {A} (p : prog A) : prog unit := andThen p (λ o,
  End (match o with Panic s => Panic s | _ => Ret tt end)).
Definition p_wrapping {A} (ctx : string) (p : prog A) : prog A := andThen p (λ o, End (wrap_err ctx o)).
Fixpoint p_for_each {A} (l : list A) (body : A → prog unit) : prog unit :=
  match l with
  | [] => mret tt
  | x :: l' => body x ≫= λ _, p_for_each l' body
  end.

(** A program with nothing in between. *)
Fixpoint run {A} (p : prog A) : M S A :=
  match p with
  | End o => lift o
  | Do m k => λ s, run (k (m s).1) (m s).2
  end.

(** Goroutines on one state: any of them takes its next step. *)
Inductive pstep {A} : list (prog A) * S → list (prog A) * S → Prop :=
| pstep_do i B (m : M S B) k pool s :
    pool !! i = Some (Do m k) → pstep (pool, s) (<[i := k (m s).1]> pool, (m s).2).

(** *** A program stands for a call *)

Definition stands_for {A} (p : prog A) (m : M S A) : Prop := ∀ s, run p s = m s.

Lemma run_andThen {A B} (p : prog A) (f : outcome A → prog B) s :
  run (andThen p f) s = run (f (run p s).1) (run p s).2.
Proof. revert s. induction p as [o|B' m k IH]; intros s; [done|]. cbn. apply IH. Qed.

Lemma stands_call {A} (m : M S A) : stands_for (call m) m.
Proof. intros s. cbn. by destruct (m s). Qed.
Lemma stands_ret {A} (a : A) : stands_for (mret a) (mret a).
Proof. done. Qed.
Lemma stands_end {A} (o : outcome A) : stands_for (End o) (lift o).
Proof. done. Qed.
Lemma stands_bind {A B} (p : prog A) m (f : A → prog B) g :
  stands_for p m → (∀ a, stands_for (f a) (g a)) → stands_for (p ≫= f) (m ≫= g).
Proof.
  intros Hp Hf s. unfold mbind at 1, prog_bind. rewrite run_andThen, Hp, bind_run.
  destruct (m s) as [[a|e|q] s']; [apply Hf|done..].
Qed.
Lemma stands_attempt {A} (p : prog A) m : stands_for p m → stands_for (p_attempt p) (attempt m).
Proof. intros Hp s. unfold p_attempt, attempt. rewrite run_andThen, Hp. by destruct (m s) as [[]]. Qed.
Lemma stands_ignore {A} (p : prog A) m : stands_for p m → stands_for (p_ignore p) (ignore m).
Proof. intros Hp s. unfold p_ignore, ignore. rewrite run_andThen, Hp. by destruct (m s) as [[]]. Qed.
Lemma stands_wrapping {A} ctx (p : prog A) m : stands_for p m → stands_for (p_wrapping ctx p) (wrapping ctx m).
Proof. intros Hp s. unfold p_wrapping, wrapping. rewrite run_andThen, Hp. by destruct (m s) as [[]]. Qed.
Lemma stands_for_each {A} (l : list A) f g :
  (∀ a, stands_for (f a) (g a)) → stands_for (p_for_each l f) (for_each l g).
Proof. intros Hf. induction l; [apply stands_ret|]. by apply stands_bind. Qed.

(** *** What every step keeps *)

Section Safe.
Variable Inv : S → Prop.

(** Each step of the program keeps [Inv], whatever happened before it, and the
    program ends, if it does, with an outcome in [R]. *)
Fixpoint safe {A} (R : outcome A → Prop) (p : prog A) : Prop :=
  match p with
  | End o => R o
  | Do m k => ∀ s, Inv s → Inv (m s).2 ∧ safe R (k (m s).1)
  end.

Lemma safe_mono {A} (R R' : outcome A → Prop) p : (∀ o, R o → R' o) → safe R p → safe R' p.
Proof.
  intros HR. induction p as [o|B m k IH]; cbn; [apply HR|]. intros Hp s Hs.
  destruct (Hp s Hs) as [H1 H2]. split; [done|]. by apply IH.
Qed.

Lemma safe_andThen {A B} (R : outcome B → Prop) (p : prog A) f :
  safe (λ o, safe R (f o)) p → safe R (andThen p f).
Proof. induction p as [o|B' m k IH]; cbn; [done|]. intros Hp s Hs. destruct (Hp s Hs). auto. Qed.

Lemma safe_bind {A B} (R : outcome B → Prop) (p : prog A) (f : A → prog B) :
  safe (λ o, match o with Ret a => safe R (f a) | Err e => R (Err e) | Panic q => R (Panic q) end) p →
  safe R (p ≫= f).
Proof. intros Hp. apply safe_andThen. eapply safe_mono; [|exact Hp]. by intros []. Qed.

Lemma safe_call {A} (R : outcome A → Prop) (m : M S A) :
  (∀ s, Inv s → wp m (λ o s', Inv s' ∧ R o) s) → safe R (call m).
Proof. done. Qed.

(** What every step of every goroutine keeps, every interleaving keeps. *)
Lemma pstep_safe {A} (Rs : list (outcome A → Prop)) a b :
  pstep a b → Inv a.2 → Forall2 safe Rs a.1 → Inv b.2 ∧ Forall2 safe Rs b.1.
Proof.
  destruct 1 as [i B m k pool s Hi]. cbn [fst snd]. intros Hs Hp.
  destruct (Forall2_lookup_r _ _ _ _ _ Hp Hi) as (R & HR & Hk). destruct (Hk s Hs) as [H1 H2].
  split; [done|]. rewrite <-(list_insert_id Rs i R HR). by apply Forall2_insert.
Qed.

Lemma interleaving_safe {A} (Rs : list (outcome A → Prop)) a b :
  rtc pstep a b → Inv a.2 → Forall2 safe Rs a.1 → Inv b.2 ∧ Forall2 safe Rs b.1.
Proof.
  induction 1 as [|a b d Hab _ IH]; [done|]. intros Hs Hp. destruct (pstep_safe Rs a b Hab Hs Hp). auto.
Qed.
End Safe.

(** A goroutine that runs to its end while the others wait. *)
Lemma run_to_end {A} (p : prog A) pool i s :
  pool !! i = Some p → rtc pstep (pool, s) (<[i := End (run p s).1]> pool, (run p s).2).
Proof.
  revert pool s. induction p as [o|B m k IH]; intros pool s Hi; cbn.
  { rewrite list_insert_id by done. apply rtc_refl. }
  eapply rtc_l; [exact (pstep_do i B m k pool s Hi)|].
  pose proof (IH (m s).1 (<[i := k (m s).1]> pool) (m s).2) as H. rewrite list_insert_insert_eq in H.
  apply H, list_lookup_insert_eq. by eapply lookup_lt_Some.
Qed.
End Programs.
Arguments End {S A} o.
Arguments Do {S A B} m k.

(** ** The calls of the message store, step by step

    Each [call] is one statement, one cache operation, or one call of the
    platform; what is computed from its outcome belongs to the next step. *)

Module interleaved.
Section S.
Context {P : Platform} {E : Env}.
Abbreviation prog := (prog (S:=SW)).

Definition PutWithID (id : UUID) (value : gostring) (secret : Key) : prog unit :=
  encrypted ← p_wrapping "store: encrypt" (call (encrypt secret value));
  now ← call time_Now;
  p_wrapping "store: put" (call (db_exec (set_chats
    (<[uuid_String id := MkChatRow encrypted (Format_RFC3339 now)]>))));;
  call (cache_Delete (uuid_String id)).

Definition ChatUpdate (id : UUID) (value : gostring) (secret : Key) : prog unit :=
  exists_ ← p_wrapping "store: update check"
    (call (db_query (λ d, bool_decide (is_Some (chats d !! uuid_String id)))));
  if negb exists_ then End (Err ENotExist) else PutWithID id value secret.

Definition ChatDelete (id : UUID) : prog unit :=
  p_wrapping "store: delete" (call (db_exec (set_chats (delete (uuid_String id)))));;
  p_ignore (call (ChatStore.deleteSearchIndex id));;
  call (cache_Delete (uuid_String id)).

Definition FilePut (secret : Key) (id : UUID) (msgID : gostring) (data : bytes) : prog unit :=
  encrypted ← p_wrapping "store: encrypt file" (call (encryptRaw secret data));
  now ← call time_Now;
  p_wrapping "store: file put" (call (db_exec (set_files
    (<[uuid_String id := MkFileRow encrypted msgID (Format_RFC3339 now)]>)))).

Fixpoint StoreAttachments (secret : Key) (msgID : gostring) (attachments : list message.Attachment)
    : prog (list message.Attachment) :=
  match attachments with
  | [] => mret []
  | a :: l =>
      if (len (message.Data a) =? 0)%Z
      then rest ← StoreAttachments secret msgID l; mret (a :: rest)
      else
        id ← (if bool_decide (message.AttID a = NilUUID) then call uuid_New else mret (message.AttID a));
        p_wrapping "message: store attachment" (FilePut secret id msgID (message.Data a));;
        rest ← StoreAttachments secret msgID l;
        mret (message.MkAttachment id (message.Name a) (message.MIMEType a)
                (len (message.Data a)) [] :: rest)
  end.

Definition indexAndCache (id : UUID) (fromName : gostring) (msg : message.Message) (plain : bytes) : prog unit :=
  p_ignore (call (ChatStore.IndexSearch id fromName (message.To msg) (message.searchText msg)));;
  call (ChatStore.CacheStore id plain).

Definition loadPlain (secret : Key) (id : UUID) : prog gostring :=
  cached ← call (ChatStore.CacheLoad id);
  match cached with
  | Some v => mret v
  | None =>
      plain ← p_wrapping "message: store get" (call (ChatStore.Get id secret));
      call (ChatStore.CacheStore id plain);;
      mret plain
  end.

Definition Put (secret : Key) (fromName : gostring) (msg : message.Message)
    : prog (message.Message * (UUID + error)) :=
  plain ← p_wrapping "message: encode" (End (message.Encode msg));
  '(id, msg) ←
    (if bool_decide (message.MsgID msg = NilUUID)
     then id ← call uuid_New; mret (id, set_MsgID id msg)
     else mret (message.MsgID msg, msg));
  r ← p_attempt (p_wrapping "message: store put" (PutWithID id plain secret));
  match r with
  | inr e => mret (msg, inr e)
  | inl _ => indexAndCache id fromName msg plain;; mret (msg, inl id)
  end.

Definition Get (secret : Key) (id : UUID) : prog message.Message :=
  plain ← loadPlain secret id;
  msg ← p_wrapping "message: decode" (End (message.ToMessage plain));
  mret (set_MsgID id msg).

Definition Update (secret : Key) (id : UUID) (fromName : gostring) (msg : message.Message) : prog unit :=
  existing ← p_attempt (Get secret id);
  let msg := match existing with inl e => set_CreatedAt (message.CreatedAt e) msg | inr _ => msg end in
  now ← call time_Now;
  let msg := set_UpdatedAt now msg in
  plain ← p_wrapping "message: encode" (End (message.Encode msg));
  p_wrapping "message: store update" (ChatUpdate id plain secret);;
  indexAndCache id fromName msg plain.

Definition Delete (secret : Key) (id : UUID) : prog unit :=
  r ← p_attempt (loadPlain secret id);
  match r with
  | inl plain =>
      d ← p_attempt (End (message.ToMessage plain));
      match d with
      | inl msg => p_for_each (message.Attachments msg) (λ a, p_ignore (call (FileStore.Delete (message.AttID a))))
      | inr _ => mret tt
      end
  | inr _ => mret tt
  end;;
  p_wrapping "message: store delete" (ChatDelete id).

Fixpoint load_found (secret : Key) (ids : list gostring) : prog (list message.Message) :=
  match ids with
  | [] => mret []
  | id :: ids' =>
      match uuid_Parse id with
      | None => load_found secret ids'
      | Some msgID =>
          r ← p_attempt (Get secret msgID);
          match r with
          | inl msg => out ← load_found secret ids'; mret (msg :: out)
          | inr _ => load_found secret ids'
          end
      end
  end.

Definition Search (secret : Key) (query : gostring) (limit : Z) : prog (list message.Message) :=
  if bool_decide (query = []) then mret [] else
  ids ← p_wrapping "message: search index" (call (ChatStore.Search query limit));
  load_found secret ids.

End S.
End interleaved.

(** ** A program is the call it stands for *)

Section Stands.
Context {P : Platform} {E : Env}.
Variable secret : Key.

Lemma stands_if {A} (b : bool) (p q : prog (S:=SW) A) m n :
  stands_for p m → stands_for q n → stands_for (if b then p else q) (if b then m else n).
Proof. by destruct b. Qed.

Ltac stands :=
  repeat lazymatch goal with
  | |- forall _, _ => intro
  | |- stands_for (mbind _ _) _ => apply stands_bind
  | |- stands_for (p_attempt _) _ => apply stands_attempt
  | |- stands_for (p_ignore _) _ => apply stands_ignore
  | |- stands_for (p_wrapping _ _) _ => apply stands_wrapping
  | |- stands_for (p_for_each _ _) _ => apply stands_for_each
  | |- stands_for (call _) _ => apply stands_call
  | |- stands_for (mret _) _ => apply stands_ret
  | |- stands_for (End _) _ => apply stands_end
  | |- stands_for (match ?x with _ => _ end) _ => destruct x
  | |- stands_for (let _ := _ in _) _ => cbv zeta
  end; try done.

Lemma loadPlain_stands id : stands_for (interleaved.loadPlain secret id) (msgstore.loadPlain secret id).
Proof. unfold interleaved.loadPlain, msgstore.loadPlain. stands. Qed.
Lemma Get_stands id : stands_for (interleaved.Get secret id) (msgstore.Get secret id).
Proof. unfold interleaved.Get, msgstore.Get. pose proof loadPlain_stands. stands. Qed.
Lemma PutWithID_stands id v : stands_for (interleaved.PutWithID id v secret) (ChatStore.PutWithID id v secret).
Proof. unfold interleaved.PutWithID, ChatStore.PutWithID. stands. Qed.
Lemma indexAndCache_stands id n m p : stands_for (interleaved.indexAndCache id n m p) (msgstore.indexAndCache id n m p).
Proof. unfold interleaved.indexAndCache, msgstore.indexAndCache. stands. Qed.
Lemma Put_stands n m : stands_for (interleaved.Put secret n m) (msgstore.Put secret n m).
Proof.
  unfold interleaved.Put, msgstore.Put. pose proof PutWithID_stands. pose proof indexAndCache_stands. stands.
Qed.
Lemma Update_stands id n m : stands_for (interleaved.Update secret id n m) (msgstore.Update secret id n m).
Proof.
  unfold interleaved.Update, msgstore.Update, interleaved.ChatUpdate, ChatStore.Update.
  pose proof Get_stands. pose proof PutWithID_stands. pose proof indexAndCache_stands. stands.
Qed.
Lemma Delete_stands id : stands_for (interleaved.Delete secret id) (msgstore.Delete secret id).
Proof.
  unfold interleaved.Delete, msgstore.Delete, interleaved.ChatDelete, ChatStore.Delete. pose proof loadPlain_stands. stands.
Qed.
Lemma Search_stands q l : stands_for (interleaved.Search secret q l) (msgstore.Search secret q l).
Proof.
  unfold interleaved.Search, msgstore.Search. case_bool_decide; [stands|]. stands. rename a into ids.
  induction ids as [|k ids IH]; cbn [interleaved.load_found msgstore.load_found]; [stands|].
  pose proof Get_stands. stands.
Qed.
Lemma StoreAttachments_stands i l :
  stands_for (interleaved.StoreAttachments secret i l) (msgstore.StoreAttachments secret i l).
Proof.
  induction l as [|a l IH]; cbn [interleaved.StoreAttachments msgstore.StoreAttachments]; [stands|].
  unfold interleaved.FilePut, FileStore.PutWithID. stands.
Qed.

(** What a caller sees, at the end of the program. *)
Definition obs_of {A} (f : A → store_obs) (o : outcome A) : store_obs :=
  match o with Ret a => f a | Err _ => ObsError | Panic _ => ObsPanic end.
Definition observing {A} (f : A → store_obs) (p : prog (S:=SW) A) : prog (S:=SW) store_obs :=
  andThen p (λ o, End (Ret (obs_of f o))).

(** A goroutine that makes a call of the message store. *)
Definition op_prog (op : store_op) : prog (S:=SW) store_obs :=
  match op with
  | OpPut n m => observing (λ r, match r.2 with inl id => ObsId id | inr _ => ObsError end) (interleaved.Put secret n m)
  | OpGet id => observing ObsMsg (interleaved.Get secret id)
  | OpUpdate id n m => observing (λ _, ObsDone) (interleaved.Update secret id n m)
  | OpDelete id => observing (λ _, ObsDone) (interleaved.Delete secret id)
  | OpSearch q l => observing ObsList (interleaved.Search secret q l)
  | OpStoreAttachments m l => observing (λ _, ObsDone) (interleaved.StoreAttachments secret m l)
  end.

Lemma observing_run {A} (f : A → store_obs) p m w :
  stands_for p m → run (observing f p) w = (Ret (observed f (m w)).1, (observed f (m w)).2).
Proof. intros Hp. unfold observing. rewrite run_andThen, Hp. by destruct (m w) as [[]]. Qed.

(** Run alone, it is the call. *)
Lemma op_prog_run op w : run (op_prog op) w = (Ret (observe secret op w).1, (observe secret op w).2).
Proof.
  destruct op; apply observing_run; [apply Put_stands|apply Get_stands|apply Update_stands|apply Delete_stands
    |apply Search_stands|apply StoreAttachments_stands].
Qed.
End Stands.

(** ** Only what was stored is read *)

Section Reading.
Context {P : Platform} {E : Env} {PL : PlatformLaws P}.
Variable secret : Key.

(** The plaintexts that may be found under a key. *)
Variable ok : gostring → bytes → Prop.
Hypothesis ok_decodes : ∀ k v, ok k v → ∃ m, message.ToMessage v = Ret m.

(** The cache and the rows hold such plaintexts; they need not agree. *)
Definition holds (w : SW) : Prop :=
  (∀ k v, cache w !! k = Some v → ok k v) ∧ ∀ k v, plain_at secret (db w) k = Some v → ok k v.

(** A message that one of them decodes to, under its id. *)
Definition readable (m : message.Message) : Prop :=
  ∃ v m0, ok (uuid_String (message.MsgID m)) v ∧ message.ToMessage v = Ret m0 ∧ m = set_MsgID (message.MsgID m) m0.

Lemma holds_same w w' : same w w' → holds w → holds w'.
Proof. unfold holds. by intros [-> ->]. Qed.

Lemma holds_chats w w' : chats (db w') = chats (db w) → cache w' = cache w → holds w → holds w'.
Proof. intros Hd Hc [H1 H2]. split; [by rewrite Hc|]. intros k v. rewrite (plain_at_chats _ (db w)) by done. apply H2. Qed.

Lemma holds_exec f : (∀ d, chats (f d) = chats d) → ∀ w, holds w → wp (db_exec f) (λ o w', holds w' ∧ is_panic o = false) w.
Proof.
  intros Hf w Hw. eapply wp_conseq; [apply db_exec_wp|]. intros [[]|e|p] w' [Hc Hd]; [| |done]; (split; [|done]).
  - by apply (holds_chats w); [rewrite Hd|..].
  - by apply (holds_chats w); [rewrite (proj1 Hd)|..].
Qed.

Lemma holds_delete k w : holds w →
  wp (db_exec (set_chats (delete k))) (λ o w', holds w' ∧ is_panic o = false) w.
Proof.
  intros Hw. eapply wp_conseq; [apply db_exec_wp|]. intros [[]|e|p] w' [Hc Hd]; [| |done]; (split; [|done]).
  - destruct Hw as [H1 H2]. split; [by rewrite Hc|]. intros k' v. rewrite Hd. unfold plain_at. cbn.
    destruct (decide (k = k')) as [->|Hne]; [by rewrite lookup_delete_eq|]. rewrite lookup_delete_ne by done. apply H2.
  - by apply (holds_chats w); [rewrite (proj1 Hd)|..].
Qed.

Lemma holds_insert k r v w : ok k v → decrypt secret (cr_value r) = Ret v → holds w →
  wp (db_exec (set_chats (<[k := r]>))) (λ o w', holds w' ∧ is_panic o = false) w.
Proof.
  intros Hok Hr Hw. eapply wp_conseq; [apply db_exec_wp|]. intros [[]|e|p] w' [Hc Hd]; [| |done]; (split; [|done]).
  - destruct Hw as [H1 H2]. split; [by rewrite Hc|]. intros k' v'. rewrite Hd. unfold plain_at. cbn.
    destruct (decide (k = k')) as [->|Hne]; [rewrite lookup_insert_eq, Hr; by intros [= <-]|].
    rewrite lookup_insert_ne by done. apply H2.
  - by apply (holds_chats w); [rewrite (proj1 Hd)|..].
Qed.

Abbreviation safe := (safe holds).
Definition calm {A} (o : outcome A) : Prop := is_panic o = false.

(** Steps that touch neither rows nor cache. *)
Lemma safe_same {A} (R : outcome A → Prop) (m : M SW A) :
  (∀ w, wp m (λ o w', same w w' ∧ R o) w) → safe R (call m).
Proof.
  intros Hm. apply safe_call. intros w Hw. eapply wp_conseq; [apply Hm|]. intros o w' [Hs Ho].
  split; [by eapply holds_same|done].
Qed.

Lemma safe_wrapping {A} ctx (R : outcome A → Prop) p :
  safe (λ o, R (wrap_err ctx o)) p → safe R (p_wrapping ctx p).
Proof. intros Hp. by apply safe_andThen. Qed.
Lemma safe_attempt {A} (R : outcome (A + error) → Prop) p :
  safe (λ o, R (match o with Ret a => Ret (inl a) | Err e => Ret (inr e) | Panic s => Panic s end)) p →
  safe R (p_attempt p).
Proof. intros Hp. by apply safe_andThen. Qed.
Lemma safe_ignore {A} (R : outcome unit → Prop) (p : prog A) :
  safe (λ o, R (match o with Panic s => Panic s | _ => Ret tt end)) p → safe R (p_ignore p).
Proof. intros Hp. by apply safe_andThen. Qed.

Lemma safe_loadPlain id :
  safe (λ o, match o with Ret v => ok (uuid_String id) v | Err _ => True | Panic _ => False end)
    (interleaved.loadPlain secret id).
Proof.
  unfold interleaved.loadPlain. apply safe_bind, safe_call. intros w Hw.
  eapply wp_conseq; [apply cache_Get_wp|]. intros o w' [Hs Ho]. split; [by eapply holds_same|].
  assert (o = Ret None ∨ ∃ v, o = Ret (Some v) ∧ ok (uuid_String id) v) as [->|(v & -> & Hv)]; [| |done].
  { destruct Ho as [-> | ->]; [by left|]. destruct (cache w !! uuid_String id) as [v|] eqn:Ev; [|by left].
    right. exists v. split; [done|]. by apply (proj1 Hw). }
  clear w w' Hw Hs Ho. apply safe_bind, safe_wrapping, safe_call. intros w Hw.
  eapply wp_conseq; [apply ChatGet_wp|]. intros o w' [Hs Ho]. split; [by eapply holds_same|].
  destruct o as [v|e|p]; [|done..]. cbn. apply (proj2 Hw) in Ho. clear w w' Hw Hs.
  intros w [H1 H2]. split; [split; [|apply H2]|done]. intros k v'. cbn.
  destruct (decide (k = uuid_String id)) as [->|Hne]; [rewrite lookup_insert_eq; by intros [= <-]|].
  rewrite lookup_insert_ne by done. apply H1.
Qed.

Lemma safe_Get id :
  safe (λ o, match o with Ret m => readable m ∧ message.MsgID m = id | Err _ => True | Panic _ => False end)
    (interleaved.Get secret id).
Proof.
  apply safe_bind. eapply safe_mono; [|apply safe_loadPlain]. intros [v|e|p]; [|done..]. intros Hv.
  destruct (ok_decodes _ _ Hv) as [m Hm]. rewrite Hm. cbn. split; [|done]. by exists v, m.
Qed.

(** Calls that never panic. *)
Lemma calm_then {A B} (R : outcome B → Prop) (p : prog A) (f : A → prog B) :
  (∀ e, R (Err e)) → safe calm p → (∀ a, safe R (f a)) → safe R (p ≫= f).
Proof.
  intros He Hp Hf. apply safe_bind. eapply safe_mono; [|exact Hp].
  intros [a|e|q]; [intros _; apply Hf|intros _; apply He|done].
Qed.
Lemma calm_bind {A B} (p : prog A) (f : A → prog B) :
  safe calm p → (∀ a, safe calm (f a)) → safe calm (p ≫= f).
Proof. by apply calm_then. Qed.
Lemma calm_wrapping {A} ctx (p : prog A) : safe calm p → safe calm (p_wrapping ctx p).
Proof. intros Hp. apply safe_wrapping. eapply safe_mono; [|exact Hp]. by intros []. Qed.
Lemma calm_attempt {A} (p : prog A) : safe calm p → safe calm (p_attempt p).
Proof. intros Hp. apply safe_attempt. eapply safe_mono; [|exact Hp]. by intros []. Qed.
Lemma calm_ignore {A} (p : prog A) : safe calm p → safe calm (p_ignore p).
Proof. intros Hp. apply safe_ignore. eapply safe_mono; [|exact Hp]. by intros []. Qed.
Lemma calm_for_each {A} (l : list A) body : (∀ a, safe calm (body a)) → safe calm (p_for_each l body).
Proof. intros Hb. induction l; [done|]. by apply calm_bind. Qed.
Lemma calm_call {A} ctx (m : M SW A) :
  (∀ w, holds w → wp m (λ o w', holds w' ∧ is_panic o = false) w) → safe calm (call (wrapping ctx m)).
Proof. intros Hm w Hw. specialize (Hm w Hw). unfold wp, wrapping in *. by destruct (m w) as [[]]. Qed.
Lemma calm_same {A} (m : M SW A) : (∀ w, wp m (λ o w', same w w' ∧ is_panic o = false) w) → safe calm (call m).
Proof. apply safe_same. Qed.

Lemma calm_now : safe calm (call time_Now).
Proof. apply calm_same. intros w. by eapply wp_conseq; [apply time_Now_wp|]; intros o w' [Hs ->]. Qed.
Lemma calm_uuid : safe calm (call uuid_New).
Proof. apply calm_same. intros w. by eapply wp_conseq; [apply uuid_New_wp|]; intros o w' [Hs ->]. Qed.

Lemma calm_cache_Delete k : safe calm (call (cache_Delete k)).
Proof.
  apply safe_call. intros w [H1 H2]. split; [|done]. split; [|apply H2]. intros k' v. cbn.
  intros [_ Hv]%lookup_delete_Some. by apply H1.
Qed.

Lemma calm_CacheStore id v : ok (uuid_String id) v → safe calm (call (ChatStore.CacheStore id v)).
Proof.
  intros Hv. apply safe_call. intros w [H1 H2]. split; [|done]. split; [|apply H2]. intros k v'. cbn.
  destruct (decide (k = uuid_String id)) as [->|Hne]; [rewrite lookup_insert_eq; by intros [= <-]|].
  rewrite lookup_insert_ne by done. apply H1.
Qed.

Lemma calm_indexAndCache id n m v : ok (uuid_String id) v → safe calm (interleaved.indexAndCache id n m v).
Proof.
  intros Hv. apply calm_bind; [apply calm_ignore, calm_call; intros w Hw; by apply holds_exec|].
  intros _. by apply calm_CacheStore.
Qed.

Lemma calm_PutWithID id v : ok (uuid_String id) v → safe calm (interleaved.PutWithID id v secret).
Proof.
  intros Hv. apply safe_bind, safe_wrapping, safe_same. intros w.
  eapply wp_conseq; [apply encrypt_wp|]. intros [enc|e|p] w' [Hs Ho]; (split; [done|]); [|done..].
  apply calm_bind; [apply calm_now|]. intros now. apply calm_bind; [|intros _; apply calm_cache_Delete].
  apply calm_wrapping, safe_call. intros w1 Hw1. by apply (holds_insert _ _ v).
Qed.

(** The plaintexts a call may write. *)
Definition may_write (op : store_op) (id : UUID) (v : bytes) : Prop :=
  match op with
  | OpPut _ m => message.encodable m ∧ v = message.layout m ∧ (message.MsgID m ≠ NilUUID → id = message.MsgID m)
  | OpUpdate id' _ m => id' = id ∧ ∃ c t, message.encodable (updated c t m) ∧ v = message.layout (updated c t m)
  | _ => False
  end.

(** What a caller may see. *)
Definition fits (op : store_op) (obs : store_obs) : Prop :=
  match op, obs with
  | OpPut _ m, ObsId id => message.MsgID m ≠ NilUUID → id = message.MsgID m
  | OpGet id, ObsMsg m => readable m ∧ message.MsgID m = id
  | OpSearch _ _, ObsList l => Forall readable l
  | OpUpdate _ _ _, ObsDone | OpDelete _, ObsDone | OpStoreAttachments _ _, ObsDone => True
  | _, ObsError => True
  | _, ObsPanic => unencodable op
  | _, _ => False
  end.

Lemma safe_observing {A} (f : A → store_obs) op (p : prog A) :
  safe (λ o, fits op (obs_of f o)) p → safe (λ o, ∃ obs, o = Ret obs ∧ fits op obs) (observing f p).
Proof. intros Hp. apply safe_andThen. eapply safe_mono; [|exact Hp]. intros o Ho. by eexists. Qed.

Lemma calm_observing {A} (f : A → store_obs) op (p : prog A) :
  (∀ a, fits op (f a)) → safe calm p → safe (λ o, fits op (obs_of f o)) p.
Proof. intros Hf. apply safe_mono. intros [a|e|q]; [intros _; apply Hf|by destruct op|done]. Qed.

(** What a [Put] may return. *)
Definition put_outcome (m : message.Message) (o : outcome (message.Message * (UUID + error))) : Prop :=
  match o with
  | Ret (_, inl id) => message.MsgID m ≠ NilUUID → id = message.MsgID m
  | Panic _ => ¬ message.encodable m
  | _ => True
  end.

Lemma safe_Put n m :
  sizes_ok m → (∀ id v, may_write (OpPut n m) id v → ok (uuid_String id) v) →
  safe (put_outcome m) (interleaved.Put secret n m).
Proof.
  intros Hs Hok. destruct (Encode_cases m Hs) as [[He E1]|[He [p E1]]]; unfold interleaved.Put; rewrite E1; [|done].
  change (safe (put_outcome m) ('(id, msg) ← (if bool_decide (message.MsgID m = NilUUID)
     then id ← call uuid_New; mret (id, set_MsgID id m) else mret (message.MsgID m, m));
    r ← p_attempt (p_wrapping "message: store put" (interleaved.PutWithID id (message.layout m) secret));
    match r with inr e => mret (msg, inr e)
    | inl _ => interleaved.indexAndCache id n msg (message.layout m);; mret (msg, inl id) end)).
  assert (∀ id msg, (message.MsgID m ≠ NilUUID → id = message.MsgID m) →
    safe (put_outcome m) (r ← p_attempt (p_wrapping "message: store put" (interleaved.PutWithID id (message.layout m) secret));
    match r with inr e => mret (msg, inr e)
    | inl _ => interleaved.indexAndCache id n msg (message.layout m);; mret (msg, inl id) end)) as Htail.
  { intros id msg Hid. assert (ok (uuid_String id) (message.layout m)) as Hw by by apply Hok.
    apply calm_then; [done|by apply calm_attempt, calm_wrapping, calm_PutWithID|]. intros [u|e]; [|done].
    by apply calm_then; [|apply calm_indexAndCache|]. }
  case_bool_decide as Hnil.
  - apply calm_then; [done|apply calm_bind; [apply calm_uuid|done]|]. intros [id msg]. apply Htail. by intros ?.
  - apply safe_bind. by apply Htail.
Qed.

Lemma calm_Get id : safe calm (interleaved.Get secret id).
Proof. eapply safe_mono; [|apply safe_Get]. by intros []. Qed.
Lemma calm_loadPlain id : safe calm (interleaved.loadPlain secret id).
Proof. eapply safe_mono; [|apply safe_loadPlain]. by intros []. Qed.

Lemma safe_Update id n m :
  sizes_ok m → (∀ id' v, may_write (OpUpdate id n m) id' v → ok (uuid_String id') v) →
  safe (λ o, is_panic o = true → unencodable (OpUpdate id n m)) (interleaved.Update secret id n m).
Proof.
  intros Hs Hok. unfold interleaved.Update. apply safe_bind. eapply safe_mono; [|apply calm_attempt, calm_Get].
  intros [existing|e|p]; [|done..]. intros _. cbv zeta. apply safe_bind, safe_same. intros w.
  eapply wp_conseq; [apply time_Now_wp|]. intros ? w' [Hw ->]. split; [done|]. set (t := tick w). clearbody t. clear w w' Hw.
  set (m' := set_UpdatedAt _ _).
  assert (∃ c, m' = updated c (env_now t) m) as [c ->].
  { destruct existing as [e|e]; [by exists (message.CreatedAt e)|]. exists (message.CreatedAt m). subst m'. by destruct m. }
  destruct (Encode_cases (updated c (env_now t) m) Hs) as [[He ->]|[He [p ->]]].
  2: { cbn. intros _. by exists c, (env_now t). }
  set (v := message.layout _). assert (ok (uuid_String id) v) as Hv.
  { apply Hok. split; [done|]. by exists c, (env_now t). }
  apply (safe_mono holds calm); [by intros []|].
  change (safe calm (p_wrapping "message: store update" (interleaved.ChatUpdate id v secret);;
    interleaved.indexAndCache id n (updated c (env_now t) m) v)).
  apply calm_bind; [|intros _; by apply calm_indexAndCache]. apply calm_wrapping.
  apply calm_bind; [|intros [|]; [by apply calm_PutWithID|done]]. apply calm_wrapping, calm_same. intros w.
  eapply wp_conseq; [apply db_query_wp|]. intros [b|e|p] w' [Hw Ho]; done.
Qed.

Lemma calm_ChatDelete id : safe calm (interleaved.ChatDelete id).
Proof.
  apply calm_bind; [apply calm_wrapping, safe_call; intros w Hw; by apply holds_delete|].
  intros _. apply calm_bind; [|intros _; apply calm_cache_Delete].
  apply calm_ignore, calm_call. intros w Hw. by apply holds_exec.
Qed.

Lemma calm_Delete id : safe calm (interleaved.Delete secret id).
Proof.
  unfold interleaved.Delete. apply safe_bind, safe_attempt. eapply safe_mono; [|apply safe_loadPlain].
  intros [v|e|p]; [| |done].
  - intros Hv. destruct (ok_decodes _ _ Hv) as [m Hm]. rewrite Hm.
    change (safe calm (p_for_each (message.Attachments m) (λ a, p_ignore (call (FileStore.Delete (message.AttID a))));;
      p_wrapping "message: store delete" (interleaved.ChatDelete id))).
    apply calm_bind; [|intros _; apply calm_wrapping, calm_ChatDelete].
    apply calm_for_each. intros a. apply calm_ignore, calm_call. intros w Hw. by apply holds_exec.
  - intros _. apply calm_bind; [done|]. intros _. apply calm_wrapping, calm_ChatDelete.
Qed.

Lemma safe_load_found ids :
  safe (λ o, match o with Ret l => Forall readable l | Err _ => True | Panic _ => False end)
    (interleaved.load_found secret ids).
Proof.
  induction ids as [|k ids IH]; cbn [interleaved.load_found]; [constructor|].
  destruct (uuid_Parse k) as [id|]; [|done]. apply safe_bind, safe_attempt.
  eapply safe_mono; [|apply safe_Get]. intros [m|e|p]; [|done..]. intros [Hm _].
  apply safe_bind. eapply safe_mono; [|exact IH]. intros [l|e|p]; [|done..]. intros Hl. by constructor.
Qed.

Lemma safe_Search q limit :
  safe (λ o, match o with Ret l => Forall readable l | Err _ => True | Panic _ => False end)
    (interleaved.Search secret q limit).
Proof.
  unfold interleaved.Search. case_bool_decide; [constructor|]. apply safe_bind, safe_wrapping.
  eapply safe_mono; [|apply (calm_same (ChatStore.Search q limit))].
  - intros [ids|e|p]; [|done..]. intros _. apply safe_load_found.
  - intros w. unfold ChatStore.Search. wp_use db_query_wp as o w' [Hs Ho]. by destruct o.
Qed.

Lemma calm_StoreAttachments i l : safe calm (interleaved.StoreAttachments secret i l).
Proof.
  induction l as [|a l IH]; cbn [interleaved.StoreAttachments]; [done|].
  destruct (len (message.Data a) =? 0)%Z; [by apply calm_bind|].
  apply calm_bind; [case_bool_decide; [apply calm_uuid|done]|]. intros id.
  apply calm_bind; [|intros _; by apply calm_bind]. apply calm_wrapping. unfold interleaved.FilePut.
  apply calm_bind.
  { apply calm_wrapping, calm_same. intros w. eapply wp_conseq; [apply encryptRaw_wp|]. by intros [c|e|p] w' [Hs Ho]. }
  intros c. apply calm_bind; [apply calm_now|]. intros now. apply calm_wrapping, safe_call. intros w Hw. by apply holds_exec.
Qed.

Lemma op_prog_safe op :
  op_ok op → (∀ id v, may_write op id v → ok (uuid_String id) v) →
  safe (λ o, ∃ obs, o = Ret obs ∧ fits op obs) (op_prog secret op).
Proof.
  intros Hop Hok. destruct op as [n m|id|id n m|id|q l|i l]; cbn [op_prog op_ok] in *; apply safe_observing.
  - eapply safe_mono; [|by apply (safe_Put n m)]. by intros [[m' [id|e]]|e|p].
  - eapply safe_mono; [|apply safe_Get]. intros [m|e|p]; [|done..]. intros [Hm <-]. done.
  - eapply safe_mono; [|by apply (safe_Update id n m)]. intros [u|e|p] Ho; [done..|]. by apply Ho.
  - by apply calm_observing, calm_Delete.
  - eapply safe_mono; [|apply safe_Search]. by intros [out|e|p].
  - by apply calm_observing, calm_StoreAttachments.
Qed.
End Reading.

(** ** Theorems *)

Section Theorems.
Context {P : Platform} {E : Env} {PL : PlatformLaws P}.
Variable secret : Key.

(** A plaintext that was stored under an id, or that one of the calls wrote
    under it. *)
Definition stored_or_written (w : SW) (ops : list store_op) (k : gostring) (v : bytes) : Prop :=
  plain_at secret (db w) k = Some v ∨ ∃ op id, op ∈ ops ∧ k = uuid_String id ∧ may_write op id v.

Lemma stored_or_written_decodes w ops k v :
  store_inv secret w → stored_or_written w ops k v → ∃ m, message.ToMessage v = Ret m.
Proof.
  intros [_ Hd] [Hv|(op & id & _ & _ & Hv)]; [by apply (Hd k)|].
  destruct op; try done; [destruct Hv as (He & -> & _)|destruct Hv as (_ & c & t & He & ->)];
    eexists; by apply ToMessage_layout0.
Qed.

(** C14: Whatever goroutines call the message store at once, and wherever one of
    them is interrupted between two statements or cache operations, with any
    faults: a row that opens and a cached text always hold a message that was
    stored before under that id or that one of the calls writes under it, whole;
    a call that ends has returned such a message, filed under the id that was
    asked for, or such messages; and none panics but a [Put] or [Update] of a
    message that does not fit its encoding. That the cache agrees with the row
    is not kept ([stale_cache]). *)
Theorem store_interleavings (ops : list store_op) (w w' : SW) (pool : list (prog (S:=SW) store_obs)) :
  store_inv secret w → Forall op_ok ops →
  rtc pstep (op_prog secret <$> ops, w) (pool, w') →
  (∀ k v, cache w' !! k = Some v ∨ plain_at secret (db w') k = Some v →
     stored_or_written w ops k v ∧ ∃ m, message.ToMessage v = Ret m) ∧
  ∀ i op o, ops !! i = Some op → pool !! i = Some (End o) →
    ∃ obs, o = Ret obs ∧ fits (stored_or_written w ops) op obs.
Proof.
  intros Hi Hops Hr. set (ok := stored_or_written w ops).
  assert (∀ k v, ok k v → ∃ m, message.ToMessage v = Ret m) as Hdec by (intros k v; by apply stored_or_written_decodes).
  destruct (interleaving_safe (holds secret ok) ((λ op o, ∃ obs, o = Ret obs ∧ fits ok op obs) <$> ops) _ _ Hr) as [Hw Hp].
  - split; [|by left]. intros k v Hv. left. by apply Hi.
  - cbn [fst]. apply Forall2_fmap, Forall2_same_length_lookup. split; [done|].
    intros i op op' Ho Ho'. rewrite Ho in Ho'. injection Ho' as <-. apply op_prog_safe; [done|by eapply Forall_lookup_1|].
    intros id v Hv. right. exists op, id. split; [by eapply list_elem_of_lookup_2|done].
  - cbn [fst snd] in *. split.
    + intros k v Hv. assert (ok k v) as Hok by (destruct Hv; [by apply (proj1 Hw)|by apply (proj2 Hw)]).
      split; [done|]. by apply (Hdec k).
    + intros i op o Hop Hpi. assert (((λ op o, ∃ obs, o = Ret obs ∧ fits ok op obs) <$> ops) !! i
        = Some (λ o, ∃ obs, o = Ret obs ∧ fits ok op obs)) as Hl by by rewrite list_lookup_fmap, Hop.
      exact (Forall2_lookup_lr _ _ _ i _ _ Hp Hl Hpi).
Qed.
(** ** Reading and caching are two steps *)

Definition never_expires : Prop := ∀ t, @env_cache E t = true.

Lemma msg_view_cases d id m :
  msg_view secret d id = Some m →
  ∃ v m0, plain_at secret d (uuid_String id) = Some v ∧ message.ToMessage v = Ret m0 ∧ m = set_MsgID id m0.
Proof.
  unfold msg_view. destruct (plain_at secret d (uuid_String id)) as [v|]; [cbn|done].
  destruct (message.ToMessage v) as [m0|e|p] eqn:Em; [|done..]. intros [= <-]. by exists v, m0.
Qed.

(** A cached text is what a read returns. *)
Lemma Get_cached id v m0 w :
  never_expires → cache w !! uuid_String id = Some v → message.ToMessage v = Ret m0 →
  (observe secret (OpGet id) w).1 = ObsMsg (set_MsgID id m0).
Proof.
  intros He Hc Hm. cbn [observe]. unfold msgstore.Get, msgstore.loadPlain, ChatStore.CacheLoad, cache_Get, next.
  rewrite !bind_run. cbn -[lookup]. rewrite He. unfold gets. cbn [cache].
  rewrite Hc. cbn. by rewrite Hm.
Qed.

(** The steps of a reader that does not find its message in the cache. *)
Lemma Get_steps id v m0 :
  message.ToMessage v = Ret m0 →
  ∃ k1 k2 k3, op_prog secret (OpGet id) = Do (ChatStore.CacheLoad id) k1 ∧
    k1 (Ret None) = Do (ChatStore.Get id secret) k2 ∧ k2 (Ret v) = Do (ChatStore.CacheStore id v) k3 ∧
    k3 (Ret tt) = End (Ret (ObsMsg (set_MsgID id m0))).
Proof.
  intros Hm. do 3 eexists. split; [reflexivity|]. split; [reflexivity|]. split; [reflexivity|].
  cbn. by rewrite Hm.
Qed.

(** A reader is interrupted after its query, another call runs, the reader goes
    on: what it read is in the cache again, whatever the call did. *)
Lemma overtaken_read id op w m :
  no_faults E → never_expires → msg_view secret (db w) id = Some m → cache w !! uuid_String id = None →
  ∃ w1 w', same w w1 ∧
    rtc pstep ([op_prog secret (OpGet id); op_prog secret op], w)
      ([End (Ret (ObsMsg m)); End (Ret (observe secret op w1).1)], w') ∧
    db w' = db (observe secret op w1).2 ∧ (observe secret (OpGet id) w').1 = ObsMsg m.
Proof.
  intros Hn He (v & m0 & Hv & Hm & ->)%msg_view_cases Hc.
  set (wa := MkSW (db w) (cache w) (S (tick w))).
  assert (ChatStore.CacheLoad id w = (Ret None, wa)) as E1.
  { unfold ChatStore.CacheLoad, cache_Get, next. rewrite bind_run. cbn -[lookup]. rewrite He.
    unfold gets. cbn [cache]. by rewrite Hc. }
  pose proof (ChatGet_wp id secret wa) as Hg. unfold wp in Hg.
  destruct (ChatStore.Get id secret wa) as [o w1] eqn:E2. cbn [fst snd] in Hg. destruct Hg as [Hs Ho].
  change (db wa) with (db w) in Ho.
  assert (o = Ret v) as ->.
  { destruct o as [v'|e|p]; [|by destruct (Ho Hn) as [H _]; rewrite H in Hv|done].
    rewrite Hv in Ho. by injection Ho as <-. }
  destruct (observe secret op w1) as [obs w2] eqn:E3.
  set (w' := MkSW (db w2) (<[uuid_String id := v]> (cache w2)) (tick w2)).
  exists w1, w'. rewrite E3. cbn [fst snd]. split; [exact Hs|]. split; [|split; [done|]].
  2: { apply (Get_cached id v); [done| |done]. apply lookup_insert_eq. }
  destruct (Get_steps id v m0 Hm) as (k1 & k2 & k3 & -> & H1 & H2 & H3). eapply rtc_l.
  { exact (pstep_do 0 _ (ChatStore.CacheLoad id) k1 [_; op_prog secret op] w eq_refl). }
  rewrite E1. cbn [fst snd list_insert insert]. rewrite H1. eapply rtc_l.
  { exact (pstep_do 0 _ (ChatStore.Get id secret) k2 [_; op_prog secret op] wa eq_refl). }
  rewrite E2. cbn [fst snd list_insert insert]. rewrite H2. etransitivity.
  { exact (run_to_end (op_prog secret op) [Do (ChatStore.CacheStore id v) k3; op_prog secret op] 1 w1 eq_refl). }
  rewrite op_prog_run, E3. cbn [fst snd list_insert insert]. rewrite <-H3. apply rtc_once.
  exact (pstep_do 0 _ (ChatStore.CacheStore id v) k3 [_; End (Ret obs)] w2 eq_refl).
Qed.

(** C15: The cache is not kept in step with the table. A reader finds a message
    uncached, queries its row and is interrupted; meanwhile the message is
    deleted; the reader caches what it read and returns it: the row is gone, and
    every later read still returns the deleted message, for as long as the entry
    does not expire. Likewise after an update: the row holds the new message,
    and reads return the old one. *)
Theorem stale_cache (id : UUID) (w : SW) (m : message.Message) :
  no_faults E → never_expires → store_inv secret w →
  msg_view secret (db w) id = Some m → cache w !! uuid_String id = None →
  (∃ w', rtc pstep ([op_prog secret (OpGet id); op_prog secret (OpDelete id)], w)
      ([End (Ret (ObsMsg m)); End (Ret ObsDone)], w') ∧
    chats (db w') !! uuid_String id = None ∧ (observe secret (OpGet id) w').1 = ObsMsg m) ∧
  ∀ name msg, sizes_ok msg → (∀ t, message.encodable (updated (message.CreatedAt m) (env_now t) msg)) →
    ∃ t w', rtc pstep ([op_prog secret (OpGet id); op_prog secret (OpUpdate id name msg)], w)
      ([End (Ret (ObsMsg m)); End (Ret ObsDone)], w') ∧
    msg_view secret (db w') id = Some (stored_as id (updated (message.CreatedAt m) (env_now t) msg)) ∧
    (observe secret (OpGet id) w').1 = ObsMsg m.
Proof.
  intros Hn He Hi Hm Hc. split.
  - destruct (overtaken_read id (OpDelete id) w m Hn He Hm Hc) as (w1 & w' & Hs & Hr & Hd & Hg).
    pose proof (Delete_wp secret id w1 (store_inv_same _ _ _ Hs Hi)) as (_ & _ & _ & H).
    exists w'. cbn [observe] in Hr, Hd. destruct (msgstore.Delete secret id w1) as [[[]|e|p] w2]; cbn in *; [|by destruct H|done].
    split; [exact Hr|]. split; [|exact Hg]. rewrite Hd, (proj1 H). apply lookup_delete_eq.
  - intros name msg Hs0 Hen.
    destruct (overtaken_read id (OpUpdate id name msg) w m Hn He Hm Hc) as (w1 & w' & Hs & Hr & Hd & Hg).
    pose proof (Update_wp secret id name msg w1 (store_inv_same _ _ _ Hs Hi) Hs0) as (_ & _ & _ & H).
    assert (msg_view secret (db w1) id = Some m) as Hm1 by (by rewrite (proj1 Hs)).
    cbn [observe] in Hr, Hd. destruct (msgstore.Update secret id name msg w1) as [[[]|e|p] w2]; cbn in *.
    + destruct H as (_ & _ & c & t & Hk & Hv). unfold keeps_created in Hk. rewrite Hm1 in Hk.
      destruct Hk as [->|[_ Hk]]; [|by destruct Hk].
      exists t, w'. split; [exact Hr|]. split; [|exact Hg]. by rewrite Hd, Hv, decide_True.
    + destruct H as [_ H]. destruct (H Hn) as [Hnone _]. revert Hm1. unfold msg_view, plain_at. by rewrite Hnone.
    + destruct H as (_ & c & t & Hk & He'). unfold keeps_created in Hk. rewrite Hm1 in Hk.
      destruct Hk as [->|[_ Hk]]; [|by destruct Hk]. by destruct He'.
Qed.
End Theorems.

(** ** Instances *)

Section Witnesses.
(** A store that holds one message, with nothing in the cache. *)
Let filled : SW := run_op (P:=toy_platform) (E:=toy_env) NilKey (OpPut (lit "alice") message.wit_msg) empty_SW.
Let w : SW := MkSW (db filled) ∅ 7.
Let id : UUID := message.MsgID message.wit_msg.
Let later : message.Message := set_Content (lit "edited") message.wit_msg.

Lemma wit_store : store_inv (P:=toy_platform) NilKey w.
Proof.
  assert (store_inv (P:=toy_platform) NilKey filled) as [_ Hd].
  { apply (run_op_inv (P:=toy_platform) (E:=toy_env) (PL:=toy_platform_laws) NilKey (OpPut (lit "alice") message.wit_msg));
      [exact wit_sizes_ok|apply store_inv_empty]. }
  split; [|exact Hd]. intros k v. cbn. by rewrite lookup_empty.
Qed.

Lemma wit_view : ∃ m, msg_view (P:=toy_platform) NilKey (db w) id = Some m ∧ message.CreatedAt m = message.CreatedAt message.wit_msg.
Proof. eexists. split; vm_compute; reflexivity. Qed.

Lemma toy_clock t : (0 <= @env_now toy_env t <= MaxInt64)%Z.
Proof. cbn. unfold MaxInt64. pose proof (Z.mod_pos_bound (Z.of_nat t) 1000000000 ltac:(lia)). lia. Qed.

Lemma wit_later t : message.encodable (updated (message.CreatedAt message.wit_msg) (@env_now toy_env t) later).
Proof.
  assert (message.encodable later) as ((H1 & H2 & H3 & H4 & _ & H6) & H7).
  { apply (bool_decide_unpack (message.encodable later)). vm_compute. exact I. }
  split; [|exact H7]. do 4 (split; [done|]). split; [|done].
  unfold message.UnixNano. cbn [message.UpdatedAt updated set_UpdatedAt]. rewrite wrap64_small.
  - apply toy_clock.
  - pose proof (toy_clock t). unfold MinInt64. lia.
Qed.

(** The deleted message is read again, and the edited one as it was. *)
Lemma stale_cache_witness :
  (∃ m w', rtc (pstep (A:=store_obs)) ([op_prog (P:=toy_platform) (E:=toy_env) NilKey (OpGet id);
      op_prog (P:=toy_platform) (E:=toy_env) NilKey (OpDelete id)], w)
      ([End (Ret (ObsMsg m)); End (Ret ObsDone)], w') ∧
    chats (db w') !! uuid_String (UuidLib:=toy_uuid) id = None ∧
    (observe (P:=toy_platform) (E:=toy_env) NilKey (OpGet id) w').1 = ObsMsg m) ∧
  ∃ m w', (observe (P:=toy_platform) (E:=toy_env) NilKey (OpGet id) w').1 = ObsMsg m ∧
    message.MsgContent <$> msg_view (P:=toy_platform) NilKey (db w') id = Some (lit "edited") ∧
    message.MsgContent m = message.MsgContent message.wit_msg.
Proof.
  destruct wit_view as (m & Hm & Hcr).
  destruct (stale_cache (P:=toy_platform) (E:=toy_env) (PL:=toy_platform_laws) NilKey id w m
    toy_env_no_faults (λ _, eq_refl) wit_store Hm eq_refl) as [(w1 & H1 & H2 & H3) Hu].
  split; [exists m, w1; exact (conj H1 (conj H2 H3))|].
  destruct (Hu (lit "alice") later wit_sizes_ok) as (t & w2 & _ & Hv & Hg).
  { intros t. rewrite Hcr. apply wit_later. }
  exists m, w2. split; [exact Hg|]. split; [rewrite Hv; reflexivity|].
  vm_compute in Hm. injection Hm as <-. vm_compute. reflexivity.
Defined.

(** The interleaving of [stale_cache], whose outcomes are sound all the same. *)
Lemma store_interleavings_witness :
  let ops := [OpGet id; OpDelete id] in
  ∃ m w', rtc (pstep (A:=store_obs)) (op_prog (P:=toy_platform) (E:=toy_env) NilKey <$> ops, w)
      ([End (Ret (ObsMsg m)); End (Ret ObsDone)], w') ∧
    (∀ k v, cache w' !! k = Some v → stored_or_written (P:=toy_platform) NilKey w ops k v) ∧
    fits (P:=toy_platform) (stored_or_written (P:=toy_platform) NilKey w ops) (OpGet id) (ObsMsg m).
Proof.
  intros ops. destruct wit_view as (m & Hm & _).
  destruct (overtaken_read (P:=toy_platform) (E:=toy_env) (PL:=toy_platform_laws) NilKey id (OpDelete id) w m
    toy_env_no_faults (λ _, eq_refl) Hm eq_refl) as (w1 & w' & Hs & Hr & _).
  assert ((observe (P:=toy_platform) (E:=toy_env) NilKey (OpDelete id) w1).1 = ObsDone) as Hd.
  { pose proof (Delete_wp (P:=toy_platform) (E:=toy_env) (PL:=toy_platform_laws) NilKey id w1
      (store_inv_same (P:=toy_platform) _ _ _ Hs wit_store)) as (_ & _ & _ & H).
    cbn [observe]. destruct (msgstore.Delete _ id w1) as [[u|e|p] w2]; cbn in *;
      [reflexivity|destruct H as [H _]; destruct (H toy_env_no_faults)|destruct H]. }
  rewrite Hd in Hr. destruct (store_interleavings (P:=toy_platform) (E:=toy_env) (PL:=toy_platform_laws) NilKey ops w w'
    [End (Ret (ObsMsg m)); End (Ret ObsDone)] wit_store) as [H1 H2].
  - apply Forall_cons_2; [exact I|]. apply Forall_cons_2; [exact I|apply Forall_nil_2].
  - exact Hr.
  - exists m, w'. split; [exact Hr|]. split; [intros k v Hv; apply (H1 k v (or_introl Hv))|].
    destruct (H2 0 (OpGet id) (Ret (ObsMsg m)) eq_refl eq_refl) as (obs & E0 & Hf). injection E0 as <-. exact Hf.
Defined.
End Witnesses.
