(* ===== verification/StoreFacts.v ===== *)
(** * Outbox, known peers and profile (store/outbox.go, peers.go, profile.go)

    Theorems about the tables of package [store] that hold no messages: the
    outbox keeps what waits per target, a known peer reads back up to the fields the
    table does not keep, and the profile is one row. *)

From S2P Require Import Prelude Net NetFacts Config Crypto Keys Signal Monad Platform Base64 Store.

Lemma scan_rows_ret {A B} (f : A → outcome B) rows :
  Forall (λ r, ∃ b, f r = Ret b) rows →
  ∃ l, scan_rows f rows = Ret l ∧ Forall2 (λ r b, f r = Ret b) rows l.
Proof.
  induction 1 as [|r rows [b Hb] _ (l & Hl & Hf)]; [by exists []|].
  exists (b :: l). cbn. rewrite Hb. cbn. rewrite Hl. auto.
Qed.

Lemma scan_rows_fmap {A B} (f : A → outcome B) (g : A → B) rows :
  (∀ r, r ∈ rows → f r = Ret (g r)) → scan_rows f rows = Ret (g <$> rows).
Proof.
  induction rows as [|r rows IH]; intros Hf; [done|]. cbn.
  rewrite Hf by left. cbn. rewrite IH; [done|]. intros. apply Hf. by right.
Qed.

Section Outbox.
Context {P : Platform} {E : Env} {PL : PlatformLaws P}.
Variable secret : Key.
Import OutboxStore.

(** A formatted time that the format represents. *)
Definition dated (s : gostring) : Prop := ∃ t, (0 <= t <= MaxInt64)%Z ∧ s = Format_RFC3339 t.

(** Every row reads back, filed under its id and dated. *)
Definition outbox_inv (d : DB) : Prop :=
  map_Forall (λ k r, (∃ e, scan_get secret (k, r) = Ret e ∧ uuid_String (ob_ID e) = k) ∧
    dated (or_created_at r)) (outbox d).

Lemma outbox_reads d k r : outbox_inv d → outbox d !! k = Some r →
  ∃ e, scan_get secret (k, r) = Ret e ∧ uuid_String (ob_ID e) = k.
Proof. intros Hi Hr. apply (Hi k r Hr). Qed.

(** The clock stays within what the stored format represents. *)
Definition clock_ok : Prop := ∀ t, (0 <= @env_now E t <= MaxInt64)%Z.

(** The order of the times entries were put at, which are kept to the second. *)
Definition by_second (a b : OutboxSignal) : Prop := (ob_CreatedAt a <= ob_CreatedAt b)%Z.
Global Instance by_second_trans : Transitive by_second.
Proof. intros a b c. unfold by_second. lia. Qed.

(** What a row of the outbox means. *)
Definition entry_of (r : gostring * outbox_row) : OutboxSignal :=
  match scan_get secret r with
  | Ret e => e
  | _ => MkOutbox NilUUID NilKey [] NilKey NilUUID [] 0 0
  end.

(** The signals waiting for a target, in no particular order. *)
Definition waiting (d : DB) (target : Key) : list OutboxSignal :=
  entry_of <$> filter (λ r, or_target_pub_key r.2 = Key_String target) (map_to_list (outbox d)).

Lemma Key_String_inj k k' : Key_String k = Key_String k' → k = k'.
Proof. intros H. pose proof (FromHex_String k) as H1. rewrite H, FromHex_String in H1. by simplify_eq. Qed.

Lemma uuid_Scan_string u : uuid_Scan (uuid_String u) = Some u.
Proof.
  unfold uuid_Scan. case_bool_decide as H; [by apply uuid_string_nonempty in H|].
  apply uuid_parse_string.
Qed.

(** The row [Put] inserts. *)
Definition put_row (target : Key) (raw enc : bytes) (now : Z) : outbox_row :=
  MkOutboxRow (Key_String target) (signal.Type' (json_Unmarshal_Signal raw))
    (Key_String (signal.From (json_Unmarshal_Signal raw)))
    (uuid_String (signal.ID (json_Unmarshal_Signal raw))) enc (Format_RFC3339 now) 0.

Definition put_entry (id : UUID) (target : Key) (raw : bytes) (now : Z) : OutboxSignal :=
  let meta := json_Unmarshal_Signal raw in
  MkOutbox id target (signal.Type' meta) (signal.From meta) (signal.ID meta) raw
    (now - now mod Second) 0.

Lemma scan_put_row id target raw enc now :
  decryptRaw secret enc = Ret raw → (0 <= now <= MaxInt64)%Z →
  scan_get secret (uuid_String id, put_row target raw enc now) = Ret (put_entry id target raw now).
Proof.
  intros Hd Hn. unfold scan_get, scan_entry, put_row. cbn -[wrap_err].
  rewrite !uuid_Scan_string, !FromHex_String, parse_format by done. cbn. by rewrite Hd.
Qed.

Lemma OutboxPut_wp target raw w :
  clock_ok → outbox_inv (db w) →
  wp (Put target raw secret) (λ o w', cache w' = cache w ∧
    match o with
    | Ret id => outbox (db w) !! uuid_String id = None ∧
        ∃ r t, scan_get secret (uuid_String id, r) = Ret (put_entry id target raw (env_now t)) ∧
          or_target_pub_key r = Key_String target ∧ dated (or_created_at r) ∧
          db w' = set_outbox (<[uuid_String id := r]>) (db w)
    | Err _ => db w' = db w ∧
        (no_faults E → ∃ t, is_Some (outbox (db w) !! uuid_String (env_uuid t)))
    | Panic _ => False
    end) w.
Proof.
  intros Hck Hi. unfold Put. wp_use (encryptRaw_wp (P:=P)) as o1 w1 [[Hd1 Hc1] H1].
  destruct o1 as [enc|e|p]; [|split; [done|split; [done|intros Hn; by destruct (H1 Hn)]]|done].
  cbv zeta. wp_use uuid_New_wp as o2 w2 [[Hd2 Hc2] ->]. wp_use time_Now_wp as o3 w3 [[Hd3 Hc3] ->].
  set (id := env_uuid (tick w1)). rewrite Hd2, Hd1 in Hd3. rewrite Hc2, Hc1 in Hc3.
  wp_head. unfold wp, db_exec_opt, next. cbn. rewrite bind_run. cbn.
  destruct (env_db (tick w3)) eqn:Edb; cbn.
  { repeat (split; [congruence|]). intros [Hn _]. by rewrite Hn in Edb. }
  rewrite bind_run. unfold gets. cbn. rewrite Hd3.
  destruct (outbox (db w) !! uuid_String id) eqn:Eid; cbn.
  { repeat (split; [done|]). intros _. exists (tick w1). unfold id in Eid. eauto. }
  split; [done|]. split; [done|]. exists (put_row target raw enc (env_now (tick w2))), (tick w2).
  split; [by apply scan_put_row|]. split; [done|]. split; [by eexists|done].
Qed.

Lemma outbox_inv_insert d id r e :
  outbox_inv d → scan_get secret (uuid_String id, r) = Ret e → ob_ID e = id → dated (or_created_at r) →
  outbox_inv (set_outbox (<[uuid_String id := r]>) d).
Proof. intros Hi He <- Hd. apply map_Forall_insert_2; [|done]. split; [by exists e|done]. Qed.

Lemma waiting_row d target e :
  outbox_inv d → e ∈ waiting d target →
  ∃ r, outbox d !! uuid_String (ob_ID e) = Some r ∧ or_target_pub_key r = Key_String target.
Proof.
  intros Hi [[k r] [-> [Ht Hin%elem_of_map_to_list]%list_elem_of_filter]]%list_elem_of_fmap.
  destruct (outbox_reads d k r Hi Hin) as (e & He & <-). exists r. unfold entry_of. by rewrite He.
Qed.

(** Removing some entries leaves the others waiting. *)
Lemma waiting_delete d id target :
  outbox_inv d →
  waiting (set_outbox (delete (uuid_String id)) d) target ≡ₚ
    filter (λ e, ob_ID e ≠ id) (waiting d target).
Proof.
  intros Hi. unfold waiting. cbn. set (T := λ r : gostring * outbox_row, or_target_pub_key r.2 = Key_String target).
  destruct (outbox d !! uuid_String id) as [r|] eqn:Er.
  - rewrite <-(insert_delete_id (outbox d) _ r Er) at 2.
    rewrite map_to_list_insert by apply lookup_delete_eq. rewrite filter_cons.
    destruct (outbox_reads d _ _ Hi Er) as (e & He & Hid%uuid_String_inj).
    assert (filter (λ e, ob_ID e ≠ id) (entry_of <$> filter T (map_to_list (delete (uuid_String id) (outbox d))))
      = entry_of <$> filter T (map_to_list (delete (uuid_String id) (outbox d)))) as Hf.
    { apply list_filter_all, Forall_fmap, Forall_forall. intros [k r'] [_ Hin%elem_of_map_to_list]%list_elem_of_filter.
      apply lookup_delete_Some in Hin as [Hne Hin]. destruct (outbox_reads d _ _ Hi Hin) as (e' & He' & Hk).
      unfold entry_of; cbn. rewrite He'. by intros <-. }
    case_decide; [|by rewrite Hf]. rewrite fmap_cons, filter_cons_False; [by rewrite Hf|].
    unfold entry_of. rewrite He. intros Hn. by apply Hn.
  - rewrite delete_id by done. rewrite (list_filter_all (λ e, ob_ID e ≠ id)); [done|].
    apply Forall_fmap, Forall_forall. intros [k r'] [_ Hin%elem_of_map_to_list]%list_elem_of_filter.
    destruct (outbox_reads d _ _ Hi Hin) as (e' & He' & Hk). unfold entry_of; cbn. rewrite He'. intros Hid.
    by rewrite <-Hid, Hk, Hin in Er.
Qed.

Lemma outbox_inv_delete d id : outbox_inv d → outbox_inv (set_outbox (delete (uuid_String id)) d).
Proof. intros Hi. by apply map_Forall_delete. Qed.

Lemma OutboxDelete_wp id w :
  wp (Delete id) (λ o w', cache w' = cache w ∧
    match o with
    | Ret _ => db w' = set_outbox (delete (uuid_String id)) (db w)
    | Err _ => db w' = db w ∧ ¬ no_faults E
    | Panic _ => False
    end) w.
Proof. unfold Delete. wp_use db_exec_wp as o w1 H. by destruct o. Qed.

Lemma waiting_insert d id r e target :
  outbox d !! uuid_String id = None → scan_get secret (uuid_String id, r) = Ret e →
  waiting (set_outbox (<[uuid_String id := r]>) d) target ≡ₚ
    (if decide (or_target_pub_key r = Key_String target) then [e] else []) ++ waiting d target.
Proof.
  intros Hnone He. unfold waiting. cbn. rewrite map_to_list_insert by done.
  rewrite filter_cons. cbn. case_decide; [|done]. cbn. unfold entry_of at 1. by rewrite He.
Qed.

(** Rows in the order of their text are entries in the order of their seconds. *)
Lemma scan_get_created k r e t :
  (0 <= t <= MaxInt64)%Z → or_created_at r = Format_RFC3339 t → scan_get secret (k, r) = Ret e →
  ob_CreatedAt e = (t - t mod Second)%Z.
Proof.
  intros Ht Hr. unfold scan_get, scan_entry. cbn -[wrap_err]. rewrite Hr, parse_format by done.
  destruct (uuid_Scan k); cbn; [|done]. destruct (FromHex (or_target_pub_key r)); cbn; [|done..].
  destruct (FromHex (or_signal_from r)); cbn; [|done..]. destruct (uuid_Scan (or_signal_id r)); cbn; [|done].
  destruct (decryptRaw _ _); cbn; [|done..]. by intros [= <-].
Qed.

Lemma created_by_second d a b :
  outbox_inv d → outbox d !! a.1 = Some a.2 → outbox d !! b.1 = Some b.2 → created_le a b →
  by_second (entry_of a) (entry_of b).
Proof.
  intros Hi Ha Hb Hle. destruct a as [ka ra], b as [kb rb]. cbn in Ha, Hb.
  destruct (Hi ka ra Ha) as [(ea & Ea & _) (t & Ht & Hta)], (Hi kb rb Hb) as [(eb & Eb & _) (u & Hu & Hub)].
  unfold by_second, entry_of. rewrite Ea, Eb, (scan_get_created ka ra ea t), (scan_get_created kb rb eb u) by done.
  unfold created_le in Hle. cbn in Hle. rewrite Hta, Hub in Hle. apply format_ordered in Hle; [|done..].
  pose proof (Z.div_mod t Second ltac:(done)). pose proof (Z.div_mod u Second ltac:(done)).
  assert (0 < Second)%Z by done. nia.
Qed.

Lemma OutboxGet_wp target w :
  outbox_inv (db w) →
  wp (Get target secret) (λ o w', same w w' ∧
    match o with
    | Ret l => l ≡ₚ waiting (db w) target ∧ Sorted by_second l
    | Err _ => ¬ no_faults E
    | Panic _ => False
    end) w.
Proof.
  intros Hi. unfold Get. wp_use db_query_wp as o1 w1 [Hs H1].
  destruct o1 as [rows|e|p]; [|done..]. wp_head.
  assert (rows ≡ₚ filter (λ r, or_target_pub_key r.2 = Key_String target) (map_to_list (outbox (db w)))) as Hp.
  { rewrite H1, merge_sort_Permutation. by rewrite sql_scan_perm. }
  rewrite (scan_rows_fmap _ entry_of).
  - split; [done|]. split; [unfold waiting; by rewrite Hp|].
    assert (Sorted created_le rows) as Hs'.
    { rewrite H1. apply Sorted_merge_sort. intros a b. unfold created_le. apply total; apply _. }
    assert (Forall (λ r, outbox (db w) !! r.1 = Some r.2) rows) as Hall.
    { rewrite Hp. apply Forall_forall. intros [k r] [_ Hin%elem_of_map_to_list]%list_elem_of_filter. done. }
    clear H1 Hp. induction Hs' as [|a l Hs' IH Hhd]; cbn; [constructor|].
    apply Forall_cons in Hall as [Ha Hall]. constructor; [by apply IH|].
    destruct Hhd as [|b l Hab]; cbn; constructor. apply Forall_cons in Hall as [Hb _].
    by apply (created_by_second (db w)).
  - intros [k r] Hin. rewrite Hp in Hin. apply list_elem_of_filter in Hin as [_ Hin%elem_of_map_to_list].
    destruct (outbox_reads (db w) k r Hi Hin) as (e & He & _). unfold entry_of. by rewrite He.
Qed.
End Outbox.

(** ** Known peers *)

Section Peers.
Context {P : Platform} {E : Env} {PL : PlatformLaws P}.
Import KnownPeerStore.

(** What the table keeps of a peer: the address as [net.ParseIP] reads it,
    not the online flag, and not the time it was last seen ([Add] writes
    [time.String], [Get] parses RFC 3339). *)
Definition kept (p : KnownPeer) : KnownPeer :=
  MkPeer (net_ParseIP (net_IP_String (PeerIP p))) (PubKey p) (PeerName p) (Nickname p) (Status p)
    false zero_time (ProfilePic p).

(** An address the program has comes from [net.ParseIP]; it is kept. *)
Lemma kept_address p s : PeerIP p = net_ParseIP s → PeerIP (kept p) = PeerIP p.
Proof.
  intros E0. unfold kept. cbn [PeerIP]. destruct (ParseIP_cases s) as [E1|E1]; rewrite <-E0 in E1.
  - by rewrite E1.
  - by apply ParseIP_String.
Qed.

Definition peer_view (d : DB) (k : Key) : option KnownPeer :=
  r ← known_peers d !! Key_String k;
  match scan_peer (Key_String k, r) with Ret p => Some p | _ => None end.

Lemma scan_peer_row p : scan_peer (Key_String (PubKey p), peer_to_row p) = Ret (kept p).
Proof.
  unfold scan_peer, peer_to_row. cbn. rewrite FromHex_String, uuid_Scan_string. cbn.
  by rewrite parse_time_String.
Qed.

Lemma scan_peer_key k r p : scan_peer (Key_String k, r) = Ret p → PubKey p = k.
Proof.
  unfold scan_peer. cbn. rewrite FromHex_String. cbn.
  destruct (uuid_Scan _); cbn; [by intros [= <-]|done].
Qed.

Lemma peer_view_key d k p : peer_view d k = Some p → PubKey p = k.
Proof.
  unfold peer_view. destruct (_ !! _) as [r|]; [cbn|done].
  destruct (scan_peer _) eqn:Es; [intros [= <-]; by eapply scan_peer_key|done..].
Qed.

Lemma PeerAdd_wp p w :
  wp (Add p) (λ o w', cache w' = cache w ∧ tick w' = S (tick w) ∧
    match o with
    | Ret _ => db w' = set_known_peers (<[Key_String (PubKey p) := peer_to_row p]>) (db w)
    | Err _ => db w' = db w ∧ ¬ no_faults E
    | Panic _ => False
    end) w.
Proof.
  unfold Add. wp_head. unfold wp, db_exec, next. rewrite bind_run. cbn.
  destruct (env_db (tick w)) eqn:Ed; cbn; [|done]. repeat (split; [done|]).
  intros [Hd _]. by rewrite Hd in Ed.
Qed.

Lemma peer_view_insert d p k :
  peer_view (set_known_peers (<[Key_String (PubKey p) := peer_to_row p]>) d) k =
    if decide (k = PubKey p) then Some (kept p) else peer_view d k.
Proof.
  unfold peer_view. cbn. case_decide as Hk; subst.
  - rewrite lookup_insert_eq. cbn. by rewrite scan_peer_row.
  - rewrite lookup_insert_ne; [done|]. by intros ?%Key_String_inj.
Qed.

Lemma PeerGet_wp k w :
  wp (Get k) (λ o w', same w w' ∧
    match o with
    | Ret p => peer_view (db w) k = Some p
    | Err e => (no_faults E → peer_view (db w) k = None) ∧
        (e = ENotExist → known_peers (db w) !! Key_String k = None)
    | Panic _ => False
    end) w.
Proof.
  unfold Get, peer_view. wp_use db_query_wp as o1 w1 [Hs H1].
  destruct o1 as [row|e|p]; [|split; [done|split; [intros Hn; by destruct (H1 Hn)|by intros [=]]]|done]. subst row.
  destruct (known_peers (db w) !! Key_String k) as [r|]; [|by apply wp_throw].
  wp_head. cbn. unfold scan_peer. cbn. rewrite FromHex_String. cbn.
  destruct (uuid_Scan _); cbn; (split; [done|]); [done|]. split; [done|by intros [=]].
Qed.
End Peers.

(** ** Profile *)

Section Profile.
Context {P : Platform} {E : Env} {PL : PlatformLaws P}.
Import ProfileStore.

(** The row that holds a profile: the nil picture is the empty text. *)
Definition profile_row_of (name : gostring) (id : UUID) : profile_row :=
  MkProfileRow name (if bool_decide (id = NilUUID) then [] else uuid_String id).

Lemma ProfileUpdate_run name id w :
  no_faults E →
  ∃ w', Update name id w = (Ret tt, w') ∧ cache w' = cache w ∧
    db w' = set_profile (λ _, Some (profile_row_of name id)) (db w).
Proof.
  intros [Hd _]. unfold Update, db_exec, next, ignore, wrapping. repeat (rewrite bind_run; cbn). rewrite Hd; cbn.
  repeat (rewrite bind_run; cbn). rewrite Hd. cbn. eexists. split; [done|]. split; [done|].
  unfold set_profile. cbn. by destruct (profile (db w)).
Qed.

Lemma ProfileGet_run w name id :
  no_faults E →
  profile (db w) = Some (profile_row_of name id) →
  (Get w).1 = Ret (MkProfile name id).
Proof.
  intros [Hd _] Hp. unfold Get, db_query, next, wrapping. repeat (rewrite bind_run; cbn). rewrite Hd. cbn.
  rewrite Hp. repeat (rewrite bind_run; cbn).
  assert (uuid_Scan (if bool_decide (id = NilUUID) then [] else uuid_String id) = Some id) as ->.
  { case_bool_decide; [by subst|apply uuid_Scan_string]. }
  done.
Qed.
End Profile.

(** ** Theorems *)

(** In a sorted list an element that is below no other one comes last. *)
Lemma sorted_latest {A} (R : relation A) `{!Transitive R} (l rest : list A) x :
  l ≡ₚ x :: rest → Sorted R l → Forall (λ y, ¬ R x y) rest → ∃ l', l = l' ++ [x].
Proof.
  intros Hp Hs%Sorted_StronglySorted Hr; [|done].
  assert (x ∈ l) as (l1 & l2 & ->)%list_elem_of_split by (rewrite Hp; by left).
  exists l1. f_equal. destruct l2 as [|y l2]; [done|]. exfalso.
  assert (y ∈ rest) as Hy.
  { rewrite <-Permutation_middle in Hp. apply (Permutation_cons_inv (a:=x)) in Hp. rewrite <-Hp, elem_of_app. right. by left. }
  rewrite Forall_forall in Hr. apply (Hr y Hy). apply StronglySorted_app_1_r in Hs.
  apply StronglySorted_cons in Hs as [Hs _]. by apply Forall_cons in Hs as [? _].
Qed.

Section Theorems.
Context {P : Platform} {E : Env} {PL : PlatformLaws P}.
Variable secret : Key.

(** C28: The outbox keeps what waits per target: [Put] keeps every row readable
    and adds one waiting entry holding the exact payload, with no retries, for
    its target and for no other; [Get] then returns all the target's entries,
    ordered by the second they were put in. So an entry put in a later second
    than those that wait comes last; entries of one second come in any order,
    since the order of the query is that of a text of whole seconds. The only
    failure without driver faults is a repeated id. *)
Theorem Outbox_Put_Get (target : Key) (raw : bytes) (w : SW) :
  no_faults E → clock_ok (E:=E) → outbox_inv secret (db w) →
  match OutboxStore.Put target raw secret w with
  | (Ret id, w1) =>
      outbox_inv secret (db w1) ∧
      (∃ t l, (OutboxStore.Get target secret w1).1 = Ret l ∧
        l ≡ₚ put_entry id target raw (env_now t) :: waiting secret (db w) target ∧
        Sorted by_second l ∧
        (Forall (λ e, OutboxStore.ob_CreatedAt e < env_now t - env_now t mod Second)%Z
           (waiting secret (db w) target) →
         ∃ l', l = l' ++ [put_entry id target raw (env_now t)])) ∧
      (∀ other, other ≠ target → waiting secret (db w1) other ≡ₚ waiting secret (db w) other)
  | (Err _, w1) => db w1 = db w ∧ ∃ t, is_Some (outbox (db w) !! uuid_String (env_uuid t))
  | (Panic _, _) => False
  end.
Proof.
  intros Hn Hck Hi. pose proof (OutboxPut_wp secret target raw w Hck Hi) as Hp. unfold wp in Hp.
  destruct (OutboxStore.Put target raw secret w) as [[id|e|p] w1]; cbn in Hp; [| |by destruct Hp].
  2: { destruct Hp as (_ & ? & H). auto. }
  destruct Hp as (_ & Hnone & r & t & Hr & Ht & Hdt & Hd).
  assert (outbox_inv secret (db w1)) as Hi1 by (rewrite Hd; by eapply outbox_inv_insert).
  split; [done|]. split.
  - pose proof (OutboxGet_wp secret target w1 Hi1) as Hg. unfold wp in Hg. exists t.
    destruct (OutboxStore.Get target secret w1) as [[l|e|p] w2]; cbn in *; [|by destruct Hg..].
    destruct Hg as (_ & Hl & Hs). exists l. split; [done|].
    rewrite Hd, (waiting_insert secret _ _ _ _ _ Hnone Hr), decide_True in Hl by done.
    split; [done|]. split; [done|]. intros Hlt. eapply (sorted_latest by_second); [exact Hl|exact Hs|].
    eapply Forall_impl; [exact Hlt|]. intros e He Hle. unfold by_second in Hle. cbn in He, Hle. lia.
  - intros other Hne. rewrite Hd, (waiting_insert secret _ _ _ _ _ Hnone Hr).
    rewrite decide_False; [done|]. rewrite Ht. by intros ?%Key_String_inj.
Qed.

(** A known peer that was added reads back with its key, name, nickname,
    status and picture, but never with the time it was last seen, whatever
    that was; every other peer is unchanged. *)
Theorem KnownPeer_Add_Get (p : KnownPeerStore.KnownPeer) (w : SW) :
  no_faults E →
  ∃ w1, KnownPeerStore.Add p w = (Ret tt, w1) ∧
    (KnownPeerStore.Get (KnownPeerStore.PubKey p) w1).1 = Ret (kept p) ∧
    KnownPeerStore.LastSeen (kept p) = zero_time ∧
    ∀ k, k ≠ KnownPeerStore.PubKey p → peer_view (db w1) k = peer_view (db w) k.
Proof.
  intros Hn. pose proof (PeerAdd_wp p w) as Ha. unfold wp in Ha.
  destruct (KnownPeerStore.Add p w) as [[[]|e|q] w1]; cbn in Ha;
    [|by destruct Ha as (_ & _ & _ & ?)|by destruct Ha as (_ & _ & ?)].
  destruct Ha as (_ & _ & Hd). exists w1. split; [done|].
  pose proof (PeerGet_wp (KnownPeerStore.PubKey p) w1) as Hg. unfold wp in Hg.
  rewrite Hd, peer_view_insert, decide_True in Hg by done.
  split; [|split; [done|]].
  - destruct (KnownPeerStore.Get _ w1) as [[p'|e|q] w2]; cbn in *; [|destruct Hg as [_ [Hg _]]; by specialize (Hg Hn)|by destruct Hg].
    destruct Hg as [_ Hg]. by simplify_eq.
  - intros k Hk. by rewrite Hd, peer_view_insert, decide_False.
Qed.

(** The profile that was set is the profile read, the nil picture included,
    whether or not a row existed. *)
Theorem Profile_Update_Get (name : gostring) (id : UUID) (w : SW) :
  no_faults E →
  ∃ w1, ProfileStore.Update name id w = (Ret tt, w1) ∧
    (ProfileStore.Get w1).1 = Ret (ProfileStore.MkProfile name id) ∧
    profile (db w1) = Some (profile_row_of name id) ∧ chats (db w1) = chats (db w) ∧ known_peers (db w1) = known_peers (db w) ∧
    files (db w1) = files (db w) ∧ outbox (db w1) = outbox (db w).
Proof.
  intros Hn. destruct (ProfileUpdate_run name id w Hn) as (w1 & Hr & _ & Hd).
  exists w1. split; [done|]. split; [|by rewrite Hd].
  apply ProfileGet_run; [done|]. by rewrite Hd.
Qed.
End Theorems.

(** ** Witnesses *)

Lemma toy_clock_ok : clock_ok (E:=toy_env).
Proof. intros t. cbn. unfold MaxInt64. pose proof (Z.mod_pos_bound (Z.of_nat t) 1000000000 ltac:(lia)). lia. Qed.

Lemma outbox_inv_empty `{P : Platform} secret : outbox_inv secret empty_DB.
Proof. apply map_Forall_empty. Qed.

Lemma Outbox_Put_Get_witness :
  match OutboxStore.Put (P:=toy_platform) (E:=toy_env) NilKey (lit "raw") NilKey empty_SW with
  | (Ret id, w1) => ∃ t l,
      (OutboxStore.Get (P:=toy_platform) (E:=toy_env) NilKey NilKey w1).1 = Ret l ∧
      l = [put_entry (P:=toy_platform) id NilKey (lit "raw") (@env_now toy_env t)]
  | _ => False
  end.
Proof.
  pose proof (Outbox_Put_Get (P:=toy_platform) (E:=toy_env) (PL:=toy_platform_laws) NilKey NilKey
    (lit "raw") empty_SW toy_env_no_faults toy_clock_ok (outbox_inv_empty NilKey)) as H.
  destruct (OutboxStore.Put (P:=toy_platform) (E:=toy_env) NilKey (lit "raw") NilKey empty_SW) as [[id|e|p] w1].
  - destruct H as (_ & (t & l & Hg & Hl & _) & _). exists t, l. exact (conj Hg (proj1 (Permutation_singleton_r _ _) Hl)).
  - destruct H as (_ & t & x & Hx). cbn in Hx. discriminate Hx.
  - exact H.
Defined.

Definition wit_peer : KnownPeerStore.KnownPeer :=
  KnownPeerStore.MkPeer (net_ParseIP (lit "10.0.0.7")) NilKey (lit "bob") (lit "Bobby") Accepted true
    1700000000000000000 NilUUID.

Lemma KnownPeer_Add_Get_witness :
  ∃ w1, KnownPeerStore.Add (P:=toy_platform) (E:=toy_env) wit_peer empty_SW = (Ret tt, w1) ∧
    (KnownPeerStore.Get (P:=toy_platform) (E:=toy_env) NilKey w1).1 = Ret (kept wit_peer).
Proof.
  destruct (KnownPeer_Add_Get (P:=toy_platform) (E:=toy_env) (PL:=toy_platform_laws) wit_peer empty_SW
    toy_env_no_faults) as (w1 & H1 & H2 & _).
  exists w1. exact (conj H1 H2).
Defined.

Lemma Profile_Update_Get_witness :
  ∃ w1, ProfileStore.Update (P:=toy_platform) (E:=toy_env) (lit "me") NilUUID empty_SW = (Ret tt, w1) ∧
    (ProfileStore.Get (P:=toy_platform) (E:=toy_env) w1).1 = Ret (ProfileStore.MkProfile (lit "me") NilUUID).
Proof.
  destruct (Profile_Update_Get (P:=toy_platform) (E:=toy_env) (PL:=toy_platform_laws) (lit "me") NilUUID
    empty_SW toy_env_no_faults) as (w1 & H1 & H2 & _).
  exists w1. exact (conj H1 H2).
Defined.
