(* ===== verification/Tables.v ===== *)
(** * The types of the tables (store/*.go)

    SQLite columns are dynamically typed and every one of them is text or a
    blob: what a row means is decided when it is scanned. [typed] says which
    rows the program writes: their keys are the text of an id or of a key,
    their times are formatted times of the clock, their ciphertexts open under
    the client's private key. Every operation of the five stores and of the
    message store keeps it, however it fails, and a typed table scans. *)

From S2P Require Import Prelude Net NetFacts Config Crypto Keys Signal Message Monad Platform Base64 Store MessageStore StoreFacts.

Section Typed.
Context {P : Platform} {E : Env}.
Variable secret : Key.

Definition is_id (k : gostring) : Prop := ∃ u, k = uuid_String u.
Definition stamped (s : gostring) : Prop := ∃ t, s = Format_RFC3339 (env_now t).

Definition chat_typed (k : gostring) (r : chat_row) : Prop :=
  is_id k ∧ stamped (cr_created_at r) ∧ ∃ v, decrypt secret (cr_value r) = Ret v.
Definition peer_typed (k : gostring) (r : peer_row) : Prop :=
  ∃ p, k = Key_String (KnownPeerStore.PubKey p) ∧ r = KnownPeerStore.peer_to_row p.
Definition file_typed (k : gostring) (r : file_row) : Prop :=
  is_id k ∧ stamped (fr_created_at r) ∧ ∃ v, decryptRaw secret (fr_data r) = Ret v.
Definition search_typed (k : gostring) (r : search_row) : Prop := is_id k.
Definition outbox_typed (k : gostring) (r : outbox_row) : Prop :=
  is_id k ∧ (∃ pk, or_target_pub_key r = Key_String pk) ∧ (∃ pk, or_signal_from r = Key_String pk) ∧
  is_id (or_signal_id r) ∧ stamped (or_created_at r) ∧ (0 <= or_retry_count r)%Z ∧
  ∃ v, decryptRaw secret (or_signal_content r) = Ret v.
Definition profile_typed (r : profile_row) : Prop := pf_profile_pic r = [] ∨ is_id (pf_profile_pic r).

Record typed (d : DB) : Prop := {
  ty_chats : map_Forall chat_typed (chats d);
  ty_peers : map_Forall peer_typed (known_peers d);
  ty_files : map_Forall file_typed (files d);
  ty_search : map_Forall search_typed (chat_search d);
  ty_outbox : map_Forall outbox_typed (outbox d);
  ty_profile : ∀ r, profile d = Some r → profile_typed r
}.

Definition tables_inv (w : SW) : Prop := typed (db w).

Lemma typed_empty : typed empty_DB.
Proof. split; try apply map_Forall_empty. done. Qed.

(** Statements that write one table. *)
Lemma typed_insert_chat k r d : chat_typed k r → typed d → typed (set_chats (<[k := r]>) d).
Proof. intros Hr []. by split; [apply map_Forall_insert_2|..]. Qed.
Lemma typed_delete_chat k d : typed d → typed (set_chats (delete k) d).
Proof. intros []. by split; [apply map_Forall_delete|..]. Qed.
Lemma typed_insert_peer p d :
  typed d → typed (set_known_peers (<[Key_String (KnownPeerStore.PubKey p) := KnownPeerStore.peer_to_row p]>) d).
Proof. intros []. split; [done|apply map_Forall_insert_2; [by exists p|done]|done..]. Qed.
Lemma typed_insert_file k r d : file_typed k r → typed d → typed (set_files (<[k := r]>) d).
Proof. intros Hr []. by split; [..|apply map_Forall_insert_2| | |]. Qed.
Lemma typed_delete_file k d : typed d → typed (set_files (delete k) d).
Proof. intros []. by split; [..|apply map_Forall_delete| | |]. Qed.
Lemma typed_insert_search id r d : typed d → typed (set_chat_search (<[uuid_String id := r]>) d).
Proof. intros []. split; try done. apply map_Forall_insert_2; [by exists id|done]. Qed.
Lemma typed_delete_search k d : typed d → typed (set_chat_search (delete k) d).
Proof. intros []. split; try done. by apply map_Forall_delete. Qed.
Lemma typed_insert_outbox k r d : outbox_typed k r → typed d → typed (set_outbox (<[k := r]>) d).
Proof. intros Hr []. split; try done. by apply map_Forall_insert_2. Qed.
Lemma typed_delete_outbox k d : typed d → typed (set_outbox (delete k) d).
Proof. intros []. split; try done. by apply map_Forall_delete. Qed.
Lemma typed_retry k d : typed d → typed (set_outbox (alter OutboxStore.inc_retry k) d).
Proof.
  intros []. split; try done. cbn. intros k' r' Hr'. destruct (decide (k = k')) as [<-|Hne].
  - rewrite lookup_alter_eq in Hr'. apply fmap_Some in Hr' as (r & Hr & ->).
    destruct (ty_outbox0 _ _ Hr) as (H1 & H2 & H3 & H4 & H5 & H6 & H7).
    repeat (split; [done|]). split; [cbn; lia|done].
  - rewrite lookup_alter_ne in Hr' by done. by apply ty_outbox0.
Qed.
Lemma typed_profile f d :
  typed d → (∀ r, (∀ r', profile d = Some r' → profile_typed r') → f (profile d) = Some r → profile_typed r) →
  typed (set_profile f d).
Proof. intros [] Hf. split; try done. cbn. intros r. by apply Hf. Qed.
End Typed.

#[export] Hint Resolve typed_delete_chat typed_insert_peer typed_delete_file typed_insert_search
  typed_delete_search typed_delete_outbox typed_retry : chat.

(** ** Every operation keeps the types *)

Section Ops.
Context {P : Platform} {E : Env} {PL : PlatformLaws P}.
Variable secret : Key.
Abbreviation keeps m := (preserves (tables_inv secret) m).

Lemma same_tables_inv w w' : db w' = db w → tables_inv secret w → tables_inv secret w'.
Proof. unfold tables_inv. by intros ->. Qed.

(** A call that never writes. *)
Lemma same_typed {A} (m : M SW A) : (∀ w, wp m (λ _ w', same w w') w) → keeps m.
Proof. intros Hm w. destruct (Hm w) as [Hd _]. by apply same_tables_inv. Qed.

Lemma next_typed : keeps next.
Proof. by intros w. Qed.
Hint Resolve next_typed : chat.

Lemma db_exec_typed f : (∀ d, typed secret d → typed secret (f d)) → keeps (db_exec f).
Proof.
  intros Hf. unfold db_exec. apply preserves_bind; [auto with chat|]. intros t.
  case_match; [auto with chat|]. apply preserves_modify. intros w. apply Hf.
Qed.
Hint Extern 1 (preserves _ (db_exec _)) => apply db_exec_typed; solve [auto with chat] : chat.

Lemma db_query_typed {A} (q : DB → A) : keeps (db_query q).
Proof. unfold db_query. preserve. Qed.
Hint Resolve db_query_typed : chat.
Lemma time_Now_typed : keeps time_Now.
Proof. unfold time_Now. preserve. Qed.
Lemma uuid_New_typed : keeps uuid_New.
Proof. unfold uuid_New. preserve. Qed.
Lemma cache_Set_typed k v : keeps (cache_Set k v).
Proof. by apply preserves_modify. Qed.
Lemma cache_Delete_typed k : keeps (cache_Delete k).
Proof. by apply preserves_modify. Qed.
Lemma cache_Get_typed k : keeps (cache_Get k).
Proof. unfold cache_Get. preserve. Qed.
Hint Resolve time_Now_typed uuid_New_typed cache_Set_typed cache_Delete_typed cache_Get_typed : chat.

(** A ciphertext made under the private key opens under it. *)
Lemma with_encrypted {A} p (f : bytes → M SW A) ctx :
  (∀ c, decryptRaw secret c = Ret p → keeps (f c)) → keeps (wrapping ctx (encryptRaw secret p) ≫= f).
Proof.
  intros Hf w Hw. rewrite bind_run. unfold wrapping.
  pose proof (encryptRaw_wp secret p w) as He. unfold wp in He.
  destruct (encryptRaw secret p w) as [[c|e|q] w1]; destruct He as [[Hd _] He]; cbn in *.
  - apply Hf; [done|]. by apply (same_tables_inv w).
  - by apply (same_tables_inv w).
  - done.
Qed.
Lemma with_encrypted_text {A} p (f : gostring → M SW A) ctx :
  (∀ c, decrypt secret c = Ret p → keeps (f c)) → keeps (wrapping ctx (encrypt secret p) ≫= f).
Proof.
  intros Hf w Hw. rewrite bind_run. unfold wrapping.
  pose proof (encrypt_wp secret p w) as He. unfold wp in He.
  destruct (encrypt secret p w) as [[c|e|q] w1]; destruct He as [[Hd _] He]; cbn in *.
  - apply Hf; [done|]. by apply (same_tables_inv w).
  - by apply (same_tables_inv w).
  - done.
Qed.

(** Reading the clock stamps. *)
Lemma with_now {A} (f : Z → M SW A) : (∀ t, keeps (f (env_now t))) → keeps (time_Now ≫= f).
Proof. intros Hf w Hw. rewrite bind_run. cbn. by apply Hf. Qed.

Lemma ChatPut_typed id v : keeps (ChatStore.PutWithID id v secret).
Proof.
  unfold ChatStore.PutWithID. apply with_encrypted_text. intros c Hc. apply with_now. intros t.
  apply preserves_bind; [|preserve]. apply preserves_wrapping, db_exec_typed. intros d.
  apply typed_insert_chat. split; [by exists id|]. split; [by exists t|by exists v].
Qed.
Lemma ChatGet_typed k id : keeps (ChatStore.Get id k).
Proof. unfold ChatStore.Get. preserve. Qed.
Hint Resolve ChatPut_typed ChatGet_typed : chat.
Lemma ChatUpdate_typed id v : keeps (ChatStore.Update id v secret).
Proof. unfold ChatStore.Update. preserve. Qed.
Lemma ChatDelete_typed id : keeps (ChatStore.Delete id).
Proof. unfold ChatStore.Delete, ChatStore.deleteSearchIndex. preserve. Qed.
Lemma ChatList_typed : keeps ChatStore.List.
Proof. unfold ChatStore.List. preserve. Qed.
Lemma ChatSearch_typed q l : keeps (ChatStore.Search q l).
Proof. unfold ChatStore.Search. preserve. Qed.
Hint Resolve ChatUpdate_typed ChatDelete_typed ChatSearch_typed : chat.

Lemma PeerAdd_typed p : keeps (KnownPeerStore.Add p).
Proof. unfold KnownPeerStore.Add. preserve. Qed.
Lemma PeerGet_typed k : keeps (KnownPeerStore.Get k).
Proof. unfold KnownPeerStore.Get. preserve. Qed.
Lemma PeerList_typed : keeps KnownPeerStore.List.
Proof. unfold KnownPeerStore.List. preserve. Qed.

Lemma FilePut_typed id m data : keeps (FileStore.PutWithID secret id m data).
Proof.
  unfold FileStore.PutWithID. apply with_encrypted. intros c Hc. apply with_now. intros t.
  apply preserves_wrapping, db_exec_typed. intros d. apply typed_insert_file.
  split; [by exists id|]. split; [by exists t|by exists data].
Qed.
Lemma FileGet_typed k id : keeps (FileStore.Get k id).
Proof. unfold FileStore.Get. preserve. Qed.
Lemma FileDelete_typed id : keeps (FileStore.Delete id).
Proof. unfold FileStore.Delete. preserve. Qed.
Hint Resolve FilePut_typed FileGet_typed FileDelete_typed : chat.

Lemma db_exec_opt_typed f :
  (∀ d d', f d = Some d' → typed secret d → typed secret d') → keeps (db_exec_opt f).
Proof.
  intros Hf w Hw. unfold db_exec_opt. rewrite bind_run. cbn.
  destruct (env_db (tick w)); [done|]. cbn. rewrite bind_run. cbn.
  destruct (f (db w)) eqn:Ef; cbn; [by eapply Hf|done].
Qed.

Lemma put_row_typed id target raw enc t :
  decryptRaw secret enc = Ret raw → outbox_typed secret (uuid_String id) (put_row target raw enc (env_now t)).
Proof.
  intros He. split; [by exists id|]. split; [by exists target|]. split; [by eexists|].
  split; [by eexists|]. split; [by exists t|]. split; [done|by exists raw].
Qed.

Lemma OutboxPut_typed t raw : keeps (OutboxStore.Put t raw secret).
Proof.
  unfold OutboxStore.Put. apply with_encrypted. intros c Hc. cbv zeta.
  apply preserves_bind; [auto with chat|]. intros id. apply with_now. intros n.
  apply preserves_bind; [|preserve]. apply preserves_wrapping, db_exec_opt_typed. intros d d'.
  case_match; [done|]. intros [= <-]. apply typed_insert_outbox. by apply put_row_typed.
Qed.
Lemma OutboxGet_typed t k : keeps (OutboxStore.Get t k).
Proof. unfold OutboxStore.Get. preserve. Qed.
Lemma OutboxList_typed : keeps OutboxStore.List.
Proof. unfold OutboxStore.List. preserve. Qed.
Lemma OutboxDelete_typed id : keeps (OutboxStore.Delete id).
Proof. unfold OutboxStore.Delete. preserve. Qed.
Lemma OutboxRetry_typed id : keeps (OutboxStore.IncrementRetry id).
Proof. unfold OutboxStore.IncrementRetry. preserve. Qed.

Lemma ProfileGet_typed : keeps ProfileStore.Get.
Proof. unfold ProfileStore.Get. preserve. Qed.
Lemma ProfileUpdate_typed n id : keeps (ProfileStore.Update n id).
Proof.
  unfold ProfileStore.Update. apply preserves_bind; [|intros _; cbv zeta]; apply preserves_ignore || apply preserves_wrapping;
    apply db_exec_typed; intros d Hd; apply typed_profile; try done; intros r Hp.
  - destruct (profile d); intros [= <-]; [by apply Hp|by left].
  - destruct (profile d); [|done]. intros [= <-]. unfold profile_typed. cbn.
    case_bool_decide; [by left|right; by exists id].
Qed.

(** The message store. *)
Lemma MsgGet_typed id : keeps (msgstore.Get secret id).
Proof. unfold msgstore.Get, msgstore.loadPlain, ChatStore.CacheLoad, ChatStore.CacheStore. preserve. Qed.
Hint Resolve MsgGet_typed : chat.
Lemma indexAndCache_typed id n m p : keeps (msgstore.indexAndCache id n m p).
Proof. unfold msgstore.indexAndCache, ChatStore.IndexSearch, ChatStore.CacheStore. preserve. Qed.
Hint Resolve indexAndCache_typed : chat.
Lemma MsgPut_typed n m : keeps (msgstore.Put secret n m).
Proof. unfold msgstore.Put. preserve. Qed.
Lemma MsgUpdate_typed id n m : keeps (msgstore.Update secret id n m).
Proof. unfold msgstore.Update. preserve. Qed.
Lemma MsgDelete_typed id : keeps (msgstore.Delete secret id).
Proof. unfold msgstore.Delete, msgstore.loadPlain, ChatStore.CacheLoad, ChatStore.CacheStore. preserve. Qed.
Lemma load_found_typed ids : keeps (msgstore.load_found secret ids).
Proof. induction ids as [|k ids IH]; cbn [msgstore.load_found]; preserve. Qed.
Hint Resolve load_found_typed : chat.
Lemma MsgSearch_typed q l : keeps (msgstore.Search secret q l).
Proof. unfold msgstore.Search. preserve. Qed.
Lemma MsgAttachments_typed i l : keeps (msgstore.StoreAttachments secret i l).
Proof. induction l as [|a l IH]; cbn [msgstore.StoreAttachments]; preserve. Qed.
End Ops.

#[export] Hint Resolve next_typed db_query_typed time_Now_typed uuid_New_typed
  PeerAdd_typed PeerGet_typed PeerList_typed FilePut_typed FileGet_typed FileDelete_typed
  OutboxPut_typed OutboxGet_typed OutboxList_typed OutboxDelete_typed OutboxRetry_typed ProfileGet_typed
  ProfileUpdate_typed MsgPut_typed MsgGet_typed MsgUpdate_typed MsgDelete_typed MsgSearch_typed
  MsgAttachments_typed ChatList_typed : chat.

(** ** A typed table scans *)

Section Scan.
Context {P : Platform} {E : Env} {PL : PlatformLaws P}.
Variable secret : Key.

(** Every row of every table reads back, under the key it is filed with. *)
Record scans (d : DB) : Prop := {
  sc_chats : map_Forall (λ k r, ∃ s, ChatStore.scan_chat (k, r) = Ret s ∧ k = uuid_String (ChatStore.cs_ID s) ∧
    is_Some (plain_at secret d k)) (chats d);
  sc_peers : map_Forall (λ k r, ∃ p, KnownPeerStore.scan_peer (k, r) = Ret p ∧
    k = Key_String (KnownPeerStore.PubKey p)) (known_peers d);
  sc_files : map_Forall (λ k _, is_Some (file_view secret d k)) (files d);
  sc_search : map_Forall (λ k _, ∃ id, uuid_Parse k = Some id ∧ k = uuid_String id) (chat_search d);
  sc_outbox : outbox_inv secret d;
  sc_profile : ∀ r, profile d = Some r → is_Some (uuid_Scan (pf_profile_pic r))
}.

Lemma parse_stamped s : clock_ok (E:=E) → stamped s → ∃ t, Parse_RFC3339 s = Some t.
Proof. intros Hc [t ->]. eexists. apply parse_format, Hc. Qed.

Lemma chat_scans k r : clock_ok (E:=E) → chat_typed secret k r →
  ∃ s, ChatStore.scan_chat (k, r) = Ret s ∧ k = uuid_String (ChatStore.cs_ID s).
Proof.
  intros Hc ([u ->] & Ht & _). destruct (parse_stamped _ Hc Ht) as [t Et].
  exists (ChatStore.MkSummary u t). unfold ChatStore.scan_chat. cbn. by rewrite uuid_parse_string, Et.
Qed.

Lemma outbox_scans k r : clock_ok (E:=E) → outbox_typed secret k r →
  ∃ e, OutboxStore.scan_get secret (k, r) = Ret e ∧ uuid_String (OutboxStore.ob_ID e) = k.
Proof.
  intros Hc ([u ->] & [pk Hpk] & [fk Hfk] & [s Hs] & Ht & _ & v & Hv).
  destruct (parse_stamped _ Hc Ht) as [t Et]. unfold OutboxStore.scan_get, OutboxStore.scan_entry.
  cbn -[wrap_err]. rewrite Hpk, Hfk, Hs, !uuid_Scan_string, !FromHex_String, Et. cbn. rewrite Hv. cbn. eauto.
Qed.

Lemma typed_scans d : clock_ok (E:=E) → typed secret d → scans d.
Proof.
  intros Hc []. split.
  - intros k r Hr. destruct (chat_scans k r Hc (ty_chats0 k r Hr)) as (s & Hs & Hk). exists s.
    split; [done|]. split; [done|]. destruct (ty_chats0 k r Hr) as (_ & _ & v & Hv).
    exists v. unfold plain_at. by rewrite Hr, Hv.
  - intros k r Hr. destruct (ty_peers0 k r Hr) as (p & -> & ->). exists (kept p). by rewrite scan_peer_row.
  - intros k r Hr. destruct (ty_files0 k r Hr) as (_ & _ & v & Hv). exists v. unfold file_view. rewrite Hr. cbn. by rewrite Hv.
  - intros k r Hr. destruct (ty_search0 k r Hr) as [u ->]. exists u. by rewrite uuid_parse_string.
  - intros k r Hr. split; [by apply outbox_scans, ty_outbox0|].
    destruct (ty_outbox0 k r Hr) as (_ & _ & _ & _ & [t ->] & _). exists (env_now t). split; [apply Hc|done].
  - intros r Hr. destruct (ty_profile0 r Hr) as [->|[u ->]]; [by eexists|]. rewrite uuid_Scan_string. by eexists.
Qed.

(** A list of all the rows of a table that scan has one entry per row. *)
Lemma scan_table {V A : Type} (t : gmap gostring V) (f : gostring * V → outcome A) rows :
  rows ≡ₚ map_to_list t → map_Forall (λ k r, ∃ a, f (k, r) = Ret a) t →
  ∃ l, scan_rows f rows = Ret l ∧ length l = size t.
Proof.
  intros Hp Hf. destruct (scan_rows_ret f rows) as (l & Hl & Hall).
  { apply Forall_forall. intros [k r] Hin. rewrite Hp in Hin. apply elem_of_map_to_list in Hin. by apply Hf. }
  exists l. split; [done|]. by rewrite <-(Forall2_length _ _ _ Hall), Hp, length_map_to_list.
Qed.

Definition reads_all {A V : Type} (m : M SW (list A)) (t : DB → gmap gostring V) (d : DB) : Prop :=
  ∀ w, db w = d → ∃ l, (m w).1 = Ret l ∧ length l = size (t d).

(** Without faults every listing of a table that scans succeeds and has one
    entry per row: no row hides the others. *)
Lemma scans_lists d :
  no_faults E → scans d →
  reads_all ChatStore.List chats d ∧ reads_all KnownPeerStore.List known_peers d ∧
  reads_all OutboxStore.List outbox d ∧ ∀ w, db w = d → ∃ p, (ProfileStore.Get w).1 = Ret p.
Proof.
  intros [Hn _] [Hch Hpe Hfi Hse Hob Hpr]. repeat split.
  all: intros w <-; unfold ChatStore.List, KnownPeerStore.List, OutboxStore.List, ProfileStore.Get,
    db_query, wrapping, next; rewrite bind_run; cbn; rewrite ?bind_run, Hn; cbn.
  - apply scan_table; [by rewrite merge_sort_Permutation, sql_scan_perm|]. intros k r Hr. destruct (Hch k r Hr) as (s & Hs & _). eauto.
  - destruct (scan_table (known_peers (db w)) KnownPeerStore.scan_peer (sql_scan (known_peers (db w)))) as (l & -> & Hl); [by rewrite sql_scan_perm| |by eauto].
    intros k r Hr. destruct (Hpe k r Hr) as (s & Hs & _). eauto.
  - apply scan_table; [by rewrite merge_sort_Permutation, sql_scan_perm|]. intros k r Hr. destruct (Hob k r Hr) as [(e & He & _) _].
    unfold OutboxStore.scan_get in He. destruct (OutboxStore.scan_entry [] (k, r)); [eauto|done..].
  - destruct (profile (db w)) as [r|] eqn:Er; [|by eauto]. destruct (Hpr r eq_refl) as [u Hu].
    rewrite bind_run. unfold wrapping, lift, scan_opt. rewrite Hu. cbn. eauto.
Qed.
End Scan.
