(* ===== verification/Session.v ===== *)
(** * Sessions (client/session.go)

    The websocket connection of a session, the authenticated key exchange, and
    the encrypted channel it sets up. A session's [encrypt] and [decrypt] are
    here the sequential code of one call; how concurrent calls interleave is in
    [SendRace]. Deadlines have no effect on the state: a read or write that
    times out is a failure of the network, chosen by [Env]. *)

From S2P Require Import Prelude Config Crypto Keys Signal Wire RateLimit Monad Platform Store.

(** A [*websocket.Conn]: the frames still to be read, those written (oldest
    first), whether it was closed, and the read limit (0: none). *)
Record Conn := MkConn { c_in : list bytes; c_out : list bytes; c_closed : bool; c_limit : Z }.

Record peerInfo := MkPeerInfo { pi_name : gostring; ephemeralKey : Key; staticPubKey : Key }.

(** [key] is [nil] before the handshake and after [closeConn]. *)
Record cipherState := MkCipher { cs_key : option bytes; cs_nonce : Z }.

Record Session := MkSession {
  s_conn : option Conn;
  ourName : gostring;
  ourStatic : Key;
  ourKeys : Keys;
  sendr : cipherState;
  recv : cipherState;
  s_peer : peerInfo;
  s_timeout : Z;
  s_stat : gostring;
  s_limiter : msgLimiter
}.

Definition set_conn c s := MkSession c (ourName s) (ourStatic s) (ourKeys s) (sendr s) (recv s) (s_peer s) (s_timeout s) (s_stat s) (s_limiter s).
Definition set_sendr c s := MkSession (s_conn s) (ourName s) (ourStatic s) (ourKeys s) c (recv s) (s_peer s) (s_timeout s) (s_stat s) (s_limiter s).
Definition set_recv c s := MkSession (s_conn s) (ourName s) (ourStatic s) (ourKeys s) (sendr s) c (s_peer s) (s_timeout s) (s_stat s) (s_limiter s).
Definition set_peer p s := MkSession (s_conn s) (ourName s) (ourStatic s) (ourKeys s) (sendr s) (recv s) p (s_timeout s) (s_stat s) (s_limiter s).
Definition setStatus st s := MkSession (s_conn s) (ourName s) (ourStatic s) (ourKeys s) (sendr s) (recv s) (s_peer s) (s_timeout s) st (s_limiter s).
Definition set_limiter l s := MkSession (s_conn s) (ourName s) (ourStatic s) (ourKeys s) (sendr s) (recv s) (s_peer s) (s_timeout s) (s_stat s) l.

Definition zero_peer : peerInfo := MkPeerInfo [] NilKey NilKey.
Definition zero_cipher : cipherState := MkCipher None 0.

Definition newSession (conn : Conn) (name : gostring) (k : Keys) (timeout rateLimit rateWindow now : Z) : Session :=
  MkSession (Some conn) name (Public k) k zero_cipher zero_cipher zero_peer timeout []
    (newMsgLimiter rateLimit rateWindow now).

Definition peerPubKey (s : Session) : Key :=
  if bool_decide (staticPubKey (s_peer s) ≠ NilKey) then staticPubKey (s_peer s)
  else ephemeralKey (s_peer s).
Definition peerName (s : Session) : gostring := pi_name (s_peer s).
Definition status (s : Session) : gostring := s_stat s.

(** ** The encrypted channel *)

Section Channel.
Context {C : Crypto}.

(** [cipher.NewGCM] does not fail on a block cipher of 16-byte blocks. *)
Definition aesGCM (key : bytes) : outcome bytes := wrap_err "session: new cipher" (aes_NewCipher key).

Definition encrypt (plain : bytes) : M Session bytes :=
  s ← get_state;
  match cs_key (sendr s) with
  | None => throw (ENew "session: no key established")
  | Some key =>
      nonce ← lift (put_uint_at 8 (zeros (Z.to_nat NonceSize)) 0 (cs_nonce (sendr s)));
      modify (set_sendr (MkCipher (Some key) (wrapu64 (cs_nonce (sendr s) + 1))));;
      gcm ← lift (aesGCM key);
      let ciphertext := gcm_Seal gcm nonce plain in
      lift (out ← copy_at (zeros (Z.to_nat NonceSize + length ciphertext)) 0 nonce;
            copy_at out NonceSize ciphertext)
  end.

Definition decrypt (data : bytes) : M Session bytes :=
  if (len data <? NonceSize)%Z then throw (ENew "session: data too short") else
  s ← get_state;
  match cs_key (recv s) with
  | None => throw (ENew "session: no key established")
  | Some key =>
      expectedNonce ← lift (put_uint_at 8 (zeros (Z.to_nat NonceSize)) 0 (cs_nonce (recv s)));
      nonce ← lift (slice data 0 NonceSize);
      ciphertext ← lift (slice_from data NonceSize);
      got ← lift (uint_at 8 nonce 0);
      want ← lift (uint_at 8 expectedNonce 0);
      if negb (got =? want)%Z
      then throw (ENew "session: nonce mismatch — possible replay or out-of-order delivery") else
      gcm ← lift (aesGCM key);
      match gcm_Open gcm nonce ciphertext with
      | None => throw (EWrap "session: decrypt" (EExternal "cipher: message authentication failed"))
      | Some plain =>
          modify (λ s, set_recv (MkCipher (cs_key (recv s)) (wrapu64 (cs_nonce (recv s) + 1))) s);;
          mret plain
      end
  end.

Definition deriveKeys (shared : bytes) (initiator : bool) (peer : keyExchangeData) : M Session unit :=
  let sendKey := sha256_Sum (lit "session:send" ++ shared) in
  let recvKey := sha256_Sum (lit "session:recv" ++ shared) in
  modify (λ s,
    let s := if initiator
             then set_recv (MkCipher (Some recvKey) 0) (set_sendr (MkCipher (Some sendKey) 0) s)
             else set_recv (MkCipher (Some sendKey) 0) (set_sendr (MkCipher (Some recvKey) 0) s) in
    set_peer (MkPeerInfo (kx_ClientName peer) (kx_PubKey peer) (kx_StaticPubKey peer)) s).

Definition verifyPeer (s : Session) (peer : keyExchangeData) : outcome unit :=
  if bool_decide (kx_StaticPubKey peer = NilKey)
  then Err (ENew "session: peer sent no static public key") else
  if bool_decide (kx_StaticPubKey peer = ourStatic s)
  then Err (ENew "session: cannot connect to self") else
  if negb (Verify (kx_StaticPubKey peer) (vec_to_list (kx_PubKey peer)) (kx_Signature peer))
  then Err (ENew "session: peer signature verification failed — possible MitM") else
  Ret tt.
End Channel.

(** ** The connection *)

(** A session and the environment its calls consult. *)
Record SS := MkSS { ss_sess : Session; ss_world : SW }.
Definition upd_sess (f : Session → Session) (x : SS) : SS := MkSS (f (ss_sess x)) (ss_world x).

Section Net.
Context {P : Platform} {E : Env}.

Definition on_sess {A} (m : M Session A) : M SS A :=
  zoom ss_sess (λ s x, MkSS s (ss_world x)) m.
Definition on_world {A} (m : M SW A) : M SS A :=
  zoom ss_world (λ w x, MkSS (ss_sess x) w) m.

(** A call on the connection, which the network may fail. *)
Definition net_call : M SS unit :=
  t ← on_world next;
  match env_net t with Some what => throw (EExternal what) | None => mret tt end.

(** [s.conn], dereferenced. *)
Definition the_conn : M SS Conn :=
  x ← get_state;
  match s_conn (ss_sess x) with
  | Some c => mret c
  | None => panic "invalid memory address or nil pointer dereference"
  end.

Definition SetWriteDeadline : M SS unit := the_conn;; net_call.
Definition SetReadDeadline : M SS unit := the_conn;; net_call.

Definition WriteMessage (frame : bytes) : M SS unit :=
  c ← the_conn;
  net_call;;
  if c_closed c then throw (EExternal "websocket: close sent")
  else modify (upd_sess (set_conn (Some (MkConn (c_in c) (c_out c ++ [frame]) (c_closed c) (c_limit c))))).

(** A control frame (ping, pong): no data. *)
Definition WriteControl : M SS unit :=
  c ← the_conn;
  net_call;;
  if c_closed c then throw (EExternal "websocket: close sent") else mret tt.

Definition ReadMessage : M SS bytes :=
  c ← the_conn;
  net_call;;
  if c_closed c then throw (EExternal "use of closed network connection") else
  match c_in c with
  | [] => throw EEOF
  | f :: rest =>
      modify (upd_sess (set_conn (Some (MkConn rest (c_out c) (c_closed c) (c_limit c)))));;
      if ((0 <? c_limit c) && (c_limit c <? len f))%Z
      then throw (EExternal "websocket: read limit exceeded") else mret f
  end.

Definition send (plain : bytes) : M SS unit :=
  enc ← on_sess (encrypt plain);
  x ← get_state;
  match s_conn (ss_sess x) with
  | None => throw (ENew "session: connection closed")
  | Some _ =>
      wrapping "session: set write deadline" SetWriteDeadline;;
      wrapping "session: write" (WriteMessage enc)
  end.

(** [conn.Close()] *)
Definition Close : M SS unit :=
  c ← the_conn;
  modify (upd_sess (set_conn (Some (MkConn (c_in c) (c_out c) true (c_limit c)))));;
  net_call.

Definition closeConn : M SS unit :=
  on_sess (modify (λ s, set_recv (MkCipher None (cs_nonce (recv s)))
    (set_sendr (MkCipher None (cs_nonce (sendr s))) s)));;
  wrapping "session: close" Close.

(** ** The key exchange *)

Definition doSend (ourEphemeral : Key) (sig : bytes) : M SS unit :=
  x ← get_state;
  let s := ss_sess x in
  inner ← lift (encodeKeyExchange (MkKeyExchange ourEphemeral (ourStatic s) (ourName s) sig));
  payload ← wrapping "session: signal" (lift (signal.New signal.KeyExchange (ourStatic s) NilUUID inner));
  ignore SetWriteDeadline;;
  wrapping "session: write" (WriteMessage payload).

Definition doRecv : M SS keyExchangeData :=
  ignore SetReadDeadline;;
  r ← attempt ReadMessage;
  ignore SetReadDeadline;;
  match r with
  | inr e => throw (EWrap "session: read peer key" e)
  | inl raw =>
      sig ← wrapping "session: parse signal" (lift (signal.Parse raw));
      if negb (bool_decide (signal.Type' sig = signal.KeyExchange))
      then throw (EFmt "session: expected key_exchange, got %s" []) else
      data ← wrapping "session: decode key exchange" (lift (decodeKeyExchange (signal.Content sig)));
      mret (if bool_decide (signal.From sig ≠ NilKey)
            then MkKeyExchange (kx_PubKey data) (signal.From sig) (kx_ClientName data) (kx_Signature data)
            else data)
  end.

(** [curve.GenerateKey(rand.Reader)]: the private scalar. *)
Definition GenerateKey : M SS bytes :=
  t ← on_world next;
  match env_ecdh t with
  | Some k => mret (vec_to_list k)
  | None => throw (EExternal "rand")
  end.

(** [curve.NewPublicKey] of 32 bytes does not fail; [ECDH] fails on a point of
    low order. *)
Definition ECDH (priv : bytes) (pub : Key) : outcome bytes :=
  match x25519_ECDH priv (vec_to_list pub) with
  | Some shared => Ret shared
  | None => Err (EExternal "crypto/ecdh: bad X25519 remote ECDH input: low order point")
  end.

Definition handshake (initiator : bool) : M SS unit :=
  ourKey ← wrapping "session: generate key" GenerateKey;
  let ourEphemeral := array_of 32 (x25519_Public ourKey) in
  x ← get_state;
  let sig := Sign (ourKeys (ss_sess x)) (vec_to_list ourEphemeral) in
  peer ← (if initiator
          then doSend ourEphemeral sig;; doRecv
          else peer ← doRecv; doSend ourEphemeral sig;; mret peer);
  x ← get_state;
  lift (verifyPeer (ss_sess x) peer);;
  shared ← wrapping "session: derive shared secret" (lift (ECDH ourKey (kx_PubKey peer)));
  on_sess (deriveKeys shared initiator peer).

End Net.
