(* ===== verification/SessionFacts.v ===== *)
(** * Facts about the encrypted channel (client/session.go)

    What one frame looks like, what [decrypt] accepts, and how two linked
    sessions deliver a stream of messages. *)

From S2P Require Import Prelude Config Crypto Keys Signal Wire RateLimit Monad Platform Store Session.

Section Channel.
Context {C : Crypto} {CL : CryptoLaws C}.

(** ** Frames *)

Definition nonce12 (n : Z) : bytes := be_put 8 n ++ zeros 4.
Definition sealed (key : bytes) (n : Z) (plain : bytes) : bytes :=
  nonce12 n ++ gcm_Seal key (nonce12 n) plain.

Definition u64 (n : Z) : Prop := (0 <= n < 2 ^ 64)%Z.

(** A session whose established keys have the size the cipher takes and whose
    counters are [uint64]s. *)
Definition cipher_wf (c : cipherState) : Prop :=
  u64 (cs_nonce c) ∧ ∀ k, cs_key c = Some k → length k = 32.
Definition session_wf (s : Session) : Prop := cipher_wf (sendr s) ∧ cipher_wf (recv s).

Definition bump (c : cipherState) : cipherState := MkCipher (cs_key c) (wrapu64 (cs_nonce c + 1)).

Lemma u64_wrap z : u64 (wrapu64 z).
Proof. unfold u64, wrapu64. apply Z.mod_pos_bound. lia. Qed.

Lemma wrapu64_small z : u64 z → wrapu64 z = z.
Proof. unfold u64, wrapu64. intros. by apply Z.mod_small. Qed.

Lemma wrapu64_add x y : wrapu64 (wrapu64 x + y) = wrapu64 (x + y).
Proof. unfold wrapu64. apply Zplus_mod_idemp_l. Qed.

Lemma len_nonce12 n : len (nonce12 n) = 12%Z.
Proof. unfold nonce12. solve_len. Qed.

Lemma put_nonce n : put_uint_at 8 (zeros (Z.to_nat NonceSize)) 0 n = Ret (nonce12 n).
Proof.
  change (zeros (Z.to_nat NonceSize)) with ([] ++ zeros 12). rewrite put_uint_at_zeros by (done || lia).
  done.
Qed.

Lemma assemble_frame nonce ct :
  len nonce = 12%Z →
  (out ← copy_at (zeros (Z.to_nat NonceSize + length ct)) 0 nonce; copy_at out NonceSize ct)
    = Ret (nonce ++ ct).
Proof.
  intros Hn. assert (length nonce = 12) as Hl by (unfold len in Hn; lia).
  change (zeros (Z.to_nat NonceSize + length ct)) with ([] ++ zeros (12 + length ct)).
  rewrite copy_at_zeros by (done || lia). cbn [mbind outcome_bind app].
  rewrite copy_at_zeros by (done || lia || (rewrite Hl; lia)).
  rewrite Hl. replace (12 + length ct - 12 - length ct) with 0 by lia. by rewrite app_nil_r.
Qed.

Lemma aesGCM_32 k : length k = 32 → aesGCM k = Ret k.
Proof. intros. unfold aesGCM. by rewrite aes_NewCipher_32. Qed.

Lemma encrypt_run plain s key :
  cipher_wf (sendr s) → cs_key (sendr s) = Some key →
  encrypt plain s = (Ret (sealed key (cs_nonce (sendr s)) plain), set_sendr (bump (sendr s)) s).
Proof.
  intros [Hn Hk] Ek. unfold encrypt, get_state. rewrite bind_run. cbn. rewrite Ek. rewrite put_nonce.
  rewrite bind_run. cbn. rewrite bind_run. cbn. rewrite bind_run. unfold lift.
  rewrite aesGCM_32 by auto. cbn. rewrite assemble_frame by apply len_nonce12. unfold bump. by rewrite Ek.
Qed.

Lemma encrypt_no_key plain s :
  cs_key (sendr s) = None → encrypt plain s = (Err (ENew "session: no key established"), s).
Proof. intros Ek. unfold encrypt, get_state. rewrite bind_run. cbn. by rewrite Ek. Qed.

(** ** What [decrypt] does, in one equation *)

Definition mismatch : error :=
  ENew "session: nonce mismatch — possible replay or out-of-order delivery".

Lemma get_nonce data : (12 <= len data)%Z →
  ∃ nonce ct, data = nonce ++ ct ∧ len nonce = 12%Z ∧
    slice data 0 NonceSize = Ret nonce ∧ slice_from data NonceSize = Ret ct.
Proof.
  intros Hl. exists (take 12 data), (drop 12 data). unfold NonceSize.
  assert (len (take 12 data) = 12%Z) as Hn by (unfold len in *; rewrite length_take; lia).
  split; [by rewrite take_drop|]. split; [done|]. rewrite <-(take_drop 12 data) at 1 3. split.
  - by apply slice_prefix.
  - by apply slice_from_app.
Qed.

Lemma uint8_prefix x y : len x = 8%Z → uint_at 8 (x ++ y) 0 = Ret (be_get x).
Proof.
  intros Hx. unfold uint_at. rewrite (slice_from_app [] (x ++ y)) by done. cbn [mbind outcome_bind].
  assert (length x = 8) as Hl by (unfold len in Hx; lia).
  rewrite decide_True by (rewrite length_app; lia).
  by rewrite take_app_le, take_ge by lia.
Qed.

Lemma be_put8_small n : u64 n → be_get (be_put 8 n) = n.
Proof. intros Hn. apply be_get_put_small. exact Hn. Qed.

Lemma decrypt_frame n8 n4 ct s key :
  len n8 = 8%Z → len n4 = 4%Z → cipher_wf (recv s) → cs_key (recv s) = Some key →
  decrypt (n8 ++ n4 ++ ct) s =
    if (be_get n8 =? cs_nonce (recv s))%Z
    then match gcm_Open key (n8 ++ n4) ct with
         | Some plain => (Ret plain, set_recv (bump (recv s)) s)
         | None => (Err (EWrap "session: decrypt" (EExternal "cipher: message authentication failed")), s)
         end
    else (Err mismatch, s).
Proof.
  intros H8 H4 [Hn Hk] Ek. unfold decrypt.
  rewrite (proj2 (Z.ltb_ge _ _)) by (unfold NonceSize; simpl_len; pose proof (len_nonneg ct); lia).
  unfold get_state. rewrite bind_run. cbn [fst snd]. rewrite Ek, put_nonce.
  rewrite app_assoc. rewrite slice_prefix by (unfold NonceSize; solve_len).
  rewrite slice_from_app by (unfold NonceSize; solve_len).
  repeat (rewrite bind_run; cbn [lift fst snd]). rewrite (uint8_prefix n8 n4) by done.
  repeat (rewrite bind_run; cbn [lift fst snd]). unfold nonce12. rewrite (uint8_prefix (be_put 8 _) (zeros 4)) by apply len_be_put.
  repeat (rewrite bind_run; cbn [lift fst snd]). rewrite be_put8_small by done.
  destruct (be_get n8 =? cs_nonce (recv s))%Z; cbn [negb]; [|done].
  rewrite bind_run. unfold lift. rewrite aesGCM_32 by auto. cbn [fst snd].
  by destruct (gcm_Open key (n8 ++ n4) ct).
Qed.

Lemma split_frame (data : bytes) : (12 <= len data)%Z →
  ∃ n8 n4 ct, data = n8 ++ n4 ++ ct ∧ len n8 = 8%Z ∧ len n4 = 4%Z.
Proof.
  intros Hl. exists (take 8 data), (take 4 (drop 8 data)), (drop 12 data).
  unfold len in *. rewrite !length_take, length_drop. split; [|lia].
  change 12 with (8 + 4). rewrite <-drop_drop. by rewrite !take_drop.
Qed.

(** Every outcome of [decrypt]: it accepts a frame that carries the expected
    counter and opens under the key, and then counts it; otherwise it reports
    an error and the session is unchanged. It never panics. *)
Lemma decrypt_cases data s :
  cipher_wf (recv s) →
  (∃ e, decrypt data s = (Err e, s)) ∨
  (∃ key n4 plain, cs_key (recv s) = Some key ∧ len n4 = 4%Z ∧
     data = (be_put 8 (cs_nonce (recv s)) ++ n4) ++
              gcm_Seal key (be_put 8 (cs_nonce (recv s)) ++ n4) plain ∧
     decrypt data s = (Ret plain, set_recv (bump (recv s)) s)).
Proof.
  intros Hwf. destruct (Z.lt_ge_cases (len data) 12) as [Hs|Hl].
  { left. unfold decrypt. rewrite (proj2 (Z.ltb_lt _ _)) by done. by eexists. }
  destruct (cs_key (recv s)) as [key|] eqn:Ek.
  2: { left. unfold decrypt. rewrite (proj2 (Z.ltb_ge _ _)) by done. unfold get_state.
       rewrite bind_run. cbn. rewrite Ek. by eexists. }
  destruct (split_frame data Hl) as (n8 & n4 & ct & -> & H8 & H4).
  rewrite (decrypt_frame _ _ _ _ key) by done.
  destruct (Z.eqb_spec (be_get n8) (cs_nonce (recv s))) as [En|]; [|by eauto].
  destruct (gcm_Open key (n8 ++ n4) ct) as [plain|] eqn:Eo; [|by eauto].
  right. exists key, n4, plain. apply gcm_open_inv in Eo. subst ct.
  assert (length n8 = 8) as Hl8 by (unfold len in H8; lia).
  rewrite <-En, <-Hl8, be_put_get, <-app_assoc. done.
Qed.

Lemma sealed_split k n plain :
  sealed k n plain = be_put 8 n ++ zeros 4 ++ gcm_Seal k (nonce12 n) plain.
Proof. unfold sealed, nonce12 at 1. by rewrite <-app_assoc. Qed.

Lemma decrypt_sealed k n plain s :
  cipher_wf (recv s) → cs_key (recv s) = Some k → cs_nonce (recv s) = n →
  decrypt (sealed k n plain) s = (Ret plain, set_recv (bump (recv s)) s).
Proof.
  intros Hwf Hk <-. rewrite sealed_split, (decrypt_frame _ _ _ _ k)
    by first [done|apply len_be_put|apply len_zeros].
  rewrite be_put8_small by apply Hwf. rewrite Z.eqb_refl. fold (nonce12 (cs_nonce (recv s))).
  by rewrite gcm_open_seal.
Qed.

(** A frame with another counter is refused, whatever it holds. *)
Lemma decrypt_sealed_mismatch k k' n plain s :
  cipher_wf (recv s) → cs_key (recv s) = Some k' → u64 n → cs_nonce (recv s) ≠ n →
  decrypt (sealed k n plain) s = (Err mismatch, s).
Proof.
  intros Hwf Hk Hn Hne. rewrite sealed_split, (decrypt_frame _ _ _ _ k')
    by first [done|apply len_be_put|apply len_zeros].
  rewrite be_put8_small by done. rewrite (proj2 (Z.eqb_neq _ _)); [done|]. congruence.
Qed.

Lemma bump_wf c : cipher_wf c → cipher_wf (bump c).
Proof. intros [_ Hk]. split; [apply u64_wrap|done]. Qed.

(** ** Two linked sessions *)

(** What [a] sends next is what [b] expects next. *)
Definition linked (a b : Session) : Prop :=
  sendr a = recv b ∧ cipher_wf (sendr a) ∧ is_Some (cs_key (sendr a)).

Lemma map_each_cons {S A B} (f : A → M S B) x l s :
  map_each f (x :: l) s = (y ← f x; ys ← map_each f l; mret (y :: ys)) s.
Proof. done. Qed.

Lemma encrypt_all plains a :
  cipher_wf (sendr a) → is_Some (cs_key (sendr a)) →
  ∃ frames a', map_each encrypt plains a = (Ret frames, a') ∧
    cipher_wf (sendr a') ∧ cs_key (sendr a') = cs_key (sendr a) ∧ recv a' = recv a ∧
    cs_nonce (sendr a') = wrapu64 (cs_nonce (sendr a) + len plains) ∧
    ∀ key, cs_key (sendr a) = Some key →
      frames = imap (λ i p, sealed key (wrapu64 (cs_nonce (sendr a) + Z.of_nat i)) p) plains.
Proof.
  revert a. induction plains as [|p plains IH]; intros a Hwf [key Hk].
  { exists [], a. change (len (@nil bytes)) with 0%Z. rewrite Z.add_0_r, wrapu64_small by apply Hwf. auto 10. }
  destruct (IH (set_sendr (bump (sendr a)) a)) as (fr & a' & Hr & Hwf' & Hk' & Hrv & Hn & Hf).
  { by apply bump_wf. }
  { by exists key. }
  cbn [map_each]. rewrite bind_run, (encrypt_run _ _ key) by done. rewrite bind_run, Hr.
  eexists _, a'. split; [reflexivity|]. split; [done|]. split; [done|]. split; [done|]. split.
  - rewrite Hn. cbn. rewrite len_cons, wrapu64_add. f_equal. lia.
  - intros key' Hkey. assert (key' = key) as -> by congruence. rewrite (Hf key Hk). cbn. f_equal.
    + by rewrite Z.add_0_r, wrapu64_small by apply Hwf.
    + apply imap_ext. intros i x _. cbn. f_equal.
      rewrite wrapu64_add. f_equal. lia.
Qed.

(** The receiver's loop ([readLoop]): a frame that does not decrypt is
    dropped, and the loop goes on. *)
Fixpoint receive (wire : list bytes) (b : Session) : list bytes * Session :=
  match wire with
  | [] => ([], b)
  | f :: wire' =>
      match decrypt f b with
      | (Ret p, b') => let '(ps, b'') := receive wire' b' in (p :: ps, b'')
      | (_, b') => receive wire' b'
      end
  end.

(** A counter [j] frames after [n] is not the counter [i] frames after [n]. *)
Lemma wrapu64_ne n i j :
  (0 <= i < 2 ^ 64)%Z → (0 <= j < 2 ^ 64)%Z → i ≠ j → wrapu64 (n + i) ≠ wrapu64 (n + j).
Proof.
  unfold wrapu64. intros Hi Hj Hne H. apply Hne.
  assert ((n + i - (n + j)) mod 2 ^ 64 = 0)%Z as Hm.
  { rewrite Zminus_mod, H, Z.sub_diag. done. }
  apply Z.mod_divide in Hm as [q Hq]; [|lia]. nia.
Qed.

Lemma lookup_sealed key n plains f :
  f ∈ imap (λ i p, sealed key (wrapu64 (n + Z.of_nat i)) p) plains →
  ∃ i p, plains !! i = Some p ∧ f = sealed key (wrapu64 (n + Z.of_nat i)) p.
Proof.
  intros Hin. apply list_elem_of_lookup in Hin as [i Hi].
  rewrite list_lookup_imap in Hi. destruct (plains !! i) as [p|] eqn:Ep; [|done].
  cbn in Hi. simplify_eq. eauto.
Qed.

Lemma receive_prefix key n plains wire j b :
  (len plains < 2 ^ 64)%Z → cipher_wf (recv b) → cs_key (recv b) = Some key →
  cs_nonce (recv b) = wrapu64 (n + Z.of_nat j) → j ≤ length plains →
  Forall (λ f, f ∈ imap (λ i p, sealed key (wrapu64 (n + Z.of_nat i)) p) plains) wire →
  ∃ m, (receive wire b).1 = take m (drop j plains).
Proof.
  intros Hlen Hwf Hk Hn Hj Hw. revert j b Hwf Hk Hn Hj.
  induction Hw as [|f wire Hf Hw IH]; intros j b Hwf Hk Hn Hj; [by exists 0|].
  apply lookup_sealed in Hf as (i & p & Hp & ->). cbn.
  pose proof (lookup_lt_Some _ _ _ Hp) as Hi. unfold len in Hlen.
  destruct (decide (i = j)) as [->|Hne].
  - rewrite (decrypt_sealed key _ p b) by done.
    destruct (IH (S j) (set_recv (bump (recv b)) b)) as [m Hm]; [by apply bump_wf|done| |lia|].
    { cbn. rewrite Hn. rewrite wrapu64_add. f_equal. lia. }
    destruct (receive wire _) as [ps b'] eqn:Er. cbn in *. exists (S m).
    rewrite (drop_S _ p) by done. cbn. by rewrite Hm.
  - rewrite (decrypt_sealed_mismatch _ key) by
      first [done|apply u64_wrap|rewrite Hn; apply wrapu64_ne; lia].
    by apply IH.
Qed.

Lemma delivers plains a b :
  linked a b →
  ∃ frames a' b', map_each encrypt plains a = (Ret frames, a') ∧
    map_each decrypt frames b = (Ret plains, b') ∧ linked a' b' ∧
    recv a' = recv a ∧ sendr b' = sendr b.
Proof.
  revert a b. induction plains as [|p plains IH]; intros a b (Hl & Hwf & [key Hk]).
  { exists [], a, b. repeat split; try done; try apply Hwf. }
  destruct (IH (set_sendr (bump (sendr a)) a) (set_recv (bump (recv b)) b))
    as (fr & a' & b' & Ha & Hb & Hl' & Hra & Hsb).
  { split; [cbn; by rewrite Hl|]. split; [by apply bump_wf|]. by exists key. }
  exists (sealed key (cs_nonce (sendr a)) p :: fr), a', b'. cbn [map_each].
  rewrite bind_run, (encrypt_run _ _ key) by done. rewrite bind_run, Ha.
  split; [done|]. split; [|done]. rewrite bind_run.
  rewrite (decrypt_sealed key) by (rewrite <-?Hl; done). by rewrite bind_run, Hb.
Qed.
End Channel.

(** ** Theorems *)

Section Theorems.
Context {C : Crypto} {CL : CryptoLaws C}.

(** Two linked sessions deliver: whatever messages are encrypted, in order,
    decrypt on the other side to the same messages, and the sessions are linked
    again, also across the wrap-around of the counter. *)
Theorem channel_delivers (plains : list bytes) (a b : Session) :
  linked a b →
  ∃ frames a' b', map_each encrypt plains a = (Ret frames, a') ∧
    map_each decrypt frames b = (Ret plains, b') ∧ linked a' b' ∧
    recv a' = recv a ∧ sendr b' = sendr b.
Proof. apply delivers. Qed.

(** C12: [decrypt] accepts a frame exactly when it carries the expected counter
    and is sealed under the session key with its whole nonce; then only the
    counter advances. On an error the session is unchanged, and it never
    panics, whatever the bytes. *)
Theorem decrypt_correct (data : bytes) (s : Session) :
  cipher_wf (recv s) →
  (∀ plain s', decrypt data s = (Ret plain, s') ↔
     s' = set_recv (bump (recv s)) s ∧
     ∃ key n4, cs_key (recv s) = Some key ∧ len n4 = 4%Z ∧
       data = (be_put 8 (cs_nonce (recv s)) ++ n4) ++
                gcm_Seal key (be_put 8 (cs_nonce (recv s)) ++ n4) plain) ∧
  (∀ e s', decrypt data s = (Err e, s') → s' = s) ∧
  is_panic (decrypt data s).1 = false.
Proof.
  intros Hwf. split.
  - intros plain s'. split.
    + destruct (decrypt_cases data s Hwf) as [[e ->]|(key & n4 & p & Hk & H4 & Hd & ->)]; [done|].
      intros [= -> <-]. eauto 10.
    + intros (-> & key & n4 & Hk & H4 & ->). rewrite <-app_assoc.
      rewrite (decrypt_frame _ _ _ _ key) by first [done|apply len_be_put].
      by rewrite be_put8_small, Z.eqb_refl, gcm_open_seal by apply Hwf.
  - destruct (decrypt_cases data s Hwf) as [[e ->]|(key & n4 & p & Hk & H4 & Hd & ->)];
      (split; [|done]); [by intros ? ? [= _ <-]|done].
Qed.

(** C11: A network that drops, duplicates and reorders the frames of linked
    sessions, but cannot forge, makes the receiver accept a prefix of what was
    sent: no message twice, none out of order, none after a lost one. *)
Theorem receive_in_order (plains wire frames : list bytes) (a a' b : Session) :
  linked a b → (len plains < 2 ^ 64)%Z →
  map_each encrypt plains a = (Ret frames, a') → Forall (λ f, f ∈ frames) wire →
  (receive wire b).1 `prefix_of` plains.
Proof.
  intros (Hl & Hwf & [key Hk]) Hlen He Hw.
  destruct (encrypt_all plains a Hwf) as (fr & a2 & He2 & _ & _ & _ & _ & Hf); [by exists key|].
  rewrite He2 in He. simplify_eq. rewrite (Hf key Hk) in Hw.
  destruct (receive_prefix key (cs_nonce (sendr a)) plains wire 0 b) as [m ->]; rewrite <-?Hl; try done; [|lia|].
  - by rewrite Z.add_0_r, wrapu64_small by apply Hwf.
  - rewrite drop_0. exists (drop m plains). by rewrite take_drop.
Qed.

(** One lost frame desynchronises the channel for good: every later frame of
    the sender is refused with the same error and leaves the receiver
    unchanged. *)
Theorem lost_frame_desync (p : bytes) (plains frames : list bytes) (f0 : bytes) (a a1 a2 b : Session) :
  linked a b → (len plains < 2 ^ 64 - 1)%Z →
  encrypt p a = (Ret f0, a1) → map_each encrypt plains a1 = (Ret frames, a2) →
  Forall (λ f, decrypt f b = (Err mismatch, b)) frames.
Proof.
  intros (Hl & Hwf & [key Hk]) Hlen H0 He. rewrite (encrypt_run _ _ key) in H0 by done. simplify_eq.
  destruct (encrypt_all plains (set_sendr (bump (sendr a)) a)) as (fr & a3 & He2 & _ & _ & _ & _ & Hf);
    [by apply bump_wf|by exists key|]. rewrite He2 in He. simplify_eq. rewrite (Hf key Hk).
  apply Forall_forall. intros f Hin. apply lookup_sealed in Hin as (i & q & Hq & ->).
  pose proof (lookup_lt_Some _ _ _ Hq). unfold len in *.
  apply (decrypt_sealed_mismatch _ key); rewrite <-?Hl; try done; [apply u64_wrap|].
  cbn. rewrite wrapu64_add.
  rewrite <-(Z.add_assoc (cs_nonce (sendr a)) 1).
  intros Hc. rewrite <-(wrapu64_small (cs_nonce (sendr a))), <-(Z.add_0_r (cs_nonce (sendr a))) in Hc at 1 by apply Hwf.
  revert Hc. apply wrapu64_ne; lia.
Qed.
End Theorems.

(** ** Witnesses *)

Section Witnesses.
Let cs : cipherState := MkCipher (Some (zeros 32)) (2 ^ 64 - 1).
Let base : Session :=
  newSession (MkConn [] [] false 0) (lit "me") (keys_of_seed (C:=toy_crypto) (zeros 32)) DefaultTimeout 100 Minute 0.
Let a : Session := set_sendr cs base.
Let b : Session := set_recv cs base.

Lemma wit_linked : linked a b.
Proof.
  split; [reflexivity|]. split; [|by eexists]. split; [by split|].
  intros k [= <-]. reflexivity.
Qed.

Lemma channel_delivers_witness :
  ∃ frames a' b', map_each (encrypt (C:=toy_crypto)) [lit "one"; lit "two"] a = (Ret frames, a') ∧
    map_each (decrypt (C:=toy_crypto)) frames b = (Ret [lit "one"; lit "two"], b').
Proof.
  destruct (channel_delivers (C:=toy_crypto) (CL:=toy_crypto_laws) [lit "one"; lit "two"] a b wit_linked)
    as (fr & a' & b' & H1 & H2 & _). exists fr, a', b'. exact (conj H1 H2).
Defined.

Lemma decrypt_correct_witness : is_panic (decrypt (C:=toy_crypto) (lit "junk") b).1 = false.
Proof.
  destruct (decrypt_correct (C:=toy_crypto) (CL:=toy_crypto_laws) (lit "junk") b) as (_ & _ & H); [|exact H].
  destruct wit_linked as (<- & H & _). exact H.
Defined.

Lemma receive_in_order_witness :
  ∃ f1 f2 a', map_each (encrypt (C:=toy_crypto)) [lit "one"; lit "two"] a = (Ret [f1; f2], a') ∧
    (receive (C:=toy_crypto) [f2; f1; f1; f2] b).1 `prefix_of` [lit "one"; lit "two"].
Proof.
  destruct (map_each (encrypt (C:=toy_crypto)) [lit "one"; lit "two"] a) as [o a'] eqn:Ee.
  vm_compute in Ee. injection Ee as <- <-. eexists _, _, _. split; [reflexivity|].
  eapply (receive_in_order (C:=toy_crypto) (CL:=toy_crypto_laws) [lit "one"; lit "two"] _ _ a _ b wit_linked);
    [reflexivity|reflexivity|].
  repeat (apply Forall_cons_2; [set_solver|]). apply Forall_nil_2.
Defined.

Lemma lost_frame_desync_witness :
  ∃ f0 a1 frames a2, encrypt (C:=toy_crypto) (lit "lost") a = (Ret f0, a1) ∧
    map_each (encrypt (C:=toy_crypto)) [lit "one"; lit "two"] a1 = (Ret frames, a2) ∧
    Forall (λ f, decrypt (C:=toy_crypto) f b = (Err mismatch, b)) frames.
Proof.
  eexists _, _, _, _. split; [reflexivity|]. split; [reflexivity|].
  eapply (lost_frame_desync (C:=toy_crypto) (lit "lost") [lit "one"; lit "two"]
    _ _ a _ _ b wit_linked); [reflexivity..|reflexivity].
Defined.
End Witnesses.
