(* ===== verification/Handshake.v ===== *)
(** * Theorems about the key exchange (client/session.go)

    What [handshake] guarantees on every outcome, and that two honest parties
    that complete it are linked in both directions. *)

From S2P Require Import Prelude Config Crypto Keys Signal Wire RateLimit Monad Platform Store Session SessionFacts.

(** ** Calls on the connection change only the connection *)

(** [s'] is [s] but for its connection, which it has if [s] has one. *)
Definition only_conn (s s' : Session) : Prop :=
  s' = set_conn (s_conn s') s ∧ (is_Some (s_conn s) → is_Some (s_conn s')).

Lemma only_conn_refl s : only_conn s s.
Proof. split; [by destruct s|done]. Qed.

Lemma only_conn_set s s' c : only_conn s s' → only_conn s (set_conn (Some c) s').
Proof. intros [-> _]. by destruct s. Qed.

Section Frame.
Context {P : Platform} {E : Env}.
Variable s0 : Session.

Definition keeps (x : SS) : Prop := only_conn s0 (ss_sess x).

Lemma next_keeps : preserves keeps (on_world next).
Proof. by intros []. Qed.
Hint Resolve next_keeps : chat.

Lemma net_call_keeps : preserves keeps net_call.
Proof. unfold net_call. preserve. Qed.
Hint Resolve net_call_keeps : chat.

Lemma the_conn_keeps : preserves keeps the_conn.
Proof. unfold the_conn. preserve. Qed.
Hint Resolve the_conn_keeps : chat.

Lemma set_conn_keeps c : preserves keeps (modify (upd_sess (set_conn (Some c)))).
Proof. apply preserves_modify. intros [s w]. apply only_conn_set. Qed.
Hint Resolve set_conn_keeps : chat.

Lemma SetWriteDeadline_keeps : preserves keeps SetWriteDeadline.
Proof. unfold SetWriteDeadline. preserve. Qed.
Lemma SetReadDeadline_keeps : preserves keeps SetReadDeadline.
Proof. unfold SetReadDeadline. preserve. Qed.
Lemma WriteMessage_keeps f : preserves keeps (WriteMessage f).
Proof. unfold WriteMessage. preserve. Qed.
Lemma ReadMessage_keeps : preserves keeps ReadMessage.
Proof. unfold ReadMessage. preserve. Qed.
Hint Resolve SetWriteDeadline_keeps SetReadDeadline_keeps WriteMessage_keeps ReadMessage_keeps : chat.

Lemma get_state_keeps : preserves keeps get_state.
Proof. by intros x. Qed.
Hint Resolve get_state_keeps : chat.

Lemma GenerateKey_keeps : preserves keeps GenerateKey.
Proof. unfold GenerateKey. preserve. Qed.
Lemma doSend_keeps e sig : preserves keeps (doSend e sig).
Proof. unfold doSend. preserve. Qed.
Lemma doRecv_keeps : preserves keeps doRecv.
Proof. unfold doRecv. preserve. Qed.
End Frame.

#[export] Hint Resolve next_keeps net_call_keeps the_conn_keeps set_conn_keeps SetWriteDeadline_keeps
  SetReadDeadline_keeps WriteMessage_keeps ReadMessage_keeps get_state_keeps GenerateKey_keeps
  doSend_keeps doRecv_keeps : chat.

(** ** Every outcome of the key exchange *)

Section Safe.
Context {P : Platform} {E : Env}.

(** The session a completed exchange leaves: [s] with the keys derived from
    the shared secret, the peer's name and keys, and counters at zero. *)
Definition established (s : Session) (initiator : bool) (shared : bytes) (peer : keyExchangeData) : Session :=
  (deriveKeys shared initiator peer s).2.

(** What the peer proved. *)
Definition authentic (s : Session) (peer : keyExchangeData) : Prop :=
  kx_StaticPubKey peer ≠ NilKey ∧ kx_StaticPubKey peer ≠ ourStatic s ∧
  Verify (kx_StaticPubKey peer) (vec_to_list (kx_PubKey peer)) (kx_Signature peer) = true.

Definition handshake_post (initiator : bool) (s : Session) (o : outcome unit) (s' : Session) : Prop :=
  match o with
  | Ret _ => ∃ priv peer shared, authentic s peer ∧
      x25519_ECDH priv (vec_to_list (kx_PubKey peer)) = Some shared ∧
      only_conn (established s initiator shared peer) s'
  | _ => only_conn s s'
  end.

Lemma verifyPeer_cases s peer :
  (verifyPeer s peer = Ret tt ∧ authentic s peer) ∨ ∃ e, verifyPeer s peer = Err e.
Proof.
  unfold verifyPeer, authentic. do 2 (case_bool_decide; [by eauto|]).
  destruct (Verify _ _ _); [by auto|by eauto].
Qed.

Lemma verifyPeer_ok s peer : authentic s peer → verifyPeer s peer = Ret tt.
Proof.
  intros (H1 & H2 & H3). unfold verifyPeer. by rewrite !bool_decide_false, H3.
Qed.

Lemma established_only_conn s s' i shared peer :
  only_conn s s' → only_conn (established s i shared peer) (established s' i shared peer).
Proof. intros [-> Hc]. destruct s, i; (split; [done|exact Hc]). Qed.

Lemma handshake_wp initiator x :
  wp (handshake initiator) (λ o x', handshake_post initiator (ss_sess x) o (ss_sess x')) x.
Proof.
  set (s := ss_sess x). unfold handshake.
  wp_use (preserves_wp (keeps s)) as o1 x1 H1; [apply GenerateKey_keeps|apply only_conn_refl|].
  destruct o1 as [ourKey|e|p]; [|exact H1..].
  apply wp_bind. unfold wp at 1, get_state. cbn [fst snd]. cbv zeta.
  wp_use (preserves_wp (keeps s)) as o2 x2 H2; [by destruct initiator; preserve|exact H1|].
  destruct o2 as [peer|e|p]; [|exact H2..].
  apply wp_bind. unfold wp at 1, get_state. cbn [fst snd]. apply wp_bind, wp_lift.
  assert (authentic (ss_sess x2) peer ↔ authentic s peer) as Ha.
  { destruct H2 as [-> _]. unfold authentic. by destruct s. }
  destruct (verifyPeer_cases (ss_sess x2) peer) as [[-> Hauth]|[e ->]]; [|exact H2].
  apply wp_bind, wp_wrapping, wp_lift. unfold ECDH.
  destruct (x25519_ECDH ourKey (vec_to_list (kx_PubKey peer))) as [shared|] eqn:Es; [|exact H2].
  unfold wp, on_sess, zoom. exists ourKey, peer, shared. split; [by apply Ha|]. split; [done|].
  by apply (established_only_conn s).
Qed.
End Safe.

(** ** Two honest parties *)

Section Agree.
Context {P : Platform} {PL : PlatformLaws P}.

(** The frame a party sends: its key exchange, signed, in an envelope. *)
Definition kx_of (s : Session) (eph : Key) : keyExchangeData :=
  MkKeyExchange eph (ourStatic s) (ourName s) (Sign (ourKeys s) (vec_to_list eph)).
Definition kx_envelope (s : Session) (eph : Key) : signal.Signal :=
  signal.MkSignal signal.KeyExchange (ourStatic s) NilUUID (kx_layout (kx_of s eph)).
Definition kx_frame (s : Session) (eph : Key) : bytes := signal.layout (kx_envelope s eph).

(** An honest party, before the exchange: its own keys, a name that fits, a
    connection that is open and delivers [inp], within its read limit. *)
Definition within (lim : Z) (frames : list bytes) : Prop :=
  (lim = 0)%Z ∨ Forall (λ f, len f <= lim)%Z frames.
Definition honest (lim : Z) (s : Session) (inp out : list bytes) : Prop :=
  keys_wf (ourKeys s) ∧ ourStatic s = Public (ourKeys s) ∧ ourStatic s ≠ NilKey ∧
  (len (ourName s) <= MaxUint16)%Z ∧ s_conn s = Some (MkConn inp out false lim) ∧ within lim inp.

Lemma within_head lim f l : within lim (f :: l) → (lim = 0 ∨ len f <= lim)%Z.
Proof. intros [->|Hl]; [by left|right]. by inversion Hl. Qed.
Lemma within_tail lim f l : within lim (f :: l) → within lim l.
Proof. intros [->|Hl]; [by left|right]. by inversion Hl. Qed.

Lemma kx_ok_of s eph : (len (ourName s) <= MaxUint16)%Z → kx_ok (kx_of s eph).
Proof.
  intros Hn. split; [done|]. cbn. unfold Sign, len. rewrite ed25519_sign_length. done.
Qed.

Lemma kx_fits s eph : (len (ourName s) <= MaxUint16)%Z → signal.fits (kx_envelope s eph).
Proof.
  intros Hn. split; [by vm_compute|]. cbn. unfold kx_layout, kx_of. cbn.
  assert (len (Sign (ourKeys s) (vec_to_list eph)) = 64%Z) as Hs
    by (unfold len, Sign; by rewrite ed25519_sign_length).
  unfold MaxUint16, MaxUint32 in *. simpl_len. lia.
Qed.

Section Run.
Context {E : Env} (Hnet : net_ok E).

Lemma net_call_wp x : wp net_call (λ o x', o = Ret tt ∧ ss_sess x' = ss_sess x) x.
Proof. unfold wp, net_call. rewrite bind_run. cbn. by rewrite (proj1 Hnet). Qed.

Lemma the_conn_wp x c :
  s_conn (ss_sess x) = Some c → wp the_conn (λ o x', o = Ret c ∧ ss_sess x' = ss_sess x) x.
Proof. intros Hc. unfold wp, the_conn, get_state. rewrite bind_run, Hc. done. Qed.

Lemma SetWriteDeadline_wp x c :
  s_conn (ss_sess x) = Some c →
  wp SetWriteDeadline (λ o x', o = Ret tt ∧ ss_sess x' = ss_sess x) x.
Proof.
  intros Hc. unfold SetWriteDeadline. wp_use (the_conn_wp x c Hc) as o1 x1 [-> <-]. apply net_call_wp.
Qed.

Lemma SetReadDeadline_wp x c :
  s_conn (ss_sess x) = Some c →
  wp SetReadDeadline (λ o x', o = Ret tt ∧ ss_sess x' = ss_sess x) x.
Proof. apply SetWriteDeadline_wp. Qed.

Lemma WriteMessage_wp f x c :
  s_conn (ss_sess x) = Some c → c_closed c = false →
  wp (WriteMessage f) (λ o x', o = Ret tt ∧
    ss_sess x' = set_conn (Some (MkConn (c_in c) (c_out c ++ [f]) (c_closed c) (c_limit c))) (ss_sess x)) x.
Proof.
  intros Hc Ho. unfold WriteMessage. wp_use (the_conn_wp x c Hc) as o1 x1 [-> <-].
  wp_use (net_call_wp x1) as o2 x2 [-> H2]. rewrite Ho. wp_head. cbn. by rewrite H2.
Qed.

Lemma ReadMessage_wp x f rest out lim :
  s_conn (ss_sess x) = Some (MkConn (f :: rest) out false lim) → (lim = 0 ∨ len f <= lim)%Z →
  wp ReadMessage (λ o x', o = Ret f ∧
    ss_sess x' = set_conn (Some (MkConn rest out false lim)) (ss_sess x)) x.
Proof.
  intros Hc Hl. unfold ReadMessage. wp_use (the_conn_wp x _ Hc) as o1 x1 [-> <-].
  wp_use (net_call_wp x1) as o2 x2 [-> H2]. cbn [c_closed c_in c_limit c_out]. wp_head.
  assert ((0 <? lim) && (lim <? len f) = false)%Z as ->.
  { destruct (Z.ltb_spec 0 lim); [|done]. cbn. apply Z.ltb_ge. lia. }
  wp_head. cbn. by rewrite H2.
Qed.

Lemma doSend_wp lim x s inp out eph :
  honest lim s inp out → ss_sess x = s →
  wp (doSend eph (Sign (ourKeys s) (vec_to_list eph))) (λ o x', o = Ret tt ∧
    ss_sess x' = set_conn (Some (MkConn inp (out ++ [kx_frame s eph]) false lim)) s) x.
Proof.
  intros (Hk & Hp & Hnz & Hn & Hc & _) Hs. unfold doSend. apply wp_bind. unfold wp at 1, get_state.
  cbn [fst snd]. cbv zeta. rewrite Hs. fold (kx_of s eph).
  rewrite encodeKeyExchange_layout by by apply kx_ok_of. apply wp_bind, wp_lift.
  pose proof (signal.New_layout (kx_envelope s eph) (kx_fits s eph Hn)) as HN.
  cbn [signal.Type' signal.From signal.ID signal.Content kx_envelope] in HN. rewrite HN.
  apply wp_bind, wp_wrapping, wp_lift.
  wp_use (SetWriteDeadline_wp x (MkConn inp out false lim)) as o1 x1 [-> H1]; [by rewrite Hs|].
  wp_use (WriteMessage_wp _ x1 (MkConn inp out false lim)) as o2 x2 [-> H2]; [by rewrite H1, Hs|done|].
  split; [done|]. by rewrite H2, H1, Hs.
Qed.

Lemma doRecv_wp lim x p eph rest out :
  (len (ourName p) <= MaxUint16)%Z → ourStatic p ≠ NilKey →
  s_conn (ss_sess x) = Some (MkConn (kx_frame p eph :: rest) out false lim) →
  within lim (kx_frame p eph :: rest) →
  wp doRecv (λ o x', o = Ret (kx_of p eph) ∧
    ss_sess x' = set_conn (Some (MkConn rest out false lim)) (ss_sess x)) x.
Proof.
  intros Hn Hnz Hc Hw. unfold doRecv.
  wp_use (SetReadDeadline_wp x _ Hc) as o1 x1 [-> H1].
  wp_use (ReadMessage_wp x1 (kx_frame p eph) rest out lim) as o2 x2 [-> H2]; [by rewrite H1|by eapply within_head|].
  wp_use (SetReadDeadline_wp x2 (MkConn rest out false lim)) as o3 x3 [-> H3]; [by rewrite H2|].
  apply wp_bind, wp_wrapping, wp_lift. unfold kx_frame.
  rewrite <-(app_nil_r (signal.layout _)), signal.Parse_layout by by apply kx_fits.
  cbn [signal.Type' signal.Content signal.From kx_envelope]. rewrite bool_decide_true by done. cbn [negb].
  apply wp_bind, wp_wrapping, wp_lift.
  rewrite <-(app_nil_r (kx_layout _)), decodeKeyExchange_layout by by apply kx_ok_of.
  rewrite bool_decide_true by done. apply wp_ret. split; [done|]. by rewrite H3, H2, H1.
Qed.

Definition pub_of (priv : bytes) : Key := array_of 32 (x25519_Public priv).

(** One honest side, given what the other side sends. *)
Lemma handshake_run lim initiator x s p ephp rest out :
  honest lim s (kx_frame p ephp :: rest) out → ss_sess x = s →
  (len (ourName p) <= MaxUint16)%Z → authentic s (kx_of p ephp) →
  ∃ priv, Some priv = (vec_to_list <$> env_ecdh (tick (ss_world x))) ∧
  ∀ shared, x25519_ECDH priv (vec_to_list ephp) = Some shared →
  wp (handshake initiator) (λ o x', o = Ret tt ∧
    ss_sess x' = set_conn (Some (MkConn rest (out ++ [kx_frame s (pub_of priv)]) false lim))
      (established s initiator shared (kx_of p ephp))) x.
Proof.
  intros Hh Hs Hn Hauth. destruct (proj2 Hnet (tick (ss_world x))) as [v Hv].
  exists (vec_to_list v). split; [by rewrite Hv|]. intros shared Hsh. unfold handshake.
  apply wp_bind, wp_wrapping. unfold wp at 1, GenerateKey. rewrite bind_run. cbn. rewrite Hv. cbn.
  apply wp_bind. unfold wp at 1, get_state. cbn [fst snd ss_sess]. cbv zeta.
  destruct x as [? w]. cbn in Hs. subst. cbn [ss_sess ss_world]. fold (pub_of (vec_to_list v)).
  set (x1 := MkSS s _). set (frame := kx_frame s (pub_of (vec_to_list v))).
  assert (wp (if initiator then doSend (pub_of (vec_to_list v)) (Sign (ourKeys s) (vec_to_list (pub_of (vec_to_list v))));; doRecv
    else peer ← doRecv; doSend (pub_of (vec_to_list v)) (Sign (ourKeys s) (vec_to_list (pub_of (vec_to_list v))));; mret peer)
    (λ o x', o = Ret (kx_of p ephp) ∧
      ss_sess x' = set_conn (Some (MkConn rest (out ++ [frame]) false lim)) s) x1) as Hx.
  { pose proof Hauth as (Hnz & _ & _). destruct initiator.
    - apply wp_bind. eapply wp_mono; [|by apply (doSend_wp lim x1 s)]. intros o2 x2 [-> H2].
      eapply wp_mono; [|apply (doRecv_wp lim x2 p ephp rest (out ++ [frame])); [done|done|by rewrite H2|apply Hh]].
      intros o3 x3 [-> H3]. split; [done|]. rewrite H3, H2. by destruct s.
    - apply wp_bind. eapply wp_mono; [|apply (doRecv_wp lim x1 p ephp rest out); [done|done|apply Hh|apply Hh]].
      intros o2 x2 [-> H2]. apply wp_bind.
      eapply wp_mono; [|apply (doSend_wp lim x2 (set_conn (Some (MkConn rest out false lim)) s) rest out); [|by rewrite H2]].
      + intros o3 x3 [-> H3]. apply wp_ret. split; [done|]. rewrite H3. by destruct s.
      + destruct Hh as (?&?&?&?&?&?). repeat (split; [done|]). by eapply within_tail. }
  apply wp_bind. eapply wp_mono; [|exact Hx]. intros o2 x2 [-> H2].
  apply wp_bind. unfold wp at 1, get_state. cbn [fst snd].
  rewrite verifyPeer_ok by (rewrite H2; exact Hauth). apply wp_bind, wp_lift.
  apply wp_bind, wp_wrapping, wp_lift. unfold ECDH. cbn [kx_PubKey kx_of]. rewrite Hsh.
  unfold wp, on_sess, zoom. cbn. split; [done|]. rewrite H2. by destruct s, initiator.
Qed.
End Run.

Lemma authentic_honest s p eph :
  keys_wf (ourKeys p) → ourStatic p = Public (ourKeys p) → ourStatic p ≠ NilKey → ourStatic p ≠ ourStatic s →
  authentic s (kx_of p eph).
Proof.
  intros Hk Hp Hnz Hne. split; [done|]. split; [done|]. cbn. rewrite Hp. by apply Verify_Sign.
Qed.
End Agree.

(** ** Theorems *)

Section Theorems.
Context {P : Platform} {PL : PlatformLaws P}.

Lemma pub_of_bytes priv : vec_to_list (pub_of priv) = x25519_Public priv.
Proof. apply vec_of_array_of, x25519_public_length. Qed.

(** The keys of a fresh exchange, seen from both ends. *)
Lemma established_linked a b shared pa pb ca cb :
  linked (set_conn ca (established a true shared pa)) (set_conn cb (established b false shared pb)) ∧
  linked (set_conn cb (established b false shared pb)) (set_conn ca (established a true shared pa)).
Proof.
  assert (∀ k, cipher_wf (MkCipher (Some (sha256_Sum k)) 0)) as Hwf.
  { intros k. split; [done|]. intros ? [= <-]. apply sha256_length. }
  by repeat split; try apply Hwf.
Qed.

(** C9: The exchange of two honest parties with different identities succeeds
    on both sides; each sends exactly one frame, each learns the other's
    authentic static key and name, and the sessions are linked in both
    directions. *)
Theorem handshake_links (Ea Eb : Env) (x y : SS) (sa sb : Session) (pa pb : vec byte 32)
    (la lb : Z) (ina inb outa outb : list bytes) :
  net_ok Ea → net_ok Eb →
  ss_sess x = sa → ss_sess y = sb →
  @env_ecdh Ea (tick (ss_world x)) = Some pa → @env_ecdh Eb (tick (ss_world y)) = Some pb →
  honest la sa (kx_frame sb (pub_of pb) :: ina) outa → honest lb sb (kx_frame sa (pub_of pa) :: inb) outb →
  ourStatic sa ≠ ourStatic sb → is_Some (x25519_ECDH pa (x25519_Public pb)) →
  let a' := ss_sess (handshake (E:=Ea) true x).2 in
  let b' := ss_sess (handshake (E:=Eb) false y).2 in
  (handshake (E:=Ea) true x).1 = Ret tt ∧ (handshake (E:=Eb) false y).1 = Ret tt ∧
  s_conn a' = Some (MkConn ina (outa ++ [kx_frame sa (pub_of pa)]) false la) ∧
  s_conn b' = Some (MkConn inb (outb ++ [kx_frame sb (pub_of pb)]) false lb) ∧
  linked a' b' ∧ linked b' a' ∧
  peerPubKey a' = ourStatic sb ∧ peerPubKey b' = ourStatic sa ∧
  peerName a' = ourName sb ∧ peerName b' = ourName sa.
Proof.
  intros HEa HEb Hx Hy Hpa Hpb Ha Hb Hne [shared Hsh] a' b'.
  pose proof Ha as (Hka & Hsa & Hza & Hna & _). pose proof Hb as (Hkb & Hsb & Hzb & Hnb & _).
  destruct (handshake_run (E:=Ea) HEa la true x sa sb (pub_of pb) ina outa Ha Hx Hnb) as (ka & Hka' & Hra);
    [by apply authentic_honest|]. rewrite Hpa in Hka'. injection Hka' as ->.
  destruct (handshake_run (E:=Eb) HEb lb false y sb sa (pub_of pa) inb outb Hb Hy Hna) as (kb & Hkb' & Hrb);
    [by apply authentic_honest|]. rewrite Hpb in Hkb'. injection Hkb' as ->.
  rewrite pub_of_bytes in Hra, Hrb. specialize (Hra shared Hsh).
  specialize (Hrb shared). rewrite x25519_agree in Hrb. specialize (Hrb Hsh).
  unfold wp in Hra, Hrb. subst a' b'.
  destruct Hra as [-> ->], Hrb as [-> ->]. split; [done|]. split; [done|]. split; [done|]. split; [done|].
  destruct (established_linked sa sb shared (kx_of sb (pub_of pb)) (kx_of sa (pub_of pa))
    (Some (MkConn ina (outa ++ [kx_frame sa (pub_of pa)]) false la))
    (Some (MkConn inb (outb ++ [kx_frame sb (pub_of pb)]) false lb))) as [H1 H2].
  split; [exact H1|]. split; [exact H2|]. unfold peerPubKey. cbn.
  by rewrite !bool_decide_true.
Qed.

(** C10: Whatever a peer or the network sends, a key exchange that succeeds has
    verified the peer's signature on its ephemeral key under a static key that
    is neither nil nor our own, and set the session up from the shared secret;
    one that fails or panics leaves the session without keys, as it was but
    for its connection. *)
Theorem handshake_authenticates (E : Env) (initiator : bool) (x : SS) :
  wp (handshake initiator) (λ o x', handshake_post initiator (ss_sess x) o (ss_sess x')) x.
Proof. apply handshake_wp. Qed.

End Theorems.

(** ** Witnesses *)

Section Witnesses.
Let ka : Keys := keys_of_seed (C:=toy_crypto) (vec_to_list (array_of 32 (lit "alice"))).
Let kb : Keys := keys_of_seed (C:=toy_crypto) (vec_to_list (array_of 32 (lit "bob"))).
Let bare (k : Keys) (name : gostring) (inp : list bytes) : Session :=
  newSession (MkConn inp [] false 0) name k DefaultTimeout 100 Minute 0.
Let pa : vec byte 32 := default NilKey (@env_ecdh toy_env 1).
Let pb : vec byte 32 := default NilKey (@env_ecdh toy_env 2).
Let fa : bytes := kx_frame (P:=toy_platform) (bare ka (lit "alice") []) (pub_of (P:=toy_platform) pa).
Let fb : bytes := kx_frame (P:=toy_platform) (bare kb (lit "bob") []) (pub_of (P:=toy_platform) pb).
Let sa : Session := bare ka (lit "alice") [fb].
Let sb : Session := bare kb (lit "bob") [fa].
Let xa : SS := MkSS sa (MkSW empty_DB ∅ 1).
Let xb : SS := MkSS sb (MkSW empty_DB ∅ 2).

Lemma wit_honest k name inp :
  keys_wf (C:=toy_crypto) k → Public k ≠ NilKey → (len name <= MaxUint16)%Z →
  honest (P:=toy_platform) 0 (newSession (MkConn inp [] false 0) name k DefaultTimeout 100 Minute 0) inp [].
Proof. intros. repeat (split; [done|]). by left. Qed.

Lemma wit_keys_wf s : length s = 32 → keys_wf (C:=toy_crypto) (keys_of_seed (C:=toy_crypto) s).
Proof. intros. by exists s. Qed.

Lemma handshake_links_witness :
  let a' := ss_sess (handshake (P:=toy_platform) (E:=toy_env) true xa).2 in
  let b' := ss_sess (handshake (P:=toy_platform) (E:=toy_env) false xb).2 in
  linked a' b' ∧ linked b' a'.
Proof.
  destruct (handshake_links (P:=toy_platform) (PL:=toy_platform_laws) toy_env toy_env xa xb sa sb pa pb
    0 0 [] [] [] []) as (_ & _ & _ & _ & H1 & H2 & _).
  - exact toy_env_net_ok.
  - exact toy_env_net_ok.
  - reflexivity.
  - reflexivity.
  - reflexivity.
  - reflexivity.
  - apply wit_honest; [apply wit_keys_wf; reflexivity|by apply (bool_decide_unpack _)|vm_compute; discriminate].
  - apply wit_honest; [apply wit_keys_wf; reflexivity|by apply (bool_decide_unpack _)|vm_compute; discriminate].
  - by apply (bool_decide_unpack _).
  - eexists. reflexivity.
  - exact (conj H1 H2).
Defined.
End Witnesses.
