(* ===== verification/SendRace.v ===== *)
(** * Concurrent sends on one session (client/session.go)

    [send] is called by many goroutines. It takes the session's mutex twice:
    once in [encrypt] to fetch the key slice and take a counter, once to write
    the frame; sealing happens in between, without the mutex, on the key array
    that [closeConn] overwrites. A state here is the shared data and, per
    goroutine, how far its [send] got; a step is one critical section, or the
    unprotected sealing. *)

From S2P Require Import Prelude Config Crypto Keys Signal Wire RateLimit Monad Platform Store Session SessionFacts.

(** Where a call of [send] is. *)
Inductive pc :=
| Start (plain : bytes)             (* before the first critical section *)
| Sealing (n : Z) (plain : bytes)   (* has its counter and the key slice *)
| Writing (frame : bytes)           (* before the second critical section *)
| Done (sent : bool).

(** The key array (shared by every slice of it), whether [s.sendr.key] is
    non-nil, the counter, whether the connection is open, the frames on the
    wire and the goroutines. *)
Record cstate := MkC {
  cell : bytes; key_set : bool; counter : Z; is_open : bool; wire : list bytes; threads : list pc
}.

Section Race.
Context {C : Crypto}.

Definition set_thread (i : nat) (p : pc) (st : cstate) : cstate :=
  MkC (cell st) (key_set st) (counter st) (is_open st) (wire st) (<[i := p]> (threads st)).

Inductive step (st : cstate) : cstate → Prop :=
(* encrypt: lock; key := s.sendr.key; nonce; nonce++; unlock *)
| step_take i plain :
    threads st !! i = Some (Start plain) → key_set st = true →
    step st (set_thread i (Sealing (counter st) plain)
      (MkC (cell st) (key_set st) (wrapu64 (counter st + 1)) (is_open st) (wire st) (threads st)))
| step_no_key i plain :
    threads st !! i = Some (Start plain) → key_set st = false →
    step st (set_thread i (Done false) st)
(* encrypt: gcm.Seal with the key bytes as they are now *)
| step_seal i n plain :
    threads st !! i = Some (Sealing n plain) →
    step st (set_thread i (Writing (sealed (cell st) n plain)) st)
(* send: lock; conn.WriteMessage; unlock *)
| step_write i f :
    threads st !! i = Some (Writing f) → is_open st = true →
    step st (set_thread i (Done true)
      (MkC (cell st) (key_set st) (counter st) (is_open st) (wire st ++ [f]) (threads st)))
| step_write_fails i f :
    threads st !! i = Some (Writing f) →
    step st (set_thread i (Done false) st)
(* closeConn: lock; zero the array; s.sendr.key = nil; unlock *)
| step_zero :
    step st (MkC (zeros (length (cell st))) false (counter st) (is_open st) (wire st) (threads st))
(* closeConn: s.conn.Close() *)
| step_close :
    key_set st = false →
    step st (MkC (cell st) (key_set st) (counter st) false (wire st) (threads st)).

Definition steps : cstate → cstate → Prop := rtc step.

(** A session in use, and the messages goroutines are about to send. *)
Definition start_state (key : bytes) (n : Z) (plains : list bytes) : cstate :=
  MkC key true n true [] (Start <$> plains).

(** ** Counters are never reused *)

(** The counter a frame carries. *)
Definition frame_counter (f : bytes) : Z := be_get (take 8 f).

Definition pc_counter (p : pc) : option Z :=
  match p with
  | Sealing n _ => Some n
  | Writing f => Some (frame_counter f)
  | _ => None
  end.

(** The counters on the wire, and those of frames that may get there. *)
Definition used (st : cstate) : list Z :=
  (frame_counter <$> wire st) ++ omap pc_counter (threads st).

Definition is_start (p : pc) : bool := match p with Start _ => true | _ => false end.
Definition waiting (l : list pc) : nat := length (filter (λ p, is_start p = true) l).

Local Arguments waiting : simpl never.
Local Arguments used : simpl never.

Definition race_inv (n0 : Z) (total : nat) (st : cstate) : Prop :=
  ∃ c, c + waiting (threads st) ≤ total ∧ counter st = wrapu64 (n0 + Z.of_nat c) ∧
    NoDup (used st) ∧ ∀ x, x ∈ used st → ∃ i, i < c ∧ x = wrapu64 (n0 + Z.of_nat i).

Lemma frame_counter_sealed k n plain : u64 n → frame_counter (sealed k n plain) = n.
Proof.
  intros Hn. unfold frame_counter. rewrite sealed_split.
  rewrite take_app_le, take_ge by (rewrite length_be_put; lia). by apply be_put8_small.
Qed.

Lemma thread_split (l : list pc) i p q :
  l !! i = Some p → l ≡ₚ p :: delete i l ∧ <[i := q]> l ≡ₚ q :: delete i l.
Proof.
  intros Hi. split; [by apply delete_Permutation|].
  rewrite insert_take_drop by by eapply lookup_lt_Some.
  by rewrite delete_take_drop, Permutation_middle.
Qed.

(** Moving one goroutine changes [used] and [waiting] at that goroutine. *)
Lemma used_set_thread i p q st :
  threads st !! i = Some p →
  (used (set_thread i q st) ≡ₚ
    option_list (pc_counter q) ++ (frame_counter <$> wire st) ++ omap pc_counter (delete i (threads st))) ∧
  (used st ≡ₚ
    option_list (pc_counter p) ++ (frame_counter <$> wire st) ++ omap pc_counter (delete i (threads st))).
Proof.
  intros Hi. destruct (thread_split _ _ _ q Hi) as [Hp Hq]. unfold used, set_thread. cbn.
  rewrite Hq. rewrite Hp at 3. cbn. split.
  - destruct (pc_counter q); cbn; [by rewrite Permutation_middle|done].
  - destruct (pc_counter p); cbn; [by rewrite Permutation_middle|done].
Qed.

Global Instance waiting_perm : Proper ((≡ₚ) ==> (=)) waiting.
Proof. intros l l' Hl. unfold waiting. by rewrite Hl. Qed.

Lemma waiting_cons p l : waiting (p :: l) = (if is_start p then 1 else 0) + waiting l.
Proof. unfold waiting. rewrite filter_cons. by destruct p. Qed.

Lemma waiting_set_thread i p q l :
  l !! i = Some p →
  waiting (<[i := q]> l) = (if is_start q then 1 else 0) + waiting (delete i l) ∧
  waiting l = (if is_start p then 1 else 0) + waiting (delete i l).
Proof.
  intros Hi. destruct (thread_split _ _ _ q Hi) as [Hp Hq].
  rewrite (waiting_perm _ _ Hp), (waiting_perm _ _ Hq). by rewrite !waiting_cons.
Qed.

Lemma NoDup_sub (l k : list Z) : l ⊆+ k → NoDup k → NoDup l.
Proof. intros [m ->]%submseteq_Permutation. by intros [? _]%NoDup_app. Qed.

Lemma race_inv_step n0 total st st' :
  (Z.of_nat total < 2 ^ 64)%Z → step st st' → race_inv n0 total st → race_inv n0 total st'.
Proof.
  intros Htot Hst (c & Hc & Hn & Hnd & Hu).
  (* a step that neither takes a counter nor adds one to [used] *)
  assert (∀ q i p st2, threads st2 !! i = Some p → counter st2 = counter st → threads st2 = threads st →
    (is_start q = false) → used (set_thread i q st2) ⊆+ used st → race_inv n0 total (set_thread i q st2)) as Hsame.
  { intros q i p st2 Hi Hc2 Ht2 Hq Hsub. destruct (waiting_set_thread i p q _ Hi) as [H1 H2].
    exists c. cbn. rewrite H1, Hq, Hc2. rewrite Ht2 in H2 |- *. split; [lia|]. split; [done|].
    split; [by eapply NoDup_sub|]. intros x Hx. apply Hu. by eapply elem_of_submseteq. }
  destruct Hst as [i plain Hi Hk|i plain Hi Hk|i n plain Hi|i f Hi Ho|i f Hi| |Hk].
  - set (st2 := MkC _ _ _ _ _ _).
    destruct (used_set_thread i _ (Sealing (counter st) plain) st2 Hi) as [Hu1 _].
    destruct (used_set_thread i _ (Sealing (counter st) plain) st Hi) as [_ Hu2]. cbn in Hu1, Hu2.
    destruct (waiting_set_thread i _ (Sealing (counter st) plain) _ Hi) as [Hw1 Hw2]. cbn in Hw1, Hw2.
    assert (used (set_thread i (Sealing (counter st) plain) st2) ≡ₚ counter st :: used st) as Hperm
      by (rewrite Hu1, Hu2; done).
    exists (S c). cbn. rewrite Hw1. split; [lia|]. split; [rewrite Hn, wrapu64_add; f_equal; lia|].
    split.
    + rewrite Hperm. constructor; [|done]. intros Hin. destruct (Hu _ Hin) as (j & Hj & Heq).
      rewrite Hn in Heq. revert Heq. apply wrapu64_ne; lia.
    + intros x. rewrite Hperm. intros [->|Hx]%elem_of_cons; [by exists c; split; [lia|]|].
      destruct (Hu x Hx) as (j & Hj & ->). exists j. split; [lia|done].
  - apply (Hsame _ i (Start plain) st); try done.
    destruct (used_set_thread i _ (Done false) st Hi) as [-> ->]. done.
  - apply (Hsame _ i (Sealing n plain) st); try done.
    destruct (used_set_thread i _ (Writing (sealed (cell st) n plain)) st Hi) as [-> Hu2].
    rewrite Hu2. cbn. rewrite frame_counter_sealed; [done|].
    destruct (Hu n) as (j & _ & ->); [rewrite Hu2; by left|apply u64_wrap].
  - set (st2 := MkC _ _ _ _ _ _). apply (Hsame _ i (Writing f) st2); try done.
    destruct (used_set_thread i _ (Done true) st2 Hi) as [-> _].
    destruct (used_set_thread i _ (Done true) st Hi) as [_ ->]. cbn.
    rewrite fmap_app, <-app_assoc. cbn. by rewrite Permutation_middle.
  - apply (Hsame _ i (Writing f) st); try done.
    destruct (used_set_thread i _ (Done false) st Hi) as [-> ->]. cbn. by apply submseteq_cons.
  - by exists c.
  - by exists c.
Qed.

Lemma race_inv_start key n plains : u64 n → race_inv n (length plains) (start_state key n plains).
Proof.
  intros Hn. exists 0. cbn. unfold waiting, used. cbn.
  assert (omap pc_counter (Start <$> plains) = []) as ->.
  { by induction plains. }
  split; [|split; [by rewrite Z.add_0_r, wrapu64_small|split; [constructor|by intros x ?%elem_of_nil]]].
  rewrite length_filter. by rewrite length_fmap.
Qed.
End Race.

Section Theorems.
Context {C : Crypto}.

(** Two sends, the second of which writes first. *)
Lemma overtaken (key p q : bytes) (n : Z) :
  let f := sealed key n p in let g := sealed key (wrapu64 (n + 1)) q in
  steps (start_state key n [p; q]) (MkC key true (wrapu64 (wrapu64 (n + 1) + 1)) true [g; f] [Done true; Done true]).
Proof.
  intros f g. unfold start_state. eapply rtc_l; [by apply (step_take _ 0 p)|]. cbn.
  eapply rtc_l; [by apply (step_take _ 1 q)|]. cbn.
  eapply rtc_l; [by apply (step_seal _ 0 n p)|]. cbn.
  eapply rtc_l; [by apply (step_seal _ 1 (wrapu64 (n + 1)) q)|]. cbn.
  eapply rtc_l; [by apply (step_write _ 1 g)|]. cbn.
  eapply rtc_l; [by apply (step_write _ 0 f)|]. apply rtc_refl.
Qed.

Lemma steps_inv n0 total st st' :
  (Z.of_nat total < 2 ^ 64)%Z → steps st st' → race_inv n0 total st → race_inv n0 total st'.
Proof. intros Ht. induction 1 as [|st1 st2 st3 H1 _ IH]; [done|]. intros Hi. by eapply IH, race_inv_step. Qed.

(** C39: However concurrent sends and a close interleave, no two frames on the
    wire carry the same counter: no nonce is used twice with a session key. *)
Theorem counters_unique (key : bytes) (n : Z) (plains : list bytes) (st : cstate) :
  u64 n → (len plains < 2 ^ 64)%Z → steps (start_state key n plains) st →
  NoDup (frame_counter <$> wire st).
Proof.
  intros Hn Hlen Hst. assert (race_inv n (length plains) st) as (c & _ & _ & Hnd & _).
  { eapply steps_inv; [exact Hlen|exact Hst|by apply race_inv_start]. }
  unfold used in Hnd. by apply NoDup_app in Hnd as [? _].
Qed.

(** C40: Two concurrent sends can write their frames in the opposite order of
    their counters. The receiver then takes the first message, has lost the
    second, and refuses every later frame of the session. *)
Theorem race_desync `{CL : !CryptoLaws C} (key p q : bytes) (n : Z) (b : Session) :
  u64 n → cipher_wf (recv b) → recv b = MkCipher (Some key) n →
  ∃ st, steps (start_state key n [p; q]) st ∧ is_open st = true ∧
    counter st = wrapu64 (n + 2) ∧
    let '(got, b') := receive (wire st) b in
    got = [p] ∧
    ∀ i r, (2 <= i < 2 ^ 64)%Z → decrypt (sealed key (wrapu64 (n + i)) r) b' = (Err mismatch, b').
Proof.
  intros Hn Hwf Hb. set (f := sealed key n p). set (g := sealed key (wrapu64 (n + 1)) q).
  exists (MkC key true (wrapu64 (wrapu64 (n + 1) + 1)) true [g; f] [Done true; Done true]).
  split; [|split; [done|split; [cbn; rewrite wrapu64_add; f_equal; lia|]]].
  - apply overtaken.
  - cbn -[decrypt]. unfold g, f.
    rewrite (decrypt_sealed_mismatch key key) by first
      [done|apply u64_wrap|by rewrite Hb
      |rewrite Hb; cbn; rewrite <-(wrapu64_small n) at 1 by done; rewrite <-(Z.add_0_r n) at 1; apply wrapu64_ne; lia].
    rewrite (decrypt_sealed key n p b) by first [done|by rewrite Hb].
    split; [done|]. intros i r Hi.
    apply (decrypt_sealed_mismatch key key); [by apply bump_wf|by cbn; rewrite Hb|apply u64_wrap|].
    cbn. rewrite Hb. cbn. apply wrapu64_ne; lia.
Qed.

(** A send that took its counter before [closeConn] zeroed the key array and
    seals after it puts its message on the wire under the all-zero key, where
    anyone can open it: the mutex does not protect the key while it is used. *)
Theorem race_zero_key `{CL : !CryptoLaws C} (key p : bytes) (n : Z) :
  ∃ st, steps (start_state key n [p]) st ∧
    wire st = [sealed (zeros (length key)) n p] ∧
    gcm_Open (zeros (length key)) (nonce12 n) (gcm_Seal (zeros (length key)) (nonce12 n) p) = Some p.
Proof.
  exists (MkC (zeros (length key)) false (wrapu64 (n + 1)) true [sealed (zeros (length key)) n p] [Done true]).
  split; [|split; [done|apply gcm_open_seal]].
  unfold start_state. eapply rtc_l; [by apply (step_take _ 0 p)|]. cbn.
  eapply rtc_l; [apply step_zero|]. cbn.
  eapply rtc_l; [by apply (step_seal _ 0 n p)|]. cbn.
  eapply rtc_l; [by apply (step_write _ 0 (sealed (zeros (length key)) n p))|]. apply rtc_refl.
Qed.

(** Run alone, the three steps of a send are [encrypt] followed by the write. *)
Lemma send_alone st i plain s key :
  cipher_wf (sendr s) → sendr s = MkCipher (Some key) (counter st) →
  cell st = key → key_set st = true → is_open st = true → threads st !! i = Some (Start plain) →
  ∃ frame, encrypt plain s = (Ret frame, set_sendr (MkCipher (Some key) (wrapu64 (counter st + 1))) s) ∧
    steps st (MkC key true (wrapu64 (counter st + 1)) true (wire st ++ [frame]) (<[i := Done true]> (threads st))).
Proof.
  intros Hwf Hs <- Hk Ho Hi. exists (sealed (cell st) (counter st) plain). split.
  { rewrite (encrypt_run _ _ (cell st)) by first [done|by rewrite Hs]. unfold bump. by rewrite Hs. }
  pose proof (lookup_lt_Some _ _ _ Hi) as Hlt.
  eapply rtc_l; [by apply (step_take _ i plain)|]. cbn. unfold set_thread. cbn.
  eapply rtc_l; [apply (step_seal _ i (counter st) plain); cbn; by rewrite list_lookup_insert_eq|].
  unfold set_thread. cbn.
  eapply rtc_l; [apply (step_write _ i (sealed (cell st) (counter st) plain)); [cbn|done]|].
  { rewrite list_lookup_insert_eq; [done|]. by rewrite length_insert. }
  unfold set_thread. cbn. rewrite Hk, Ho, !list_insert_insert_eq. apply rtc_refl.
Qed.
End Theorems.

(** ** Witnesses *)

(** Two sends of which the second overtakes the first: both frames are on the
    wire, with the counters 6 and 5. *)
Lemma counters_unique_witness :
  ∃ st, steps (C:=toy_crypto) (start_state (zeros 32) 5 [lit "one"; lit "two"]) st ∧
    frame_counter <$> wire st = [6; 5]%Z ∧ NoDup (frame_counter <$> wire st).
Proof.
  pose proof (overtaken (C:=toy_crypto) (zeros 32) (lit "one") (lit "two") 5) as Hs.
  eexists. split; [exact Hs|]. split; [vm_compute; reflexivity|].
  apply (counters_unique (C:=toy_crypto) (zeros 32) 5 [lit "one"; lit "two"]); [split; [discriminate|reflexivity]|reflexivity|exact Hs].
Defined.

Lemma race_desync_witness :
  ∃ st, steps (C:=toy_crypto) (start_state (zeros 32) 7 [lit "one"; lit "two"]) st ∧ is_open st = true ∧
    counter st = 9%Z.
Proof.
  set (b := set_recv (MkCipher (Some (zeros 32)) 7)
    (newSession (MkConn [] [] false 0) (lit "me") (keys_of_seed (C:=toy_crypto) (zeros 32)) DefaultTimeout 100 Minute 0)).
  destruct (race_desync (C:=toy_crypto) (CL:=toy_crypto_laws) (zeros 32) (lit "one") (lit "two") 7 b)
    as (st & H1 & H2 & H3 & _).
  - split; [discriminate|reflexivity].
  - split; [split; [discriminate|reflexivity]|]. intros k [= <-]. reflexivity.
  - reflexivity.
  - exists st. split; [exact H1|]. split; [exact H2|exact H3].
Defined.

Lemma race_zero_key_witness :
  ∃ st, steps (C:=toy_crypto) (start_state (lit "a key of any size") 0 [lit "secret"]) st ∧
    wire st = [sealed (C:=toy_crypto) (zeros 17) 0 (lit "secret")].
Proof.
  destruct (race_zero_key (C:=toy_crypto) (CL:=toy_crypto_laws) (lit "a key of any size") (lit "secret") 0)
    as (st & H1 & H2 & _).
  exists st. exact (conj H1 H2).
Defined.
