(* ===== verification/Client.v ===== *)
(** * The client (client/client.go)

    The state all handlers share, and the operations of package [client] that
    are not HTTP: sending, queueing and flushing, broadcasting, and everything
    a decrypted frame can trigger. A [*Session] is an index in a heap, since
    handlers hold sessions that the [sessions] map no longer (or not under
    that key) has. Logging is left out: it changes nothing. *)

From S2P Require Import Prelude Config Stdin Crypto Keys Signal Message Wire RateLimit Base64 Monad Platform Store MessageStore Session.

Record pendingFile := MkPending { pd_meta : fileMeta; pd_received : Z; pd_buf : bytes }.

(** The fields of [Client] that do not change. *)
Record Client := MkClient {
  c_Keys : Keys;
  c_Timeout : Z;
  c_RateLimit : Z;
  c_RateWindow : Z;
  c_MaxMessageSize : Z
}.

(** The fields [New] sets from the configuration. *)
Definition client_of (cfg : Config) (k : Keys) : Client :=
  MkClient k (Timeout cfg) (RateLimit cfg) (RateWindow cfg) (CfgMaxMessageSize cfg).

(** The shared state: the store, the sessions ever created, the [sessions]
    map, and [pendingFiles]. *)
Record CW := MkCW {
  cw_store : SW;
  heap : list Session;
  sessions : gmap Key nat;
  pendingFiles : gmap UUID pendingFile
}.

Definition set_store w x := MkCW w (heap x) (sessions x) (pendingFiles x).
Definition set_heap f x := MkCW (cw_store x) (f (heap x)) (sessions x) (pendingFiles x).
Definition set_sessions f x := MkCW (cw_store x) (heap x) (f (sessions x)) (pendingFiles x).
Definition set_pending f x := MkCW (cw_store x) (heap x) (sessions x) (f (pendingFiles x)).

Record Info_ := MkInfo { info_Name : gostring; info_ProfilePic : UUID }.

(** One [Read] of an [io.Reader]: the bytes it returned and its error. *)
Record read := MkRead { rd_data : bytes; rd_err : option error }.

Section Client.
Context {P : Platform} {E : Env} (c : Client).

Definition on_store {A} (m : M SW A) : M CW A := zoom cw_store set_store m.

(** A call on the session a pointer denotes. *)
Definition on_session {A} (sid : nat) (m : M SS A) : M CW A := λ x,
  match heap x !! sid with
  | None => (Panic "invalid memory address or nil pointer dereference", x)
  | Some s => let '(o, y) := m (MkSS s (cw_store x)) in
              (o, set_store (ss_world y) (set_heap (<[sid := ss_sess y]>) x))
  end.
Definition sess_gets {A} (sid : nat) (f : Session → A) : M CW A :=
  on_session sid (gets (λ y, f (ss_sess y))).
Definition sess_modify (sid : nat) (f : Session → Session) : M CW unit :=
  on_session sid (modify (upd_sess f)).

(** [c.sessions.Load(k)] *)
Definition sessions_Load (k : Key) : M CW (option nat) := gets (λ x, sessions x !! k).

(** [c.sessions.Range(f)], when [f] always returns true. *)
Definition sessions_Range (f : Key → nat → M CW unit) : M CW unit :=
  t ← on_store next;
  x ← get_state;
  for_each (env_range t (sessions x)) (λ kv, f kv.1 kv.2).

Definition priv : Key := Private (c_Keys c).
Definition pub : Key := Public (c_Keys c).

Definition Info : M CW Info_ :=
  r ← attempt (on_store ProfileStore.Get);
  mret (match r with
        | inl p => MkInfo (ProfileStore.prof_Name p) (ProfileStore.prof_ProfilePic p)
        | inr _ => MkInfo [] NilUUID
        end).

Definition setName (s : gostring) : M CW unit :=
  info ← Info;
  ignore (on_store (ProfileStore.Update s (info_ProfilePic info))).

Definition getName : M CW gostring := info ← Info; mret (info_Name info).

(** [message.NewMessage(to, content)] *)
Definition NewMessage (to content : gostring) : M CW message.Message :=
  now ← on_store time_Now;
  id ← on_store uuid_New;
  mret (message.NewMessage id now to content []).

(** ** Sending *)

(** The start of [sendMessage] and of [sendMessageToPeer]: store the message
    (a failure is only logged), then build its envelope. *)
Definition store_and_seal (msg : message.Message) : M CW bytes :=
  let msg := set_FromPubKey pub msg in
  name ← getName;
  r ← attempt (on_store (msgstore.Put priv name msg));
  let msg := match r with inl (m, _) => m | inr _ => msg end in
  payload ← wrapping "encode message" (lift (message.Encode msg));
  wrapping "client: signal" (lift (signal.New signal.Message pub NilUUID payload)).

Definition sendMessage (sid : nat) (msg : message.Message) : M CW unit :=
  sig ← store_and_seal msg;
  on_session sid (send sig).

Definition queueSignal (targetPubKey : Key) (sig : bytes) : M CW unit :=
  wrapping "queue signal" (on_store (OutboxStore.Put targetPubKey sig priv));;
  mret tt.

Definition sendMessageToPeer (targetPubKey : Key) (msg : message.Message) : M CW unit :=
  sig ← store_and_seal msg;
  v ← sessions_Load targetPubKey;
  match v with
  | None => queueSignal targetPubKey sig
  | Some sid =>
      st ← sess_gets sid status;
      if negb (bool_decide (st = Accepted)) then queueSignal targetPubKey sig
      else on_session sid (send sig)
  end.

Definition file_chunk (id : UUID) (chunk : bytes) : bytes := x00 :: vec_to_list id ++ chunk.

(** The loop of [sendFile] over the reads of [data]; a reader that returned
    everything reports EOF. *)
Fixpoint send_chunks (sid : nat) (id : UUID) (data : list read) : M CW unit :=
  match data with
  | [] => mret tt
  | r :: data' =>
      when (len (rd_data r) >? 0)%Z
        (let plain := file_chunk id (rd_data r) in
         sent ← attempt (on_session sid (send plain));
         match sent with
         | inl _ => mret tt
         | inr _ =>
             target ← sess_gets sid peerPubKey;
             wrapping "queue file chunk failed" (queueSignal target plain)
         end);;
      match rd_err r with
      | Some e =>
          if bool_decide (e = EEOF) then mret tt
          (* wraps the outer [err], which is nil here *)
          else throw (ENew "read file data: %!w(<nil>)")
      | None => send_chunks sid id data'
      end
  end.

Definition sendFile (sid : nat) (id : UUID) (name mimeType : gostring) (size : Z) (data : list read)
    : M CW unit :=
  metaRaw ← lift (encodeFileMeta (MkFileMeta name size mimeType));
  sig ← wrapping "client: file send" (lift (signal.New signal.FileMeta pub id metaRaw));
  wrapping "send file meta" (on_session sid (send sig));;
  send_chunks sid id data.

Fixpoint flush_entries (sid : nat) (entries : list OutboxStore.OutboxSignal) : M CW unit :=
  match entries with
  | [] => mret tt
  | entry :: entries' =>
      r ← attempt (on_session sid (send (OutboxStore.SignalContent entry)));
      match r with
      | inr _ => ignore (on_store (OutboxStore.IncrementRetry (OutboxStore.ob_ID entry)))
      | inl _ =>
          ignore (on_store (OutboxStore.Delete (OutboxStore.ob_ID entry)));;
          flush_entries sid entries'
      end
  end.

Definition flushOutbox (pubKey : Key) : M CW unit :=
  r ← attempt (on_store (OutboxStore.Get pubKey priv));
  match r with
  | inr _ => mret tt
  | inl entries =>
      if bool_decide (entries = []) then mret tt else
      v ← sessions_Load pubKey;
      match v with
      | None => mret tt
      | Some sid =>
          st ← sess_gets sid status;
          if negb (bool_decide (st = Accepted)) then mret tt else flush_entries sid entries
      end
  end.

Definition sendToAll (content : gostring) : M CW unit :=
  now ← on_store time_Now;
  sessions_Range (λ _ sid,
    name ← sess_gets sid peerName;
    msg ← NewMessage name content;
    ignore (sendMessage sid (set_MsgTime now msg))).

(** The lines of standard input, in write mode. *)
Definition stdinLoop (input : gostring) : M CW unit :=
  for_each (readStdin input) (λ line, if bool_decide (line = []) then mret tt else sendToAll line).

(** ** Broadcasts *)

Definition broadcast (payload : bytes) : M CW unit :=
  sessions_Range (λ _ sid, ignore (on_session sid (send payload))).

Definition broadcastDelete (id : UUID) : M CW unit :=
  r ← attempt (lift (signal.New signal.Delete pub id []));
  match r with inr _ => mret tt | inl payload => broadcast payload end.

Definition broadcastUpdate (id : UUID) (content : gostring) : M CW unit :=
  r ← attempt (lift (signal.New signal.Update pub id content));
  match r with inr _ => mret tt | inl payload => broadcast payload end.

Definition broadcastInfoChanged : M CW unit :=
  r ← attempt (lift (signal.New signal.InfoChanged pub NilUUID []));
  match r with
  | inr _ => mret tt
  | inl payload =>
      sessions_Range (λ _ sid,
        sent ← attempt (on_session sid (send payload));
        match sent with
        | inl _ => mret tt
        | inr _ => target ← sess_gets sid peerPubKey; ignore (queueSignal target payload)
        end)
  end.

Definition requestPeerInfo (sid : nat) : M CW unit :=
  r ← attempt (lift (signal.New signal.InfoRequest pub NilUUID []));
  match r with inr _ => mret tt | inl sig => ignore (on_session sid (send sig)) end.

(** ** Handlers of signals *)

Definition displayNameForPubKey (pubKey : Key) : M CW gostring :=
  r ← attempt (on_store (KnownPeerStore.Get pubKey));
  let n := match r with
           | inl peer => if bool_decide (KnownPeerStore.Nickname peer = [])
                         then KnownPeerStore.PeerName peer else KnownPeerStore.Nickname peer
           | inr _ => []
           end in
  mret (if bool_decide (n = []) then take 16 (Key_String pubKey) else n).

Definition verifyAuthor (id : UUID) (pubKey : Key) : M CW message.Message :=
  msg ← wrapping "get message" (on_store (msgstore.Get priv id));
  if bool_decide (message.FromPubKey msg = NilKey) || bool_decide (pubKey ≠ message.FromPubKey msg)
  then throw (ENew "sender pubkey does not match message author")
  else mret msg.

Definition verifyAndDelete (sig : signal.Signal) (pubKey : Key) : M CW unit :=
  verifyAuthor (signal.ID sig) pubKey;;
  wrapping "verify delete" (on_store (msgstore.Delete priv (signal.ID sig))).

Definition verifyAndUpdate (sig : signal.Signal) (pubKey : Key) : M CW unit :=
  msg ← verifyAuthor (signal.ID sig) pubKey;
  name ← getName;
  wrapping "verify update"
    (on_store (msgstore.Update priv (signal.ID sig) name (set_Content (signal.Content sig) msg))).

Definition handleInfoRequest (pubKey : Key) : M CW unit :=
  info ← Info;
  pic ← (if bool_decide (info_ProfilePic info = NilUUID) then mret []
         else r ← attempt (on_store (FileStore.Get priv (info_ProfilePic info)));
              mret (match r with inl data => data | inr _ => [] end));
  payload ← lift (encodeInfoResponse (MkInfoResponse (info_Name info) pic));
  r ← attempt (lift (signal.New signal.InfoResponse pub NilUUID payload));
  match r with
  | inr _ => mret tt
  | inl sig =>
      v ← sessions_Load pubKey;
      match v with
      | None => mret tt
      | Some sid => ignore (on_session sid (send sig))
      end
  end.

Definition set_PeerName n p := KnownPeerStore.MkPeer (KnownPeerStore.PeerIP p) (KnownPeerStore.PubKey p) n
  (KnownPeerStore.Nickname p) (KnownPeerStore.Status p) (KnownPeerStore.Online p) (KnownPeerStore.LastSeen p) (KnownPeerStore.ProfilePic p).
Definition set_Status st p := KnownPeerStore.MkPeer (KnownPeerStore.PeerIP p) (KnownPeerStore.PubKey p)
  (KnownPeerStore.PeerName p) (KnownPeerStore.Nickname p) st (KnownPeerStore.Online p) (KnownPeerStore.LastSeen p) (KnownPeerStore.ProfilePic p).
Definition set_LastSeen t p := KnownPeerStore.MkPeer (KnownPeerStore.PeerIP p) (KnownPeerStore.PubKey p)
  (KnownPeerStore.PeerName p) (KnownPeerStore.Nickname p) (KnownPeerStore.Status p) (KnownPeerStore.Online p) t (KnownPeerStore.ProfilePic p).
Definition set_ProfilePic i p := KnownPeerStore.MkPeer (KnownPeerStore.PeerIP p) (KnownPeerStore.PubKey p)
  (KnownPeerStore.PeerName p) (KnownPeerStore.Nickname p) (KnownPeerStore.Status p) (KnownPeerStore.Online p) (KnownPeerStore.LastSeen p) i.

Definition handleInfoResponse (pubKey : Key) (content : bytes) : M CW unit :=
  d ← attempt (lift (decodeInfoResponse content));
  match d with
  | inr _ => mret tt
  | inl resp =>
      if bool_decide (ir_Name resp = []) && (len (ir_ProfilePic resp) =? 0)%Z then mret tt else
      r ← attempt (on_store (KnownPeerStore.Get pubKey));
      match r with
      | inr _ => mret tt
      | inl peer =>
          (* [None]: storing the picture failed, the handler returns *)
          newID ← (if (len (ir_ProfilePic resp) >? 0)%Z
                   then id ← on_store uuid_New;
                        p ← attempt (on_store (FileStore.PutWithID priv id [] (ir_ProfilePic resp)));
                        match p with
                        | inr _ => mret None
                        | inl _ => ignore (on_store (FileStore.Delete (KnownPeerStore.ProfilePic peer)));;
                                   mret (Some id)
                        end
                   else mret (Some NilUUID));
          match newID with
          | None => mret tt
          | Some newID =>
              let peer := if bool_decide (ir_Name resp = []) then peer else set_PeerName (ir_Name resp) peer in
              let peer := if bool_decide (newID = NilUUID) then peer else set_ProfilePic newID peer in
              ignore (on_store (KnownPeerStore.Add peer))
          end
      end
  end.

Definition handleInfoChanged (pubKey : Key) : M CW unit :=
  v ← sessions_Load pubKey;
  match v with None => mret tt | Some sid => requestPeerInfo sid end.

Definition handlePeerAccepted (pubKey : Key) : M CW unit :=
  r ← attempt (on_store (KnownPeerStore.Get pubKey));
  match r with
  | inr _ => mret tt
  | inl peer =>
      ignore (on_store (KnownPeerStore.Add (set_Status Accepted peer)));;
      v ← sessions_Load pubKey;
      match v with
      | None => mret tt
      | Some sid => sess_modify sid (setStatus Accepted)
      end
  end.

Definition handleSignal (sig : signal.Signal) (pubKey : Key) : M CW unit :=
  let typ := signal.Type' sig in
  if bool_decide (typ = signal.Message) then
    if bool_decide (signal.From sig ≠ pubKey) then mret tt else
    m ← attempt (lift (message.ToMessage (signal.Content sig)));
    match m with
    | inr _ => mret tt
    | inl msg =>
        let msg := set_FromPubKey pubKey msg in
        fromName ← displayNameForPubKey pubKey;
        ignore (on_store (msgstore.Put priv fromName msg));;
        getName;;
        mret tt
    end
  else if bool_decide (typ = signal.FileMeta) then
    if bool_decide (signal.From sig ≠ pubKey) then mret tt else
    m ← attempt (lift (decodeFileMeta (signal.Content sig)));
    match m with
    | inr _ => mret tt
    | inl meta => modify (set_pending (<[signal.ID sig := MkPending meta 0 []]>))
    end
  else if bool_decide (typ = signal.Delete) then
    if bool_decide (signal.From sig ≠ pubKey) then mret tt else ignore (verifyAndDelete sig pubKey)
  else if bool_decide (typ = signal.Update) then
    if bool_decide (signal.From sig ≠ pubKey) then mret tt else ignore (verifyAndUpdate sig pubKey)
  else if bool_decide (typ = signal.InfoRequest) then handleInfoRequest pubKey
  else if bool_decide (typ = signal.InfoResponse) then handleInfoResponse pubKey (signal.Content sig)
  else if bool_decide (typ = signal.InfoChanged) then handleInfoChanged pubKey
  else if bool_decide (typ = signal.PeerAccepted) then handlePeerAccepted pubKey
  else mret tt.

(** ** Files *)

Definition finalizeFile (id : UUID) (pf : pendingFile) : M CW unit :=
  let att := message.MkAttachment id (fm_Name (pd_meta pf)) (fm_MIME (pd_meta pf))
               (fm_Size (pd_meta pf)) (pd_buf pf) in
  ignore (on_store (msgstore.StoreAttachments priv [] [att]));;
  modify (set_pending (delete id)).

Definition handleFileChunk (plain : bytes) : M CW unit :=
  if (len plain <? FileIDLen)%Z then mret tt else
  idb ← lift (slice plain 0 FileIDLen);
  let id := array_of 16 idb in
  data ← lift (slice_from plain FileIDLen);
  x ← get_state;
  match pendingFiles x !! id with
  | None => mret tt
  | Some pf =>
      let pf := MkPending (pd_meta pf) (wrap64 (pd_received pf + len data)) (pd_buf pf ++ data) in
      modify (set_pending (<[id := pf]>));;
      when (pd_received pf >=? fm_Size (pd_meta pf))%Z (finalizeFile id pf)
  end.

(** ** Dispatch *)

(** [sess.msgLimiter.Allow()] *)
Definition allow (sid : nat) : M CW bool :=
  now ← on_store time_Now;
  l ← sess_gets sid s_limiter;
  '(ok, l) ← lift (Allow l now);
  sess_modify sid (set_limiter l);;
  mret ok.

(** The signals a peer that is not accepted may send. *)
Definition open_signal (typ : gostring) : bool :=
  bool_decide (typ = signal.InfoRequest) || bool_decide (typ = signal.InfoResponse) ||
  bool_decide (typ = signal.InfoChanged) || bool_decide (typ = signal.PeerAccepted).

Definition handleDecrypted (plain : bytes) (sid : nat) (pubKey : Key) : M CW unit :=
  match plain with
  | [] => mret tt
  | b :: rest =>
      if bool_decide (b = signal.Marker) then
        p ← attempt (lift (signal.Parse plain));
        match p with
        | inr _ => mret tt
        | inl sig =>
            st ← sess_gets sid status;
            if negb (bool_decide (st = Accepted)) then
              if open_signal (signal.Type' sig) then handleSignal sig pubKey else mret tt
            else
              ok ← allow sid;
              if negb ok then mret tt else handleSignal sig pubKey
        end
      else handleFileChunk rest
  end.

(** ** Starting and stopping *)

(** What [New] does to the store: the name of the command line, when there is
    one, becomes the profile, with no picture. *)
Definition client_New (cfg : Config) : M CW unit :=
  when (negb (bool_decide (ClientName cfg = [])))
    (ignore (on_store (ProfileStore.Update (ClientName cfg) NilUUID))).

(** [Shutdown], without the HTTP server's own. *)
Definition Shutdown : M CW unit := sessions_Range (λ _ sid, ignore (on_session sid closeConn)).

End Client.
