(* ===== verification/Handlers.v ===== *)
(** * Connections (client/handlers.go, client/peer.go)

    Accepting and dialling connections, the read loop of a session, and its
    cleanup. A connection comes with all the frames the peer will send, so a
    read loop is a finite run: [readLoop] is given one unit of fuel per frame
    and one more, which is enough ([ReadLoop]). The ping and pong handlers run inside
    a read and only touch its deadline, which the environment's network stands
    for. *)

From S2P Require Import Prelude Net Config Crypto Keys Signal Message Wire RateLimit Base64 Monad Platform Store MessageStore Session Client.

Definition transport_prefix : gostring := lit "/transport/".

(** [strings.TrimPrefix] *)
Definition TrimPrefix (s pre : gostring) : gostring :=
  if HasPrefix s pre then drop (length pre) s else s.

Definition isValidPubKey (s : gostring) : bool :=
  if negb (len s =? PubKeyLen)%Z then false
  else match hex_DecodeString s with Ret b => (len b =? 32)%Z | _ => false end.

(** [defer k(); m]: [k] runs however [m] ends. *)
Definition deferring {S A} (m : M S A) (k : M S unit) : M S A := λ s,
  let '(o, s') := m s in
  match k s' with
  | (Panic p, s'') => (Panic p, s'')
  | (_, s'') => (o, s'')
  end.

(** What became of a request to open a websocket. *)
Inductive ws_result := Refused (code : Z) | UpgradeFailed | Served.

(** The scheme and the path of the URL that is dialled. *)
Definition dial_scheme (tls : bool) : gostring := if tls then lit "wss" else lit "ws".
Definition dial_path (c : Client) : gostring := transport_prefix ++ Key_String (pub c).

(** What [dialer.Dial] gave. *)
Inductive dial_result := Dialed (conn : Conn) | DialConflict | DialFailed.

Section Handlers.
Context {P : Platform} {E : Env} (c : Client).

(** A fresh session on the heap. *)
Definition alloc (s : Session) : M CW nat :=
  x ← get_state;
  modify (set_heap (λ h, h ++ [s]));;
  mret (length (heap x)).

Definition new_session (conn : Conn) : M CW nat :=
  name ← getName;
  now ← on_store time_Now;
  alloc (newSession conn name (c_Keys c) (c_Timeout c) (c_RateLimit c) (c_RateWindow c) now).

Definition set_limit (n : Z) (conn : Conn) : Conn := MkConn (c_in conn) (c_out conn) (c_closed conn) n.

(** [conn.SetReadLimit] on the connection of a session. *)
Definition SetReadLimit (n : Z) (s : Session) : Session := set_conn (set_limit n <$> s_conn s) s.

(** [if p, err := Get(k); err == nil { p = f(p); _ = Add(p) }] *)
Definition touch_peer (pubKey : Key) (f : KnownPeerStore.KnownPeer → KnownPeerStore.KnownPeer) : M CW unit :=
  r ← attempt (on_store (KnownPeerStore.Get pubKey));
  match r with
  | inl p => ignore (on_store (KnownPeerStore.Add (f p)))
  | inr _ => mret tt
  end.

Definition seen_now (pubKey : Key) : M CW unit :=
  r ← attempt (on_store (KnownPeerStore.Get pubKey));
  match r with
  | inl p => now ← on_store time_Now; ignore (on_store (KnownPeerStore.Add (set_LastSeen now p)))
  | inr _ => mret tt
  end.

(** ** The ping loop *)

(** What [select] finds: the ticker, or the end of the context. *)
Inductive ping_event := Tick | Done.

(** [true]: a ping failed, and [cancel] was called. *)
Fixpoint pingLoop (sid : nat) (l : list ping_event) : M CW bool :=
  match l with
  | [] | Done :: _ => mret false
  | Tick :: l' =>
      r ← attempt (on_session sid WriteControl);
      match r with
      | inr _ => mret true
      | inl _ => pingLoop sid l'
      end
  end.

(** ** The read loop *)

(** One frame: [None] when the loop returns. *)
Definition read_frame (sid : nat) (pubKey : Key) : M CW (option error) :=
  d ← attempt (on_session sid SetReadDeadline);
  match d with
  | inr e => mret (Some (EWrap "set read deadline" e))
  | inl _ =>
      r ← attempt (on_session sid ReadMessage);
      match r with
      | inr e => mret (Some (EWrap "read" e))
      | inl data =>
          p ← attempt (on_session sid (on_sess (decrypt data)));
          match p with
          | inr _ => mret None
          | inl plain => handleDecrypted c plain sid pubKey;; mret None
          end
      end
  end.

Fixpoint read_frames (fuel : nat) (sid : nat) (pubKey : Key) : M CW unit :=
  match fuel with
  | O => throw (ENew "out of fuel")
  | S fuel' =>
      r ← read_frame sid pubKey;
      match r with
      | Some e => throw e
      | None => read_frames fuel' sid pubKey
      end
  end.

(** The frames a session has still to read. *)
Definition unread (s : Session) : nat :=
  match s_conn s with Some conn => length (c_in conn) | None => 0 end.

Definition cleanup (sid : nat) (pubKey : Key) : M CW unit :=
  modify (set_sessions (delete pubKey));;
  seen_now pubKey;;
  ignore (on_session sid closeConn).

Definition readLoop (sid : nat) : M CW unit :=
  pubKey ← sess_gets sid peerPubKey;
  deferring
    (sess_modify sid (SetReadLimit (c_MaxMessageSize c));;
     n ← sess_gets sid unread;
     read_frames (S n) sid pubKey)
    (cleanup sid pubKey).

(** ** Accepting *)

Definition closeExistingSession (pubKey : Key) : M CW unit :=
  v ← sessions_Load pubKey;
  match v with
  | None => mret tt
  | Some old =>
      modify (set_sessions (delete pubKey));;
      seen_now pubKey;;
      ignore (on_session old closeConn)
  end.

(** [startSession] up to the read loop: [None] if the handshake failed. *)
Definition open_session (conn : Conn) (pubKey : Key) (st : gostring) : M CW (option nat) :=
  sid ← new_session (set_limit (c_MaxMessageSize c) conn);
  sess_modify sid (setStatus st);;
  r ← attempt (on_session sid (handshake false));
  match r with
  | inr _ => ignore (on_session sid Close);; mret None
  | inl _ =>
      modify (set_sessions (<[pubKey := sid]>));;
      name ← sess_gets sid peerName;
      touch_peer pubKey (set_PeerName name);;
      flushOutbox c pubKey;;
      (if bool_decide (st = Pending) then requestPeerInfo c sid else mret tt);;
      mret (Some sid)
  end.

Definition startSession (conn : Conn) (pubKey : Key) (st : gostring) : M CW unit :=
  r ← open_session conn pubKey st;
  match r with
  | None => mret tt
  | Some sid => ignore (readLoop sid)
  end.

(** The status of the peer a request names, who is saved as pending when new;
    [inr] is the status code of a refusal. *)
Definition admit_peer (pubKey : Key) (peerIP : gostring) : M CW (gostring + Z) :=
  r ← attempt (on_store (KnownPeerStore.Get pubKey));
  match r with
  | inl knownPeer => mret (inl (KnownPeerStore.Status knownPeer))
  | inr e =>
      if negb (os_IsNotExist e) then mret (inr 500%Z) else
      a ← attempt (on_store (KnownPeerStore.Add
            (KnownPeerStore.MkPeer (net_ParseIP peerIP) pubKey [] [] Pending false zero_time NilUUID)));
      match a with
      | inr _ => mret (inr 500%Z)
      | inl _ => mret (inl Pending)
      end
  end.

(** The checks of [handleWS] before the upgrade. *)
Definition check_ws (path remoteAddr : gostring) : M CW (Key * gostring + Z) :=
  let key := TrimPrefix path transport_prefix in
  if negb (isValidPubKey key) then mret (inr 400%Z) else
  match FromHex key with
  | Ret pubKey =>
      if bool_decide (pubKey = pub c) then mret (inr 403%Z) else
      match net_SplitHostPort remoteAddr with
      | Ret (peerIP, _) =>
          a ← admit_peer pubKey peerIP;
          match a with
          | inr code => mret (inr code)
          | inl st =>
              if bool_decide (st = Rejected) then mret (inr 403%Z) else
              v ← sessions_Load pubKey;
              match v with
              | Some _ => mret (inr 409%Z)
              | None => mret (inl (pubKey, st))
              end
          end
      | _ => mret (inr 400%Z)
      end
  | _ => mret (inr 400%Z)
  end.

Definition handleWS (path remoteAddr : gostring) (upgrade : outcome Conn) : M CW ws_result :=
  r ← check_ws path remoteAddr;
  match r with
  | inr code => mret (Refused code)
  | inl (pubKey, st) =>
      match upgrade with
      | Ret conn =>
          closeExistingSession pubKey;;
          startSession conn pubKey st;;
          mret Served
      | _ => mret UpgradeFailed
      end
  end.

(** ** Dialling *)

Definition parsePeerIP (addr : gostring) : bytes :=
  match net_SplitHostPort addr with
  | Ret (host, _) => net_ParseIP host
  | _ => net_ParseIP addr
  end.

Definition errSessionExists : error := ENew "session already active for peer".

(** [storeSession] once it has found no session under the key. *)
Definition fileSession (pubKey : Key) (sid : nat) : M CW unit :=
  r ← attempt (on_store (KnownPeerStore.Get pubKey));
  match r with
  | inl peer =>
      sess_modify sid (setStatus (KnownPeerStore.Status peer));;
      name ← sess_gets sid peerName;
      ignore (on_store (KnownPeerStore.Add (set_PeerName name peer)))
  | inr _ => sess_modify sid (setStatus Pending)
  end;;
  modify (set_sessions (<[pubKey := sid]>));;
  flushOutbox c pubKey.

Definition storeSession (sid : nat) : M CW unit :=
  pubKey ← sess_gets sid peerPubKey;
  v ← sessions_Load pubKey;
  match v with
  | Some _ => throw errSessionExists
  | None => fileSession pubKey sid
  end.

(** A peer that is not in the database is added, as accepted: [isNew]. *)
Definition addIfNew (addr : gostring) (sid : nat) : M CW bool :=
  pubKey ← sess_gets sid peerPubKey;
  k ← attempt (on_store (KnownPeerStore.Get pubKey));
  let isNew := match k with inl _ => false | inr _ => true end in
  when isNew
    (name ← sess_gets sid peerName;
     ignore (on_store (KnownPeerStore.Add
       (KnownPeerStore.MkPeer (parsePeerIP addr) pubKey name [] Accepted false zero_time NilUUID))));;
  mret isNew.

Definition dialAndHandshake (addr : gostring) (dial : dial_result) : M CW nat :=
  match dial with
  | DialConflict => throw (ENew "session already active for this peer")
  | DialFailed => throw (EWrap "dial" (EExternal "dial"))
  | Dialed conn =>
      sid ← new_session conn;
      h ← attempt (on_session sid (handshake true));
      match h with
      | inr e => ignore (on_session sid Close);; throw (EWrap "handshake" e)
      | inl _ =>
          isNew ← addIfNew addr sid;
          s ← attempt (storeSession sid);
          match s with
          | inr e => ignore (on_session sid Close);; throw (EWrap "store session" e)
          | inl _ =>
              when isNew (sess_modify sid (setStatus Pending);; requestPeerInfo c sid);;
              mret sid
          end
      end
  end.

(** [connectSession] starts the read loop of the session it returns as a
    goroutine of its own. *)
Definition connectSession (addr : gostring) (dial : dial_result) : M CW nat := dialAndHandshake addr dial.

(** One line of [peerWriteLoop]. *)
Definition write_line (sid : nat) (line : gostring) : M CW unit :=
  name ← sess_gets sid peerName;
  msg ← NewMessage name line;
  ignore (sendMessage c sid msg).

(** What happens next in [connectAndChat], whose read loop and write loop run
    side by side: a turn of the one, or a typed line for the other. *)
Inductive chat_step := Receive | Typed (line : gostring).

(** The two loops up to the first that returns: [Some] is what [readLoop] sends
    on [errCh], after its cleanup; [None] is the end of the context, which the
    read loop does not notice. The channel of lines is never closed. *)
Fixpoint chat_steps (sid : nat) (pubKey : Key) (l : list chat_step) : M CW (option error) :=
  match l with
  | [] => mret None
  | Typed line :: l' => write_line sid line;; chat_steps sid pubKey l'
  | Receive :: l' =>
      r ← read_frame sid pubKey;
      match r with
      | None => chat_steps sid pubKey l'
      | Some e => cleanup sid pubKey;; mret (Some e)
      end
  end.

(** [Some e]: a [disconnectedError]; [None]: the context ended. Any other error
    is an error here. *)
Definition connectAndChat (addr : gostring) (dial : dial_result) (l : list chat_step) : M CW (option error) :=
  sid ← dialAndHandshake addr dial;
  pubKey ← sess_gets sid peerPubKey;
  sess_modify sid (SetReadLimit (c_MaxMessageSize c));;
  chat_steps sid pubKey l.

(** [ConnectToPeer], given what each attempt meets; the context ends after the
    last. It returns whether it gave up before that. *)
Fixpoint ConnectToPeer (addr : gostring) (attempts : list (dial_result * list chat_step)) : M CW bool :=
  match attempts with
  | [] => mret false
  | (dial, l) :: attempts' =>
      r ← attempt (connectAndChat addr dial l);
      match r with
      | inl (Some _) => ConnectToPeer addr attempts'
      | inl None => mret false
      | inr _ => mret true
      end
  end.

End Handlers.
