(* ===== verification/ClientFacts.v ===== *)
(** * The invariant of the client

    What every operation of the client keeps, whatever fails and whatever peers
    send: the message store is coherent and readable, the tables are typed,
    every session's keys and counters are well formed, and the [sessions] map
    points at sessions. *)

From S2P Require Import Prelude Config Crypto Keys Signal Message Wire RateLimit Base64 Monad Platform.
From S2P Require Import Store MessageStore StoreFacts Tables Session SessionFacts Client Handlers.

(** ** Store operations that leave messages alone *)

Section StoreOps.
Context {P : Platform} {E : Env} {PL : PlatformLaws P}.
Variable secret : Key.

Abbreviation keeps_store m := (preserves (store_inv secret) m).

Lemma next_store : keeps_store next.
Proof. intros w. by apply store_inv_same. Qed.
Hint Resolve next_store : chat.

Lemma db_exec_store f : (∀ d, chats (f d) = chats d) → keeps_store (db_exec f).
Proof.
  intros Hf. unfold db_exec. apply preserves_bind; [auto with chat|]. intros t.
  case_match; [auto with chat|]. apply preserves_modify. intros w. by apply store_inv_chats; cbn.
Qed.

Hint Extern 1 (preserves _ (db_exec _)) => apply db_exec_store; reflexivity : chat.

Lemma db_query_store {A} (q : DB → A) : keeps_store (db_query q).
Proof. unfold db_query. preserve. Qed.
Hint Resolve db_query_store : chat.

Lemma time_Now_store : keeps_store time_Now.
Proof. unfold time_Now. preserve. Qed.
Lemma uuid_New_store : keeps_store uuid_New.
Proof. unfold uuid_New. preserve. Qed.
Hint Resolve time_Now_store uuid_New_store : chat.

Lemma encryptRaw_store k p : keeps_store (encryptRaw k p).
Proof. unfold encryptRaw, rand_nonce. preserve. Qed.
Hint Resolve encryptRaw_store : chat.

Lemma PeerAdd_store p : keeps_store (KnownPeerStore.Add p).
Proof. unfold KnownPeerStore.Add. preserve. Qed.
Lemma PeerGet_store k : keeps_store (KnownPeerStore.Get k).
Proof. unfold KnownPeerStore.Get. preserve. Qed.
Lemma PeerList_store : keeps_store KnownPeerStore.List.
Proof. unfold KnownPeerStore.List. preserve. Qed.
Lemma FilePut_store k id m d : keeps_store (FileStore.PutWithID k id m d).
Proof. unfold FileStore.PutWithID. preserve. Qed.
Lemma FileGet_store k id : keeps_store (FileStore.Get k id).
Proof. unfold FileStore.Get. preserve. Qed.
Lemma FileDelete_store id : keeps_store (FileStore.Delete id).
Proof. unfold FileStore.Delete. preserve. Qed.
Lemma OutboxGet_store t k : keeps_store (OutboxStore.Get t k).
Proof. unfold OutboxStore.Get. preserve. Qed.
Lemma OutboxList_store : keeps_store OutboxStore.List.
Proof. unfold OutboxStore.List. preserve. Qed.
Lemma OutboxDelete_store id : keeps_store (OutboxStore.Delete id).
Proof. unfold OutboxStore.Delete. preserve. Qed.
Lemma OutboxRetry_store id : keeps_store (OutboxStore.IncrementRetry id).
Proof. unfold OutboxStore.IncrementRetry. preserve. Qed.
Lemma ProfileGet_store : keeps_store ProfileStore.Get.
Proof. unfold ProfileStore.Get. preserve. Qed.
Lemma ProfileUpdate_store n id : keeps_store (ProfileStore.Update n id).
Proof. unfold ProfileStore.Update. preserve. Qed.
Lemma db_exec_opt_store f : (∀ d d', f d = Some d' → chats d' = chats d) → keeps_store (db_exec_opt f).
Proof.
  intros Hf w Hw. unfold db_exec_opt. rewrite bind_run. cbn.
  destruct (env_db (tick w)); [by apply (store_inv_same secret w)|]. cbn.
  rewrite bind_run. cbn. destruct (f (db w)) eqn:Ef; cbn; [|by apply (store_inv_same secret w)].
  apply (store_inv_chats secret w); [by apply Hf|done..].
Qed.

Lemma OutboxPut_store t raw k : keeps_store (OutboxStore.Put t raw k).
Proof.
  unfold OutboxStore.Put. preserve. apply db_exec_opt_store. intros d d'.
  case_match; [done|]. by intros [= <-].
Qed.
End StoreOps.

#[export] Hint Resolve next_store db_query_store time_Now_store uuid_New_store encryptRaw_store
  PeerAdd_store PeerGet_store PeerList_store FilePut_store FileGet_store FileDelete_store
  OutboxGet_store OutboxList_store OutboxDelete_store OutboxRetry_store ProfileGet_store
  ProfileUpdate_store OutboxPut_store : chat.

(** ** Messages *)

Section MsgOps.
Context {P : Platform} {E : Env} {PL : PlatformLaws P}.
Variable secret : Key.

Lemma ToMessage_sizes data m : message.ToMessage data = Ret m → sizes_ok m.
Proof.
  intros Hm. pose proof (message.ToMessage_post data) as Hp. rewrite Hm in Hp.
  destruct Hp as [[_ Hatts] _]. eapply Forall_impl; [exact Hatts|]. intros a (_ & _ & Hs & _). lia.
Qed.

Lemma msg_view_sizes d id m : msg_view secret d id = Some m → sizes_ok m.
Proof.
  unfold msg_view. destruct (plain_at _ _ _) as [v|]; [cbn|done].
  destruct (message.ToMessage v) eqn:Em; [|done..]. intros [= <-]. by apply ToMessage_sizes in Em.
Qed.

Lemma MsgPut_store n m : sizes_ok m → preserves (store_inv secret) (msgstore.Put secret n m).
Proof. intros Hm w. by apply (run_op_inv secret (OpPut n m)). Qed.
Lemma MsgGet_store id : preserves (store_inv secret) (msgstore.Get secret id).
Proof. intros w. by apply (run_op_inv secret (OpGet id)). Qed.
Lemma MsgUpdate_store id n m : sizes_ok m → preserves (store_inv secret) (msgstore.Update secret id n m).
Proof. intros Hm w. by apply (run_op_inv secret (OpUpdate id n m)). Qed.
Lemma MsgDelete_store id : preserves (store_inv secret) (msgstore.Delete secret id).
Proof. intros w. by apply (run_op_inv secret (OpDelete id)). Qed.
Lemma MsgSearch_store q l : preserves (store_inv secret) (msgstore.Search secret q l).
Proof. intros w. by apply (run_op_inv secret (OpSearch q l)). Qed.
Lemma MsgAttachments_store i l : preserves (store_inv secret) (msgstore.StoreAttachments secret i l).
Proof. intros w. by apply (run_op_inv secret (OpStoreAttachments i l)). Qed.
Lemma ChatList_store : preserves (store_inv secret) ChatStore.List.
Proof. unfold ChatStore.List. preserve. Qed.
End MsgOps.

#[export] Hint Resolve MsgPut_store MsgGet_store MsgUpdate_store MsgDelete_store MsgSearch_store
  MsgAttachments_store ChatList_store : chat.

(** The messages and the tables together. *)
Definition world_inv `{P : Platform} {E : Env} (secret : Key) (w : SW) : Prop :=
  store_inv secret w ∧ tables_inv secret w.

Lemma world_both `{P : Platform} {E : Env} secret {A} (m : M SW A) :
  preserves (store_inv secret) m → preserves (tables_inv secret) m → preserves (world_inv secret) m.
Proof. intros H1 H2 w [Hs Ht]. split; [by apply H1|by apply H2]. Qed.
#[export] Hint Resolve world_both : chat.

(** ** Sessions *)

Section SessionOps.
Context {P : Platform} {E : Env} {PL : PlatformLaws P}.
Variable secret : Key.

Definition ss_inv (y : SS) : Prop := session_wf (ss_sess y) ∧ world_inv secret (ss_world y).

Lemma on_sess_inv {A} (m : M Session A) : preserves session_wf m → preserves ss_inv (on_sess m).
Proof.
  intros Hm [s w] [Hs Hw]. unfold on_sess, zoom. cbn in *. specialize (Hm s Hs).
  by destruct (m s).
Qed.
Lemma on_world_inv {A} (m : M SW A) : preserves (world_inv secret) m → preserves ss_inv (on_world m).
Proof.
  intros Hm [s w] [Hs Hw]. unfold on_world, zoom. cbn in *. specialize (Hm w Hw).
  by destruct (m w).
Qed.

Lemma set_conn_wf cn s : session_wf s → session_wf (set_conn cn s).
Proof. done. Qed.

Lemma upd_conn_inv cn : preserves ss_inv (modify (upd_sess (set_conn cn))).
Proof. by apply preserves_modify. Qed.
Hint Resolve on_sess_inv on_world_inv upd_conn_inv : chat.

Lemma get_state_ss : preserves ss_inv get_state.
Proof. by intros y. Qed.
Hint Resolve get_state_ss : chat.

Lemma net_call_inv : preserves ss_inv net_call.
Proof. unfold net_call. preserve. Qed.
Hint Resolve net_call_inv : chat.
Lemma the_conn_inv : preserves ss_inv the_conn.
Proof. unfold the_conn. preserve. Qed.
Hint Resolve the_conn_inv : chat.
Lemma SetReadDeadline_inv : preserves ss_inv SetReadDeadline.
Proof. unfold SetReadDeadline. preserve. Qed.
Lemma SetWriteDeadline_inv : preserves ss_inv SetWriteDeadline.
Proof. unfold SetWriteDeadline. preserve. Qed.
Lemma WriteMessage_inv f : preserves ss_inv (WriteMessage f).
Proof. unfold WriteMessage. preserve. Qed.
Lemma ReadMessage_inv : preserves ss_inv ReadMessage.
Proof. unfold ReadMessage. preserve. Qed.
Lemma Close_inv : preserves ss_inv Close.
Proof. unfold Close. preserve. Qed.
Hint Resolve SetReadDeadline_inv SetWriteDeadline_inv WriteMessage_inv ReadMessage_inv Close_inv : chat.

Lemma encrypt_wf plain : preserves session_wf (encrypt plain).
Proof.
  intros s Hs. destruct (cs_key (sendr s)) as [k|] eqn:Ek.
  - rewrite (encrypt_run _ _ k) by (apply Hs || done). cbn. split; [apply bump_wf, Hs|apply Hs].
  - by rewrite encrypt_no_key.
Qed.

Lemma decrypt_wf data : preserves session_wf (decrypt data).
Proof.
  intros s Hs. destruct (decrypt_cases data s) as [[e ->]|(k & n4 & p & _ & _ & _ & ->)]; [apply Hs|done|].
  split; [apply Hs|apply bump_wf, Hs].
Qed.

Lemma deriveKeys_wf shared i peer : preserves session_wf (deriveKeys shared i peer).
Proof.
  assert (∀ k, cipher_wf (MkCipher (Some (sha256_Sum k)) 0)) as Hwf.
  { intros k. split; [done|]. intros ? [= <-]. apply sha256_length. }
  intros s Hs. unfold deriveKeys, modify. cbn. destruct i; split; apply Hwf.
Qed.
Hint Resolve encrypt_wf decrypt_wf deriveKeys_wf : chat.

Lemma WriteControl_inv : preserves ss_inv WriteControl.
Proof. unfold WriteControl. preserve. Qed.
Lemma send_inv plain : preserves ss_inv (send plain).
Proof. unfold send. preserve. Qed.
Lemma closeConn_inv : preserves ss_inv closeConn.
Proof.
  unfold closeConn. apply preserves_bind; [|preserve]. apply on_sess_inv, preserves_modify.
  by intros s [[H1 _] [H2 _]].
Qed.
Lemma handshake_inv i : preserves ss_inv (handshake i).
Proof. unfold handshake, GenerateKey, doSend, doRecv. preserve. Qed.
End SessionOps.

#[export] Hint Resolve on_sess_inv on_world_inv WriteControl_inv SetReadDeadline_inv ReadMessage_inv Close_inv encrypt_wf
  decrypt_wf deriveKeys_wf send_inv closeConn_inv handshake_inv : chat.

(** ** Calls on a session *)

Section OnSession.
Context {P : Platform} {E : Env}.

Lemma heap_id x sid s : heap x !! sid = Some s → set_store (cw_store x) (set_heap (<[sid := s]>) x) = x.
Proof. intros Hs. destruct x. unfold set_store, set_heap. cbn in *. by rewrite list_insert_id. Qed.

Lemma on_store_wp {A} (m : M SW A) Q x :
  wp m Q (cw_store x) →
  wp (on_store m) (λ o x', Q o (cw_store x') ∧ x' = set_store (cw_store x') x) x.
Proof. unfold wp, on_store, zoom. by destruct (m (cw_store x)). Qed.

Lemma sess_gets_run {A} sid (f : Session → A) x s :
  heap x !! sid = Some s → sess_gets sid f x = (Ret (f s), x).
Proof.
  intros Hs. unfold sess_gets, on_session, gets. rewrite Hs. cbn. by rewrite heap_id.
Qed.

Lemma sess_modify_run sid f x s :
  heap x !! sid = Some s → sess_modify sid f x = (Ret tt, set_heap (<[sid := f s]>) x).
Proof. intros Hs. unfold sess_modify, on_session, modify. rewrite Hs. cbn. by destruct x. Qed.
End OnSession.

(** ** The client *)

Section ClientOps.
Context {P : Platform} {E : Env} {PL : PlatformLaws P} (c : Client).

(** The invariant, for a heap of at least [n] sessions. *)
Definition client_inv_at (n : nat) (x : CW) : Prop :=
  store_inv (priv c) (cw_store x) ∧ Forall session_wf (heap x) ∧
  map_Forall (λ _ sid, sid < length (heap x)) (sessions x) ∧ n ≤ length (heap x) ∧
  tables_inv (priv c) (cw_store x).

Definition client_inv : CW → Prop := client_inv_at 0.

(** The outbox of a client reads back, so long as its clock stays in range. *)
Lemma client_outbox x : clock_ok (E:=E) → client_inv x → outbox_inv (priv c) (db (cw_store x)).
Proof. intros Hc (_ & _ & _ & _ & Ht). by apply sc_outbox, typed_scans. Qed.

(** A state with no session is sound when its store is. *)
Lemma client_inv_idle w : store_inv (priv c) w → tables_inv (priv c) w → client_inv (MkCW w [] ∅ ∅).
Proof. intros Hs Ht. split; [done|]. split; [apply Forall_nil_2|]. split; [apply map_Forall_empty|done]. Qed.

Section At.
Variable n : nat.
Abbreviation keeps m := (preserves (client_inv_at n) m).

Lemma on_store_inv {A} (m : M SW A) : preserves (world_inv (priv c)) m → keeps (on_store m).
Proof.
  intros Hm x (Hs & Hh & Hp & Hn & Ht). unfold on_store, zoom. destruct (Hm (cw_store x)) as [H1 H2]; [done|].
  destruct (m (cw_store x)) as [o w]. by split.
Qed.

Lemma on_session_inv {A} sid (m : M SS A) : preserves (ss_inv (priv c)) m → keeps (on_session sid m).
Proof.
  intros Hm x (Hs & Hh & Hp & Hn & Ht). unfold on_session. destruct (heap x !! sid) as [s|] eqn:Es; [|done].
  destruct (Hm (MkSS s (cw_store x))) as [H1 [H2 H3]].
  { split; [|done]. cbn. by eapply Forall_lookup_1. }
  destruct (m _) as [o y]. cbn in *. split; [done|]. cbn. rewrite !length_insert.
  split; [by apply Forall_insert|]. done.
Qed.
Hint Resolve on_store_inv on_session_inv : chat.

Lemma get_state_inv : keeps get_state.
Proof. by intros x. Qed.
Hint Resolve get_state_inv : chat.

Lemma sess_gets_inv {A} sid (f : Session → A) : keeps (sess_gets sid f).
Proof. apply on_session_inv, preserves_gets. Qed.
Hint Resolve sess_gets_inv : chat.

(** Changing what is neither a key nor a counter. *)
Lemma sess_modify_inv sid f :
  (∀ s, sendr (f s) = sendr s ∧ recv (f s) = recv s) → keeps (sess_modify sid f).
Proof.
  intros Hf. apply on_session_inv, preserves_modify. intros [s w] [[H1 H2] Hw]. split; [|done].
  destruct (Hf s) as [E1 E2]. split; cbn; by rewrite ?E1, ?E2.
Qed.

Lemma setStatus_inv sid st : keeps (sess_modify sid (setStatus st)).
Proof. by apply sess_modify_inv. Qed.
Lemma set_limiter_inv sid l : keeps (sess_modify sid (set_limiter l)).
Proof. by apply sess_modify_inv. Qed.
Hint Resolve setStatus_inv set_limiter_inv : chat.

Lemma sessions_Load_inv k : keeps (sessions_Load k).
Proof. unfold sessions_Load. preserve. Qed.
Hint Resolve sessions_Load_inv : chat.

Lemma sessions_Range_inv f : (∀ k sid, keeps (f k sid)) → keeps (sessions_Range f).
Proof. intros Hf. unfold sessions_Range. preserve. Qed.

Lemma set_pending_inv f : keeps (modify (set_pending f)).
Proof. by apply preserves_modify. Qed.
Hint Resolve set_pending_inv : chat.

Lemma sessions_delete_inv k : keeps (modify (set_sessions (delete k))).
Proof.
  apply preserves_modify. intros x (Hs & Hh & Hp & Hn). split; [done|]. split; [done|].
  split; [by apply map_Forall_delete|done].
Qed.
Hint Resolve sessions_delete_inv : chat.

Lemma Info_inv : keeps Info.
Proof. unfold Info. preserve. Qed.
Hint Resolve Info_inv : chat.
Lemma setName_inv s : keeps (setName s).
Proof. unfold setName. preserve. Qed.
Lemma getName_inv : keeps getName.
Proof. unfold getName. preserve. Qed.
Hint Resolve setName_inv getName_inv : chat.

Lemma store_and_seal_inv msg : sizes_ok msg → keeps (store_and_seal c msg).
Proof.
  intros Hm. unfold store_and_seal. assert (sizes_ok (set_FromPubKey (pub c) msg)) by done. preserve.
Qed.
Lemma sendMessage_inv sid msg : sizes_ok msg → keeps (sendMessage c sid msg).
Proof. intros Hm. unfold sendMessage. apply preserves_bind; [by apply store_and_seal_inv|preserve]. Qed.

Lemma queueSignal_inv t sig : keeps (queueSignal c t sig).
Proof. unfold queueSignal. preserve. Qed.
Hint Resolve queueSignal_inv : chat.

Lemma sendMessageToPeer_inv t msg : sizes_ok msg → keeps (sendMessageToPeer c t msg).
Proof. intros Hm. unfold sendMessageToPeer. apply preserves_bind; [by apply store_and_seal_inv|preserve]. Qed.

Lemma send_chunks_inv sid id l : keeps (send_chunks c sid id l).
Proof. induction l as [|r l IH]; cbn [send_chunks]; [auto with chat|]. preserve. Qed.
Hint Resolve send_chunks_inv : chat.
Lemma sendFile_inv sid id nm mt sz l : keeps (sendFile c sid id nm mt sz l).
Proof. unfold sendFile. preserve. Qed.

Lemma flush_entries_inv sid l : keeps (flush_entries sid l).
Proof. induction l as [|e l IH]; cbn [flush_entries]; [auto with chat|]. preserve. Qed.
Hint Resolve flush_entries_inv : chat.
Lemma flushOutbox_inv k : keeps (flushOutbox c k).
Proof. unfold flushOutbox. preserve. Qed.
Hint Resolve flushOutbox_inv : chat.

Lemma NewMessage_wp to content x :
  client_inv_at n x →
  wp (NewMessage to content) (λ o x', client_inv_at n x' ∧ ∀ m, o = Ret m → sizes_ok m) x.
Proof.
  intros Hx. unfold NewMessage.
  wp_use (preserves_wp (client_inv_at n)) as o1 x1 H1; [auto with chat|done|].
  destruct o1 as [now|e|p]; [|done..].
  wp_use (preserves_wp (client_inv_at n)) as o2 x2 H2; [auto with chat|done|].
  destruct o2 as [id|e|p]; [|done..]. apply wp_ret. split; [done|]. intros m [= <-]. apply Forall_nil_2.
Qed.

Lemma with_NewMessage_inv {A} to content (f : message.Message → M CW A) :
  (∀ m, sizes_ok m → keeps (f m)) → keeps (NewMessage to content ≫= f).
Proof.
  intros Hf x Hx. pose proof (NewMessage_wp to content x Hx) as [Hx' Ho]. rewrite bind_run.
  destruct (NewMessage to content x) as [[m|e|p] x']; cbn in *; [|done..]. apply Hf; auto.
Qed.

Lemma sendToAll_inv content : keeps (sendToAll c content).
Proof.
  unfold sendToAll. apply preserves_bind; [auto with chat|]. intros now. apply sessions_Range_inv.
  intros k sid. apply preserves_bind; [auto with chat|]. intros nm. apply with_NewMessage_inv.
  intros m Hm. apply preserves_ignore. by apply sendMessage_inv.
Qed.

Lemma stdinLoop_inv input : keeps (stdinLoop c input).
Proof. unfold stdinLoop. pose proof sendToAll_inv. preserve. Qed.
Lemma client_New_inv cfg : keeps (client_New cfg).
Proof. unfold client_New. preserve. Qed.
Lemma Shutdown_inv : keeps Shutdown.
Proof. unfold Shutdown. apply sessions_Range_inv. preserve. Qed.

Lemma broadcast_inv payload : keeps (broadcast payload).
Proof. unfold broadcast. apply sessions_Range_inv. preserve. Qed.
Hint Resolve broadcast_inv : chat.
Lemma broadcastDelete_inv id : keeps (broadcastDelete c id).
Proof. unfold broadcastDelete. preserve. Qed.
Lemma broadcastUpdate_inv id content : keeps (broadcastUpdate c id content).
Proof. unfold broadcastUpdate. preserve. Qed.
Lemma broadcastInfoChanged_inv : keeps (broadcastInfoChanged c).
Proof. unfold broadcastInfoChanged. preserve. apply sessions_Range_inv. preserve. Qed.
Lemma requestPeerInfo_inv sid : keeps (requestPeerInfo c sid).
Proof. unfold requestPeerInfo. preserve. Qed.
Hint Resolve requestPeerInfo_inv : chat.

(** *** Handlers of signals *)

Lemma displayName_inv k : keeps (displayNameForPubKey k).
Proof. unfold displayNameForPubKey. preserve. Qed.
Hint Resolve displayName_inv : chat.

(** What [message.Get] returns has the sizes the codec allows. *)
Lemma on_store_Get_wp id x :
  client_inv_at n x →
  wp (on_store (msgstore.Get (priv c) id)) (λ o x', client_inv_at n x' ∧
    heap x' = heap x ∧ sessions x' = sessions x ∧ pendingFiles x' = pendingFiles x ∧
    db (cw_store x') = db (cw_store x) ∧
    match o with
    | Ret m => msg_view (priv c) (db (cw_store x)) id = Some m
    | Err _ => no_faults E → msg_view (priv c) (db (cw_store x)) id = None
    | Panic _ => False
    end) x.
Proof.
  intros (Hs & Hh & Hp & Hn & Ht). pose proof (Get_wp (priv c) id _ Hs) as (Hd & Hi & Ho).
  unfold wp, on_store, zoom. destruct (msgstore.Get (priv c) id (cw_store x)) as [o w].
  cbn in *. split; [split; [done|]; repeat (split; [done|]); by apply (same_tables_inv _ (cw_store x))|]. auto 10.
Qed.

Lemma verifyAuthor_wp id k x :
  client_inv_at n x →
  wp (verifyAuthor c id k) (λ o x', client_inv_at n x' ∧ db (cw_store x') = db (cw_store x) ∧
    match o with
    | Ret m => msg_view (priv c) (db (cw_store x)) id = Some m ∧ message.FromPubKey m = k ∧ k ≠ NilKey
    | Err _ => True
    | Panic _ => False
    end) x.
Proof.
  intros Hx. unfold verifyAuthor. wp_use (on_store_Get_wp id x Hx) as o1 x1 (H1 & _ & _ & _ & Hd & Ho).
  destruct o1 as [m|e|p]; [|by auto|done].
  destruct (bool_decide_reflect (message.FromPubKey m = NilKey)); [by apply wp_throw|]. cbn [orb].
  case_bool_decide as Hk; [by apply wp_throw|]. apply wp_ret. subst. auto.
Qed.

Lemma verifyAndDelete_inv sig k : keeps (verifyAndDelete c sig k).
Proof.
  intros x Hx. destruct (verifyAuthor_wp (signal.ID sig) k x Hx) as (H1 & _ & Ho).
  unfold verifyAndDelete. rewrite bind_run.
  destruct (verifyAuthor c (signal.ID sig) k x) as [[m|e|p] x1]; cbn in *; [|done..].
  assert (keeps (wrapping "verify delete" (on_store (msgstore.Delete (priv c) (signal.ID sig))))) as Hk by preserve.
  by apply Hk.
Qed.

Lemma verifyAndUpdate_inv sig k : keeps (verifyAndUpdate c sig k).
Proof.
  intros x Hx. destruct (verifyAuthor_wp (signal.ID sig) k x Hx) as (H1 & _ & Ho).
  unfold verifyAndUpdate. rewrite bind_run.
  destruct (verifyAuthor c (signal.ID sig) k x) as [[m|e|p] x1]; cbn in *; [|done..].
  assert (sizes_ok (set_Content (signal.Content sig) m)) as Hm.
  { destruct Ho as [Hv _]. by apply msg_view_sizes in Hv. }
  match goal with |- client_inv_at _ (?m x1).2 => assert (keeps m) as Hk by preserve end.
  by apply Hk.
Qed.
Hint Resolve verifyAndDelete_inv verifyAndUpdate_inv : chat.

Lemma handleInfoRequest_inv k : keeps (handleInfoRequest c k).
Proof. unfold handleInfoRequest. preserve. Qed.
Lemma handleInfoResponse_inv k content : keeps (handleInfoResponse c k content).
Proof. unfold handleInfoResponse. preserve. Qed.
Lemma handleInfoChanged_inv k : keeps (handleInfoChanged c k).
Proof. unfold handleInfoChanged. preserve. Qed.
Lemma handlePeerAccepted_inv k : keeps (handlePeerAccepted k).
Proof. unfold handlePeerAccepted. preserve. Qed.
Hint Resolve handleInfoRequest_inv handleInfoResponse_inv handleInfoChanged_inv handlePeerAccepted_inv : chat.

Lemma receive_message_inv content k :
  keeps (m ← attempt (lift (message.ToMessage content));
         match m with
         | inr _ => mret tt
         | inl msg =>
             let msg := set_FromPubKey k msg in
             fromName ← displayNameForPubKey k;
             ignore (on_store (msgstore.Put (priv c) fromName msg));;
             getName;;
             mret tt
         end).
Proof.
  apply preserves_attempt_lift; [|auto with chat]. intros m Hm. cbv zeta.
  assert (sizes_ok (set_FromPubKey k m)) by (by apply ToMessage_sizes in Hm). preserve.
Qed.

Lemma handleSignal_inv sig k : keeps (handleSignal c sig k).
Proof.
  unfold handleSignal. case_bool_decide; [case_bool_decide; [auto with chat|apply receive_message_inv]|].
  preserve.
Qed.
Hint Resolve handleSignal_inv : chat.

Lemma finalizeFile_inv id pf : keeps (finalizeFile c id pf).
Proof. unfold finalizeFile. preserve. Qed.
Hint Resolve finalizeFile_inv : chat.
Lemma handleFileChunk_inv plain : keeps (handleFileChunk c plain).
Proof. unfold handleFileChunk. preserve. Qed.
Lemma allow_inv sid : keeps (allow sid).
Proof. unfold allow. preserve. Qed.
Hint Resolve handleFileChunk_inv allow_inv : chat.

Lemma handleDecrypted_inv plain sid k : keeps (handleDecrypted c plain sid k).
Proof. unfold handleDecrypted. preserve. Qed.
Hint Resolve handleDecrypted_inv : chat.

(** *** Connections *)

Lemma preserves_deferring {A} (m : M CW A) k : keeps m → keeps k → keeps (deferring m k).
Proof.
  intros Hm Hk x Hx. unfold deferring. specialize (Hm x Hx). destruct (m x) as [o x'].
  specialize (Hk x' Hm). by destruct (k x') as [[]].
Qed.

Lemma touch_peer_inv k f : keeps (touch_peer k f).
Proof. unfold touch_peer. preserve. Qed.
Lemma seen_now_inv k : keeps (seen_now k).
Proof. unfold seen_now. preserve. Qed.
Hint Resolve touch_peer_inv seen_now_inv : chat.

Lemma read_frame_inv sid k : keeps (read_frame c sid k).
Proof. unfold read_frame. preserve. Qed.
Hint Resolve read_frame_inv : chat.
Lemma read_frames_inv fuel sid k : keeps (read_frames c fuel sid k).
Proof. induction fuel as [|fuel IH]; cbn [read_frames]; preserve. Qed.
Hint Resolve read_frames_inv : chat.
Lemma cleanup_inv sid k : keeps (cleanup sid k).
Proof. unfold cleanup. preserve. Qed.

Lemma SetReadLimit_inv sid l : keeps (sess_modify sid (SetReadLimit l)).
Proof. by apply sess_modify_inv. Qed.
Hint Resolve SetReadLimit_inv : chat.

Lemma readLoop_inv sid : keeps (readLoop c sid).
Proof.
  unfold readLoop. apply preserves_bind; [preserve|]. intros k.
  apply preserves_deferring; [preserve|apply cleanup_inv].
Qed.
Hint Resolve readLoop_inv : chat.

Lemma closeExistingSession_inv k : keeps (closeExistingSession k).
Proof. unfold closeExistingSession. preserve. Qed.
Lemma admit_peer_inv k ip : keeps (admit_peer k ip).
Proof. unfold admit_peer. preserve. Qed.
Hint Resolve closeExistingSession_inv admit_peer_inv : chat.
Lemma check_ws_inv path addr : keeps (check_ws c path addr).
Proof. unfold check_ws. preserve. Qed.
Hint Resolve check_ws_inv : chat.
Lemma write_line_inv sid line : keeps (write_line c sid line).
Proof.
  unfold write_line. apply preserves_bind; [auto with chat|]. intros nm. apply with_NewMessage_inv.
  intros m Hm. apply preserves_ignore. by apply sendMessage_inv.
Qed.

Lemma sessions_insert_inv k sid : sid < n → keeps (modify (set_sessions (<[k := sid]>))).
Proof.
  intros Hlt. apply preserves_modify. intros x (Hs & Hh & Hp & Hn). split; [done|]. split; [done|].
  split; [|done]. cbn. apply map_Forall_insert_2; [lia|done].
Qed.

Lemma pingLoop_inv sid l : keeps (pingLoop sid l).
Proof. induction l as [|[|] l IH]; cbn [pingLoop]; preserve. Qed.

Lemma fileSession_inv k sid : sid < n → keeps (fileSession c k sid).
Proof. intros Hlt. unfold fileSession. pose proof (sessions_insert_inv k sid Hlt). preserve. Qed.
Lemma storeSession_inv sid : sid < n → keeps (storeSession c sid).
Proof. intros Hlt. unfold storeSession. pose proof (λ k, fileSession_inv k sid Hlt). preserve. Qed.
Lemma addIfNew_inv addr sid : keeps (addIfNew addr sid).
Proof. unfold addIfNew. preserve. Qed.
End At.
End ClientOps.

#[export] Hint Resolve on_store_inv on_session_inv get_state_inv sess_gets_inv setStatus_inv sessions_Load_inv
  set_pending_inv sessions_delete_inv Info_inv setName_inv getName_inv queueSignal_inv sendFile_inv
  flushOutbox_inv broadcastDelete_inv broadcastUpdate_inv broadcastInfoChanged_inv requestPeerInfo_inv
  displayName_inv handleSignal_inv handleDecrypted_inv touch_peer_inv readLoop_inv
  closeExistingSession_inv check_ws_inv write_line_inv addIfNew_inv : chat.

Section Sessions.
Context {P : Platform} {E : Env} {PL : PlatformLaws P} (c : Client).

Lemma client_inv_weaken n m x : m ≤ n → client_inv_at c n x → client_inv_at c m x.
Proof. intros Hm (?&?&?&?&?). repeat (split; [done|]). split; [lia|done]. Qed.

(** A new session gets an index of its own. *)
Lemma with_new_session_wp {A} n conn (f : nat → M CW A) Q x :
  client_inv_at c n x →
  (∀ sid x', n ≤ sid → client_inv_at c (S sid) x' → wp (f sid) Q x') →
  (∀ o x', (∀ a, o ≠ Ret a) → client_inv_at c n x' → Q o x') →
  wp (new_session c conn ≫= f) Q x.
Proof.
  intros Hx Hf HQ. unfold new_session, wp.
  pose proof (getName_inv c n x Hx) as H1. rewrite bind_run, bind_run.
  destruct (getName x) as [[nm|e|p] x1]; cbn in H1; [|by apply HQ..]. rewrite bind_run.
  pose proof (on_store_inv c n time_Now ltac:(auto with chat) x1 H1) as H2.
  destruct (on_store time_Now x1) as [[now|e|p] x2]; cbn in H2; [|by apply HQ..].
  unfold alloc, get_state, modify. cbn. rewrite bind_run. cbn. rewrite bind_run. cbn.
  destruct H2 as (Hs & Hh & Hp & Hn & Ht). apply Hf; [done|].
  assert (length (heap x2 ++ [newSession conn nm (c_Keys c) (c_Timeout c) (c_RateLimit c) (c_RateWindow c) now])
    = S (length (heap x2))) as Hl by (rewrite length_app; cbn; lia).
  split; [done|]. cbn. rewrite Hl. split; [|split; [|by split]].
  - apply Forall_app_2; [done|]. apply Forall_singleton. by split; split.
  - intros k sid Hk. specialize (Hp k sid Hk). cbn in *. lia.
Qed.

Lemma with_new_session_inv {A} n conn (f : nat → M CW A) :
  (∀ sid, n ≤ sid → preserves (client_inv_at c (S sid)) (f sid)) →
  preserves (client_inv_at c n) (new_session c conn ≫= f).
Proof.
  intros Hf x Hx. apply (with_new_session_wp n conn f (λ _, client_inv_at c n) x Hx); [|done].
  intros sid x' Hsid Hx'. apply (client_inv_weaken (S sid) n); [lia|]. by apply Hf.
Qed.

Section Top.
Variable n : nat.
Abbreviation keeps m := (preserves (client_inv_at c n) m).

Lemma open_session_inv conn k st : keeps (open_session c conn k st).
Proof.
  unfold open_session. apply with_new_session_inv. intros sid Hsid.
  pose proof (sessions_insert_inv c (S sid) k sid ltac:(lia)).
  preserve.
Qed.

Lemma startSession_inv conn k st : keeps (startSession c conn k st).
Proof.
  unfold startSession. apply preserves_bind; [apply open_session_inv|]. intros [sid|]; [|auto with chat].
  apply preserves_ignore, readLoop_inv.
Qed.

Lemma handleWS_inv path addr up : keeps (handleWS c path addr up).
Proof.
  unfold handleWS. apply preserves_bind; [apply check_ws_inv|]. intros [[k st]|code]; [|auto with chat].
  destruct up; [|auto with chat..]. apply preserves_bind; [apply closeExistingSession_inv|]. intros _.
  apply preserves_bind; [apply startSession_inv|]. auto with chat.
Qed.

Lemma dialAndHandshake_inv addr dial : keeps (dialAndHandshake c addr dial).
Proof.
  unfold dialAndHandshake. destruct dial; [|auto with chat..]. apply with_new_session_inv. intros sid Hsid.
  pose proof (storeSession_inv c (S sid) sid ltac:(lia)).
  preserve.
Qed.

Lemma chat_steps_inv sid k l : keeps (chat_steps c sid k l).
Proof.
  pose proof (cleanup_inv c n sid k : keeps _). pose proof (read_frame_inv c n sid k : keeps _).
  pose proof (write_line_inv c n sid : ∀ line, keeps _).
  induction l as [|[|line] l IH]; cbn [chat_steps]; preserve.
Qed.
Lemma connectAndChat_inv addr dial l : keeps (connectAndChat c addr dial l).
Proof.
  unfold connectAndChat. pose proof (dialAndHandshake_inv addr dial). pose proof (λ sid k, chat_steps_inv sid k l).
  pose proof (λ sid, SetReadLimit_inv c n sid (c_MaxMessageSize c) : keeps _).
  pose proof (λ sid, sess_gets_inv c n sid peerPubKey : keeps _). preserve.
Qed.
Lemma ConnectToPeer_inv addr l : keeps (ConnectToPeer c addr l).
Proof.
  induction l as [|[dial steps] l IH]; cbn [ConnectToPeer]; [auto with chat|].
  pose proof (connectAndChat_inv addr dial steps). preserve.
Qed.
End Top.
End Sessions.
