(* ===== verification/Delivery.v ===== *)
(** * Delivery (client/client.go, client/handlers.go, client/session.go)

    What sending does when nothing fails: a frame on the wire, or an entry of
    the outbox; flushing; and a message's way from one client's
    [sendMessageToPeer] to the other's store. *)

From S2P Require Import Prelude Config Crypto Keys Signal Message Wire RateLimit Base64 Monad Platform.
From S2P Require Import Store MessageStore StoreFacts Tables Session SessionFacts Handshake Client Handlers ClientFacts.

(** ** Frames put on a connection *)

Definition push (frames : list bytes) (conn : Conn) : Conn :=
  MkConn (c_in conn) (c_out conn ++ frames) (c_closed conn) (c_limit conn).

Section Wire.
Context {P : Platform} {PL : PlatformLaws P}.

(** A session that can send: keys established, connection open. *)
Definition open (s : Session) : Prop :=
  cipher_wf (sendr s) ∧ is_Some (cs_key (sendr s)) ∧ ∃ conn, s_conn s = Some conn ∧ c_closed conn = false.

(** [s'] is [s] after the frames that carry [plains], in order, were written. *)
Definition sent (plains : list bytes) (s s' : Session) : Prop :=
  ∃ frames s1 conn, map_each encrypt plains s = (Ret frames, s1) ∧
    s_conn s = Some conn ∧ s' = set_conn (Some (push frames conn)) s1.

Lemma sent_nil s : open s → sent [] s s.
Proof.
  intros (_ & _ & conn & Hc & _). exists [], s, conn. split; [done|]. split; [done|].
  unfold push. rewrite app_nil_r. destruct conn, s. cbn in *. by rewrite Hc.
Qed.

(** Encryption does not look at the connection. *)
Lemma encrypt_conn cn plain s :
  encrypt plain (set_conn cn s) = ((encrypt plain s).1, set_conn cn (encrypt plain s).2).
Proof.
  unfold encrypt, get_state. rewrite !bind_run. cbn. destruct (cs_key (sendr s)) as [k|]; [|done].
  rewrite put_nonce. repeat (rewrite bind_run; cbn). unfold lift.
  by destruct (aesGCM k).
Qed.

Lemma encrypts_conn cn plains s :
  map_each encrypt plains (set_conn cn s) =
    ((map_each encrypt plains s).1, set_conn cn (map_each encrypt plains s).2).
Proof.
  revert s. induction plains as [|p l IH]; intros s; [done|].
  rewrite !map_each_cons, !bind_run, encrypt_conn.
  destruct (encrypt p s) as [[f|e|q] s1]; cbn; [|done..]. rewrite !bind_run, IH.
  by destruct (map_each encrypt l s1) as [[]].
Qed.

(** One more frame. *)
Lemma sent_cons p plains s s1 s2 : sent [p] s s1 → sent plains s1 s2 → sent (p :: plains) s s2.
Proof.
  intros (f1 & t1 & conn & H1 & Hc & ->) (f2 & t2 & conn2 & H2 & Hc2 & ->).
  rewrite map_each_cons, bind_run in H1. destruct (encrypt p s) as [[f|e|q] u] eqn:Ep; cbn in H1; [|done..].
  change (_ = _) with ((Ret [f], u) = (Ret f1, t1)) in H1. simplify_eq. cbn in Hc2. simplify_eq. rewrite encrypts_conn in H2.
  destruct (map_each encrypt plains _) as [o t3] eqn:E3; cbn in H2. simplify_eq.
  exists (f :: f2), t3, conn. split; [by rewrite map_each_cons, bind_run, Ep, bind_run, E3|]. split; [done|].
  unfold push; cbn. by rewrite <-app_assoc.
Qed.

Lemma sent_open plains s s' : open s → sent plains s s' → open s'.
Proof.
  intros (Hwf & Hk & conn & Hc & Hcl) (frames & s1 & conn' & He & Hc' & ->). simplify_eq.
  destruct (encrypt_all plains s Hwf Hk) as (fr & s2 & He2 & Hwf2 & Hk2 & _ & _ & _).
  rewrite He2 in He. simplify_eq. split; [done|]. split; [cbn; by rewrite Hk2|]. by eexists.
Qed.

(** What else sending changes: nothing but the sending counter. *)
Lemma encrypt_frame plain s : (encrypt plain s).2 = set_sendr (sendr (encrypt plain s).2) s.
Proof.
  unfold encrypt, get_state. rewrite !bind_run. cbn. destruct (cs_key (sendr s)) as [k|]; [|by destruct s].
  rewrite put_nonce. repeat (rewrite bind_run; cbn). unfold lift.
  by destruct (aesGCM k).
Qed.
Lemma encrypts_frame plains s :
  (map_each encrypt plains s).2 = set_sendr (sendr (map_each encrypt plains s).2) s.
Proof.
  revert s. induction plains as [|p l IH]; intros s; [by destruct s|].
  rewrite map_each_cons, bind_run. pose proof (encrypt_frame p s) as Hf.
  destruct (encrypt p s) as [[f|e|q] s1]; cbn in *; [|done..]. rewrite bind_run. specialize (IH s1).
  destruct (map_each encrypt l s1) as [[fs|e|q] s2]; cbn in *; by rewrite IH, Hf.
Qed.

Lemma sent_frame plains s s' :
  sent plains s s' → s' = set_conn (s_conn s') (set_sendr (sendr s') s).
Proof.
  intros (fr & s1 & conn & He & Hc & ->). pose proof (encrypts_frame plains s) as Hf. rewrite He in Hf.
  cbn in *. by rewrite Hf.
Qed.

(** The frames a linked peer reads. *)
Lemma sent_linked plains a a' b :
  linked a b → sent plains a a' →
  ∃ frames conn b', s_conn a = Some conn ∧ s_conn a' = Some (push frames conn) ∧
    map_each decrypt frames b = (Ret plains, b') ∧ linked a' b'.
Proof.
  intros Hl (fr & a1 & conn & He & Hc & ->).
  destruct (delivers plains a b Hl) as (fr' & a2 & b' & He' & Hd & Hl' & _). rewrite He' in He. simplify_eq.
  exists fr, conn, b'. by repeat split; try apply Hl'.
Qed.

Lemma sent_one plain a a' b :
  linked a b → sent [plain] a a' →
  ∃ frame conn, s_conn a = Some conn ∧ s_conn a' = Some (push [frame] conn) ∧
    decrypt frame b = (Ret plain, set_recv (bump (recv b)) b) ∧
    linked a' (set_recv (bump (recv b)) b).
Proof.
  intros (Hr & Hwf & key & Hk) (fr & a1 & conn & He & Hc & ->).
  rewrite map_each_cons, bind_run, (encrypt_run plain a key) in He by done.
  change (_ = _) with ((Ret (A:=list bytes) [sealed key (cs_nonce (sendr a)) plain],
    set_sendr (bump (sendr a)) a) = (Ret fr, a1)) in He. simplify_eq.
  exists (sealed key (cs_nonce (sendr a)) plain), conn. split; [done|]. split; [done|].
  rewrite Hr in *. split; [by apply decrypt_sealed|].
  split; [done|]. split; [by apply bump_wf|]. by exists key.
Qed.

Context {E : Env} (Hnet : net_ok E).

Lemma net_call_same x :
  wp net_call (λ o x', o = Ret tt ∧ ss_sess x' = ss_sess x ∧ same (ss_world x) (ss_world x')) x.
Proof. unfold wp, net_call. rewrite bind_run. cbn. by rewrite (proj1 Hnet). Qed.

Lemma send_wp plain x :
  open (ss_sess x) →
  wp (send plain) (λ o x', o = Ret tt ∧ sent [plain] (ss_sess x) (ss_sess x') ∧
    same (ss_world x) (ss_world x')) x.
Proof.
  intros (Hwf & [key Hk] & conn & Hc & Hcl). destruct x as [s w]. cbn in *. unfold send.
  apply wp_bind. unfold wp at 1, on_sess, zoom. cbn. rewrite (encrypt_run plain s key) by done. cbn [fst snd].
  apply wp_bind. unfold wp at 1, get_state. cbn [fst snd ss_sess]. change (s_conn (set_sendr _ s)) with (s_conn s).
  rewrite Hc. set (s1 := set_sendr _ s). set (x1 := MkSS s1 w).
  assert (∀ y, s_conn (ss_sess y) = Some conn →
    wp the_conn (λ o y', o = Ret conn ∧ y' = y) y) as Htc.
  { intros y Hy. unfold wp, the_conn, get_state. by rewrite bind_run, Hy. }
  apply wp_bind, wp_wrapping. unfold SetWriteDeadline. apply wp_bind.
  eapply wp_conseq; [by apply Htc|]. intros ? ? [-> ->].
  eapply wp_conseq; [apply net_call_same|]. intros ? x2 (-> & H2 & Hs2).
  apply wp_wrapping. unfold WriteMessage. apply wp_bind.
  eapply wp_conseq; [apply Htc; by rewrite H2|]. intros ? ? [-> ->]. apply wp_bind.
  eapply wp_conseq; [apply net_call_same|]. intros ? x3 (-> & H3 & Hs3). rewrite Hcl.
  apply wp_modify. split; [done|]. cbn. split; [|destruct Hs2, Hs3; split; cbn in *; congruence].
  exists [sealed key (cs_nonce (sendr s)) plain], s1, conn.
  split; [by rewrite map_each_cons, bind_run, (encrypt_run plain s key)|]. split; [done|].
  unfold push. by rewrite H3, H2, Hcl.
Qed.
End Wire.

(** ** The outbox *)

Section Flush.
Context {P : Platform} {PL : PlatformLaws P} {E : Env} (c : Client).

(** Only the session at [sid] and the outbox may differ. *)
Definition only_session (sid : nat) (s' : Session) (x x' : CW) : Prop :=
  heap x' = <[sid := s']> (heap x) ∧ sessions x' = sessions x ∧ pendingFiles x' = pendingFiles x.

Lemma only_session_refl sid s x : heap x !! sid = Some s → only_session sid s x x.
Proof. intros Hs. split; [by rewrite list_insert_id|done]. Qed.
Lemma only_session_trans sid s1 s2 x x1 x2 :
  only_session sid s1 x x1 → only_session sid s2 x1 x2 → only_session sid s2 x x2.
Proof. intros (H1 & H2 & H3) (K1 & K2 & K3). unfold only_session. by rewrite K1, H1, list_insert_insert_eq, K2, K3. Qed.
Lemma only_session_store sid s x x1 w :
  only_session sid s x x1 → only_session sid s x (set_store w x1).
Proof. done. Qed.

Lemma on_send_wp sid plain x s :
  net_ok E → heap x !! sid = Some s → open s →
  wp (on_session sid (send plain)) (λ o x', o = Ret tt ∧ ∃ s', sent [plain] s s' ∧
    only_session sid s' x x' ∧ same (cw_store x) (cw_store x')) x.
Proof.
  intros Hn Hs Ho. pose proof (send_wp Hn plain (MkSS s (cw_store x)) Ho) as H.
  unfold wp, on_session in *. rewrite Hs. destruct (send plain _) as [o y]. cbn in *.
  destruct H as (-> & Hse & Hsa). split; [done|]. exists (ss_sess y). by repeat split; try apply Hsa.
Qed.

(** The outbox without some entries. *)
Definition forget (ids : list UUID) (d : DB) : DB :=
  foldl (λ d id, set_outbox (delete (uuid_String id)) d) d ids.

Lemma flush_entries_wp sid entries x s :
  no_faults E → net_ok E → heap x !! sid = Some s → open s →
  wp (flush_entries sid entries) (λ o x', o = Ret tt ∧ ∃ s',
    sent (OutboxStore.SignalContent <$> entries) s s' ∧ only_session sid s' x x' ∧
    db (cw_store x') = forget (OutboxStore.ob_ID <$> entries) (db (cw_store x)) ∧
    cache (cw_store x') = cache (cw_store x)) x.
Proof.
  intros Hf Hn. revert x s. induction entries as [|e l IH]; intros x s Hs Ho; cbn [flush_entries].
  { apply wp_ret. split; [done|]. exists s. split; [by apply sent_nil|]. split; [by apply only_session_refl|done]. }
  wp_use (on_send_wp sid (OutboxStore.SignalContent e) x s Hn Hs Ho) as o1 x1 (-> & s1 & Hse & Hx1 & Hd1 & Hc1).
  wp_use (on_store_wp _ _ x1 (OutboxDelete_wp _ (cw_store x1))) as o2 x2 [[Hc2 Ho2] Hx2].
  destruct o2 as [[]|er|p]; [|by destruct Ho2|done].
  pose proof (sent_open _ _ _ Ho Hse) as Ho1.
  eapply wp_conseq; [apply (IH x2 s1); [|done]|].
  { rewrite Hx2. cbn. rewrite (proj1 Hx1). apply list_lookup_insert_eq. by eapply lookup_lt_Some. }
  intros o x' (-> & s' & Hse' & Hx' & Hd' & Hc'). split; [done|]. exists s'.
  split; [by eapply sent_cons|]. split.
  - eapply only_session_trans; [|exact Hx']. rewrite Hx2. by apply only_session_store.
  - cbn. rewrite <-Hd1, <-Ho2, Hd', Hc', Hc2. done.
Qed.

Lemma waiting_forget k ids target d :
  outbox_inv k d →
  outbox_inv k (forget ids d) ∧
  waiting k (forget ids d) target ≡ₚ filter (λ e, OutboxStore.ob_ID e ∉ ids) (waiting k d target).
Proof.
  revert d. induction ids as [|id ids IH]; intros d Hi; cbn.
  { split; [done|]. rewrite list_filter_all; [done|]. apply Forall_forall. intros e _. apply not_elem_of_nil. }
  destruct (IH _ (outbox_inv_delete k d id Hi)) as [Hi' Hw]. split; [done|]. rewrite Hw.
  rewrite (waiting_delete k d id target Hi), list_filter_filter. apply reflexive_eq, list_filter_iff.
  intros e. rewrite not_elem_of_cons. tauto.
Qed.

(** The accepted session of a peer, if there is one. *)
Definition accepted (x : CW) (k : Key) : option (nat * Session) :=
  sid ← sessions x !! k; s ← heap x !! sid;
  if bool_decide (status s = Accepted) then Some (sid, s) else None.

Lemma OutboxGet_store_wp k x :
  no_faults E → outbox_inv (priv c) (db (cw_store x)) →
  wp (on_store (OutboxStore.Get k (priv c))) (λ o x', ∃ l, o = Ret l ∧
    l ≡ₚ waiting (priv c) (db (cw_store x)) k ∧
    Sorted by_second l ∧
    heap x' = heap x ∧ sessions x' = sessions x ∧ pendingFiles x' = pendingFiles x ∧
    same (cw_store x) (cw_store x')) x.
Proof.
  intros Hn Hi. eapply wp_conseq; [apply on_store_wp, OutboxGet_wp; exact Hi|].
  intros [l|e|p] x' [[Hs Ho] ->]; [|done..]. exists l. by destruct Ho.
Qed.

(** What a flush promises: with an accepted session, every waiting entry, by
    the second it was put in, is on the wire and no longer waiting; the entries
    of other peers stay; without one, nothing changes. *)
Definition flush_post (k : Key) (x : CW) (o : outcome unit) (x' : CW) : Prop :=
  o = Ret tt ∧ outbox_inv (priv c) (db (cw_store x')) ∧ cache (cw_store x') = cache (cw_store x) ∧
  match accepted x k with
  | None => heap x' = heap x ∧ sessions x' = sessions x ∧ pendingFiles x' = pendingFiles x ∧
      db (cw_store x') = db (cw_store x)
  | Some (sid, s) => ∃ entries s', entries ≡ₚ waiting (priv c) (db (cw_store x)) k ∧
      Sorted by_second entries ∧
      sent (OutboxStore.SignalContent <$> entries) s s' ∧ only_session sid s' x x' ∧
      db (cw_store x') = forget (OutboxStore.ob_ID <$> entries) (db (cw_store x)) ∧
      waiting (priv c) (db (cw_store x')) k = [] ∧
      ∀ other, other ≠ k →
        waiting (priv c) (db (cw_store x')) other ≡ₚ waiting (priv c) (db (cw_store x)) other
  end.

Lemma flushed_waiting k entries d :
  outbox_inv (priv c) d → entries ≡ₚ waiting (priv c) d k →
  let d' := forget (OutboxStore.ob_ID <$> entries) d in
  waiting (priv c) d' k = [] ∧
  ∀ other, other ≠ k → waiting (priv c) d' other ≡ₚ waiting (priv c) d other.
Proof.
  intros Hi Hp d'. subst d'. split.
  - apply Permutation_nil_r. rewrite (proj2 (waiting_forget (priv c) (OutboxStore.ob_ID <$> entries) k d Hi)).
    apply reflexive_eq, list_filter_none, Forall_forall. intros e He Hn. apply Hn.
    apply list_elem_of_fmap. exists e. by rewrite Hp.
  - intros other Hne. rewrite (proj2 (waiting_forget (priv c) (OutboxStore.ob_ID <$> entries) other d Hi)).
    rewrite list_filter_all; [done|]. apply Forall_forall. intros e He [e2 [Hid He2]]%list_elem_of_fmap.
    rewrite Hp in He2. destruct (waiting_row _ _ _ _ Hi He) as (r & Hr & Hk).
    destruct (waiting_row _ _ _ _ Hi He2) as (r2 & Hr2 & Hk2). rewrite Hid, Hr2 in Hr. simplify_eq.
    rewrite Hk2 in Hk. by apply Key_String_inj in Hk.
Qed.

Lemma accepted_cases x k :
  match accepted x k with
  | Some (sid, s) => sessions x !! k = Some sid ∧ heap x !! sid = Some s ∧ status s = Accepted
  | None => ∀ sid s, sessions x !! k = Some sid → heap x !! sid = Some s → status s ≠ Accepted
  end.
Proof.
  unfold accepted. destruct (sessions x !! k) as [sid|]; [|done]. cbn -[Accepted].
  destruct (heap x !! sid) as [s|] eqn:Es; cbn -[Accepted]; [|by intros ? ? [= <-]; rewrite Es].
  case_bool_decide; [done|]. intros ? ? [= <-]. rewrite Es. by intros [= <-].
Qed.

Lemma flushOutbox_wp k x :
  no_faults E → net_ok E → outbox_inv (priv c) (db (cw_store x)) →
  (∀ sid s, accepted x k = Some (sid, s) → open s) →
  (∀ sid, sessions x !! k = Some sid → is_Some (heap x !! sid)) →
  wp (flushOutbox c k) (flush_post k x) x.
Proof.
  intros Hf Hn Hi Ho Hp. unfold flushOutbox.
  wp_use (OutboxGet_store_wp k x Hf Hi) as o1 x1 (l & -> & Hl & Hsort & Hh & Hse & Hpf & Hd1 & Hc1).
  pose proof (accepted_cases x k) as Ha. unfold flush_post. destruct (accepted x k) as [[sid s]|].
  - destruct Ha as (Hk & Hs & Hst). specialize (Ho sid s eq_refl). case_bool_decide as Hnil.
    { subst l. apply wp_ret. rewrite Hd1, Hc1. do 3 (split; [done|]). exists [], s. do 2 (split; [done|]).
      split; [by apply sent_nil|]. split; [split; [by rewrite Hh, list_insert_id|done]|].
      split; [done|]. by apply (flushed_waiting k []). }
    apply wp_bind. unfold sessions_Load. apply wp_gets. rewrite Hse, Hk. rewrite <-Hh in Hs.
    apply wp_bind. unfold wp at 1. rewrite (sess_gets_run sid status x1 s Hs). cbn [fst snd].
    rewrite bool_decide_true by done. cbn [negb].
    eapply wp_conseq; [by apply (flush_entries_wp sid l x1 s Hf Hn Hs)|].
    intros o x' (-> & s' & Hsent & (Hh' & Hse' & Hp') & Hd' & Hc'). rewrite Hd1 in Hd'.
    split; [done|]. split; [rewrite Hd'; by apply (waiting_forget _ _ k)|]. split; [by rewrite Hc'|].
    exists l, s'. do 3 (split; [done|]).
    split; [unfold only_session; by rewrite Hh', Hse', Hp', Hh, Hse, Hpf|]. split; [done|].
    rewrite Hd'. by apply flushed_waiting.
  - assert (wp (mret tt) (λ o x', o = Ret () ∧ outbox_inv (priv c) (db (cw_store x')) ∧
      cache (cw_store x') = cache (cw_store x) ∧ heap x' = heap x ∧ sessions x' = sessions x ∧
      pendingFiles x' = pendingFiles x ∧ db (cw_store x') = db (cw_store x)) x1) as Hret
      by (apply wp_ret; by rewrite Hd1, Hc1).
    case_bool_decide as Hnil; [exact Hret|].
    apply wp_bind. unfold sessions_Load. apply wp_gets. rewrite Hse.
    destruct (sessions x !! k) as [sid|]; [|exact Hret]. destruct (Hp sid eq_refl) as [s Hs].
    specialize (Ha sid s eq_refl Hs). rewrite <-Hh in Hs.
    apply wp_bind. unfold wp at 1. rewrite (sess_gets_run sid status x1 s Hs). cbn [fst snd].
    rewrite bool_decide_false by done. exact Hret.
Qed.
End Flush.

(** ** Sending a message *)

Section Send.
Context {P : Platform} {PL : PlatformLaws P} {E : Env} (c : Client).

(** The envelope a message travels in. *)
Definition msg_signal (from : Key) (m : message.Message) : signal.Signal :=
  signal.MkSignal signal.Message from NilUUID (message.layout m).

(** A message [Encode] and [signal.New] accept. *)
Definition sendable (m : message.Message) : Prop :=
  sizes_ok m ∧ message.encodable m ∧ (len (message.layout m) <= MaxUint32)%Z.

Lemma getName_same x :
  wp getName (λ o x', (∃ n, o = Ret n) ∧ x' = set_store (cw_store x') x ∧ same (cw_store x) (cw_store x')) x.
Proof.
  assert (wp ProfileStore.Get (λ o w', is_panic o = false ∧ same (cw_store x) w') (cw_store x)) as Hp.
  { unfold ProfileStore.Get. wp_use db_query_wp as o w [Hs Ho].
    destruct o as [[r|]|e|p]; [|by apply wp_ret|done..]. wp_head. by destruct (uuid_Scan _). }
  unfold getName, Info. wp_use (on_store_wp _ _ x Hp) as o x1 [[Ho Hs] Hx].
  destruct o as [p|e|p]; [| |done]; apply wp_ret, wp_ret; split; eauto.
Qed.

Lemma store_and_seal_wp msg x :
  no_faults E → store_inv (priv c) (cw_store x) →
  let m := set_FromPubKey (pub c) msg in
  sendable m → message.MsgID msg ≠ NilUUID →
  wp (store_and_seal c msg) (λ o x', o = Ret (signal.layout (msg_signal (pub c) m)) ∧
    x' = set_store (cw_store x') x ∧ store_inv (priv c) (cw_store x') ∧
    same_tables (db (cw_store x)) (db (cw_store x')) ∧ files (db (cw_store x')) = files (db (cw_store x)) ∧
    ∀ id, msg_view (priv c) (db (cw_store x')) id =
      if decide (id = message.MsgID msg) then Some (stored_as (message.MsgID msg) m)
      else msg_view (priv c) (db (cw_store x)) id) x.
Proof.
  intros Hn Hi m (Hsz & He & Hlen) Hid. unfold store_and_seal. fold m. cbv zeta.
  wp_use (getName_same x) as o1 x1 ([n ->] & Hx1 & Hs1).
  pose proof (store_inv_same (priv c) _ _ Hs1 Hi) as Hi1.
  apply wp_bind, wp_attempt. eapply wp_conseq; [by apply on_store_wp, Put_wp|].
  intros o2 x2 [(Hi2 & Ht & Hf & Ho) Hx2]. destruct o2 as [[m' [id|e]]|e|p]; [|by destruct Ho|done|by destruct Ho].
  destruct Ho as (-> & Hm & Hv & _). specialize (Hm Hid). subst id.
  assert (set_MsgID (message.MsgID m) m = m) as -> by done.
  apply wp_bind, wp_wrapping, wp_lift. rewrite message.Encode_layout by done.
  apply wp_wrapping, wp_lift.
  pose proof (signal.New_layout (msg_signal (pub c) m) ltac:(split; [by vm_compute|exact Hlen])) as HN.
  cbn [signal.Type' signal.From signal.ID signal.Content msg_signal] in HN. rewrite HN.
  destruct Hs1 as [Hd1 _]. rewrite Hd1 in Ht, Hf. split; [done|]. split; [by rewrite Hx2, Hx1|].
  split; [done|]. split; [done|]. split; [done|]. intros id. rewrite Hv, Hd1. done.
Qed.

(** The message is stored as our own; no other message, peer or file changes. *)
Definition filed (msg : message.Message) (x x' : CW) : Prop :=
  store_inv (priv c) (cw_store x') ∧ known_peers (db (cw_store x')) = known_peers (db (cw_store x)) ∧
  files (db (cw_store x')) = files (db (cw_store x)) ∧
  ∀ id, msg_view (priv c) (db (cw_store x')) id =
    if decide (id = message.MsgID msg)
    then Some (stored_as (message.MsgID msg) (set_FromPubKey (pub c) msg))
    else msg_view (priv c) (db (cw_store x)) id.

(** The payload waits for its target and nothing is written, unless the id
    drawn for the entry is taken. *)
Definition queued (target : Key) (sig : bytes) (x : CW) (o : outcome unit) (x' : CW) : Prop :=
  heap x' = heap x ∧ sessions x' = sessions x ∧ pendingFiles x' = pendingFiles x ∧
  match o with
  | Ret _ => outbox_inv (priv c) (db (cw_store x')) ∧
      (∃ id t, waiting (priv c) (db (cw_store x')) target ≡ₚ
         put_entry id target sig (env_now t) :: waiting (priv c) (db (cw_store x)) target) ∧
      ∀ other, other ≠ target →
        waiting (priv c) (db (cw_store x')) other ≡ₚ waiting (priv c) (db (cw_store x)) other
  | Err _ => outbox (db (cw_store x')) = outbox (db (cw_store x)) ∧
      ∃ t, is_Some (outbox (db (cw_store x)) !! uuid_String (env_uuid t))
  | Panic _ => False
  end.

(** What [sendMessageToPeer] promises: with an accepted session one frame that
    carries the message's envelope is written and the outbox is as it was;
    without one the envelope is queued. *)
Definition send_post (target : Key) (msg : message.Message) (x : CW) (o : outcome unit) (x' : CW) : Prop :=
  let sig := signal.layout (msg_signal (pub c) (set_FromPubKey (pub c) msg)) in
  filed msg x x' ∧
  match accepted x target with
  | Some (sid, s) => o = Ret tt ∧ outbox (db (cw_store x')) = outbox (db (cw_store x)) ∧
      ∃ s', sent [sig] s s' ∧ only_session sid s' x x'
  | None => queued target sig x o x'
  end.

Lemma waiting_outbox secret d d' k : outbox d' = outbox d → waiting secret d' k = waiting secret d k.
Proof. intros Ho. unfold waiting. by rewrite Ho. Qed.
Lemma outbox_inv_outbox secret d d' : outbox d' = outbox d → outbox_inv secret d → outbox_inv secret d'.
Proof. intros Ho. unfold outbox_inv. by rewrite Ho. Qed.

Lemma queueSignal_wp target sig x :
  no_faults E → clock_ok (E:=E) → outbox_inv (priv c) (db (cw_store x)) →
  wp (queueSignal c target sig) (λ o x', queued target sig x o x' ∧
    cache (cw_store x') = cache (cw_store x) ∧ ∃ f, db (cw_store x') = set_outbox f (db (cw_store x))) x.
Proof.
  intros Hn Hck Hi. unfold queueSignal, queued.
  wp_use (on_store_wp _ _ x (OutboxPut_wp (priv c) target sig (cw_store x) Hck Hi)) as o x1 [[Hc Ho] Hx].
  assert (heap x1 = heap x ∧ sessions x1 = sessions x ∧ pendingFiles x1 = pendingFiles x) as (Hh & Hse & Hpf)
    by by rewrite Hx.
  destruct o as [id|e|p]; [| |done].
  - apply wp_ret. destruct Ho as (Hnone & r & t & Hr & Ht & Hdt & Hd). rewrite Hd. split; [|split; [done|by eexists]].
    do 3 (split; [done|]). split; [by eapply outbox_inv_insert|]. split.
    + exists id, t. rewrite (waiting_insert _ _ _ _ _ _ Hnone Hr). by rewrite decide_True.
    + intros other Hne. rewrite (waiting_insert _ _ _ _ _ _ Hnone Hr), decide_False; [done|].
      rewrite Ht. by intros ?%Key_String_inj.
  - destruct Ho as [Hd Hcol]. rewrite Hd. split; [|split; [done|]].
    + do 4 (split; [done|]). by apply Hcol.
    + exists id. by destruct (db (cw_store x)).
Qed.

(** Queueing from a state that differs from [x] only in its messages. *)
Lemma queued_after target sig msg x x1 :
  no_faults E → clock_ok (E:=E) → outbox_inv (priv c) (db (cw_store x)) → filed msg x x1 →
  outbox (db (cw_store x1)) = outbox (db (cw_store x)) →
  heap x1 = heap x → sessions x1 = sessions x → pendingFiles x1 = pendingFiles x →
  wp (queueSignal c target sig) (λ o x', filed msg x x' ∧ queued target sig x o x') x1.
Proof.
  intros Hf Hck Hob (Hi1 & Hkp & Hfl & Hv) Hout Hh Hse Hpf.
  eapply wp_conseq; [apply queueSignal_wp; [done|done|by eapply outbox_inv_outbox]|].
  intros o x' (Hq & Hc & f & Hd). split.
  - split; [apply (store_inv_chats (priv c) (cw_store x1)); [by rewrite Hd|done..]|].
    rewrite Hd. do 2 (split; [done|]). done.
  - unfold queued in *. rewrite Hh, Hse, Hpf, Hout in Hq. destruct Hq as (H1 & H2 & H3 & Ho).
    do 3 (split; [done|]). destruct o as [[]|e|p]; [|done..].
    destruct Ho as (Hi' & (id & t & Hw) & Hw'). split; [done|]. split.
    + exists id, t. by rewrite Hw, (waiting_outbox _ _ _ _ Hout).
    + intros other Hne. by rewrite (Hw' other Hne), (waiting_outbox _ _ _ _ Hout).
Qed.

Lemma sendMessageToPeer_wp target msg x :
  no_faults E → net_ok E → clock_ok (E:=E) → store_inv (priv c) (cw_store x) → outbox_inv (priv c) (db (cw_store x)) →
  sendable (set_FromPubKey (pub c) msg) → message.MsgID msg ≠ NilUUID →
  (∀ sid s, accepted x target = Some (sid, s) → open s) →
  (∀ sid, sessions x !! target = Some sid → is_Some (heap x !! sid)) →
  wp (sendMessageToPeer c target msg) (send_post target msg x) x.
Proof.
  intros Hf Hn Hck Hi Hob Hm Hid Ho Hp. unfold sendMessageToPeer. apply wp_bind.
  eapply wp_conseq; [by apply store_and_seal_wp|]. intros ? x1 (-> & Hx1 & Hi1 & (Hkp & Hout & _) & Hfl & Hv).
  pose proof (accepted_cases x target) as Ha. unfold send_post. set (sig := signal.layout _).
  assert (heap x1 = heap x ∧ sessions x1 = sessions x ∧ pendingFiles x1 = pendingFiles x) as (Hh & Hse & Hpf)
    by by rewrite Hx1.
  assert (filed msg x x1) as Hfiled by done.
  apply wp_bind. unfold sessions_Load. apply wp_gets. rewrite Hse.
  destruct (accepted x target) as [[sid s]|].
  - destruct Ha as (Hk & Hs & Hst). rewrite Hk. specialize (Ho sid s eq_refl). rewrite <-Hh in Hs.
    apply wp_bind. unfold wp at 1. rewrite (sess_gets_run sid status x1 s Hs). cbn [fst snd].
    rewrite bool_decide_true by done. cbn [negb].
    eapply wp_conseq; [by apply (on_send_wp sid sig x1 s)|].
    intros o x' (-> & s' & Hsent & (Hh' & Hse' & Hp') & Hsame). pose proof Hsame as [Hd _].
    split; [split; [by eapply store_inv_same|by rewrite Hd]|]. rewrite Hd. do 2 (split; [done|]).
    exists s'. split; [done|]. unfold only_session. by rewrite Hh', Hse', Hp', Hh, Hse, Hpf.
  - pose proof (queued_after target sig msg x x1 Hf Hck Hob Hfiled Hout Hh Hse Hpf) as Hq.
    destruct (sessions x !! target) as [sid|]; [|exact Hq]. destruct (Hp sid eq_refl) as [s Hs].
    specialize (Ha sid s eq_refl Hs). rewrite <-Hh in Hs.
    apply wp_bind. unfold wp at 1. rewrite (sess_gets_run sid status x1 s Hs). cbn [fst snd].
    rewrite bool_decide_false by done. exact Hq.
Qed.
End Send.

(** ** Receiving a message *)

Section Receive.
Context {P : Platform} {PL : PlatformLaws P} {E : Env} (c : Client).

Lemma decoded_encodable data m : message.ToMessage data = Ret m → message.encodable m ∧ message.times_ok m.
Proof.
  intros Hm. pose proof (message.ToMessage_post data) as Hp. rewrite Hm in Hp. by destruct Hp as (? & ? & _).
Qed.

Lemma displayName_wp k x :
  wp (displayNameForPubKey k) (λ o x', (∃ n, o = Ret n) ∧ x' = set_store (cw_store x') x ∧
    same (cw_store x) (cw_store x')) x.
Proof.
  unfold displayNameForPubKey. wp_use (on_store_wp _ _ x (PeerGet_wp k (cw_store x))) as o x1 [[Hs Ho] Hx].
  destruct o as [p|e|p]; [| |done]; apply wp_ret; split; eauto.
Qed.

Lemma handleSignal_message_wp (sig : signal.Signal) (k : Key) (m : message.Message) (x : CW) :
  no_faults E → store_inv (priv c) (cw_store x) →
  signal.Type' sig = signal.Message → signal.From sig = k →
  message.ToMessage (signal.Content sig) = Ret m → message.MsgID m ≠ NilUUID →
  wp (handleSignal c sig k) (λ o x', o = Ret tt ∧ x' = set_store (cw_store x') x ∧
    (∀ id, msg_view (priv c) (db (cw_store x')) id =
      if decide (id = message.MsgID m) then Some (set_FromPubKey k m)
      else msg_view (priv c) (db (cw_store x)) id) ∧
    store_inv (priv c) (cw_store x')) x.
Proof.
  intros Hn Hs Ht Hf Hm Hid. unfold handleSignal. rewrite Ht, Hf.
  rewrite bool_decide_true by done. rewrite bool_decide_false by (by intros []).
  apply wp_bind, wp_attempt, wp_lift. rewrite Hm. cbv zeta.
  apply decoded_encodable in Hm as [He Htm].
  apply wp_bind. eapply wp_conseq; [apply displayName_wp|]. intros ? x1 ([n ->] & Hx1 & Hs1).
  assert (sizes_ok (set_FromPubKey k m)) as Hsz.
  { eapply Forall_impl; [exact (proj2 He)|]. intros a (_ & _ & ? & _). lia. }
  pose proof (store_inv_same (priv c) _ _ Hs1 Hs) as Hi1.
  apply wp_bind, wp_ignore.
  eapply wp_conseq; [apply on_store_wp, (Put_wp (priv c) n (set_FromPubKey k m)); done|].
  intros o2 x2 [(Hs2 & _ & _ & Ho) Hx2]. destruct o2 as [[m' [id|e]]|e|p]; [|by destruct Ho|done|].
  2: { exfalso. apply Ho. destruct m. exact He. }
  destruct Ho as (_ & Hidm & Hv & _). specialize (Hidm Hid). cbn in Hidm. subst id.
  apply wp_bind. eapply wp_conseq; [apply getName_same|]. intros ? x3 ([nm ->] & Hx3 & Hs3). apply wp_ret.
  split; [done|]. split; [by rewrite Hx3, Hx2, Hx1|].
  split; [|by apply (store_inv_same (priv c) (cw_store x2))].
  intros id. rewrite (proj1 Hs3), Hv, (proj1 Hs1). case_decide; [|done]. unfold stored_as.
  rewrite message.stored_times_id by exact Htm. by destruct m.
Qed.

(** Decryption does not look at the connection. *)
Lemma decrypt_conn cn data s :
  decrypt data (set_conn cn s) = ((decrypt data s).1, set_conn cn (decrypt data s).2).
Proof.
  unfold decrypt. destruct (_ <? _)%Z; [done|]. unfold get_state. rewrite !bind_run. cbn.
  destruct (cs_key (recv s)) as [k|]; [|done]. rewrite put_nonce. unfold lift.
  repeat (rewrite bind_run; cbn).
  destruct (slice data 0 NonceSize) as [nonce| |]; cbn; [|done..]. rewrite !bind_run.
  destruct (slice_from data NonceSize) as [ct| |]; cbn; [|done..]. rewrite !bind_run.
  destruct (uint_at 8 nonce 0) as [got| |]; cbn; [|done..]. rewrite !bind_run.
  destruct (uint_at 8 _ 0) as [want| |]; cbn; [|done..].
  destruct (negb _); [done|]. rewrite !bind_run. destruct (aesGCM k); cbn; [|done..].
  by destruct (gcm_Open _ _ _).
Qed.

(** One turn of the read loop on a frame that decrypts. *)
Lemma read_frame_wp sid k y s f rest out lim plain s1 (Q : outcome (option error) → CW → Prop) :
  net_ok E → heap y !! sid = Some s → s_conn s = Some (MkConn (f :: rest) out false lim) →
  (lim = 0 ∨ len f <= lim)%Z → decrypt f s = (Ret plain, s1) →
  (∀ y1, same (cw_store y) (cw_store y1) →
     only_session sid (set_conn (Some (MkConn rest out false lim)) s1) y y1 →
     wp (handleDecrypted c plain sid k) (λ o y',
       match o with Ret _ => Q (Ret None) y' | Err e => Q (Err e) y' | Panic p => Q (Panic p) y' end) y1) →
  wp (read_frame c sid k) Q y.
Proof.
  intros Hn Hs Hc Hlim Hd Hk. unfold read_frame.
  assert (∀ {A} (m : M SS A) (R : outcome A → SS → Prop) z s0, heap z !! sid = Some s0 →
    wp m R (MkSS s0 (cw_store z)) →
    wp (on_session sid m) (λ o z', ∃ x', R o x' ∧ z' = set_store (ss_world x') (set_heap (<[sid := ss_sess x']>) z)) z) as Hon.
  { intros A m R z s0 Hz Hm. unfold wp, on_session in *. rewrite Hz. destruct (m _) as [o x']. by exists x'. }
  apply wp_bind, wp_attempt. eapply wp_conseq; [apply (Hon _ _ (λ o x', o = Ret tt ∧ ss_sess x' = s ∧ same (cw_store y) (ss_world x')) y s Hs)|].
  { unfold SetReadDeadline. apply wp_bind. unfold wp at 1, the_conn, get_state. rewrite bind_run. cbn. rewrite Hc. cbn.
    exact (net_call_same Hn (MkSS s (cw_store y))). }
  intros ? y1 (z1 & (-> & Hz1 & Hsm1) & ->).
  assert (set_heap (<[sid := ss_sess z1]>) y = y) as -> by (rewrite Hz1; destruct y; unfold set_heap; cbn in *; by rewrite list_insert_id).
  set (y1 := set_store (ss_world z1) y).
  apply wp_bind, wp_attempt.
  eapply wp_conseq; [apply (Hon _ _ (λ o x', o = Ret f ∧ ss_sess x' = set_conn (Some (MkConn rest out false lim)) s ∧
    same (cw_store y1) (ss_world x')) y1 s Hs)|].
  { unfold ReadMessage. apply wp_bind. unfold wp at 1, the_conn, get_state. rewrite bind_run. cbn. rewrite Hc. cbn.
    apply wp_bind. eapply wp_conseq; [apply (net_call_same Hn)|]. intros ? z (-> & Hz & Hsm). apply wp_bind, wp_modify.
    assert ((0 <? lim) && (lim <? len f) = false)%Z as ->.
    { destruct (Z.ltb_spec 0 lim); [|done]. cbn. apply Z.ltb_ge. lia. }
    apply wp_ret. cbn. by rewrite Hz. }
  intros ? y2 (z2 & (-> & Hz2 & Hsm2) & ->).
  set (s2 := set_conn (Some (MkConn rest out false lim)) s) in *. set (y2 := set_store _ _).
  assert (heap y2 !! sid = Some s2) as Hs2.
  { cbn. rewrite Hz2. apply list_lookup_insert_eq. by eapply lookup_lt_Some. }
  apply wp_bind, wp_attempt.
  unfold wp at 1, on_session. rewrite Hs2. unfold on_sess, zoom. cbn [ss_sess ss_world].
  assert (decrypt f s2 = (Ret plain, set_conn (Some (MkConn rest out false lim)) s1)) as Hd2
    by (unfold s2; by rewrite decrypt_conn, Hd).
  rewrite Hd2. cbn [fst snd].
  apply wp_bind. eapply wp_conseq; [apply Hk|].
  - destruct Hsm1, Hsm2. subst y2 y1. split; cbn in *; congruence.
  - split; [|done]. cbn. by rewrite list_insert_insert_eq.
  - intros [u|e|p] y' Hq; [by apply wp_ret|done..].
Qed.

(** What one call costs at most. *)
Definition spends (l l' : msgLimiter) : Prop := limiter_wf l' ∧ (lim_tokens l - 1 <= lim_tokens l')%Z.

(** The limiter grants the next call, whenever it is made. *)
Definition has_token (s : Session) : Prop :=
  limiter_wf (s_limiter s) ∧ (0 < lim_tokens (s_limiter s))%Z ∧
  ∀ t, (0 <= @env_now E t < big)%Z.

Lemma allow_wp sid y s :
  heap y !! sid = Some s → has_token s →
  wp (allow sid) (λ o y', o = Ret true ∧ same (cw_store y) (cw_store y') ∧
    ∃ l, spends (s_limiter s) l ∧ only_session sid (set_limiter l s) y y') y.
Proof.
  intros Hs (Hwf & Htok & Hnow). unfold allow.
  wp_use (on_store_wp _ _ y (time_Now_wp (cw_store y))) as o1 y1 [[Hsm ->] Hy1].
  assert (heap y1 !! sid = Some s) as Hs1 by by rewrite Hy1.
  apply wp_bind. unfold wp at 1. rewrite (sess_gets_run sid s_limiter y1 s Hs1). cbn [fst snd].
  destruct (Allow_token (s_limiter s) _ Hwf (Hnow (tick (cw_store y)))) as (b & l & El & Hwf' & Hl & Hb).
  apply wp_bind, wp_lift. rewrite El, (Hb Htok).
  apply wp_bind. unfold wp at 1. rewrite (sess_modify_run sid _ y1 s Hs1). cbn [fst snd].
  apply wp_ret. split; [done|]. split; [exact Hsm|]. exists l. split; [done|].
  split; [cbn; by rewrite Hy1|]. by rewrite Hy1.
Qed.

Lemma handleDecrypted_message_wp sid k s m y :
  no_faults E → store_inv (priv c) (cw_store y) →
  heap y !! sid = Some s → status s = Accepted → has_token s →
  sendable m → message.times_ok m → message.MsgID m ≠ NilUUID →
  wp (handleDecrypted c (signal.layout (msg_signal k m)) sid k) (λ o y', o = Ret tt ∧
    store_inv (priv c) (cw_store y') ∧
    (∀ id, msg_view (priv c) (db (cw_store y')) id =
      if decide (id = message.MsgID m) then Some (set_FromPubKey k m)
      else msg_view (priv c) (db (cw_store y)) id) ∧
    ∃ l, spends (s_limiter s) l ∧ only_session sid (set_limiter l s) y y') y.
Proof.
  intros Hn Hi Hs Hst Htok (Hsz & He & Hlen) Ht Hid. unfold handleDecrypted.
  assert (∃ rest, signal.layout (msg_signal k m) = signal.Marker :: rest) as [rest Er] by by eexists.
  rewrite Er. cbv beta iota. rewrite bool_decide_true by done. rewrite <-Er. clear Er rest.
  apply wp_bind, wp_attempt, wp_lift.
  rewrite <-(app_nil_r (signal.layout _)), signal.Parse_layout by (split; [by vm_compute|done]).
  apply wp_bind. unfold wp at 1. rewrite (sess_gets_run sid status y s Hs). cbn [fst snd].
  rewrite Hst, bool_decide_true by done. cbn [negb].
  apply wp_bind. eapply wp_conseq; [by apply (allow_wp sid y s)|].
  intros ? y1 (-> & Hsm & l & Hl & Hy1). cbn [negb].
  eapply wp_conseq; [apply (handleSignal_message_wp _ k m); [done| |done|done| |done]|].
  - by apply (store_inv_same (priv c) (cw_store y)).
  - cbn. rewrite <-(app_nil_r (message.layout m)), message.ToMessage_layout by done.
    by rewrite message.stored_times_id.
  - intros o y' (-> & Hy' & Hv & Hi'). split; [done|]. split; [done|]. rewrite (proj1 Hsm) in Hv. split; [done|].
    exists l. split; [done|]. by rewrite Hy'.
Qed.
End Receive.

(** ** From one client to another *)

Section EndToEnd.
Context {P : Platform} {PL : PlatformLaws P}.

(** The session at the receiver's end, once it holds the given frames. *)
Definition holding (inp out : list bytes) (lim : Z) (s : Session) : Session :=
  set_conn (Some (MkConn inp out false lim)) s.

(** C2: End to end: a message sent to a peer with an accepted session goes out as
    one frame; the peer's client, once it reads that frame on the linked
    session, has the message under its id with the sender's authenticated key
    as author, nothing else in its store changed, and the two sessions are
    linked again. *)
Theorem message_delivered (Ea Eb : Env) (a b : Client) (x : CW) (target : Key) (msg : message.Message)
    (sidA sidB : nat) (sA sB : Session) :
  no_faults Ea → net_ok Ea → clock_ok (E:=Ea) → no_faults Eb → net_ok Eb →
  store_inv (priv a) (cw_store x) → outbox_inv (priv a) (db (cw_store x)) →
  accepted x target = Some (sidA, sA) → open sA → linked sA sB →
  status sB = Accepted → has_token (E:=Eb) sB →
  let m := set_FromPubKey (pub a) msg in
  sendable m → message.times_ok m → message.MsgID m ≠ NilUUID →
  ∃ x' frame connA sA', sendMessageToPeer (E:=Ea) a target msg x = (Ret tt, x') ∧
    heap x' !! sidA = Some sA' ∧ s_conn sA = Some connA ∧ s_conn sA' = Some (push [frame] connA) ∧
    msg_view (priv a) (db (cw_store x')) (message.MsgID msg) = Some m ∧
    ∀ y rest out lim, store_inv (priv b) (cw_store y) →
      heap y !! sidB = Some (holding (frame :: rest) out lim sB) → (lim = 0 ∨ len frame <= lim)%Z →
      wp (read_frame (E:=Eb) b sidB (pub a)) (λ o y', o = Ret None ∧
        store_inv (priv b) (cw_store y') ∧
        (∀ id, msg_view (priv b) (db (cw_store y')) id =
          if decide (id = message.MsgID msg) then Some m else msg_view (priv b) (db (cw_store y)) id) ∧
        ∃ sB', heap y' !! sidB = Some sB' ∧ s_conn sB' = Some (MkConn rest out false lim) ∧
          linked sA' sB') y.
Proof.
  intros HfA HnA HcA HfB HnB HiA HoA Hacc Hopen Hl Hst Htok m Hm Ht Hid.
  pose proof (accepted_cases x target) as Ha. rewrite Hacc in Ha. destruct Ha as (Hk & Hs & Hstat).
  pose proof (sendMessageToPeer_wp (E:=Ea) a target msg x HfA HnA HcA HiA HoA Hm Hid) as H.
  assert (send_post (E:=Ea) a target msg x (sendMessageToPeer (E:=Ea) a target msg x).1
    (sendMessageToPeer (E:=Ea) a target msg x).2) as ((_ & _ & _ & Hv) & Hp).
  { apply H; [intros ? ?; rewrite Hacc; by intros [= <- <-]|rewrite Hk; intros ? [= <-]; by eexists]. }
  clear H. rewrite Hacc in Hp. destruct (sendMessageToPeer (E:=Ea) a target msg x) as [o x']. cbn [fst snd] in *.
  destruct Hp as (-> & _ & sA' & Hsent & Hx' & _).
  destruct (sent_one _ _ _ _ Hl Hsent) as (frame & conn & Hc & Hc' & Hdec & Hl').
  exists x', frame, conn, sA'. split; [done|]. split.
  { rewrite Hx'. apply list_lookup_insert_eq. by eapply lookup_lt_Some. }
  split; [done|]. split; [done|]. split.
  { rewrite Hv, decide_True by done. f_equal. unfold stored_as. rewrite message.stored_times_id by done. by destruct msg. }
  intros y rest out lim HiB Hy Hlim. unfold holding in Hy.
  eapply read_frame_wp; [done|exact Hy|done|done|by rewrite decrypt_conn, Hdec|].
  intros y1 Hsm Hy1. cbn [fst snd] in Hy1.
  set (s2 := set_conn _ _) in Hy1.
  eapply wp_conseq; [apply (handleDecrypted_message_wp b sidB (pub a) s2 m y1); try done|].
  - by apply (store_inv_same (priv b) (cw_store y)).
  - rewrite (proj1 Hy1). apply list_lookup_insert_eq. by eapply lookup_lt_Some.
  - intros o y' (-> & Hi' & Hv' & l & _ & Hy'). rewrite (proj1 Hsm) in Hv'. split; [done|]. split; [done|].
    split; [done|]. eexists. split; [rewrite (proj1 Hy'); apply list_lookup_insert_eq|].
    + rewrite (proj1 Hy1), length_insert. by eapply lookup_lt_Some.
    + by split.
Qed.
End EndToEnd.

(** ** Theorems *)

Section Theorems.
Context {P : Platform} {PL : PlatformLaws P} {E : Env} (c : Client).

(** C25: Flushing the outbox of a peer with an accepted session writes the
    payload of every entry waiting for it as frames the linked peer reads back,
    those put in an earlier second first (entries of one second come in any
    order), and leaves none of them waiting and every other peer's entries as
    they were; without an accepted session nothing changes. *)
Theorem flushOutbox_correct (k : Key) (x : CW) :
  no_faults E → net_ok E → clock_ok (E:=E) → client_inv c x →
  (∀ sid s, accepted x k = Some (sid, s) → open s) →
  wp (flushOutbox c k) (flush_post c k x) x.
Proof.
  intros Hf Hn Hck Hx Ho. pose proof (client_outbox c x Hck Hx) as Hi. destruct Hx as (_ & _ & Hp & _). apply flushOutbox_wp; try done.
  intros sid Hs. apply lookup_lt_is_Some_2. by apply (Hp k).
Qed.

(** C23: [sendMessageToPeer] stores the message as our own and nothing else; with
    an accepted session it writes one frame that carries the signed envelope and
    leaves the outbox alone, without one it writes nothing and queues that
    envelope for the target, its only failure being a repeated entry id. *)
Theorem sendMessageToPeer_correct (target : Key) (msg : message.Message) (x : CW) :
  no_faults E → net_ok E → clock_ok (E:=E) → client_inv c x →
  sendable (set_FromPubKey (pub c) msg) → message.MsgID msg ≠ NilUUID →
  (∀ sid s, accepted x target = Some (sid, s) → open s) →
  wp (sendMessageToPeer c target msg) (send_post (E:=E) c target msg x) x.
Proof.
  intros Hf Hn Hck Hx Hm Hid Ho. pose proof (client_outbox c x Hck Hx) as Hob. destruct Hx as (Hi & _ & Hp & _).
  apply sendMessageToPeer_wp; try done.
  intros sid Hs. apply lookup_lt_is_Some_2. by apply (Hp target).
Qed.
End Theorems.

(** ** Instances *)

Section Witnesses.
Let ca : Client := MkClient (keys_of_seed (C:=toy_crypto) (zeros 32)) DefaultTimeout DefaultRateLimit DefaultRateWindow MaxMessageSize.
Let ka : Keys := c_Keys ca.
Let cipher : cipherState := MkCipher (Some (zeros 32)) 0.
Let sess : Session := setStatus Accepted (set_recv cipher (set_sendr cipher
  (newSession (MkConn [] [] false 0) (lit "me") ka DefaultTimeout DefaultRateLimit DefaultRateWindow 0))).
Let bob : Key := array_of 32 (lit "bob").
Let x : CW := MkCW empty_SW [sess] (<[bob := 0]> ∅) ∅.

Lemma wit_open : open sess.
Proof.
  assert (cipher_wf cipher) as Hc by (split; [done|]; intros ? [= <-]; reflexivity).
  split; [exact Hc|]. split; [by eexists|]. by eexists.
Qed.

Lemma wit_accepted : accepted x bob = Some (0, sess).
Proof. unfold accepted, x. cbn [sessions heap]. by rewrite lookup_insert_eq. Qed.

Lemma wit_accepted_open k sid s : accepted x k = Some (sid, s) → open s.
Proof.
  pose proof (accepted_cases x k) as H. destruct (accepted x k) as [[sid' s']|]; [|done].
  intros [= -> ->]. destruct H as (_ & Hs & _). destruct sid; [|done]. injection Hs as <-. apply wit_open.
Qed.

Lemma wit_inv : client_inv (P:=toy_platform) (E:=toy_env) ca x.
Proof.
  assert (cipher_wf cipher) as Hc by (split; [done|]; intros ? [= <-]; reflexivity).
  split; [apply store_inv_empty|]. split; [by apply Forall_singleton|].
  split; [|split; [cbn; lia|apply typed_empty]].
  apply map_Forall_insert_2; [cbn; lia|apply map_Forall_empty].
Qed.

Lemma wit_sendable : sendable (set_FromPubKey (pub ca) message.wit_msg).
Proof.
  split; [exact wit_sizes_ok|]. split; [|by vm_compute].
  apply (bool_decide_unpack (message.encodable (set_FromPubKey (pub ca) message.wit_msg))). vm_compute. exact I.
Qed.

Lemma wit_id : message.MsgID message.wit_msg ≠ NilUUID.
Proof. apply (bool_decide_unpack (message.MsgID message.wit_msg ≠ NilUUID)). exact I. Qed.

(** A run whose clock ticks in seconds, and a store with two entries for [bob]
    and one for another peer. *)
Let slow : Env := {|
  env_now t := ((1700000000 + Z.of_nat t mod 1000) * Second)%Z;
  env_uuid := @env_uuid toy_env; env_nonce := @env_nonce toy_env; env_db t := None; env_cache t := true;
  env_net t := None; env_ecdh := @env_ecdh toy_env; env_range := @env_range toy_env
|}.
Let queue (k : Key) (s : string) (w : SW) : SW :=
  (OutboxStore.Put (P:=toy_platform) (E:=slow) k (lit s) (priv ca) w).2.
Let w3 : SW := queue bob "second" (queue NilKey "other" (queue bob "first" empty_SW)).
Let x3 : CW := MkCW w3 [sess] (<[bob := 0]> ∅) ∅.

Lemma slow_clock : clock_ok (E:=slow).
Proof.
  intros t. cbn. unfold MaxInt64, Second. pose proof (Z.mod_pos_bound (Z.of_nat t) 1000 ltac:(lia)). lia.
Qed.

Lemma slow_tables k s w :
  tables_inv (P:=toy_platform) (E:=slow) (priv ca) w → tables_inv (P:=toy_platform) (E:=slow) (priv ca) (queue k s w).
Proof. apply (OutboxPut_typed (P:=toy_platform) (E:=slow) (PL:=toy_platform_laws)). Qed.

Lemma slow_inv : client_inv (P:=toy_platform) (E:=slow) ca x3.
Proof.
  destruct wit_inv as (_ & Hh & Hp & Hn & _).
  split; [apply (store_inv_chats (priv ca) empty_SW); [by vm_compute..|apply store_inv_empty]|].
  split; [exact Hh|]. split; [exact Hp|]. split; [exact Hn|]. do 3 apply slow_tables. apply typed_empty.
Qed.

Lemma slow_sorted l :
  l ≡ₚ waiting (P:=toy_platform) (priv ca) (db w3) bob → Sorted by_second l →
  OutboxStore.SignalContent <$> l = [lit "first"; lit "second"].
Proof.
  intros Hl Hs. pose proof (Hl) as Hp. apply (fmap_Permutation (λ e, (OutboxStore.SignalContent e, OutboxStore.ob_CreatedAt e))) in Hl.
  set (r := _ <$> waiting _ _ _) in Hl. vm_compute in r. subst r.
  destruct l as [|a [|b [|d l]]]; try (apply Permutation_length in Hl; discriminate Hl).
  apply Sorted_inv in Hs as [_ Hab%HdRel_inv]. unfold by_second in Hab.
  apply Permutation_length_2_inv in Hl as [Hl|Hl]; injection Hl as E1 E2 E3 E4; cbn;
    [rewrite E1, E3; reflexivity|lia].
Qed.

(** Two entries of different seconds are flushed in the order they were put. *)
Lemma flushOutbox_correct_witness :
  ∃ x' s', flushOutbox (P:=toy_platform) (E:=slow) ca bob x3 = (Ret tt, x') ∧ heap x' = [s'] ∧
    sent (P:=toy_platform) [lit "first"; lit "second"] sess s' ∧ waiting (P:=toy_platform) (priv ca) (db (cw_store x')) bob = [] ∧
    length (waiting (P:=toy_platform) (priv ca) (db (cw_store x')) NilKey) = 1.
Proof.
  pose proof (flushOutbox_correct (P:=toy_platform) (E:=slow) (PL:=toy_platform_laws) ca bob x3
    ltac:(exact toy_env_no_faults) ltac:(exact toy_env_net_ok) slow_clock slow_inv (wit_accepted_open bob)) as H.
  unfold wp in H. destruct (flushOutbox (P:=toy_platform) (E:=slow) ca bob x3) as [o x']. cbn [fst snd] in H.
  destruct H as (Hr & _ & _ & H). rewrite Hr. clear Hr.
  change (accepted x3 bob) with (accepted x bob) in H. rewrite wit_accepted in H.
  destruct H as (l & s' & Hl & Hs & Hsent & (Hh & _ & _) & _ & Hw & Ho).
  exists x', s'. split; [reflexivity|]. split; [exact Hh|].
  rewrite (slow_sorted l Hl Hs) in Hsent. split; [exact Hsent|]. split; [exact Hw|].
  rewrite (Ho NilKey) by (apply (bool_decide_unpack (NilKey ≠ bob)); exact I). vm_compute. reflexivity.
Defined.

Lemma sendMessageToPeer_correct_witness :
  wp (sendMessageToPeer (P:=toy_platform) (E:=toy_env) ca NilKey message.wit_msg)
    (send_post (P:=toy_platform) (E:=toy_env) ca NilKey message.wit_msg x) x.
Proof.
  apply (sendMessageToPeer_correct (P:=toy_platform) (E:=toy_env) (PL:=toy_platform_laws));
    [exact toy_env_no_faults|exact toy_env_net_ok|exact toy_clock_ok|exact wit_inv
    |exact wit_sendable|exact wit_id|exact (wit_accepted_open NilKey)].
Defined.

Lemma wit_token : has_token (E:=toy_env) sess.
Proof.
  split; [by vm_compute|]. split; [done|]. intros t.
  unfold big. cbn [env_now toy_env].
  pose proof (Z.mod_pos_bound (Z.of_nat t) 1000000000 ltac:(lia)). lia.
Qed.

Lemma message_delivered_witness :
  let m := set_FromPubKey (pub ca) message.wit_msg in
  ∃ x' frame sA', sendMessageToPeer (P:=toy_platform) (E:=toy_env) ca bob message.wit_msg x = (Ret tt, x') ∧
    s_conn sA' = Some (push [frame] (MkConn [] [] false 0)) ∧
    let y := MkCW empty_SW [holding [frame] [] 0 sess] ∅ ∅ in
    ∃ y', read_frame (P:=toy_platform) (E:=toy_env) ca 0 (pub ca) y = (Ret None, y') ∧
      msg_view (P:=toy_platform) (priv ca) (db (cw_store y')) (message.MsgID m) = Some m.
Proof.
  assert (linked sess sess) as Hl by (destruct wit_open as (H1 & H2 & _); exact (conj eq_refl (conj H1 H2))).
  destruct (message_delivered (P:=toy_platform) (PL:=toy_platform_laws) toy_env toy_env ca ca x bob
    message.wit_msg 0 0 sess sess toy_env_no_faults toy_env_net_ok toy_clock_ok toy_env_no_faults toy_env_net_ok
    (store_inv_empty (priv ca)) (outbox_inv_empty (priv ca)) wit_accepted wit_open Hl eq_refl wit_token wit_sendable
    ltac:(vm_compute; repeat split; discriminate) wit_id)
    as (x' & frame & conn & sA' & Hrun & _ & Hc & Hc' & _ & Hread).
  exists x', frame, sA'. split; [exact Hrun|]. injection Hc as <-. split; [exact Hc'|]. intros y.
  destruct (Hread y [] [] 0%Z (store_inv_empty (priv ca)) eq_refl (or_introl eq_refl)) as (Ho & _ & Hv & _).
  exists (read_frame (P:=toy_platform) (E:=toy_env) ca 0 (pub ca) y).2.
  destruct (read_frame (P:=toy_platform) (E:=toy_env) ca 0 (pub ca) y) as [o y']. cbn [fst snd] in *. rewrite Ho.
  split; [reflexivity|]. rewrite Hv. apply decide_True. reflexivity.
Defined.
End Witnesses.
