(* ===== verification/ReadLoop.v ===== *)
(** * The read loop ends (client/handlers.go)

    The fuel of [readLoop] is enough, whatever frames arrive and whatever fails:
    every turn that goes on consumed a frame, and no handler adds one. When the
    loop is over the session is unlinked, closed and without keys. *)

From S2P Require Import Prelude Config Crypto Keys Signal Message Wire RateLimit Base64 Monad Platform.
From S2P Require Import Store MessageStore StoreFacts Tables Session SessionFacts Client Handlers ClientFacts Delivery.

(** ** Nothing adds a frame to read *)

(** A connection with at most [n] frames to read. *)
Definition holds_at_most (n : nat) (s : Session) : Prop :=
  ∃ conn, s_conn s = Some conn ∧ length (c_in conn) ≤ n.

Section Session.
Context {P : Platform} {E : Env}.
Variable n : nat.

Definition few (y : SS) : Prop := holds_at_most n (ss_sess y).
Abbreviation keeps m := (preserves few m).

Lemma few_on_world {A} (m : M SW A) : keeps (on_world m).
Proof. intros [s w] H. unfold on_world, zoom. cbn. by destruct (m w). Qed.
Lemma few_get_state : keeps get_state.
Proof. by intros y. Qed.
Hint Resolve few_on_world few_get_state : chat.
Lemma few_on_sess {A} (m : M Session A) : preserves (holds_at_most n) m → keeps (on_sess m).
Proof. intros Hm [s w] H. unfold on_sess, zoom. cbn. specialize (Hm s H). by destruct (m s). Qed.
Hint Resolve few_on_sess : chat.
Lemma few_net_call : keeps net_call.
Proof. unfold net_call. preserve. Qed.
Lemma few_the_conn : keeps the_conn.
Proof. unfold the_conn. preserve. Qed.
Hint Resolve few_net_call few_the_conn : chat.

(** A call that starts by dereferencing the connection. *)
Lemma few_with_conn {A} (f : Conn → M SS A) :
  (∀ conn, length (c_in conn) ≤ n → keeps (f conn)) → keeps (the_conn ≫= f).
Proof.
  intros Hf y (conn & Hc & Hl). rewrite (bind_ret_run _ _ y y conn); [apply Hf; [done|by exists conn]|].
  unfold the_conn, get_state. by rewrite bind_run, Hc.
Qed.

Lemma few_set conn : length (c_in conn) ≤ n → keeps (modify (upd_sess (set_conn (Some conn)))).
Proof. intros Hl. apply preserves_modify. intros y _. by exists conn. Qed.
Hint Resolve few_set : chat.

Lemma few_WriteMessage f : keeps (WriteMessage f).
Proof. unfold WriteMessage. apply few_with_conn. preserve. Qed.
Lemma few_SetReadDeadline : keeps SetReadDeadline.
Proof. unfold SetReadDeadline. preserve. Qed.
Lemma few_SetWriteDeadline : keeps SetWriteDeadline.
Proof. unfold SetWriteDeadline. preserve. Qed.
Hint Resolve few_WriteMessage few_SetReadDeadline few_SetWriteDeadline : chat.

Lemma few_encrypt plain : preserves (holds_at_most n) (encrypt plain).
Proof. intros s H. rewrite encrypt_frame. exact H. Qed.
Lemma few_decrypt data : preserves (holds_at_most n) (decrypt data).
Proof.
  intros s (conn & Hc & Hl). assert (s = set_conn (s_conn s) s) as Hs by by destruct s.
  rewrite Hs, decrypt_conn. cbn. by exists conn.
Qed.
Hint Resolve few_encrypt few_decrypt : chat.
Lemma few_send plain : keeps (send plain).
Proof. unfold send. preserve. Qed.
Lemma few_closeConn : keeps closeConn.
Proof.
  unfold closeConn. apply preserves_bind; [by apply few_on_sess, preserves_modify|]. intros _.
  apply preserves_wrapping. unfold Close. apply few_with_conn. preserve.
Qed.
End Session.

(** ** What handlers can do

    Every handler of a frame is made of store calls, sends, changes of a
    session's status or limiter, and changes of the pending files: what these
    keep, the handler keeps. *)

Section Handlers.
Context {P : Platform} {E : Env} (c : Client) (I : CW → Prop).
Hypothesis I_store : ∀ A (m : M SW A), preserves I (on_store m).
Hypothesis I_send : ∀ i plain, preserves I (on_session i (send plain)).
Hypothesis I_gets : ∀ A i (f : Session → A), preserves I (sess_gets i f).
Hypothesis I_modify : ∀ i f,
  (∀ s, s_conn (f s) = s_conn s ∧ s_peer (f s) = s_peer s) → preserves I (sess_modify i f).
Hypothesis I_decrypt : ∀ i data, preserves I (on_session i (on_sess (decrypt data))).
Hypothesis I_pending : ∀ f, preserves I (modify (set_pending f)).
Abbreviation keeps m := (preserves I m).

Lemma h_setStatus i st : keeps (sess_modify i (setStatus st)).
Proof. by apply I_modify. Qed.
Lemma h_limiter i l : keeps (sess_modify i (set_limiter l)).
Proof. by apply I_modify. Qed.
Lemma h_get_state : keeps get_state.
Proof. by intros x. Qed.
Lemma h_Load k : keeps (sessions_Load k).
Proof. unfold sessions_Load. preserve. Qed.
Hint Resolve h_setStatus h_limiter h_get_state h_Load : chat.

Lemma h_Info : keeps Info.
Proof. unfold Info. preserve. Qed.
Hint Resolve h_Info : chat.
Lemma h_getName : keeps getName.
Proof. unfold getName. preserve. Qed.
Lemma h_displayName k : keeps (displayNameForPubKey k).
Proof. unfold displayNameForPubKey. preserve. Qed.
Lemma h_verifyAuthor id k : keeps (verifyAuthor c id k).
Proof. unfold verifyAuthor. preserve. Qed.
Lemma h_requestInfo i : keeps (requestPeerInfo c i).
Proof. unfold requestPeerInfo. preserve. Qed.
Hint Resolve h_getName h_displayName h_verifyAuthor h_requestInfo : chat.

Lemma h_handleSignal sig k : keeps (handleSignal c sig k).
Proof.
  unfold handleSignal, verifyAndDelete, verifyAndUpdate, handleInfoRequest, handleInfoResponse,
    handleInfoChanged, handlePeerAccepted.
  preserve.
Qed.
Lemma h_finalize id pf : keeps (finalizeFile c id pf).
Proof. unfold finalizeFile. preserve. Qed.
Hint Resolve h_handleSignal h_finalize : chat.
Lemma handleDecrypted_keeps plain i k : keeps (handleDecrypted c plain i k).
Proof. unfold handleDecrypted, handleFileChunk, allow. preserve. Qed.
Hint Resolve handleDecrypted_keeps : chat.
Lemma seen_now_keeps k : keeps (seen_now k).
Proof. unfold seen_now. preserve. Qed.

Hypothesis I_deadline : ∀ i, preserves I (on_session i SetReadDeadline).
Hypothesis I_read : ∀ i, preserves I (on_session i ReadMessage).

Lemma read_frame_keeps i k : keeps (read_frame c i k).
Proof. unfold read_frame. preserve. Qed.
Hint Resolve read_frame_keeps : chat.
Lemma read_frames_keeps fuel i k : keeps (read_frames c fuel i k).
Proof. induction fuel as [|fuel IH]; cbn [read_frames]; preserve. Qed.
End Handlers.

Section Client.
Context {P : Platform} {E : Env} (c : Client).
Variables (n sid : nat).

(** The session at [sid] exists and has at most [n] frames to read. *)
Definition few_at (x : CW) : Prop := ∃ s, heap x !! sid = Some s ∧ holds_at_most n s.
Abbreviation keeps m := (preserves few_at m).

Lemma fa_on_store {A} (m : M SW A) : keeps (on_store m).
Proof. intros x H. unfold on_store, zoom. by destruct (m (cw_store x)). Qed.
Lemma fa_on_session {A} i (m : M SS A) : preserves (few n) m → keeps (on_session i m).
Proof.
  intros Hm x (s & Hs & Hl). unfold on_session. destruct (heap x !! i) as [t|] eqn:Ei; [|by exists s].
  destruct (m (MkSS t (cw_store x))) as [o y] eqn:Em. cbn. destruct (decide (i = sid)) as [->|Hne].
  - simplify_eq. pose proof (Hm (MkSS s (cw_store x)) Hl) as Hy. rewrite Em in Hy.
    exists (ss_sess y). split; [|exact Hy]. apply list_lookup_insert_eq. by eapply lookup_lt_Some.
  - exists s. split; [|done]. cbn. by rewrite list_lookup_insert_ne.
Qed.
Lemma fa_modify i f :
  (∀ s, s_conn (f s) = s_conn s ∧ s_peer (f s) = s_peer s) → keeps (sess_modify i f).
Proof.
  intros Hf. apply fa_on_session, preserves_modify. intros [s w] (conn & Hc & Hl). exists conn.
  split; [|done]. cbn. by rewrite (proj1 (Hf s)).
Qed.
Lemma fa_decrypt i data : keeps (on_session i (on_sess (decrypt data))).
Proof. apply fa_on_session, few_on_sess, few_decrypt. Qed.
Lemma fa_handleDecrypted plain i k : keeps (handleDecrypted c plain i k).
Proof.
  apply handleDecrypted_keeps.
  - intros A m. apply fa_on_store.
  - intros j p. apply fa_on_session, few_send.
  - intros A j f. apply fa_on_session, preserves_gets.
  - apply fa_modify.
  - intros f. by apply preserves_modify.
Qed.
End Client.

(** The read loop of a session does not touch the session map. *)
Section Links.
Context {P : Platform} {E : Env} (c : Client).
Variable links : gmap Key nat.

Lemma links_on_session {A} i (m : M SS A) : preserves (λ x, sessions x = links) (on_session i m).
Proof. intros x Hx. unfold on_session. destruct (heap x !! i); [|done]. by destruct (m _). Qed.
Lemma links_read_frames fuel i k : preserves (λ x, sessions x = links) (read_frames c fuel i k).
Proof.
  apply read_frames_keeps; try (intros; apply links_on_session).
  - intros A m x Hx. unfold on_store, zoom. by destruct (m (cw_store x)).
  - intros f. by apply preserves_modify.
Qed.
End Links.

(** ** Handlers return no error *)

Section NoErrors.
Context {P : Platform} {E : Env} (c : Client).

Lemma ne_on_store {A} (m : M SW A) : no_err m → no_err (on_store m).
Proof. apply no_err_zoom. Qed.
Lemma ne_on_session {A} i (m : M SS A) : no_err m → no_err (on_session i m).
Proof.
  intros Hm x e. unfold on_session. destruct (heap x !! i) as [s|]; [|done].
  specialize (Hm (MkSS s (cw_store x)) e). by destruct (m _).
Qed.
Lemma ne_gets {A} i (f : Session → A) : no_err (sess_gets i f).
Proof. by apply ne_on_session. Qed.
Lemma ne_sess_modify i f : no_err (sess_modify i f).
Proof. by apply ne_on_session. Qed.
Lemma ne_Load k : no_err (sessions_Load k).
Proof. done. Qed.
Lemma ne_time : no_err (on_store time_Now).
Proof. by apply ne_on_store. Qed.
Lemma ne_uuid : no_err (on_store uuid_New).
Proof. by apply ne_on_store. Qed.
Hint Resolve ne_gets ne_sess_modify ne_Load ne_time ne_uuid : chat.

Lemma ne_Info : no_err Info.
Proof. unfold Info. no_errors. Qed.
Hint Resolve ne_Info : chat.
Lemma ne_getName : no_err getName.
Proof. unfold getName. no_errors. Qed.
Lemma ne_displayName k : no_err (displayNameForPubKey k).
Proof. unfold displayNameForPubKey. no_errors. Qed.
Lemma ne_requestInfo i : no_err (requestPeerInfo c i).
Proof. unfold requestPeerInfo. no_errors. Qed.
Hint Resolve ne_getName ne_displayName ne_requestInfo : chat.

Lemma bind_no_err {A B} (o : outcome A) (f : A → outcome B) :
  (∀ e, o ≠ Err e) → (∀ a e, f a ≠ Err e) → ∀ e, (o ≫= f) ≠ Err e.
Proof. intros Ho Hf e. destruct o as [a|e'|p]; cbn; [apply Hf|by destruct (Ho e')|done]. Qed.
Lemma slice_no_err d lo hi e : slice d lo hi ≠ Err e.
Proof. unfold slice. by case_match. Qed.
Lemma copy_at_no_err b o l e : copy_at b o l ≠ Err e.
Proof. unfold copy_at. by case_match. Qed.
Lemma put_uint_no_err n b o v e : put_uint_at n b o v ≠ Err e.
Proof. unfold put_uint_at. case_match; [apply copy_at_no_err|done]. Qed.
Lemma encodeInfo_no_err r e : encodeInfoResponse r ≠ Err e.
Proof.
  unfold encodeInfoResponse. revert e. apply bind_no_err; [intros; unfold u16Len; by case_match|]. intros w.
  apply bind_no_err; [apply put_uint_no_err|]. intros b. apply bind_no_err; [apply copy_at_no_err|]. intros b1.
  apply bind_no_err; [intros; unfold u32Len; by case_match|]. intros w2.
  apply bind_no_err; [apply put_uint_no_err|]. intros b2. apply copy_at_no_err.
Qed.
Lemma Allow_no_err l now e : Allow l now ≠ Err e.
Proof.
  unfold Allow. revert e. apply bind_no_err; [intros; unfold div64; by case_match|]. intros i. cbv zeta.
  apply bind_no_err; [intros; unfold div64; by case_match|]. intros r e. by repeat case_match.
Qed.
Hint Resolve slice_no_err encodeInfo_no_err Allow_no_err : chat.
Lemma slice_from_no_err d lo e : slice_from d lo ≠ Err e.
Proof. apply slice_no_err. Qed.
Hint Resolve slice_from_no_err : chat.

Lemma ne_handleSignal sig k : no_err (handleSignal c sig k).
Proof.
  unfold handleSignal, handleInfoRequest, handleInfoResponse, handleInfoChanged, handlePeerAccepted. no_errors.
Qed.
Lemma ne_finalize id pf : no_err (finalizeFile c id pf).
Proof. unfold finalizeFile. no_errors. Qed.
Hint Resolve ne_handleSignal ne_finalize : chat.
Lemma ne_handleDecrypted plain i k : no_err (handleDecrypted c plain i k).
Proof. unfold handleDecrypted, handleFileChunk, allow, when. no_errors. Qed.
End NoErrors.

(** ** The loop *)

Section Loop.
Context {P : Platform} {PL : PlatformLaws P} {E : Env} (c : Client).

(** The errors [readLoop] returns. *)
Definition loop_error (e : error) : Prop :=
  ∃ e', e = EWrap "set read deadline" e' ∨ e = EWrap "read" e'.

Lemma on_session_run {A} sid (m : M SS A) x s :
  heap x !! sid = Some s →
  on_session sid m x = ((m (MkSS s (cw_store x))).1,
    set_store (ss_world (m (MkSS s (cw_store x))).2) (set_heap (<[sid := ss_sess (m (MkSS s (cw_store x))).2]>) x)).
Proof. intros Hs. unfold on_session. rewrite Hs. by destruct (m _). Qed.

(** Reading takes a frame, unless it fails; once closed it fails. *)
Lemma ReadMessage_takes n y :
  holds_at_most n (ss_sess y) →
  wp ReadMessage (λ o y', match o with
    | Ret _ => ∃ n', n = S n' ∧ holds_at_most n' (ss_sess y')
    | Err _ => holds_at_most n (ss_sess y')
    | Panic _ => False
    end) y.
Proof.
  intros (conn & Hc & Hl). unfold ReadMessage. apply wp_bind. unfold wp at 1, the_conn, get_state.
  rewrite bind_run, Hc. cbn. apply wp_bind. unfold wp at 1, net_call. rewrite bind_run. cbn.
  assert (holds_at_most n (ss_sess y)) as H0 by by exists conn.
  destruct (env_net (tick (ss_world y))); [exact H0|]. cbn. destruct (c_closed conn); [exact H0|].
  destruct (c_in conn) as [|f rest]; [exact H0|]. apply wp_bind, wp_modify. cbn in Hl. destruct n as [|n']; [lia|].
  assert (∀ k, length rest ≤ k → holds_at_most k (set_conn (Some (MkConn rest (c_out conn) false (c_limit conn))) (ss_sess y)))
    as Hk by (intros k ?; by eexists).
  destruct (_ && _); [apply wp_throw; exact (Hk (S n') ltac:(lia))|]. apply wp_ret. exists n'. split; [done|]. exact (Hk n' ltac:(lia)).
Qed.

Lemma SetReadDeadline_conn n y :
  holds_at_most n (ss_sess y) →
  wp SetReadDeadline (λ o y', is_panic o = false ∧ ss_sess y' = ss_sess y) y.
Proof.
  intros (conn & Hc & _). unfold SetReadDeadline. apply wp_bind. unfold wp at 1, the_conn, get_state.
  rewrite bind_run, Hc. cbn. unfold wp, net_call. rewrite bind_run. cbn. by destruct (env_net _).
Qed.

(** A turn of the loop that goes on has taken a frame. *)
Lemma read_frame_takes n sid k x :
  few_at n sid x →
  wp (read_frame c sid k) (λ o x', match o with
    | Ret None => ∃ n', n = S n' ∧ few_at n' sid x'
    | Ret (Some e) => loop_error e ∧ few_at n sid x'
    | Err _ => False
    | Panic _ => few_at n sid x'
    end) x.
Proof.
  intros (s & Hs & Hl). unfold read_frame. apply wp_bind, wp_attempt. unfold wp at 1.
  rewrite (on_session_run _ _ _ _ Hs). cbn [fst snd].
  destruct (SetReadDeadline_conn n (MkSS s (cw_store x)) Hl) as [Hp Hss]. set (r := SetReadDeadline _) in *.
  rewrite Hss. cbn [ss_sess]. set (x1 := set_store _ _).
  assert (heap x1 !! sid = Some s) as Hs1 by (apply list_lookup_insert_eq; by eapply lookup_lt_Some).
  destruct r.1 as [[]|e|p]; [| |done]; cycle 1.
  { apply wp_ret. split; [by eexists _; left|by exists s]. }
  apply wp_bind, wp_attempt. unfold wp at 1. rewrite (on_session_run _ _ _ _ Hs1). cbn [fst snd].
  pose proof (ReadMessage_takes n (MkSS s (cw_store x1)) Hl) as Hr. unfold wp in Hr. set (r2 := ReadMessage _) in *.
  set (x2 := set_store _ (set_heap _ x1)).
  assert (heap x2 !! sid = Some (ss_sess r2.2)) as Hs2 by (apply list_lookup_insert_eq; by eapply lookup_lt_Some).
  destruct r2.1 as [data|e|p]; [| |done]; cycle 1.
  { apply wp_ret. split; [by eexists _; right|by eexists]. }
  destruct Hr as (n' & -> & Hr). assert (few_at n' sid x2) as H2 by by eexists.
  assert (preserves (few_at n' sid) (attempt (on_session sid (on_sess (decrypt data))))) as Hdec
    by apply preserves_attempt, fa_decrypt.
  apply wp_bind. specialize (Hdec x2 H2). unfold wp at 1.
  pose proof (no_err_attempt (on_session sid (on_sess (decrypt data))) x2) as Hne.
  destruct (attempt (on_session sid (on_sess (decrypt data))) x2) as [[[plain|e]|e|p] x3]; cbn [fst snd] in *.
  - apply wp_bind. pose proof (fa_handleDecrypted c n' sid plain sid k x3 Hdec) as Hh.
    pose proof (ne_handleDecrypted c plain sid k x3) as He. unfold wp at 1.
    destruct (handleDecrypted c plain sid k x3) as [[[]|e|p] x4]; cbn [fst snd] in *.
    + apply wp_ret. eauto.
    + by destruct (He e).
    + destruct Hh as (s4 & H4 & conn & Hc4 & Hl4). exists s4. split; [done|]. exists conn. split; [done|]. lia.
  - apply wp_ret. eauto.
  - by destruct (Hne e).
  - destruct Hdec as (s3 & H3 & conn & Hc3 & Hl3). exists s3. split; [done|]. exists conn. split; [done|]. lia.
Qed.

Lemma few_at_weaken n n' sid x : n ≤ n' → few_at n sid x → few_at n' sid x.
Proof. intros Hn (s & Hs & conn & Hc & Hl). exists s. split; [done|]. exists conn. split; [done|]. lia. Qed.

(** One more unit of fuel than frames is enough. *)
Lemma read_frames_end n sid k x :
  few_at n sid x →
  wp (read_frames c (S n) sid k) (λ o x', few_at n sid x' ∧
    match o with Ret _ => False | Err e => loop_error e | Panic _ => True end) x.
Proof.
  revert x. induction n as [n IH] using (well_founded_induction lt_wf). intros x Hx. cbn [read_frames].
  apply wp_bind. eapply wp_conseq; [by apply read_frame_takes|].
  intros [[e|]|e|p] x1 H1; [|destruct H1 as (n' & -> & H1)|done|done].
  - apply wp_throw. by destruct H1.
  - eapply wp_conseq; [apply (IH n'); [lia|exact H1]|]. intros o x2 [H2 Ho]. split; [|done].
    by apply (few_at_weaken n'); [lia|].
Qed.

(** ** Cleaning up *)

(** A session that is over: closed, without keys. *)
Definition closed (s : Session) : Prop :=
  cs_key (sendr s) = None ∧ cs_key (recv s) = None ∧ ∃ conn, s_conn s = Some conn ∧ c_closed conn = true.

Lemma closeConn_closed n y :
  holds_at_most n (ss_sess y) →
  wp closeConn (λ o y', is_panic o = false ∧ closed (ss_sess y')) y.
Proof.
  intros (conn & Hc & _). unfold closeConn. apply wp_bind. unfold wp at 1, on_sess, zoom, modify. cbn.
  apply wp_wrapping. unfold Close. apply wp_bind. unfold wp at 1, the_conn, get_state. rewrite bind_run. cbn. rewrite Hc. cbn.
  apply wp_bind, wp_modify. unfold wp, net_call. rewrite bind_run. cbn.
  destruct (env_net _); (split; [done|]); by repeat split; eexists.
Qed.

Lemma seen_now_no_panic k x :
  wp (seen_now k) (λ o x', o = Ret tt ∧ heap x' = heap x ∧ sessions x' = sessions x) x.
Proof.
  unfold seen_now. wp_use (on_store_wp _ _ x (PeerGet_wp k (cw_store x))) as o x1 [[_ Ho] Hx1].
  assert (heap x1 = heap x ∧ sessions x1 = sessions x) as [Hh Hs] by by rewrite Hx1.
  destruct o as [p|e|p]; [|by apply wp_ret|done].
  wp_use (on_store_wp _ _ x1 (time_Now_wp (cw_store x1))) as o2 x2 [[_ ->] Hx2].
  assert (heap x2 = heap x ∧ sessions x2 = sessions x) as [Hh2 Hs2] by by rewrite Hx2.
  apply wp_ignore. eapply wp_conseq; [apply on_store_wp, PeerAdd_wp|]. intros o3 x3 [(_ & _ & Ho3) Hx3].
  assert (heap x3 = heap x ∧ sessions x3 = sessions x) as [Hh3 Hs3] by by rewrite Hx3.
  by destruct o3.
Qed.

Lemma cleanup_wp n sid k x :
  few_at n sid x →
  wp (cleanup sid k) (λ o x', is_panic o = false ∧ sessions x' = delete k (sessions x) ∧
    ∃ s, heap x' !! sid = Some s ∧ closed s) x.
Proof.
  intros (s & Hs & Hl). unfold cleanup. apply wp_bind, wp_modify. apply wp_bind.
  eapply wp_conseq; [apply seen_now_no_panic|]. intros ? x1 (-> & Hh & Hse).
  apply wp_ignore. cbn in Hh. rewrite <-Hh in Hs. unfold wp. rewrite (on_session_run _ _ _ _ Hs). cbn [fst snd].
  destruct (closeConn_closed n (MkSS s (cw_store x1)) Hl) as [Hc1 Hc2]. set (r := closeConn _) in *.
  assert (∃ s', heap (set_store (ss_world r.2) (set_heap <[sid:=ss_sess r.2]> x1)) !! sid = Some s' ∧ closed s') as Hex.
  { exists (ss_sess r.2). split; [|done]. apply list_lookup_insert_eq. by eapply lookup_lt_Some. }
  by destruct r.1.
Qed.

Lemma readLoop_wp sid x s conn :
  heap x !! sid = Some s → s_conn s = Some conn →
  wp (readLoop c sid) (λ o x',
    match o with Ret _ => False | Err e => loop_error e | Panic _ => True end ∧
    sessions x' = delete (peerPubKey s) (sessions x) ∧ ∃ s', heap x' !! sid = Some s' ∧ closed s') x.
Proof.
  intros Hs Hc. unfold readLoop. apply wp_bind. unfold wp at 1. rewrite (sess_gets_run sid _ x s Hs). cbn [fst snd].
  set (body := (sess_modify sid _;; _)). set (n := length (c_in conn)).
  assert (wp body (λ o x', few_at n sid x' ∧ sessions x' = sessions x ∧
    match o with Ret _ => False | Err e => loop_error e | Panic _ => True end) x) as Hb.
  { subst body. apply wp_bind. unfold wp at 1. rewrite (sess_modify_run sid _ x s Hs). cbn [fst snd].
    set (s1 := SetReadLimit _ s). set (x1 := set_heap _ x).
    assert (heap x1 !! sid = Some s1) as Hs1 by (apply list_lookup_insert_eq; by eapply lookup_lt_Some).
    apply wp_bind. unfold wp at 1. rewrite (sess_gets_run sid _ x1 s1 Hs1). cbn [fst snd].
    assert (s_conn s1 = Some (set_limit (c_MaxMessageSize c) conn)) as Hc1 by (unfold s1, SetReadLimit; cbn; by rewrite Hc).
    assert (unread s1 = n) as -> by (unfold unread; by rewrite Hc1).
    destruct (read_frames_end n sid (peerPubKey s) x1) as [H1 H2]; [exists s1; split; [done|]; by eexists|].
    split; [exact H1|]. split; [|exact H2]. by apply (links_read_frames c (sessions x)). }
  unfold wp, deferring in *. destruct (body x) as [o x1]. cbn [fst snd] in Hb. destruct Hb as (Hf & Hl & Ho).
  destruct (cleanup_wp n sid (peerPubKey s) x1 Hf) as (Hp & Hse & Hcl). rewrite Hl in Hse.
  destruct (cleanup sid (peerPubKey s) x1) as [o2 x2]. cbn [fst snd] in *. by destruct o2.
Qed.

(** C27: The read loop of a session ends: whatever the peer sends and whatever
    fails, it returns a read or deadline error (the fuel never runs out) or
    panics; then exactly the entry of the key the session authenticated is gone
    from the session map, and the session is closed and has no keys. An entry
    under another key that names the session stays
    ([Impersonation.stale_session]). *)
Theorem readLoop_returns (sid : nat) (x : CW) (s : Session) (conn : Conn) :
  heap x !! sid = Some s → s_conn s = Some conn →
  wp (readLoop c sid) (λ o x',
    match o with Ret _ => False | Err e => loop_error e | Panic _ => True end ∧
    sessions x' = delete (peerPubKey s) (sessions x) ∧ ∃ s', heap x' !! sid = Some s' ∧ closed s') x.
Proof. apply readLoop_wp. Qed.
End Loop.

(** ** An instance *)

Lemma readLoop_returns_witness :
  let cl := MkClient (keys_of_seed (C:=toy_crypto) (zeros 32)) DefaultTimeout DefaultRateLimit DefaultRateWindow MaxMessageSize in
  let s := newSession (MkConn [lit "junk"; lit "a frame nobody sealed"] [] false 0) (lit "me") (c_Keys cl) 1 10 60 0 in
  wp (readLoop (P:=toy_platform) (E:=toy_env) cl 0) (λ o x',
    match o with Ret _ => False | Err e => loop_error e | Panic _ => True end ∧
    sessions x' = delete NilKey (<[NilKey := 0]> ∅) ∧ ∃ s', heap x' !! 0 = Some s' ∧ closed s')
    (MkCW empty_SW [s] (<[NilKey := 0]> ∅) ∅).
Proof.
  intros cl s. exact (readLoop_returns (P:=toy_platform) (E:=toy_env) cl 0
    (MkCW empty_SW [s] (<[NilKey := 0]> ∅) ∅) s _ eq_refl eq_refl).
Defined.
