(* ===== verification/Opening.v ===== *)
(** * Opening a session (client/handlers.go, client/peer.go, client/session.go)

    The steps that accepting and dialling share, when nothing fails: a fresh
    session, the key exchange with an honest peer, and the flushing of what
    waits for that peer. *)

From S2P Require Import Prelude Net Config Crypto Keys Signal Message Wire RateLimit Base64 Monad Platform.
From S2P Require Import Store MessageStore StoreFacts Tables Session SessionFacts Handshake Client Handlers ClientFacts Delivery ReadLoop.

(** ** The key exchange only consults the environment *)

Section World.
Context {P : Platform} {E : Env}.
Variable w0 : SW.

Definition idle (y : SS) : Prop := same w0 (ss_world y).
Abbreviation keeps m := (preserves idle m).

Lemma idle_next : keeps (on_world next).
Proof. by intros [s w]. Qed.
Lemma idle_get_state : keeps get_state.
Proof. by intros y. Qed.
Lemma idle_upd f : keeps (modify (upd_sess f)).
Proof. by apply preserves_modify. Qed.
Lemma idle_on_sess {A} (m : M Session A) : keeps (on_sess m).
Proof. intros [s w] H. unfold on_sess, zoom. cbn. by destruct (m s). Qed.
Hint Resolve idle_next idle_get_state idle_upd idle_on_sess : chat.
Lemma idle_net_call : keeps net_call.
Proof. unfold net_call. preserve. Qed.
Lemma idle_the_conn : keeps the_conn.
Proof. unfold the_conn. preserve. Qed.
Hint Resolve idle_net_call idle_the_conn : chat.
Lemma idle_handshake i : keeps (handshake i).
Proof.
  unfold handshake, GenerateKey, doSend, doRecv, SetReadDeadline, SetWriteDeadline, WriteMessage, ReadMessage. preserve.
Qed.
End World.

(** ** A fresh session *)

Section Open.
Context {P : Platform} {PL : PlatformLaws P} {E : Env} (c : Client).

(** The name in the profile. *)
Definition own_name (d : DB) : gostring :=
  match profile d with
  | Some r => match uuid_Scan (pf_profile_pic r) with Some _ => pf_name r | None => [] end
  | None => []
  end.

Lemma getName_run x : no_faults E → (getName x).1 = Ret (own_name (db (cw_store x))).
Proof.
  intros Hn.
  assert (wp ProfileStore.Get (λ o w', match o with Ret p => ProfileStore.prof_Name p | _ => [] end = own_name (db (cw_store x))
    ∧ is_panic o = false) (cw_store x)) as Hg.
  { unfold ProfileStore.Get, own_name. wp_use db_query_wp as o w [_ Ho]. destruct o as [r|e|q]; [|by destruct (Ho Hn)|done].
    subst r. destruct (profile (db (cw_store x))) as [r|]; [|done]. wp_head. by destruct (uuid_Scan _). }
  unfold getName, Info. rewrite bind_run. unfold attempt. rewrite bind_run. unfold on_store, zoom.
  unfold wp in Hg. destruct (ProfileStore.Get (cw_store x)) as [[p|e|q] w]; cbn [fst snd] in Hg; destruct Hg as [<- ?]; done.
Qed.

Lemma same_refl w : same w w.
Proof. by split. Qed.
Lemma same_trans w1 w2 w3 : same w1 w2 → same w2 w3 → same w1 w3.
Proof. intros [] []. split; congruence. Qed.

(** What [new_session] makes does not depend on the connection. *)
Lemma new_session_run x nm :
  (getName x).1 = Ret nm →
  ∃ w t, same (cw_store x) w ∧ ∀ conn, new_session c conn x = (Ret (length (heap x)),
    MkCW w (heap x ++ [newSession conn nm (c_Keys c) (c_Timeout c) (c_RateLimit c) (c_RateWindow c) (env_now t)])
      (sessions x) (pendingFiles x)).
Proof.
  intros Hnm. destruct (getName_same x) as (_ & Hx1 & Hs1). destruct (getName x) as [o x1] eqn:Eg.
  cbn [fst snd] in *. subst o. exists (cw_store (on_store time_Now x1).2), (tick (cw_store x1)).
  split; [by apply (same_trans _ (cw_store x1))|].
  intros conn. unfold new_session, alloc, get_state. rewrite bind_run, Eg. cbn. rewrite Hx1. done.
Qed.

(** ** The key exchange *)

(** A peer as the exchange sees it. *)
Definition party (k : Keys) (nm : gostring) : Session := newSession (MkConn [] [] false 0) nm k 0 0 0 0.
Definition sound (k : Keys) (nm : gostring) : Prop :=
  keys_wf k ∧ Public k ≠ NilKey ∧ (len nm <= MaxUint16)%Z.

Lemma session_handshake lim i s p pe rest out x sid priv :
  net_ok E → heap x !! sid = Some s →
  honest lim s (kx_frame p (pub_of pe) :: rest) out →
  keys_wf (ourKeys p) → ourStatic p = Public (ourKeys p) → ourStatic p ≠ NilKey → ourStatic p ≠ ourStatic s →
  (len (ourName p) <= MaxUint16)%Z → (∀ q, is_Some (x25519_ECDH pe (x25519_Public q))) →
  env_ecdh (tick (cw_store x)) = Some priv →
  wp (on_session sid (handshake i)) (λ o x', o = Ret tt ∧ same (cw_store x) (cw_store x') ∧
    ∃ shared, x25519_ECDH pe (x25519_Public priv) = Some shared ∧
      only_session sid (set_conn (Some (MkConn rest (out ++ [kx_frame s (pub_of priv)]) false lim))
        (established s i shared (kx_of p (pub_of pe)))) x x') x.
Proof.
  intros Hn Hs Hh Hkp Hpp Hpz Hpne Hpn Hsh Hpriv.
  destruct (handshake_run Hn lim i (MkSS s (cw_store x)) s p (pub_of pe) rest out Hh eq_refl Hpn)
    as (q & Hq & Hrun); [by apply authentic_honest|].
  cbn [ss_world] in Hq. rewrite Hpriv in Hq. injection Hq as ->.
  destruct (Hsh priv) as [shared Hshared]. specialize (Hrun shared).
  rewrite pub_of_bytes, x25519_agree in Hrun. specialize (Hrun Hshared).
  unfold wp. rewrite (on_session_run _ _ _ _ Hs). cbn [fst snd]. destruct Hrun as [-> Hs'].
  pose proof (idle_handshake (cw_store x) i (MkSS s (cw_store x)) ltac:(done)) as Hsame.
  split; [done|]. split; [exact Hsame|]. exists shared. split; [done|].
  unfold only_session. cbn -[handshake established]. by rewrite Hs'.
Qed.

(** ** After the exchange *)

Lemma touch_peer_wp k f x :
  no_faults E →
  (∀ p, KnownPeerStore.PubKey (f p) = KnownPeerStore.PubKey p) →
  wp (touch_peer k f) (λ o x', o = Ret tt ∧ x' = set_store (cw_store x') x ∧
    cache (cw_store x') = cache (cw_store x) ∧ ∃ g, db (cw_store x') = set_known_peers g (db (cw_store x))) x.
Proof.
  intros Hn Hf. unfold touch_peer.
  wp_use (on_store_wp _ _ x (PeerGet_wp k (cw_store x))) as o x1 [[[Hd1 Hc1] Ho] Hx1].
  destruct o as [p|e|p]; [| |done].
  - apply wp_ignore. eapply wp_conseq; [apply on_store_wp, PeerAdd_wp|].
    intros o2 x2 [(Hc2 & _ & Ho2) Hx2]. destruct o2 as [[]|e|q]; [|by destruct Ho2|done].
    split; [done|]. split; [by rewrite Hx2, Hx1|]. split; [congruence|]. eexists. by rewrite Ho2, Hd1.
  - apply wp_ret. split; [done|]. split; [done|]. split; [done|].
    exists id. rewrite Hd1. by destruct (db (cw_store x)).
Qed.

(** What a flush to an accepted session that is filed under [k] sends. *)
Definition flushed (k : Key) (sid : nat) (s : Session) (x x' : CW) : Prop :=
  ∃ entries s', entries ≡ₚ waiting (priv c) (db (cw_store x)) k ∧
    sent (OutboxStore.SignalContent <$> entries) s s' ∧ only_session sid s' x x' ∧
    waiting (priv c) (db (cw_store x')) k = [] ∧ chats (db (cw_store x')) = chats (db (cw_store x)).

Lemma chats_forget l d : chats (forget l d) = chats d.
Proof. revert d. induction l as [|id l IH]; intros d; [done|]. by apply (IH (set_outbox _ d)). Qed.

Lemma flush_filed_wp k sid s x :
  no_faults E → net_ok E → outbox_inv (priv c) (db (cw_store x)) →
  sessions x !! k = Some sid → heap x !! sid = Some s → open s → status s = Accepted →
  wp (flushOutbox c k) (λ o x', o = Ret tt ∧ flushed k sid s x x') x.
Proof.
  intros Hf Hn Hob Hk Hs Ho Hst.
  assert (accepted x k = Some (sid, s)) as Hacc.
  { unfold accepted. rewrite Hk. cbn -[Accepted]. rewrite Hs. cbn -[Accepted]. by rewrite (bool_decide_true (status s = Accepted)). }
  eapply wp_conseq; [apply flushOutbox_wp; [done..| |]|].
  - rewrite Hacc. by intros ? ? [= <- <-].
  - rewrite Hk. intros ? [= <-]. by eexists.
  - intros o x' (-> & _ & _ & Hp). rewrite Hacc in Hp. split; [done|].
    destruct Hp as (entries & s' & He & _ & Hsent & Hx' & Hd & Hw & _). exists entries, s'.
    do 4 (split; [done|]). by rewrite Hd, chats_forget.
Qed.

(** [startSession] after a key exchange that succeeded, for an accepted peer. *)
Lemma adopt_wp k sid s x :
  no_faults E → net_ok E → outbox_inv (priv c) (db (cw_store x)) →
  heap x !! sid = Some s → open s → status s = Accepted →
  wp (modify (set_sessions (<[k := sid]>));;
      name ← sess_gets sid peerName;
      touch_peer k (set_PeerName name);;
      flushOutbox c k;;
      (if bool_decide (Accepted = Pending) then requestPeerInfo c sid else mret tt);;
      mret (Some sid)) (λ o x', o = Ret (Some sid) ∧ ∃ entries s',
    entries ≡ₚ waiting (priv c) (db (cw_store x)) k ∧ waiting (priv c) (db (cw_store x')) k = [] ∧
    sent (OutboxStore.SignalContent <$> entries) s s' ∧
    heap x' = <[sid := s']> (heap x) ∧ sessions x' = <[k := sid]> (sessions x) ∧
    chats (db (cw_store x')) = chats (db (cw_store x))) x.
Proof.
  intros Hf Hn Hob Hs Ho Hst. set (x1 := set_sessions <[k := sid]> x). apply wp_bind, wp_modify. fold x1.
  apply wp_bind. unfold wp at 1. rewrite (sess_gets_run _ peerName x1 s Hs). cbn [fst snd].
  apply wp_bind. eapply wp_conseq; [by apply (touch_peer_wp k (set_PeerName (peerName s)) x1)|].
  intros ? x2 (-> & Hx2 & _ & g & Hd2).
  assert (heap x2 = heap x ∧ sessions x2 = <[k := sid]> (sessions x)) as [Hh2 Hse2] by by rewrite Hx2.
  assert (outbox (db (cw_store x2)) = outbox (db (cw_store x))) as Hout by by rewrite Hd2.
  apply wp_bind. eapply wp_conseq; [apply (flush_filed_wp k sid s x2 Hf Hn); [|by rewrite Hse2, lookup_insert_eq|by rewrite Hh2|done..]|].
  { by eapply outbox_inv_outbox. }
  intros o x3 (-> & entries & s' & He & Hsent & (Hh3 & Hse3 & _) & Hw & Hch).
  rewrite (waiting_outbox _ _ _ _ Hout) in He. rewrite bool_decide_false by done.
  apply wp_bind, wp_ret, wp_ret. split; [done|]. exists entries, s'. do 3 (split; [done|]).
  split; [by rewrite Hh3, Hh2|]. split; [by rewrite Hse3, Hse2|]. by rewrite Hch, Hd2.
Qed.

(** ** A connection of an accepted peer *)

(** The session [startSession] creates on a connection. *)
Definition fresh (conn : Conn) (nm : gostring) (now : Z) (st : gostring) : Session :=
  setStatus st (newSession (set_limit (c_MaxMessageSize c) conn) nm (c_Keys c) (c_Timeout c) (c_RateLimit c) (c_RateWindow c) now).

(** An honest peer, not ourselves, with an ephemeral key that agrees with any. *)
Definition honest_peer (p : Session) (pe : bytes) : Prop :=
  keys_wf (ourKeys p) ∧ ourStatic p = Public (ourKeys p) ∧ ourStatic p ≠ NilKey ∧ ourStatic p ≠ pub c ∧
  (len (ourName p) <= MaxUint16)%Z ∧ ∀ q, is_Some (x25519_ECDH pe (x25519_Public q)).

(** The session after the exchange: it has read the peer's frame, and written
    its own. *)
Definition exchanged (i : bool) (lim : Z) (s p : Session) (pe priv shared : bytes) (rest : list bytes) : Session :=
  set_conn (Some (MkConn rest [kx_frame s (pub_of priv)] false lim)) (established s i shared (kx_of p (pub_of pe))).

Lemma exchanged_open i lim s p pe priv shared rest : open (exchanged i lim s p pe priv shared rest).
Proof.
  destruct (established_linked s s shared (kx_of p (pub_of pe)) (kx_of p (pub_of pe)) (s_conn s) (s_conn s)) as [H1 H2].
  destruct i; [destruct H1 as (_ & Hwf & Hk)|destruct H2 as (_ & Hwf & Hk)]; (split; [done|]; split; [done|]; by eexists).
Qed.

Lemma exchanged_peer i lim s p pe priv shared rest :
  ourStatic p ≠ NilKey → peerPubKey (exchanged i lim s p pe priv shared rest) = ourStatic p.
Proof. intros Hp. unfold peerPubKey, exchanged. destruct i; cbn; by rewrite bool_decide_true. Qed.

(** Session [s], filed under [k] at [sid], was sent what waited for [k]. *)
Definition joined (k : Key) (sid : nat) (s : Session) (x x' : CW) : Prop :=
  ∃ entries s', entries ≡ₚ waiting (priv c) (db (cw_store x)) k ∧ waiting (priv c) (db (cw_store x')) k = [] ∧
    sent (OutboxStore.SignalContent <$> entries) s s' ∧ heap x' !! sid = Some s' ∧
    sessions x' = <[k := sid]> (sessions x) ∧ chats (db (cw_store x')) = chats (db (cw_store x)).

(** [open_session] chooses its ephemeral key whatever the peer sends. *)
Lemma open_accepted x k nm :
  no_faults E → net_ok E → outbox_inv (priv c) (db (cw_store x)) →
  sound (c_Keys c) nm → (getName x).1 = Ret nm →
  ∃ (e : vec byte 32) t, ∀ p pe rest, honest_peer p pe → within (c_MaxMessageSize c) (kx_frame p (pub_of pe) :: rest) →
  let conn := MkConn (kx_frame p (pub_of pe) :: rest) [] false 0 in
  wp (open_session c conn k Accepted) (λ o x', o = Ret (Some (length (heap x))) ∧
    ∃ shared, x25519_ECDH pe (x25519_Public e) = Some shared ∧
      joined k (length (heap x)) (exchanged false (c_MaxMessageSize c) (fresh conn nm (env_now t) Accepted) p pe e shared rest) x x') x.
Proof.
  intros Hf Hn Hob (Hk & Hnz & Hnl) Hnm. destruct (new_session_run x nm Hnm) as (w & t & Hw & Hnew).
  destruct (proj2 Hn (tick w)) as [e He]. exists e, t.
  intros p pe rest (Hkp & Hpp & Hpz & Hpne & Hpn & Hsh) Hin conn. set (s0 := fresh conn nm (env_now t) Accepted).
  set (sid := length (heap x)). unfold open_session. apply wp_bind. unfold wp at 1. rewrite Hnew. cbn [fst snd].
  fold sid. set (x1 := MkCW w _ _ _).
  assert (heap x1 !! sid = Some (newSession (set_limit (c_MaxMessageSize c) conn) nm (c_Keys c) (c_Timeout c)
    (c_RateLimit c) (c_RateWindow c) (env_now t))) as Hsid1 by by apply list_lookup_middle.
  apply wp_bind. unfold wp at 1. rewrite (sess_modify_run _ _ _ _ Hsid1). cbn [fst snd]. fold s0.
  set (x2 := set_heap _ x1). assert (sid < length (heap x1)) as Hlt by by eapply lookup_lt_Some.
  assert (heap x2 !! sid = Some s0) as Hsid2 by by apply list_lookup_insert_eq.
  apply wp_bind, wp_attempt. eapply wp_conseq.
  { apply (session_handshake (c_MaxMessageSize c) false s0 p pe rest [] x2 sid e Hn Hsid2); done. }
  intros ? x3 (-> & Hs3 & shared & Hshared & Hx3). cbn [app] in Hx3.
  assert (db (cw_store x3) = db (cw_store x)) as Hd by (destruct Hw, Hs3; cbn in *; congruence).
  eapply wp_conseq; [apply (adopt_wp k sid (exchanged false (c_MaxMessageSize c) s0 p pe e shared rest) x3 Hf Hn)|].
  { by rewrite Hd. }
  { rewrite (proj1 Hx3). apply list_lookup_insert_eq. by eapply lookup_lt_Some. }
  { apply exchanged_open. }
  { done. }
  intros o x' (-> & entries & s' & Hent & Hwt & Hsent & Hh & Hse & Hch). rewrite Hd in Hent, Hch. split; [done|].
  exists shared. split; [done|]. exists entries, s'. do 3 (split; [done|]).
  split; [rewrite Hh; apply list_lookup_insert_eq; rewrite (proj1 Hx3), length_insert; by eapply lookup_lt_Some|].
  split; [|done]. by rewrite Hse, (proj1 (proj2 Hx3)).
Qed.
End Open.
