(* ===== verification/Api.v ===== *)
(** * The HTTP interface (client/api.go, client/routes.go)

    The handlers of the admin and message routes. A request is what the HTTP
    library made of it: its path values, and the result of decoding its body
    ([None]: it does not decode). A response is the first status code written
    and the bodies written, in order, as [http.ResponseWriter] has them. *)

From S2P Require Import Prelude Net Config Crypto Keys Signal Message Wire RateLimit Base64 Monad Platform Store MessageStore Session Client Handlers.

Inductive body :=
| BText (msg : gostring)
| BError (e : error)
| BStatus (s : gostring)
| BPeer (p : KnownPeerStore.KnownPeer)
| BPeers (l : list KnownPeerStore.KnownPeer)
| BSessions (l : list (Key * gostring * gostring))     (* key, status, name *)
| BMessage (m : message.Message) (from : gostring)
| BMessages (l : list (message.Message * gostring))
| BSummaries (l : list ChatStore.ChatSummary)
| BOutbox (l : list OutboxStore.OutboxSignal)
| BFile (data : bytes)
| BMe (name : gostring) (pic : option bytes).

Record response := MkResponse { r_code : option Z; r_body : list body }.
Definition no_response : response := MkResponse None [].

(** The client and the response under construction. *)
Record AS := MkAS { as_client : CW; as_resp : response }.

(** [WriteHeader]: later calls are superfluous. *)
Definition write_code (code : Z) (r : response) : response :=
  MkResponse (match r_code r with Some k => Some k | None => Some code end) (r_body r).
Definition write_body (b : body) (r : response) : response :=
  let r := write_code 200 r in MkResponse (r_code r) (r_body r ++ [b]).

Definition errNotOwner : error := ENew "not the message owner".
Definition statusConnected : gostring := lit "connected".
Definition statusDisconnected : gostring := lit "disconnected".
Definition statusDeleted : gostring := lit "deleted".
Definition statusUpdated : gostring := lit "updated".
Definition statusFlushed : gostring := lit "flushed".
Definition statusInfoDeleted : gostring := lit "info_deleted".
Definition statusInfoChanged : gostring := lit "info_changed".

(** An uploaded file: its header, and its content unless it cannot be read. *)
Record fileHeader := MkFileHeader {
  fh_Filename : gostring; fh_ContentType : gostring; fh_Size : Z; fh_Data : option bytes
}.
(** A parsed multipart form. *)
Record form := MkForm { f_content : gostring; f_files : list fileHeader }.

(** The pieces [sendFile] reads from [bytes.NewReader(l)]. *)
Fixpoint reads_of (fuel : nat) (l : bytes) : list read :=
  match fuel, l with
  | O, _ | _, [] => []
  | S fuel', _ =>
      MkRead (take (Z.to_nat FileChunkSize) l) None :: reads_of fuel' (drop (Z.to_nat FileChunkSize) l)
  end.

Section Api.
Context {P : Platform} {E : Env} (c : Client).

Definition on_client {A} (m : M CW A) : M AS A := zoom as_client (λ x a, MkAS x (as_resp a)) m.
Definition respond (f : response → response) : M AS unit := modify (λ a, MkAS (as_client a) (f (as_resp a))).
(** [http.Error(w, msg, code)] *)
Definition http_Error (b : body) (code : Z) : M AS unit := respond (λ r, write_body b (write_code code r)).
(** [json.NewEncoder(w).Encode(v)] *)
Definition reply (b : body) : M AS unit := respond (write_body b).

(** ** Peers and sessions *)

Definition set_Online b p := KnownPeerStore.MkPeer (KnownPeerStore.PeerIP p) (KnownPeerStore.PubKey p)
  (KnownPeerStore.PeerName p) (KnownPeerStore.Nickname p) (KnownPeerStore.Status p) b (KnownPeerStore.LastSeen p) (KnownPeerStore.ProfilePic p).
Definition set_Nickname n p := KnownPeerStore.MkPeer (KnownPeerStore.PeerIP p) (KnownPeerStore.PubKey p)
  (KnownPeerStore.PeerName p) n (KnownPeerStore.Status p) (KnownPeerStore.Online p) (KnownPeerStore.LastSeen p) (KnownPeerStore.ProfilePic p).

Definition adminListPeers : M AS unit :=
  r ← attempt (on_client (on_store KnownPeerStore.List));
  match r with
  | inr e => http_Error (BError e) 500
  | inl peers =>
      x ← on_client get_state;
      reply (BPeers ((λ p, if bool_decide (is_Some (sessions x !! KnownPeerStore.PubKey p))
                           then set_Online true p else p) <$> peers))
  end.

Definition updatePeerStatus (pathKey st : gostring) : M AS unit :=
  match FromHex pathKey with
  | Ret pubKey =>
      r ← attempt (on_client (on_store (KnownPeerStore.Get pubKey)));
      match r with
      | inr _ => http_Error (BText (lit "peer not found")) 404
      | inl peer =>
          let peer := set_Status st peer in
          a ← attempt (on_client (on_store (KnownPeerStore.Add peer)));
          match a with
          | inr e => http_Error (BError e) 500
          | inl _ => reply (BPeer peer)
          end
      end
  | _ => http_Error (BText (lit "invalid pubKey")) 400
  end.

Definition updateSessionStatus (pubKey : Key) (st : gostring) : M CW unit :=
  v ← sessions_Load pubKey;
  if bool_decide (st = Rejected) then
    match v with
    | None => mret tt
    | Some sid => modify (set_sessions (delete pubKey));; ignore (on_session sid closeConn)
    end
  else
    match v with
    | None => mret tt
    | Some sid => sess_modify sid (setStatus st)
    end.

Definition adminAcceptPeer (pathKey : gostring) : M AS unit :=
  match FromHex pathKey with
  | Ret pubKey =>
      updatePeerStatus pathKey Accepted;;
      on_client (updateSessionStatus pubKey Accepted);;
      s ← attempt (lift (signal.New signal.PeerAccepted (pub c) NilUUID []));
      match s with
      | inr _ => http_Error (BText (lit "an error happened")) 500
      | inl sig =>
          v ← on_client (sessions_Load pubKey);
          match v with
          | None => mret tt
          | Some sid => ignore (on_client (on_session sid (send sig)))
          end
      end
  | _ => http_Error (BText (lit "invalid pubKey")) 400
  end.

Definition adminRejectPeer (pathKey : gostring) : M AS unit :=
  match FromHex pathKey with
  | Ret pubKey =>
      updatePeerStatus pathKey Rejected;;
      on_client (updateSessionStatus pubKey Rejected)
  | _ => http_Error (BText (lit "invalid pubKey")) 400
  end.

(** [Range] over the sessions, appending to [out]. *)
Fixpoint list_sessions (l : list (Key * nat)) : M CW (list (Key * gostring * gostring)) :=
  match l with
  | [] => mret []
  | (pk, sid) :: l' =>
      name ← displayNameForPubKey pk;
      st ← sess_gets sid status;
      rest ← list_sessions l';
      mret ((pk, st, name) :: rest)
  end.

Definition adminListSessions : M AS unit :=
  out ← on_client (t ← on_store next; x ← get_state; list_sessions (env_range t (sessions x)));
  reply (BSessions out).

Definition adminDeleteSession (pathKey : gostring) : M AS unit :=
  match FromHex pathKey with
  | Ret pubKey =>
      v ← on_client (sessions_Load pubKey);
      match v with
      | None => http_Error (BText (lit "session not found")) 404
      | Some sid =>
          on_client (modify (set_sessions (delete pubKey)));;
          ignore (on_client (on_session sid closeConn));;
          reply (BStatus statusDisconnected)
      end
  | _ => http_Error (BText (lit "invalid pubKey")) 400
  end.

Definition validateAddr (addr : gostring) : outcome gostring :=
  if bool_decide (addr = []) || bool_decide (addr = lit ":") then Err (ENew "invalid address") else
  let '(host, port) := match net_SplitHostPort addr with
                       | Ret (h, p) => (h, p)
                       | _ => (addr, lit "8080")   (* strconv.Itoa(config.DefaultPort) *)
                       end in
  let port := if bool_decide (port = []) then lit "8080" else port in
  Ret (net_JoinHostPort host port).

Definition apiConnectPeer (req : option gostring) (dial : gostring → dial_result) : M AS unit :=
  match req with
  | None => http_Error (BText (lit "invalid body")) 400
  | Some addr =>
      match validateAddr addr with
      | Ret addr =>
          r ← attempt (on_client (connectSession c addr (dial addr)));
          match r with
          | inr e => http_Error (BError e) 502
          | inl _ => reply (BStatus statusConnected)
          end
      | Err e => http_Error (BError e) 400
      | Panic p => panic p
      end
  end.

Definition adminSetNickname (pathKey : gostring) (req : option gostring) : M AS unit :=
  match FromHex pathKey with
  | Ret pubKey =>
      match req with
      | None => http_Error (BText (lit "invalid body")) 400
      | Some nickname =>
          r ← attempt (on_client (on_store (KnownPeerStore.Get pubKey)));
          match r with
          | inr _ => http_Error (BText (lit "peer not found")) 404
          | inl peer =>
              let peer := set_Nickname nickname peer in
              a ← attempt (on_client (on_store (KnownPeerStore.Add peer)));
              match a with
              | inr e => http_Error (BError e) 500
              | inl _ => reply (BPeer peer)
              end
          end
      end
  | _ => http_Error (BText (lit "invalid pubKey")) 400
  end.

(** ** Messages *)

(** The loop over the uploaded files. *)
Fixpoint form_files (maxSize totalSize : Z) (l : list fileHeader) : outcome (list message.Attachment) :=
  match l with
  | [] => Ret []
  | fh :: l' =>
      if (wrap64 (totalSize + fh_Size fh) >? maxSize)%Z
      then Err (EFmt "attachments exceed max size" [maxSize]) else
      match fh_Data fh with
      | None => Err (ENew "read file")
      | Some d =>
          let data := take (Z.to_nat maxSize) d in
          rest ← form_files maxSize (wrap64 (totalSize + fh_Size fh)) l';
          Ret (message.MkAttachment NilUUID (fh_Filename fh) (fh_ContentType fh) (len data) data :: rest)
      end
  end.

Definition parseMessageForm (r : option form) (maxSize : Z) : outcome (gostring * list message.Attachment) :=
  match r with
  | None => Err (ENew "invalid form")
  | Some f => atts ← form_files maxSize 0 (f_files f); Ret (f_content f, atts)
  end.

Definition sendAttachments (pubKey : Key) (attachments : list message.Attachment) : M CW unit :=
  v ← sessions_Load pubKey;
  match v with
  | None => mret tt
  | Some sid =>
      st ← sess_gets sid status;
      if negb (bool_decide (st = Accepted)) then mret tt else
      for_each attachments (λ att,
        ignore (sendFile c sid (message.AttID att) (message.Name att) (message.MIMEType att) (message.Size att)
          (reads_of (length (message.Data att)) (take (Z.to_nat (message.Size att)) (message.Data att)))))
  end.

(** [attachments[i].ID = uuid.New()] *)
Fixpoint fresh_ids (l : list message.Attachment) : M CW (list message.Attachment) :=
  match l with
  | [] => mret []
  | a :: l' =>
      id ← on_store uuid_New;
      rest ← fresh_ids l';
      mret (message.MkAttachment id (message.Name a) (message.MIMEType a) (message.Size a) (message.Data a) :: rest)
  end.

Definition without_data (a : message.Attachment) : message.Attachment :=
  message.MkAttachment (message.AttID a) (message.Name a) (message.MIMEType a) (message.Size a) [].

Definition apiSendMessage (pathKey : gostring) (r : option form) : M AS unit :=
  match FromHex pathKey with
  | Ret pubKey =>
      if bool_decide (pubKey = pub c) then http_Error (BText (lit "cannot message self")) 400 else
      match parseMessageForm r (c_MaxMessageSize c) with
      | Panic p => panic p
      | Err e => http_Error (BError e) 400
      | Ret (content, attachments) =>
          k ← attempt (on_client (on_store (KnownPeerStore.Get pubKey)));
          match k with
          | inr _ => http_Error (BText (lit "unknown peer")) 404
          | inl peer =>
              if bool_decide (KnownPeerStore.Status peer = Rejected)
              then http_Error (BText (lit "peer rejected")) 403 else
              v ← on_client (sessions_Load pubKey);
              '(peerName, st) ← on_client
                (match v with
                 | None => mret (take 16 (Key_String pubKey), [])
                 | Some sid => n ← sess_gets sid peerName; st ← sess_gets sid status; mret (n, st)
                 end);
              let sessLoaded := bool_decide (is_Some v) in
              if sessLoaded && bool_decide (st = Rejected)
              then http_Error (BText (lit "peer rejected")) 403 else
              msg ← on_client (NewMessage peerName content);
              let queued := if sessLoaded then negb (bool_decide (st = Accepted)) else true in
              let haveFiles := (len attachments >? 0)%Z in
              '(msg, attachments) ← on_client
                (if haveFiles
                 then id ← on_store uuid_New;
                      atts ← fresh_ids attachments;
                      mret (set_Attachments (without_data <$> atts) (set_MsgID id msg), atts)
                 else mret (msg, attachments));
              s ← attempt (on_client (sendMessageToPeer c pubKey msg));
              match s with
              | inr _ => http_Error (BText (lit "send failed")) 500
              | inl _ =>
                  when haveFiles
                    (on_client (sendAttachments pubKey attachments);;
                     ignore (on_client (on_store (msgstore.StoreAttachments (priv c)
                       (uuid_String (message.MsgID msg)) attachments))));;
                  reply (BStatus (if queued then lit "queued" else lit "sent"))
              end
          end
      end
  | _ => http_Error (BText (lit "invalid pubKey")) 400
  end.

(** The sender's name shown with a message. *)
Definition msgResponse (msg : message.Message) : M CW gostring :=
  if bool_decide (message.FromPubKey msg = pub c) then getName
  else if negb (bool_decide (message.FromPubKey msg = NilKey)) then
    r ← attempt (on_store (KnownPeerStore.Get (message.FromPubKey msg)));
    mret (match r with
          | inl peer => if negb (bool_decide (KnownPeerStore.Nickname peer = []))
                        then KnownPeerStore.Nickname peer else KnownPeerStore.PeerName peer
          | inr _ => []
          end)
  else mret [].

Definition apiListMessages : M AS unit :=
  r ← attempt (on_client (on_store ChatStore.List));
  match r with
  | inr e => http_Error (BError e) 500
  | inl summaries => reply (BSummaries summaries)
  end.

Definition apiGetMessage (pathId : gostring) : M AS unit :=
  match uuid_Parse pathId with
  | None => http_Error (BText (lit "invalid id")) 400
  | Some id =>
      r ← attempt (on_client (on_store (msgstore.Get (priv c) id)));
      match r with
      | inr e => http_Error (BError e) 404
      | inl msg => from ← on_client (msgResponse msg); reply (BMessage msg from)
      end
  end.

Definition apiSearchMessages (q : gostring) : M AS unit :=
  if bool_decide (q = []) then http_Error (BText (lit "missing query parameter 'q'")) 400 else
  r ← attempt (on_client (on_store (msgstore.Search (priv c) q 50)));
  match r with
  | inr e => http_Error (BError e) 500
  | inl results =>
      resp ← on_client (map_each (λ m, from ← msgResponse m; mret (m, from)) results);
      reply (BMessages resp)
  end.

Definition getOwnedMessage (id : UUID) : M CW message.Message :=
  msg ← wrapping "get message" (on_store (msgstore.Get (priv c) id));
  if bool_decide (message.FromPubKey msg ≠ pub c) then throw errNotOwner else mret msg.

Definition apiUpdateMessage (pathId : gostring) (req : option gostring) : M AS unit :=
  match uuid_Parse pathId with
  | None => http_Error (BText (lit "invalid id")) 400
  | Some id =>
      r ← attempt (on_client (getOwnedMessage id));
      match r with
      | inr e =>
          if errors_Is e errNotOwner then http_Error (BText (lit "cannot edit another user's message")) 403
          else http_Error (BError e) 404
      | inl msg =>
          match req with
          | None => http_Error (BText (lit "invalid body")) 400
          | Some content =>
              if bool_decide (content = []) then http_Error (BText (lit "content required")) 400 else
              name ← on_client getName;
              u ← attempt (on_client (on_store (msgstore.Update (priv c) id name (set_Content content msg))));
              match u with
              | inr e => http_Error (BError e) 500
              | inl _ => on_client (broadcastUpdate c id content);; reply (BStatus statusUpdated)
              end
          end
      end
  end.

Definition apiDeleteMessage (pathId : gostring) : M AS unit :=
  match uuid_Parse pathId with
  | None => http_Error (BText (lit "invalid id")) 400
  | Some id =>
      r ← attempt (on_client (getOwnedMessage id));
      match r with
      | inr e =>
          if errors_Is e errNotOwner then http_Error (BText (lit "cannot delete another user's message")) 403
          else http_Error (BError e) 404
      | inl _ =>
          d ← attempt (on_client (on_store (msgstore.Delete (priv c) id)));
          match d with
          | inr e => http_Error (BError e) 500
          | inl _ => on_client (broadcastDelete c id);; reply (BStatus statusDeleted)
          end
      end
  end.

Definition apiGetFile (pathId : gostring) : M AS unit :=
  match uuid_Parse pathId with
  | None => http_Error (BText (lit "invalid id")) 400
  | Some id =>
      r ← attempt (on_client (on_store (FileStore.Get (priv c) id)));
      match r with
      | inr e => http_Error (BError e) 404
      | inl raw => reply (BFile raw)
      end
  end.

(** ** Outbox *)

Definition adminListOutbox : M AS unit :=
  r ← attempt (on_client (on_store OutboxStore.List));
  match r with
  | inr e => http_Error (BError e) 500
  | inl entries => reply (BOutbox entries)
  end.

Definition adminDeleteOutboxEntry (pathId : gostring) : M AS unit :=
  match uuid_Parse pathId with
  | None => http_Error (BText (lit "invalid id")) 400
  | Some id =>
      r ← attempt (on_client (on_store (OutboxStore.Delete id)));
      match r with
      | inr e => http_Error (BError e) 500
      | inl _ => reply (BStatus statusDeleted)
      end
  end.

Definition adminFlushOutbox (pathKey : gostring) : M AS unit :=
  match FromHex pathKey with
  | Ret pubKey => on_client (flushOutbox c pubKey);; reply (BStatus statusFlushed)
  | _ => http_Error (BText (lit "invalid pubKey")) 400
  end.

(** ** Profile *)

(** [file]: no file in the form, or the result of reading it. *)
Definition adminUpdateProfile (req : option (gostring * option (option bytes))) : M AS unit :=
  match req with
  | None => http_Error (BText (lit "invalid form")) 400
  | Some (name, file) =>
      let named := negb (bool_decide (name = [])) in
      when named (on_client (setName name));;
      (* [None]: the handler returned after an error *)
      changed ←
        match file with
        | None => mret (Some named)
        | Some None => http_Error (BText (lit "read file failed")) 500;; mret None
        | Some (Some content) =>
            let data := take (Z.to_nat MaxProfilePicSize) content in
            info ← on_client Info;
            let oldPic := info_ProfilePic info in
            fileID ← on_client (on_store uuid_New);
            s ← attempt (on_client (on_store (FileStore.PutWithID (priv c) fileID [] data)));
            match s with
            | inr _ => http_Error (BText (lit "store file failed")) 500;; mret None
            | inl _ =>
                when (negb (bool_decide (oldPic = NilUUID)))
                  (ignore (on_client (on_store (FileStore.Delete oldPic))));;
                name ← on_client getName;
                ignore (on_client (on_store (ProfileStore.Update name fileID)));;
                mret (Some true)
            end
        end;
      match changed with
      | None => mret tt
      | Some changed =>
          when changed (on_client (broadcastInfoChanged c));;
          reply (BStatus statusInfoChanged)
      end
  end.

Definition adminDeleteProfilePic : M AS unit :=
  info ← on_client Info;
  when (negb (bool_decide (info_ProfilePic info = NilUUID)))
    (ignore (on_client (on_store (FileStore.Delete (info_ProfilePic info)))));;
  name ← on_client getName;
  ignore (on_client (on_store (ProfileStore.Update name NilUUID)));;
  on_client (broadcastInfoChanged c);;
  reply (BStatus statusInfoDeleted).

Definition adminGetMe : M AS unit :=
  info ← on_client Info;
  pic ← (if bool_decide (info_ProfilePic info = NilUUID) then mret None
         else r ← attempt (on_client (on_store (FileStore.Get (priv c) (info_ProfilePic info))));
              mret (match r with inl data => Some data | inr _ => None end));
  reply (BMe (info_Name info) pic).

(** ** The guard of every route *)

Definition localhostOnly (next : M AS unit) (remoteAddr : gostring) : M AS unit :=
  match net_SplitHostPort remoteAddr with
  | Ret (host, _) =>
      let ip := net_ParseIP host in
      if bool_decide (ip = []) || negb (net_IsLoopback ip)
      then http_Error (BText (lit "forbidden")) 403
      else next
  | _ => http_Error (BText (lit "invalid remote address")) 400
  end.


(** A request, by the route it matches, with what the library decoded. *)
Inductive request :=
| GetPeers
| PutPeerAccept (pubKey : gostring)
| PutPeerReject (pubKey : gostring)
| GetSessions
| DeleteSession (pubKey : gostring)
| PostPeersConnect (req : option gostring) (dial : gostring → dial_result)
| PostMessage (pubKey : gostring) (r : option form)
| GetMessages
| GetMessage (id : gostring)
| GetMessagesSearch (q : gostring)
| PutMessage (id : gostring) (req : option gostring)
| DeleteMessage (id : gostring)
| GetFile (id : gostring)
| PutPeerNickname (pubKey : gostring) (req : option gostring)
| GetOutbox
| DeleteOutbox (id : gostring)
| PostOutboxFlush (pubKey : gostring)
| PutProfile (req : option (gostring * option (option bytes)))
| DeleteProfilePicture
| GetMe.

Definition handler (r : request) : M AS unit :=
  match r with
  | GetPeers => adminListPeers
  | PutPeerAccept k => adminAcceptPeer k
  | PutPeerReject k => adminRejectPeer k
  | GetSessions => adminListSessions
  | DeleteSession k => adminDeleteSession k
  | PostPeersConnect req dial => apiConnectPeer req dial
  | PostMessage k r => apiSendMessage k r
  | GetMessages => apiListMessages
  | GetMessage id => apiGetMessage id
  | GetMessagesSearch q => apiSearchMessages q
  | PutMessage id req => apiUpdateMessage id req
  | DeleteMessage id => apiDeleteMessage id
  | GetFile id => apiGetFile id
  | PutPeerNickname k req => adminSetNickname k req
  | GetOutbox => adminListOutbox
  | DeleteOutbox id => adminDeleteOutboxEntry id
  | PostOutboxFlush k => adminFlushOutbox k
  | PutProfile req => adminUpdateProfile req
  | DeleteProfilePicture => adminDeleteProfilePic
  | GetMe => adminGetMe
  end.

Definition registerRoutes (r : request) (remoteAddr : gostring) : M AS unit :=
  localhostOnly (handler r) remoteAddr.

End Api.
