(* ===== verification/ApiFacts.v ===== *)
(** * Sending through the HTTP interface (client/api.go)

    What [apiSendMessage] answers and does for a text message, on every branch
    after its form was read. *)

From S2P Require Import Prelude Config Crypto Keys Signal Message Wire RateLimit Base64 Monad Platform.
From S2P Require Import Store MessageStore StoreFacts Tables Session SessionFacts Handshake Client Handlers ClientFacts Delivery Api.

(** ** Calls of the handlers on the client *)

Lemma on_client_wp {A} (m : M CW A) (Q : outcome A → AS → Prop) a :
  wp m (λ o x, Q o (MkAS x (as_resp a))) (as_client a) → wp (on_client m) Q a.
Proof. unfold wp, on_client, zoom. by destruct (m (as_client a)). Qed.

Lemma attempt_on_client {A} (m : M CW A) a : attempt (on_client m) a = on_client (attempt m) a.
Proof. unfold attempt, on_client, zoom. by destruct (m (as_client a)) as [[]]. Qed.

(** Step over a call of the client, whose outcome and state [Q] describes. *)
Lemma wp_client {A B} (m : M CW A) (Q : outcome A → CW → Prop) (f : A → M AS B) (R : outcome B → AS → Prop) x r :
  wp m Q x → (∀ a x', Q (Ret a) x' → wp (f a) R (MkAS x' r)) → (∀ o x', Q o x' → is_ret o = true) →
  wp (on_client m ≫= f) R (MkAS x r).
Proof.
  intros Hm Hf Hr. apply wp_bind, on_client_wp. cbn [as_client as_resp]. eapply wp_conseq; [exact Hm|].
  intros [a|e|p] x' Hq; [by apply Hf|by apply Hr in Hq..].
Qed.

Lemma wp_attempt_client {A B} (m : M CW A) (Q : outcome (A + error) → CW → Prop) (f : A + error → M AS B)
    (R : outcome B → AS → Prop) x r :
  wp (attempt m) Q x → (∀ a x', Q (Ret a) x' → wp (f a) R (MkAS x' r)) → (∀ o x', Q o x' → is_ret o = true) →
  wp (attempt (on_client m) ≫= f) R (MkAS x r).
Proof.
  intros Hm Hf Hr. pose proof (wp_client (attempt m) Q f R x r Hm Hf Hr) as H.
  unfold wp in *. by rewrite bind_run, attempt_on_client.
Qed.

(** Only calls of the environment were made. *)
Definition unchanged (x x' : CW) : Prop := same (cw_store x) (cw_store x') ∧ x' = set_store (cw_store x') x.

Lemma unchanged_refl x : unchanged x x.
Proof. split; [done|by destruct x]. Qed.
Lemma unchanged_trans x x1 x2 : unchanged x x1 → unchanged x1 x2 → unchanged x x2.
Proof. intros [[H1 H2] H3] [[K1 K2] K3]. split; [split; congruence|]. rewrite K3, H3. done. Qed.

Section ApiFacts.
Context {P : Platform} {E : Env} {PL : PlatformLaws P} (c : Client).

(** The session filed under a key. *)
Definition session_of (x : CW) (k : Key) : option Session := sid ← sessions x !! k; heap x !! sid.

Lemma PeerGet_client_wp k x :
  no_faults E →
  wp (attempt (on_store (KnownPeerStore.Get k))) (λ o x', unchanged x x' ∧
    ∃ r, o = Ret r ∧ match peer_view (db (cw_store x)) k with Some p => r = inl p | None => ∃ e, r = inr e end) x.
Proof.
  intros Hn. apply wp_attempt. eapply wp_conseq; [apply on_store_wp, PeerGet_wp|].
  intros o x' [[Hs Ho] Hx]. destruct o as [p|e|p]; [|destruct Ho as [Ho _]|done].
  - split; [by split|]. eexists. split; [done|]. by rewrite Ho.
  - split; [by split|]. eexists. split; [done|]. rewrite (Ho Hn). by eexists.
Qed.

Lemma NewMessage_client_wp to content x :
  wp (NewMessage to content) (λ o x', unchanged x x' ∧
    ∃ t u, o = Ret (message.NewMessage (env_uuid u) (env_now t) to content [])) x.
Proof.
  unfold NewMessage. wp_use (on_store_wp _ _ x (time_Now_wp (cw_store x))) as o1 x1 [[H1 ->] Hx1].
  wp_use (on_store_wp _ _ x1 (uuid_New_wp (cw_store x1))) as o2 x2 [[H2 ->] Hx2].
  apply wp_ret. split; [apply (unchanged_trans x x1); by split|]. by eexists _, _.
Qed.

Lemma unchanged_accepted x x1 k : unchanged x x1 → accepted x1 k = accepted x k.
Proof. intros [_ ->]. done. Qed.

Lemma send_post_unchanged target msg x x1 o x' :
  unchanged x x1 → send_post c target msg x1 o x' → send_post c target msg x o x'.
Proof.
  intros Hu. pose proof (unchanged_accepted x x1 target Hu) as Ha. destruct Hu as [[Hd Hc] Hx].
  unfold send_post, filed, queued, only_session. rewrite Ha, Hd.
  assert (heap x1 = heap x ∧ sessions x1 = sessions x ∧ pendingFiles x1 = pendingFiles x) as (-> & -> & ->) by by rewrite Hx.
  done.
Qed.

(** A text message fits the wire. *)
Lemma text_sendable u t to content :
  clock_ok (E:=E) → (len to <= MaxUint16)%Z → (len content < 2 ^ 31)%Z →
  sendable (set_FromPubKey (pub c) (message.NewMessage u (env_now t) to content [])).
Proof.
  intros Hck Ht Hc. pose proof (Hck t) as Hn. change (2 ^ 31)%Z with 2147483648%Z in Hc.
  split; [apply Forall_nil_2|]. split.
  - split; [|apply Forall_nil_2]. cbn [message.To message.MsgContent message.MsgTime message.CreatedAt message.UpdatedAt
      message.Attachments set_FromPubKey message.NewMessage]. unfold message.UnixNano.
    rewrite wrap64_small by (unfold MinInt64; lia). unfold MaxUint32, MaxUint16 in *. repeat split; first [lia | done].
  - unfold message.layout, message.head_layout. cbn [set_FromPubKey message.NewMessage message.MsgID message.FromPubKey
      message.To message.MsgContent message.MsgTime message.CreatedAt message.UpdatedAt message.Attachments fmap list_fmap concat].
    rewrite app_nil_r, !len_app, !len_vec, !len_be_put. unfold MaxUint16, MaxUint32 in *. lia.
Qed.

(** The name a message to a peer is addressed to. *)
Definition addressee (x : CW) (k : Key) : gostring :=
  match session_of x k with Some s => peerName s | None => take 16 (Key_String k) end.

Definition text_post (target : Key) (content : gostring) (x : CW) (a : AS) : Prop :=
  let refused code := unchanged x (as_client a) ∧ r_code (as_resp a) = Some code in
  match peer_view (db (cw_store x)) target with
  | None => refused 404%Z
  | Some peer =>
      if decide (KnownPeerStore.Status peer = Rejected ∨ (status <$> session_of x target) = Some Rejected)
      then refused 403%Z else
      ∃ u t o, send_post c target (message.NewMessage (env_uuid u) (env_now t) (addressee x target) content []) x o (as_client a) ∧
        as_resp a = match o with
                    | Ret _ => MkResponse (Some 200%Z) [BStatus (if accepted x target is Some _ then lit "sent" else lit "queued")]
                    | _ => MkResponse (Some 500%Z) [BText (lit "send failed")]
                    end
  end.

Lemma addressee_wp k x x1 :
  client_inv c x → unchanged x x1 →
  wp (match sessions x1 !! k with
      | None => mret (take 16 (Key_String k), [])
      | Some sid => n ← sess_gets sid peerName; st ← sess_gets sid status; mret (n, st)
      end)
    (λ o x2, x2 = x1 ∧ ∃ st, o = Ret (addressee x k, st) ∧
      match session_of x k with
      | Some s => is_Some (sessions x1 !! k) ∧ st = status s
      | None => sessions x1 !! k = None
      end) x1.
Proof.
  intros (_ & _ & Hp & _) [_ Hx1]. unfold addressee, session_of.
  assert (sessions x1 = sessions x ∧ heap x1 = heap x) as [-> Hh] by by rewrite Hx1.
  destruct (sessions x !! k) as [sid|] eqn:Ek; cbn; [|apply wp_ret; eauto].
  destruct (lookup_lt_is_Some_2 (heap x) sid) as [s Hs]; [by apply (Hp k)|]. rewrite Hs. rewrite <-Hh in Hs.
  apply wp_bind. unfold wp at 1. rewrite (sess_gets_run sid peerName x1 s Hs). cbn [fst snd].
  apply wp_bind. unfold wp at 1. rewrite (sess_gets_run sid status x1 s Hs). cbn [fst snd].
  apply wp_ret. split; [done|]. eexists. split; [done|]. split; [by eexists|done].
Qed.

Lemma accepted_session x k :
  match accepted x k with
  | Some (_, s) => session_of x k = Some s ∧ status s = Accepted
  | None => ∀ s, session_of x k = Some s → status s ≠ Accepted
  end.
Proof.
  pose proof (accepted_cases x k) as H. unfold session_of. destruct (accepted x k) as [[sid s]|].
  - destruct H as (-> & Hs & Hst). cbn. by rewrite Hs.
  - intros s. destruct (sessions x !! k) as [sid|] eqn:Ek; [cbn|done]. intros Hs. by apply (H sid).
Qed.

(** Sending to the target from a state that is the same but for the clock. *)
Lemma send_text_wp target msg x x1 :
  no_faults E → net_ok E → clock_ok (E:=E) → client_inv c x → unchanged x x1 →
  sendable (set_FromPubKey (pub c) msg) → message.MsgID msg ≠ NilUUID →
  (∀ s, session_of x target = Some s → status s = Accepted → open s) →
  wp (attempt (sendMessageToPeer c target msg)) (λ r x', ∃ o, send_post c target msg x o x' ∧ is_panic o = false ∧
    r = Ret (match o with Ret a => inl a | Err e => inr e | Panic _ => inl tt end)) x1.
Proof.
  intros Hf Hn Hck Hx Hu Hm Hid Hs. apply wp_attempt.
  pose proof Hu as [Hsame Hx1]. pose proof (client_outbox c x Hck Hx) as Hob. destruct Hx as (Hi & _ & Hp & _).
  eapply wp_conseq; [apply sendMessageToPeer_wp; try done|].
  - by apply (store_inv_same (priv c) (cw_store x)).
  - by rewrite (proj1 Hsame).
  - rewrite (unchanged_accepted _ _ _ Hu). intros sid s Ha. pose proof (accepted_session x target) as H. rewrite Ha in H.
    apply Hs; apply H.
  - rewrite Hx1. intros sid Hk. apply lookup_lt_is_Some_2. by apply (Hp target).
  - intros o x' Hpost%(send_post_unchanged target msg x x1 o x' Hu).
    destruct o as [a|e|p]; [by eexists (Ret _)|by eexists (Err _)|]. destruct Hpost as [_ Hpost].
    destruct (accepted x target) as [[sid s]|]; [by destruct Hpost|]. by destruct Hpost as (_ & _ & _ & []).
Qed.

(** What the interface says became of the message. *)
Lemma sent_status x k x1 st :
  match session_of x k with
  | Some s => is_Some (sessions x1 !! k) ∧ st = status s
  | None => sessions x1 !! k = None
  end →
  (if bool_decide (is_Some (sessions x1 !! k)) then negb (bool_decide (st = Accepted)) else true) =
    match accepted x k with Some _ => false | None => true end.
Proof.
  pose proof (accepted_session x k) as H. destruct (accepted x k) as [[sid s]|].
  - destruct H as [-> Hs]. intros [Hv ->]. by rewrite !bool_decide_true.
  - destruct (session_of x k) as [s|].
    + intros [Hv ->]. rewrite bool_decide_true by done. by rewrite bool_decide_false by by apply H.
    + intros ->. done.
Qed.

(** C24: A text posted for a peer is answered 404 if the peer is unknown and 403 if
    it or its session is rejected, with no effect; otherwise it is stored as our
    own message, addressed to the peer's name, and written on its session
    ("sent") if that is accepted and queued for it ("queued") if not. *)
Theorem apiSendMessage_correct (pathKey : gostring) (target : Key) (content : gostring) (x : CW) :
  no_faults E → net_ok E → clock_ok (E:=E) → (∀ u, env_uuid u ≠ NilUUID) →
  client_inv c x →
  FromHex pathKey = Ret target → target ≠ pub c → (len content < 2 ^ 31)%Z →
  (∀ s, session_of x target = Some s → (len (peerName s) <= MaxUint16)%Z ∧ (status s = Accepted → open s)) →
  wp (apiSendMessage c pathKey (Some (MkForm content []))) (λ o a, o = Ret tt ∧ text_post target content x a)
    (MkAS x no_response).
Proof.
  intros Hf Hn Hck Hu Hi Hk Ht Hc Hs. unfold apiSendMessage.
  rewrite Hk, bool_decide_false by done. cbn [parseMessageForm form_files f_files f_content mbind outcome_bind].
  eapply wp_attempt_client; [exact (PeerGet_client_wp target x Hf)| |by intros o x1 (_ & r & -> & _)].
  intros r x1 [H1 (r' & [= <-] & Hr)]. unfold text_post.
  destruct (peer_view (db (cw_store x)) target) as [peer|] eqn:Ev; [subst r|destruct Hr as [e ->]; by apply wp_modify].
  destruct (decide (KnownPeerStore.Status peer = Rejected)) as [Hp|Hp].
  { rewrite bool_decide_true by done. apply wp_modify. split; [done|]. by rewrite decide_True by auto. }
  rewrite (bool_decide_false (KnownPeerStore.Status peer = Rejected)) by done.
  eapply (wp_client _ (λ o x2, o = Ret (sessions x1 !! target) ∧ x2 = x1)); [by apply wp_gets| |by intros o x2 [-> _]].
  intros v x2 [[= ->] ->].
  eapply (wp_client _ (λ o x2, x2 = x1 ∧ ∃ st, o = Ret (addressee x target, st) ∧
    match session_of x target with
    | Some s => is_Some (sessions x1 !! target) ∧ st = status s
    | None => sessions x1 !! target = None
    end)); [by apply addressee_wp| |by intros o x2 (_ & st & -> & _)].
  intros [nm st] x2 (-> & st' & [= -> <-] & Hst).
  destruct (bool_decide (is_Some (sessions x1 !! target)) && bool_decide (st = Rejected)) eqn:Erej.
  { apply andb_prop in Erej as [Ev1%bool_decide_eq_true Est%bool_decide_eq_true]. apply wp_modify. split; [done|].
    rewrite decide_True; [done|]. right. destruct (session_of x target); cbn; [by destruct Hst as [_ <-]; f_equal|].
    rewrite Hst in Ev1. by destruct Ev1. }
  eapply wp_client; [apply NewMessage_client_wp| |by intros o x2 (_ & t & u & ->)].
  intros msg x2 [H2 (t & u & [= ->])].
  change (len (@nil message.Attachment) >? 0)%Z with false. cbv iota. apply wp_bind, on_client_wp, wp_ret. cbn [as_client as_resp].
  assert (len (addressee x target) <= MaxUint16)%Z as Hname.
  { unfold addressee. destruct (session_of x target) as [s|] eqn:Es; [by apply Hs|].
    unfold len. rewrite length_take. unfold MaxUint16. lia. }
  eapply wp_attempt_client; [apply (send_text_wp target _ x x2); try done| |by intros o x3 (? & _ & _ & ->)].
  - by apply (unchanged_trans x x1).
  - by apply text_sendable.
  - apply Hu.
  - intros s Es. by apply Hs.
  - intros r x3 (o & Hpost & Hno & [= ->]). rewrite (sent_status x target x1 st Hst).
    assert (¬ (KnownPeerStore.Status peer = Rejected ∨ (status <$> session_of x target) = Some Rejected)) as Hrej.
    { intros [?|Hr]; [done|]. destruct (session_of x target) as [s|] eqn:Es; [|done]. destruct Hst as [Hv ->].
      injection Hr as Hr. by rewrite !bool_decide_true in Erej. }
    destruct o as [[]|e|p]; [| |done]; apply wp_modify || (apply wp_bind, wp_ret, wp_modify); (split; [done|]); rewrite decide_False by done;
      do 3 eexists; (split; [exact Hpost|]); try done.
    by destruct (accepted x target).
Qed.
End ApiFacts.

(** ** An instance *)

Section Witness.
Let cl : Client := MkClient (keys_of_seed (C:=toy_crypto) (zeros 32)) DefaultTimeout DefaultRateLimit DefaultRateWindow MaxMessageSize.
Let bob : Key := array_of 32 (lit "bob").

(** The toy environment with one identifier for everything. *)
Let env : Env := {|
  env_now := @env_now toy_env; env_uuid _ := array_of 16 (lit "id"); env_nonce := @env_nonce toy_env;
  env_db := @env_db toy_env; env_cache := @env_cache toy_env; env_net := @env_net toy_env;
  env_ecdh := @env_ecdh toy_env; env_range := @env_range toy_env
|}.
Let x : CW := MkCW (KnownPeerStore.Add (P:=toy_platform) (E:=env)
  (KnownPeerStore.MkPeer [] bob (lit "bob") [] Accepted false zero_time NilUUID) empty_SW).2 [] ∅ ∅.

Lemma apiSendMessage_correct_witness :
  wp (apiSendMessage (P:=toy_platform) (E:=env) cl (Key_String bob) (Some (MkForm (lit "hello") [])))
    (λ o a, o = Ret tt ∧ text_post (P:=toy_platform) (E:=env) cl bob (lit "hello") x a) (MkAS x no_response).
Proof.
  apply (apiSendMessage_correct (P:=toy_platform) (E:=env) (PL:=toy_platform_laws)).
  - exact toy_env_no_faults.
  - exact toy_env_net_ok.
  - exact toy_clock_ok.
  - intros u. apply (bool_decide_unpack (array_of 16 (lit "id") ≠ NilUUID)). exact I.
  - apply client_inv_idle; [apply PeerAdd_store, store_inv_empty|apply PeerAdd_typed, typed_empty].
  - apply FromHex_String.
  - apply (bool_decide_unpack (bob ≠ pub cl)). exact I.
  - reflexivity.
  - intros s. unfold session_of, x. cbn [sessions]. rewrite lookup_empty. discriminate.
Defined.
End Witness.
