(* ===== verification/Reach.v ===== *)
(** * Reachable states of the client

    Everything that can happen to a client, as events; a run is a list of
    events, each handled to completion. The invariant of [ClientFacts] holds
    after every run, with any faults and any peers. *)

From S2P Require Import Prelude Config Crypto Keys Signal Message Wire RateLimit Base64 Monad Platform.
From S2P Require Import Store MessageStore StoreFacts Tables Session SessionFacts Client Handlers ClientFacts Api.

Section Api.
Context {P : Platform} {E : Env} {PL : PlatformLaws P} (c : Client) (n : nat).

(** The flag is an [int64]. *)
Definition cfg_ok : Prop := (c_MaxMessageSize c <= MaxInt64)%Z.

Definition as_inv (a : AS) : Prop := client_inv_at c n (as_client a).
Abbreviation keeps m := (preserves as_inv m).

Lemma on_client_inv {A} (m : M CW A) : preserves (client_inv_at c n) m → keeps (on_client m).
Proof.
  intros Hm [x r] Hx. unfold on_client, zoom. cbn in *. specialize (Hm x Hx). by destruct (m x).
Qed.
Lemma respond_inv f : keeps (respond f).
Proof. by apply preserves_modify. Qed.
Lemma http_Error_inv b k : keeps (http_Error b k).
Proof. apply respond_inv. Qed.
Lemma reply_inv b : keeps (reply b).
Proof. apply respond_inv. Qed.
Hint Resolve on_client_inv http_Error_inv reply_inv : chat.

(** The hints of [ClientFacts] at the client's own invariant. *)
Lemma on_store_top {A} (m : M SW A) : preserves (world_inv (priv c)) m → preserves (client_inv_at c n) (on_store m).
Proof. apply on_store_inv. Qed.
Lemma on_session_top {A} sid (m : M SS A) : preserves (ss_inv (priv c)) m → preserves (client_inv_at c n) (on_session sid m).
Proof. apply on_session_inv. Qed.
Lemma get_state_top : preserves (client_inv_at c n) get_state.
Proof. apply get_state_inv. Qed.
Lemma sess_gets_top {A} sid (f : Session → A) : preserves (client_inv_at c n) (sess_gets sid f).
Proof. apply sess_gets_inv. Qed.
Lemma Load_top k : preserves (client_inv_at c n) (sessions_Load k).
Proof. apply sessions_Load_inv. Qed.
Lemma Info_top : preserves (client_inv_at c n) Info.
Proof. apply Info_inv. Qed.
Lemma getName_top : preserves (client_inv_at c n) getName.
Proof. apply getName_inv. Qed.
Hint Resolve on_store_top on_session_top get_state_top sess_gets_top Load_top Info_top getName_top : chat.

Lemma updatePeerStatus_inv k st : keeps (updatePeerStatus k st).
Proof. unfold updatePeerStatus. preserve. Qed.
Hint Resolve updatePeerStatus_inv : chat.
Lemma updateSessionStatus_inv k st : preserves (client_inv_at c n) (updateSessionStatus k st).
Proof.
  unfold updateSessionStatus. pose proof (sessions_delete_inv c n k : preserves (client_inv_at c n) _).
  pose proof (λ sid, setStatus_inv c n sid st : preserves (client_inv_at c n) _). preserve.
Qed.
Hint Resolve updateSessionStatus_inv : chat.
Lemma displayName_top k : preserves (client_inv_at c n) (displayNameForPubKey k).
Proof. apply displayName_inv. Qed.
Hint Resolve displayName_top : chat.
Lemma list_sessions_inv l : preserves (client_inv_at c n) (list_sessions l).
Proof. induction l as [|[k sid] l IH]; cbn [list_sessions]; preserve. Qed.
Hint Resolve list_sessions_inv : chat.
Lemma msgResponse_inv m : preserves (client_inv_at c n) (msgResponse c m).
Proof. unfold msgResponse. preserve. Qed.
Hint Resolve msgResponse_inv : chat.
Lemma map_each_inv {A B} (f : A → M CW B) l :
  (∀ a, preserves (client_inv_at c n) (f a)) → preserves (client_inv_at c n) (map_each f l).
Proof. intros Hf. induction l; cbn [map_each]; preserve. Qed.

Lemma getOwnedMessage_wp id x :
  client_inv_at c n x →
  wp (getOwnedMessage c id) (λ o x', client_inv_at c n x' ∧ db (cw_store x') = db (cw_store x) ∧
    heap x' = heap x ∧ sessions x' = sessions x ∧ pendingFiles x' = pendingFiles x ∧
    match o with
    | Ret m => msg_view (priv c) (db (cw_store x)) id = Some m ∧ message.FromPubKey m = pub c
    | Err e => e = errNotOwner →
        ∃ m, msg_view (priv c) (db (cw_store x)) id = Some m ∧ message.FromPubKey m ≠ pub c
    | Panic _ => False
    end) x.
Proof.
  intros Hx. unfold getOwnedMessage.
  wp_use (on_store_Get_wp c n id x Hx) as o1 x1 (H1 & Hh & Hs & Hp & Hd & Ho).
  destruct o1 as [m|e|p]; [|by repeat (split; [done|])|done].
  case_bool_decide as Hm; [apply wp_throw|apply wp_ret]; repeat (split; [done|]); eauto.
Qed.

Lemma with_owned_inv id (f : message.Message + error → M AS unit) :
  (∀ m, sizes_ok m → keeps (f (inl m))) → (∀ e, keeps (f (inr e))) →
  keeps (attempt (on_client (getOwnedMessage c id)) ≫= f).
Proof.
  intros Hm He [x r] Hx. destruct (getOwnedMessage_wp id x Hx) as (H1 & _ & _ & _ & _ & Ho).
  rewrite bind_run. unfold attempt, on_client, zoom. cbn.
  destruct (getOwnedMessage c id x) as [[m|e|p] x1]; cbn in *; [|by apply He|done].
  apply Hm; [|done]. destruct Ho as [Hv _]. by apply msg_view_sizes in Hv.
Qed.

Lemma flushOutbox_top k : preserves (client_inv_at c n) (flushOutbox c k).
Proof. apply flushOutbox_inv. Qed.
Lemma setName_top nm : preserves (client_inv_at c n) (setName nm).
Proof. apply setName_inv. Qed.
Lemma broadcasts_top id content :
  preserves (client_inv_at c n) (broadcastDelete c id) ∧ preserves (client_inv_at c n) (broadcastUpdate c id content) ∧
  preserves (client_inv_at c n) (broadcastInfoChanged c).
Proof.
  split; [apply broadcastDelete_inv|split; [apply broadcastUpdate_inv|apply broadcastInfoChanged_inv]].
Qed.
Lemma delete_top k : preserves (client_inv_at c n) (modify (set_sessions (delete k))).
Proof. apply sessions_delete_inv. Qed.
Lemma sendFile_top sid id nm mt sz l : preserves (client_inv_at c n) (sendFile c sid id nm mt sz l).
Proof. apply sendFile_inv. Qed.
Hint Resolve flushOutbox_top setName_top delete_top sendFile_top : chat.

Lemma sendAttachments_inv k l : preserves (client_inv_at c n) (sendAttachments c k l).
Proof. unfold sendAttachments. preserve. Qed.
Hint Resolve sendAttachments_inv : chat.

(** What an upload contributes to a message: sizes within [int64]. *)
Definition atts_ok (l : list message.Attachment) : Prop :=
  Forall (λ a, message.Size a <= MaxInt64)%Z l.

Lemma form_files_ok total l atts :
  cfg_ok → form_files (c_MaxMessageSize c) total l = Ret atts → atts_ok atts.
Proof.
  intros Hc. revert total atts. induction l as [|fh l IH]; intros total atts; cbn.
  { intros [= <-]. apply Forall_nil_2. }
  destruct (_ >? _)%Z; [done|]. destruct (fh_Data fh) as [d|]; [|done].
  destruct (form_files _ _ l) as [rest|e|p] eqn:Er; cbn; [|done..]. intros [= <-].
  apply Forall_cons_2; [|by eapply IH]. cbn. unfold len, cfg_ok, MaxInt64 in *. rewrite length_take. lia.
Qed.

Lemma fresh_ids_wp l x :
  client_inv_at c n x → atts_ok l →
  wp (fresh_ids l) (λ o x', client_inv_at c n x' ∧ ∀ l', o = Ret l' → atts_ok l') x.
Proof.
  intros Hx Hl. revert x Hx. induction Hl as [|a l Ha Hl IH]; intros x Hx; cbn [fresh_ids].
  { apply wp_ret. split; [done|]. intros l' [= <-]. apply Forall_nil_2. }
  wp_use (preserves_wp (client_inv_at c n)) as o1 x1 H1; [auto with chat|done|].
  destruct o1 as [id|e|p]; [|done..]. apply wp_bind. eapply wp_conseq; [by apply IH|].
  intros [l'|e|p] x2 [H2 Ho]; [|done..]. apply wp_ret. split; [done|].
  intros l2 [= <-]. apply Forall_cons_2; [done|by apply Ho].
Qed.

Lemma sendMessageToPeer_top k m : sizes_ok m → preserves (client_inv_at c n) (sendMessageToPeer c k m).
Proof. apply sendMessageToPeer_inv. Qed.

(** A call whose result is known to satisfy [Q]. *)
Lemma with_client_inv {A B} (m : M CW A) (Q : A → Prop) (f : A → M AS B) :
  (∀ x, client_inv_at c n x → wp m (λ o x', client_inv_at c n x' ∧ ∀ a, o = Ret a → Q a) x) →
  (∀ a, Q a → keeps (f a)) → keeps (on_client m ≫= f).
Proof.
  intros Hm Hf [x r] Hx. destruct (Hm x Hx) as [H1 Ho]. rewrite bind_run. unfold on_client, zoom. cbn.
  destruct (m x) as [[a|e|p] x1]; cbn in *; [|done..]. apply Hf; [by apply Ho|done].
Qed.

(** The message of an upload, ready to send. *)
Lemma attachments_wp (have : bool) msg attachments x :
  client_inv_at c n x → sizes_ok msg → atts_ok attachments →
  wp (if have
      then id ← on_store uuid_New;
           atts ← fresh_ids attachments;
           mret (set_Attachments (without_data <$> atts) (set_MsgID id msg), atts)
      else mret (msg, attachments))
    (λ o x', client_inv_at c n x' ∧ ∀ ml, o = Ret ml → sizes_ok ml.1) x.
Proof.
  intros Hx Hm Ha. destruct have; [|apply wp_ret; split; [done|]; by intros ? [= <-]].
  wp_use (preserves_wp (client_inv_at c n)) as o1 x1 H1; [auto with chat|done|].
  destruct o1 as [id|e|p]; [|done..]. wp_use (fresh_ids_wp attachments x1 H1 Ha) as o2 x2 [H2 Ho].
  destruct o2 as [l|e|p]; [|done..]. apply wp_ret. split; [done|]. intros ? [= <-].
  specialize (Ho l eq_refl). unfold sizes_ok. cbn. unfold atts_ok in Ho. rewrite Forall_fmap.
  eapply Forall_impl; [exact Ho|done].
Qed.

Lemma apiSendMessage_inv k r : cfg_ok → keeps (apiSendMessage c k r).
Proof.
  intros Hc. unfold apiSendMessage. destruct (FromHex k) as [pubKey|e|p]; [|auto with chat..].
  case_bool_decide; [auto with chat|].
  destruct (parseMessageForm r (c_MaxMessageSize c)) as [[content atts]|e|p] eqn:Ep; [|auto with chat..].
  assert (atts_ok atts) as Ha.
  { unfold parseMessageForm in Ep. destruct r as [f|]; [|done]. cbn in Ep.
    destruct (form_files _ _ _) as [l|e|p] eqn:Ef; cbn in Ep; [|done..]. simplify_eq. by eapply form_files_ok. }
  apply preserves_bind; [preserve|]. intros [peer|e]; [|auto with chat].
  case_bool_decide; [auto with chat|]. apply preserves_bind; [preserve|]. intros v.
  apply preserves_bind; [apply on_client_inv; preserve|]. intros [peerName st]. cbv zeta.
  destruct (_ && _); [auto with chat|].
  apply (with_client_inv _ sizes_ok); [by apply NewMessage_wp|]. intros msg Hm.
  apply (with_client_inv _ (λ ml, sizes_ok ml.1)); [intros; by apply attachments_wp|].
  intros [m l] Hml. cbn in Hml. pose proof (sendMessageToPeer_top pubKey m Hml).
  apply preserves_bind; [preserve|]. intros [[]|e]; [|auto with chat]. preserve.
Qed.

Lemma apiUpdateMessage_inv id req : keeps (apiUpdateMessage c id req).
Proof.
  unfold apiUpdateMessage. destruct (uuid_Parse id) as [u|]; [|auto with chat].
  apply with_owned_inv; [|preserve]. intros m Hm. destruct req as [content|]; [|auto with chat].
  assert (sizes_ok (set_Content content m)) by done. pose proof (proj1 (proj2 (broadcasts_top u content))).
  preserve.
Qed.

Lemma apiDeleteMessage_inv id : keeps (apiDeleteMessage c id).
Proof.
  unfold apiDeleteMessage. destruct (uuid_Parse id) as [u|]; [|auto with chat].
  pose proof (proj1 (broadcasts_top u [])). apply with_owned_inv; [|preserve]. preserve.
Qed.

Lemma connectSession_top addr d : preserves (client_inv_at c n) (connectSession c addr d).
Proof. apply dialAndHandshake_inv. Qed.
Hint Resolve connectSession_top : chat.

Lemma handler_inv r : cfg_ok → keeps (handler c r).
Proof.
  intros Hc. pose proof (proj2 (proj2 (broadcasts_top NilUUID []))).
  destruct r; cbn [handler]; try by first [apply apiSendMessage_inv|apply apiUpdateMessage_inv|apply apiDeleteMessage_inv].
  all: unfold adminListPeers, adminAcceptPeer, adminRejectPeer, adminListSessions, adminDeleteSession,
    apiConnectPeer, apiListMessages, apiGetMessage, apiSearchMessages, apiGetFile, adminSetNickname,
    adminListOutbox, adminDeleteOutboxEntry, adminFlushOutbox, adminUpdateProfile, adminDeleteProfilePic, adminGetMe.
  all: preserve.
  apply on_client_inv, map_each_inv. preserve.
Qed.

Lemma registerRoutes_inv r remote : cfg_ok → keeps (registerRoutes c r remote).
Proof. intros Hc. unfold registerRoutes, localhostOnly. pose proof (handler_inv r Hc). preserve. Qed.
End Api.

(** ** Runs *)

(** A thing that happens to a client, handled to completion. *)
Inductive event :=
| EvFrame (sid : nat)                                   (* one turn of a read loop *)
| EvPing (sid : nat) (l : list ping_event)              (* pingLoop *)
| EvClosed (sid : nat)                                  (* a read loop ends *)
| EvAccept (path remote : gostring) (up : outcome Conn) (* handleWS, with its read loop *)
| EvDial (addr : gostring) (d : dial_result)            (* dialAndHandshake *)
| EvConnect (addr : gostring) (l : list (dial_result * list chat_step)) (* ConnectToPeer *)
| EvLine (sid : nat) (line : gostring)                  (* peerWriteLoop *)
| EvStdin (input : gostring)                            (* stdinLoop *)
| EvShutdown                                            (* Shutdown *)
| EvRequest (r : request) (remote : gostring).          (* an HTTP request *)

Section Runs.
Context {P : Platform} {E : Env} (c : Client).

Definition handle (ev : event) : M CW unit :=
  match ev with
  | EvFrame sid => pubKey ← sess_gets sid peerPubKey; ignore (read_frame c sid pubKey)
  | EvPing sid l => ignore (pingLoop sid l)
  | EvClosed sid => pubKey ← sess_gets sid peerPubKey; cleanup sid pubKey
  | EvAccept path remote up => ignore (handleWS c path remote up)
  | EvDial addr d => ignore (dialAndHandshake c addr d)
  | EvConnect addr l => ignore (ConnectToPeer c addr l)
  | EvLine sid line => write_line c sid line
  | EvStdin input => stdinLoop c input
  | EvShutdown => Shutdown
  | EvRequest r remote => λ x, let '(o, a) := registerRoutes c r remote (MkAS x no_response) in (o, as_client a)
  end.

(** A client just started on an empty database. *)
Definition initial : CW := MkCW empty_SW [] ∅ ∅.

Inductive reachable : CW → Prop :=
| reach_init : reachable initial
| reach_step x ev : reachable x → reachable (handle ev x).2.

Context {PL : PlatformLaws P}.

Lemma handle_inv n ev : cfg_ok c → preserves (client_inv_at c n) (handle ev).
Proof.
  intros Hc. destruct ev; cbn [handle].
  - apply preserves_bind; [apply sess_gets_inv|]. intros k. apply preserves_ignore, read_frame_inv.
  - apply preserves_ignore, pingLoop_inv.
  - apply preserves_bind; [apply sess_gets_inv|]. intros k. apply cleanup_inv.
  - apply preserves_ignore, handleWS_inv.
  - apply preserves_ignore, dialAndHandshake_inv.
  - apply preserves_ignore, ConnectToPeer_inv.
  - apply write_line_inv.
  - apply stdinLoop_inv.
  - apply Shutdown_inv.
  - intros x Hx. pose proof (registerRoutes_inv c n r remote Hc (MkAS x no_response) Hx) as H.
    by destruct (registerRoutes c r remote (MkAS x no_response)).
Qed.

Lemma initial_inv : client_inv c initial.
Proof.
  apply client_inv_idle; [apply store_inv_empty|apply typed_empty].
Qed.

(** In every reachable state of a client, whatever its peers, its user, its
    database and its network do: the message cache agrees with the encrypted
    table and every stored message decodes, every session has well-formed keys
    and counters, and the session map points at existing sessions. *)
Theorem reachable_inv (x : CW) : cfg_ok c → reachable x → client_inv c x.
Proof. intros Hc. induction 1 as [|x ev _ IH]; [apply initial_inv|]. by apply handle_inv. Qed.
End Runs.

(** Every start with a client name, and the flag has a default, replaces the
    stored profile by that name without a picture: a profile set through the
    admin interface does not survive a restart. *)
Theorem start_resets_profile `{P : Platform} {E : Env} {PL : PlatformLaws P} (cfg : Config) (x : CW) :
  no_faults E → ClientName cfg ≠ [] →
  ∃ x', client_New cfg x = (Ret tt, x') ∧ (Info x').1 = Ret (MkInfo (ClientName cfg) NilUUID).
Proof.
  intros Hn Hc. unfold client_New. rewrite bool_decide_false by done. cbn [negb when].
  destruct (ProfileUpdate_run (ClientName cfg) NilUUID (cw_store x) Hn) as (w & Hr & _ & Hd).
  exists (set_store w x). unfold ignore, on_store, zoom. rewrite Hr. split; [done|].
  pose proof (ProfileGet_run w (ClientName cfg) NilUUID Hn) as Hg. rewrite Hd in Hg. specialize (Hg eq_refl).
  unfold Info, attempt, on_store, zoom. rewrite bind_run. cbn [cw_store set_store].
  destruct (ProfileStore.Get w) as [o w']. cbn [fst] in Hg. by subst o.
Qed.

Definition wit_client : Client :=
  MkClient (keys_of_seed (C:=toy_crypto) (zeros 32)) DefaultTimeout DefaultRateLimit DefaultRateWindow MaxMessageSize.

Lemma reachable_inv_witness :
  client_inv (P:=toy_platform) (E:=toy_env) wit_client
    (handle (P:=toy_platform) (E:=toy_env) wit_client (EvStdin (lit "hello")) initial).2.
Proof.
  apply (reachable_inv (P:=toy_platform) (E:=toy_env) (PL:=toy_platform_laws) wit_client).
  - unfold cfg_ok. cbv. discriminate.
  - apply reach_step, reach_init.
Defined.

Lemma start_resets_profile_witness :
  let cfg := MkConfig DefaultClientName DefaultPort DefaultTimeout DefaultRateLimit DefaultRateWindow MaxMessageSize
    DefaultPingWindow [] [] [] false in
  let named := (setName (P:=toy_platform) (E:=toy_env) (lit "Alice") initial).2 in
  ∃ x', client_New (P:=toy_platform) (E:=toy_env) cfg named = (Ret tt, x') ∧
    (Info (P:=toy_platform) (E:=toy_env) x').1 = Ret (MkInfo (lit "default") NilUUID).
Proof.
  intros cfg named. apply (start_resets_profile (P:=toy_platform) (E:=toy_env) (PL:=toy_platform_laws) cfg named toy_env_no_faults).
  discriminate.
Defined.
