(* ===== verification/Start.v ===== *)
(** * Starting, stopping and starting again (client.New, store.New, keys.AutoLoad)

    What survives a process: the directory of the executable, with its key
    file, and the database files, by path. [NewClient] (client.New) loads or makes the identity,
    opens the database that is named after it, creates its tables if they are
    missing, and returns a running process; each of its steps may fail. A
    machine alternates between being off and running a process; a process may
    be stopped between any two events. *)

From S2P Require Import Prelude Paths Config Flags Crypto Keys Signal Message Wire RateLimit Base64 Monad Platform.
From S2P Require Import Store MessageStore StoreFacts Tables Session SessionFacts Client Handlers ClientFacts Api Reach.

(** ** Database files *)

(** The statements of [store.New]: [CREATE ... IF NOT EXISTS]. *)
Inductive ddl := CreateTable (name : gostring) | CreateIndex (name on : gostring).

Definition schema : list ddl := [
  CreateTable (lit "chats"); CreateTable (lit "known_peers"); CreateTable (lit "files");
  CreateTable (lit "chat_search"); CreateTable (lit "outbox"); CreateTable (lit "profile");
  CreateIndex (lit "idx_chats_created_at") (lit "chats");
  CreateIndex (lit "idx_files_msg_id") (lit "files");
  CreateIndex (lit "idx_outbox_target") (lit "outbox")].

(** A database file: the tables and indexes it has, and their rows. *)
Record Dbfile := MkDbfile { df_tables : gset gostring; df_indexes : gset gostring; df_db : DB }.
Definition new_file : Dbfile := MkDbfile ∅ ∅ empty_DB.

(** A table just created has no rows. *)
Definition clear_table (name : gostring) (d : DB) : DB :=
  if bool_decide (name = lit "chats") then set_chats (λ _, ∅) d
  else if bool_decide (name = lit "known_peers") then set_known_peers (λ _, ∅) d
  else if bool_decide (name = lit "files") then set_files (λ _, ∅) d
  else if bool_decide (name = lit "chat_search") then set_chat_search (λ _, ∅) d
  else if bool_decide (name = lit "outbox") then set_outbox (λ _, ∅) d
  else if bool_decide (name = lit "profile") then set_profile (λ _, None) d
  else d.

Definition run_ddl (q : ddl) (f : Dbfile) : option Dbfile :=
  match q with
  | CreateTable n =>
      if bool_decide (n ∈ df_tables f) then Some f
      else Some (MkDbfile ({[n]} ∪ df_tables f) (df_indexes f) (clear_table n (df_db f)))
  | CreateIndex n t =>
      if bool_decide (n ∈ df_indexes f) then Some f
      else if bool_decide (t ∈ df_tables f) then Some (MkDbfile (df_tables f) ({[n]} ∪ df_indexes f) (df_db f))
      else None
  end.

(** ** The host *)

Record Host := MkHost {
  h_exe : gostring;                    (* os.Executable *)
  h_dir : list dirent;                 (* the entries of its directory *)
  h_dbs : gmap gostring Dbfile;        (* database files, by path *)
  h_tick : nat                         (* calls to the environment so far *)
}.
Definition set_dir d h := MkHost (h_exe h) d (h_dbs h) (h_tick h).
Definition set_dbs f h := MkHost (h_exe h) (h_dir h) (f (h_dbs h)) (h_tick h).
Definition set_tick n h := MkHost (h_exe h) (h_dir h) (h_dbs h) n.

(** What the operating system answers during one start. *)
Record startenv := MkStart {
  st_os : osenv;         (* to AutoLoad *)
  st_exe_ok : bool;      (* os.Executable, in store.New *)
  st_open_ok : bool;     (* sql.Open *)
  st_cert_ok : bool      (* tls.LoadX509KeyPair *)
}.

(** The [*Client] that [New] returns, with the store it opened. *)
Record Process := MkProcess {
  p_client : Client;
  p_path : gostring;          (* the file behind c.Store *)
  p_listenPort : Z;
  p_pingPeriod : Z;
  p_tlsConfig : bool;         (* c.tlsConfig != nil *)
  p_certFile : gostring;
  p_keyFileTLS : gostring;
  p_peerAddr : gostring;
  p_writeMode : bool;
  p_state : CW
}.
Definition set_state (x : CW) (p : Process) : Process :=
  MkProcess (p_client p) (p_path p) (p_listenPort p) (p_pingPeriod p) (p_tlsConfig p) (p_certFile p)
    (p_keyFileTLS p) (p_peerAddr p) (p_writeMode p) x.

(** [func (c *Client) UseTLS() bool] *)
Definition Client_UseTLS (p : Process) : bool := p_tlsConfig p.

Section Start.
Context {P : Platform} {E : Env}.

(** ** store.New *)

(** [db.ExecContext(ctx, q)] on a file that is created on first use. *)
Definition exec_ddl (path : gostring) (q : ddl) : M Host unit := λ h,
  let h1 := set_tick (S (h_tick h)) h in
  match env_db (h_tick h) with
  | Some what => (Err (EExternal what), h1)
  | None =>
      match run_ddl q (default new_file (h_dbs h !! path)) with
      | Some f => (Ret tt, set_dbs <[path := f]> h1)
      | None => (Err (EExternal "no such table"), h1)
      end
  end.

(** [if err != nil { panic(fmt.Errorf("msg: %w", err)) }] *)
Definition or_panic {S A} (msg : string) (m : M S A) : M S A := λ s,
  match m s with
  | (Err e, s') => (Panic msg, s')
  | r => r
  end.

Definition store_path (exe dir : gostring) : gostring :=
  (if filepath_IsAbs dir then dir else filepath_Join [filepath_Dir exe; dir]) ++ lit ".db".

Definition store_New (o : startenv) (dir : gostring) : M Host gostring :=
  when (negb (filepath_IsAbs dir) && negb (st_exe_ok o)) (panic "store: get executable path");;
  h ← get_state;
  let dbPath := store_path (h_exe h) dir in
  when (negb (st_open_ok o)) (panic "store: open database");;
  for_each schema (λ q, or_panic "store: create table" (exec_ddl dbPath q));;
  mret dbPath.

(** ** client.New *)

Definition loadTLSConfig (cfg : Config) (o : startenv) : may_exit bool :=
  if negb (UseTLS cfg) then Go false
  else if st_cert_ok o then Go true else Exited 1.

Definition keys_AutoLoad (o : startenv) : M Host Keys := λ h,
  match AutoLoad (st_os o) (h_dir h) with
  | Ret (k, d) => (Ret k, set_dir d h)
  | Err e => (Err e, h)
  | Panic p => (Panic p, h)
  end.

(** The process starts with the rows of its file, and nothing in memory. *)
Definition opened (h : Host) (path : gostring) : CW :=
  MkCW (MkSW (df_db (default new_file (h_dbs h !! path))) ∅ (h_tick h)) [] ∅ ∅.

Definition NewClient (cfg : Config) (o : startenv) : M Host (may_exit Process) :=
  k ← keys_AutoLoad o;
  path ← store_New o (Derive k);
  match loadTLSConfig cfg o with
  | Exited code => mret (Exited code)
  | Go tls =>
      h ← get_state;
      let '(r, x) := client_New cfg (opened h path) in
      _ ← lift r;
      mret (Go (MkProcess (client_of cfg k) path (Port cfg) (PingWindow cfg) tls (CertFile cfg)
        (KeyFileTLS cfg) (PeerAddr cfg) (WriteMode cfg) x))
  end.

(** ** The machine *)

(** The end of a process, whenever it comes: its rows stay in its file. *)
Definition halt (h : Host) (p : Process) : Host :=
  let w := cw_store (p_state p) in
  set_tick (tick w) (set_dbs (alter (λ f, MkDbfile (df_tables f) (df_indexes f) (db w)) (p_path p)) h).

Inductive machine := Off (h : Host) | On (h : Host) (p : Process).

(** The directory can be listed and the flag for the message size is an
    [int64]. *)
Definition start_ok (cfg : Config) (o : startenv) : Prop :=
  os_readdir_ok (st_os o) = true ∧ (CfgMaxMessageSize cfg <= MaxInt64)%Z.

Inductive mstep : machine → machine → Prop :=
| step_start cfg o h h' p : start_ok cfg o → NewClient cfg o h = (Ret (Go p), h') → mstep (Off h) (On h' p)
| step_fail cfg o h h' r : start_ok cfg o → NewClient cfg o h = (r, h') → (∀ p, r ≠ Ret (Go p)) → mstep (Off h) (Off h')
| step_event h p ev : mstep (On h p) (On h (set_state (handle (p_client p) ev (p_state p)).2 p))
| step_stop h p : mstep (On h p) (Off (halt h p)).

(** Nothing of the program is on the host yet. *)
Definition fresh_host (h : Host) : Prop := first_key (h_dir h) = None ∧ h_dbs h = ∅.
End Start.

(** ** Opening the database *)

Definition db_file (h : Host) (path : gostring) : Dbfile := default new_file (h_dbs h !! path).

(** The rows of a table that is not there. *)
Definition absent_empty (f : Dbfile) : Prop := ∀ n, n ∉ df_tables f → clear_table n (df_db f) = df_db f.

Definition table_names : list gostring :=
  [lit "chats"; lit "known_peers"; lit "files"; lit "chat_search"; lit "outbox"; lit "profile"].
Definition complete (f : Dbfile) : Prop := ∀ n, n ∈ table_names → n ∈ df_tables f.

Lemma absent_empty_new : absent_empty new_file.
Proof. intros n _. unfold clear_table. by repeat case_bool_decide. Qed.

(** A name that is not a table's clears nothing. *)
Lemma clear_other n d : n ∉ table_names → clear_table n d = d.
Proof.
  intros Hn. unfold clear_table. rewrite !bool_decide_false; [done|..];
    (intros ->; apply Hn; apply list_elem_of_In; cbn; tauto).
Qed.

Lemma complete_absent f d : complete f → absent_empty (MkDbfile (df_tables f) (df_indexes f) d).
Proof. intros Hf n Hn. apply clear_other. intros Hin. by apply Hn, Hf. Qed.

(** What a statement has achieved. *)
Definition created (q : ddl) (f : Dbfile) : Prop :=
  match q with
  | CreateTable n => n ∈ df_tables f
  | CreateIndex n _ => n ∈ df_indexes f
  end.

Lemma run_ddl_spec q f f' :
  absent_empty f → run_ddl q f = Some f' →
  df_db f' = df_db f ∧ absent_empty f' ∧ created q f' ∧ (∀ q', created q' f → created q' f').
Proof.
  intros Hf. destruct q as [n|n t]; cbn; case_bool_decide as Hn.
  - by intros [= <-].
  - intros [= <-]. cbn. rewrite (Hf n Hn). split; [done|]. split; [|split; [set_solver|]].
    + intros m Hm. apply Hf. cbn in Hm. set_solver.
    + intros [m|m t]; cbn; set_solver.
  - by intros [= <-].
  - case_bool_decide; [|done]. intros [= <-]. cbn. split; [done|]. split; [done|]. split; [set_solver|].
    intros [m|m t']; cbn; set_solver.
Qed.

(** From one host to another with the same entries and rows. *)
Definition same_rows (h h' : Host) : Prop :=
  h_exe h' = h_exe h ∧ h_dir h' = h_dir h ∧ (∀ path, df_db (db_file h' path) = df_db (db_file h path)) ∧
  (∀ path, absent_empty (db_file h' path)).

Lemma same_rows_refl h : (∀ path, absent_empty (db_file h path)) → same_rows h h.
Proof. done. Qed.
Lemma same_rows_trans h1 h2 h3 : same_rows h1 h2 → same_rows h2 h3 → same_rows h1 h3.
Proof.
  intros (He1 & Hd1 & Hr1 & _) (He2 & Hd2 & Hr2 & Ha). split; [congruence|]. split; [congruence|].
  split; [|done]. intros path. by rewrite Hr2, Hr1.
Qed.

Lemma file_insert h path f path' :
  db_file (set_dbs <[path := f]> h) path' = if decide (path' = path) then f else db_file h path'.
Proof.
  unfold db_file. cbn. case_decide; subst; [by rewrite lookup_insert_eq|by rewrite lookup_insert_ne].
Qed.

Section Opening.
Context {P : Platform} {E : Env}.

Lemma exec_ddl_wp path q h :
  (∀ path, absent_empty (db_file h path)) →
  wp (exec_ddl path q) (λ r h', same_rows h h' ∧ (∀ q', created q' (db_file h path) → created q' (db_file h' path)) ∧
    match r with Ret _ => created q (db_file h' path) | Err _ => True | Panic _ => False end) h.
Proof.
  intros Ha. unfold wp, exec_ddl. destruct (env_db (h_tick h)); [by repeat split|].
  destruct (run_ddl q (default new_file (h_dbs h !! path))) as [f|] eqn:Er; [|by repeat split].
  destruct (run_ddl_spec q (db_file h path) f (Ha path) Er) as (Hd & Haf & Hc & Hm).
  cbn [fst snd]. unfold same_rows. setoid_rewrite file_insert. rewrite !decide_True by done.
  split; [|by split]. split; [done|]. split; [done|]. split; intros path'; case_decide; subst; try done. apply Ha.
Qed.

Lemma wp_or_panic {S A} msg (m : M S A) Q s :
  wp m (λ o s', match o with Err _ => Q (Panic msg) s' | _ => Q o s' end) s → wp (or_panic msg m) Q s.
Proof. unfold wp, or_panic. by destruct (m s) as [[]]. Qed.

Lemma create_all_wp path l h :
  (∀ path, absent_empty (db_file h path)) →
  wp (for_each l (λ q, or_panic "store: create table" (exec_ddl path q)))
    (λ r h', same_rows h h' ∧ (∀ q', created q' (db_file h path) → created q' (db_file h' path)) ∧
      match r with Ret _ => ∀ q, q ∈ l → created q (db_file h' path) | Err _ => False | Panic _ => True end) h.
Proof.
  revert h. induction l as [|q l IH]; intros h Ha; cbn [for_each].
  { apply wp_ret. split; [done|]. split; [done|]. by intros q ?%elem_of_nil. }
  apply wp_bind, wp_or_panic. eapply wp_conseq; [by apply exec_ddl_wp|].
  intros [[]|e|p] h1 (Hs1 & Hm1 & Hc1); [|done..].
  eapply wp_conseq; [apply IH, Hs1|]. intros r h2 (Hs2 & Hm2 & Hr). split; [by eapply same_rows_trans|].
  split; [auto|]. destruct r; [|done..]. intros q' [->|Hin]%elem_of_cons; auto.
Qed.

(** [store.New] leaves every row alone, however it ends, and returns with a
    file that has all six tables; it never returns an error. *)
Lemma store_New_wp o dir h :
  (∀ path, absent_empty (db_file h path)) →
  wp (store_New o dir) (λ r h', same_rows h h' ∧
    match r with
    | Ret path => path = store_path (h_exe h) dir ∧ complete (db_file h' path) ∧ is_Some (h_dbs h' !! path)
    | Err _ => False
    | Panic _ => True
    end) h.
Proof.
  intros Ha. unfold store_New. apply wp_bind. destruct (negb (filepath_IsAbs dir) && negb (st_exe_ok o)); [done|].
  apply wp_ret. apply wp_bind. unfold get_state, wp at 1. cbn [fst snd]. cbv zeta.
  apply wp_bind. destruct (st_open_ok o); [|done]. apply wp_ret. apply wp_bind.
  eapply wp_conseq; [by apply create_all_wp|]. intros [[]|e|p] h' (Hs & _ & Hr); [|done..].
  apply wp_ret. split; [done|]. split; [done|].
  assert (complete (db_file h' (store_path (h_exe h) dir))) as Hc.
  { intros n Hn. apply (Hr (CreateTable n)). unfold table_names, schema in *.
    repeat (apply elem_of_cons in Hn as [->|Hn]); [..|by apply elem_of_nil in Hn]; repeat (left || right). }
  split; [done|]. unfold db_file in Hc. destruct (h_dbs h' !! _); [by eexists|].
  specialize (Hc (lit "chats") ltac:(left)). cbn in Hc. set_solver.
Qed.
End Opening.

(** ** The identity *)

Section Identity.
Context {P : Platform} {E : Env} {PL : PlatformLaws P}.

(** The key pair a start finds in a directory it can list. *)
Definition ident (d : list dirent) : option Keys := load_existing (MkOs true true true None) d.

Lemma load_existing_ident o d : os_readdir_ok o = true → load_existing o d = ident d.
Proof. intros Ho. unfold ident, load_existing, findExistingKey. by rewrite Ho. Qed.

Lemma ident_none d : first_key d = None → ident d = None.
Proof. intros Hd. unfold ident, load_existing, findExistingKey. cbn. by rewrite Hd. Qed.

(** A directory whose identity is settled, or where there is none to find. *)
Definition settled (d : list dirent) : Prop := is_Some (ident d) ∨ first_key d = None.

Lemma AutoLoad_ident o d k d' :
  os_readdir_ok o = true → settled d → AutoLoad o d = Ret (k, d') →
  keys_wf k ∧ ident d' = Some k ∧ (ident d = Some k ∨ ident d = None).
Proof.
  intros Ho Hd Hl. split; [by eapply AutoLoad_wf|]. revert Hl. unfold AutoLoad.
  destruct (os_exe_ok o); [|done]. cbn [negb]. rewrite load_existing_ident by done.
  destruct (ident d) as [k0|] eqn:Ei; [intros [= <- <-]; by auto|].
  destruct Hd as [[? Hd]|Hd]; [by rewrite Ei in Hd|].
  unfold generateRandomSeed. destruct (os_rand o) as [seed|]; [|done]. cbn.
  destruct (os_write_ok o); [|done]. intros [= <- <-]. split; [|by right].
  unfold ident, load_existing, findExistingKey. cbn.
  rewrite first_key_write by (try apply is_key_entry_key_file; done). cbn. by rewrite len_vec.
Qed.

Lemma AutoLoad_fails o d r : AutoLoad o d = r → (∀ kd, r ≠ Ret kd) → ∃ p, r = Panic p.
Proof.
  intros <- Hr. unfold AutoLoad, generateRandomSeed in *. destruct (os_exe_ok o); [|by eexists]. cbn [negb] in *.
  destruct (load_existing o d); [by destruct (Hr _ eq_refl)|].
  destruct (os_rand o); [|by eexists]. cbn in *. destruct (os_write_ok o); [by destruct (Hr _ eq_refl)|by eexists].
Qed.

(** ** The invariant of the machine *)

(** A db_file holds what a client with this private key wrote. *)
Definition file_ok (k : Keys) (f : Dbfile) : Prop :=
  decodable (Private k) (df_db f) ∧ typed (Private k) (df_db f) ∧ absent_empty f.

Lemma file_ok_new k : file_ok k new_file.
Proof.
  split; [|split; [apply typed_empty|apply absent_empty_new]].
  intros n v. unfold plain_at. cbn. by rewrite lookup_empty.
Qed.

Definition host_inv (h : Host) : Prop :=
  match ident (h_dir h) with
  | Some k => keys_wf k ∧ ∀ path, file_ok k (db_file h path)
  | None => first_key (h_dir h) = None ∧ h_dbs h = ∅
  end.

Definition process_inv (h : Host) (p : Process) : Prop :=
  ident (h_dir h) = Some (c_Keys (p_client p)) ∧ host_inv h ∧
  p_path p = store_path (h_exe h) (Derive (c_Keys (p_client p))) ∧
  (∃ f, h_dbs h !! p_path p = Some f ∧ complete f) ∧
  cfg_ok (p_client p) ∧ client_inv (p_client p) (p_state p).

Definition machine_inv (m : machine) : Prop :=
  match m with Off h => host_inv h | On h p => process_inv h p end.

Lemma file_ok_same k h h' path : same_rows h h' → file_ok k (db_file h path) → file_ok k (db_file h' path).
Proof. intros (_ & _ & Hr & Ha) (H1 & H2 & _). unfold file_ok. rewrite Hr. auto. Qed.

Lemma host_files h k path : host_inv h → ident (h_dir h) = Some k ∨ ident (h_dir h) = None → file_ok k (db_file h path).
Proof.
  unfold host_inv. intros H [Hi|Hi]; rewrite Hi in H; [apply H|].
  destruct H as [_ He]. unfold db_file. rewrite He, lookup_empty. apply file_ok_new.
Qed.

Lemma host_inv_settled h : host_inv h → settled (h_dir h).
Proof. unfold host_inv, settled. destruct (ident (h_dir h)); [by left; eexists|]. intros [? _]. by right. Qed.

(** The host after a start, with what it says of the start's outcome. *)
Definition New_post (cfg : Config) (o : startenv) (h : Host) (r : outcome (may_exit Process)) (h' : Host) : Prop :=
  host_inv h' ∧ h_exe h' = h_exe h ∧ (∀ path, df_db (db_file h' path) = df_db (db_file h path)) ∧
  (∀ k, ident (h_dir h) = Some k → ident (h_dir h') = Some k) ∧
  match r with
  | Ret (Go p) =>
      ∃ k, ident (h_dir h') = Some k ∧ p_client p = client_of cfg k ∧
        p_path p = store_path (h_exe h) (Derive k) ∧
        (∃ f, h_dbs h' !! p_path p = Some f ∧ complete f) ∧
        loadTLSConfig cfg o = Go (p_tlsConfig p) ∧
        client_New cfg (opened h' (p_path p)) = (Ret tt, p_state p)
  | Ret (Exited code) => code = 1%Z ∧ UseTLS cfg = true ∧ st_cert_ok o = false
  | Err _ => False
  | Panic _ => True
  end.

Lemma client_New_run cfg x : ∃ x', client_New cfg x = (Ret tt, x').
Proof.
  unfold client_New. case_bool_decide; cbn [negb when]; [by eexists|].
  unfold ignore, on_store, zoom. destruct (ProfileStore.Update (ClientName cfg) NilUUID (cw_store x)) as [[|e|p] w] eqn:Eu; try by eexists.
  exfalso. revert Eu. unfold ProfileStore.Update, wrapping, ignore, db_exec, next. rewrite !bind_run. cbn.
  destruct (env_db _); cbn; rewrite ?bind_run; cbn; by destruct (env_db _).
Qed.

Lemma NewClient_wp cfg o h : os_readdir_ok (st_os o) = true → host_inv h → wp (NewClient cfg o) (New_post cfg o h) h.
Proof.
  intros Ho Hh. pose proof (host_inv_settled h Hh) as Hset. unfold NewClient. apply wp_bind. unfold wp at 1, keys_AutoLoad.
  destruct (AutoLoad (st_os o) (h_dir h)) as [[k d]|e|p] eqn:El; cbn [fst snd].
  2: { by destruct (AutoLoad_fails _ _ _ El) as [? [=]]. }
  2: { by repeat split. }
  destruct (AutoLoad_ident _ _ _ _ Ho Hset El) as (Hk & Hd & Hi).
  set (h1 := set_dir d h). assert (∀ path, file_ok k (db_file h1 path)) as Hf.
  { intros path. change (db_file h1 path) with (db_file h path). by apply host_files. }
  assert (∀ k0, ident (h_dir h) = Some k0 → k0 = k) as Hsame by (intros k0 Hk0; destruct Hi as [Hi|Hi]; congruence).
  apply wp_bind. eapply wp_conseq; [apply store_New_wp; intros path; apply Hf|].
  intros r h2 (Hs & Hr). assert (host_inv h2 ∧ ident (h_dir h2) = Some k) as [Hi2 Hd2].
  { assert (ident (h_dir h2) = Some k) as Hd2 by (by rewrite (proj1 (proj2 Hs))).
    split; [|done]. unfold host_inv. rewrite Hd2. split; [done|]. intros path. by eapply file_ok_same. }
  assert (∀ r, (match r with
    | Ret (Go p) => ∃ k, ident (h_dir h2) = Some k ∧ p_client p = client_of cfg k ∧
        p_path p = store_path (h_exe h) (Derive k) ∧
        (∃ f, h_dbs h2 !! p_path p = Some f ∧ complete f) ∧
        loadTLSConfig cfg o = Go (p_tlsConfig p) ∧
        client_New cfg (opened h2 (p_path p)) = (Ret tt, p_state p)
    | Ret (Exited code) => code = 1%Z ∧ UseTLS cfg = true ∧ st_cert_ok o = false
    | Err _ => False
    | Panic _ => True
    end) → New_post cfg o h r h2) as Hpost.
  { intros r' Hr'. destruct Hs as (He & _ & Hrows & _). split; [done|]. split; [done|]. split; [done|].
    split; [|done]. intros k0 Hk0. by rewrite (Hsame k0 Hk0). }
  destruct r as [path|e|p]; [|done|by apply Hpost]. destruct Hr as (-> & Hc & f & Hfile).
  unfold loadTLSConfig. destruct (UseTLS cfg) eqn:Eu; cbn [negb]; [destruct (st_cert_ok o) eqn:Ec|].
  2: { apply wp_ret, Hpost. done. }
  all: unfold get_state; apply wp_bind; unfold wp at 1; cbn [fst snd];
    destruct (client_New_run cfg (opened h2 (store_path (h_exe h1) (Derive k)))) as [x' Hx']; rewrite Hx';
    apply wp_bind, wp_lift, wp_ret, Hpost; exists k; unfold loadTLSConfig; rewrite Eu; cbn; rewrite ?Ec;
    repeat (split; [done|]); unfold db_file in Hc; rewrite Hfile in Hc; (split; [by exists f|]); by split.
Qed.
End Identity.

(** ** The steps of the machine *)

Section Steps.
Context {P : Platform} {E : Env} {PL : PlatformLaws P}.

(** [New] touches one table, and has nothing in memory yet. *)
Lemma client_New_rows cfg x :
  let x' := (client_New cfg x).2 in
  heap x' = heap x ∧ sessions x' = sessions x ∧ pendingFiles x' = pendingFiles x ∧ cache (cw_store x') = cache (cw_store x) ∧
  ∃ f, db (cw_store x') = set_profile f (db (cw_store x)) ∧ (ClientName cfg = [] → x' = x).
Proof.
  assert (∀ d, d = set_profile (λ p, p) d) as Hid by by intros [].
  unfold client_New. case_bool_decide as Hc; cbn [negb when].
  { cbn. repeat (split; [done|]). exists (λ p, p). by split. }
  assert (∀ n id w, cache (ProfileStore.Update n id w).2 = cache w ∧
    ∃ f, db (ProfileStore.Update n id w).2 = set_profile f (db w)) as Hu.
  { intros n id w. unfold ProfileStore.Update, wrapping, ignore, db_exec, next. rewrite !bind_run. cbn.
    destruct (env_db (tick w)); cbn; rewrite ?bind_run; cbn; destruct (env_db _); cbn; split; try done;
      first [by exists (λ p, p)|by eexists|idtac]; eexists (λ p, _); unfold set_profile; cbn; reflexivity. }
  unfold ignore, on_store, zoom. specialize (Hu (ClientName cfg) NilUUID (cw_store x)) as [Hca [f Hf]].
  destruct (ProfileStore.Update (ClientName cfg) NilUUID (cw_store x)) as [[|e|p] w]; cbn in *;
    (split; [done|]); (split; [done|]); (split; [done|]); (split; [done|]); exists f; by split.
Qed.

Lemma client_New_profile cfg x :
  no_faults E → ClientName cfg ≠ [] →
  profile (db (cw_store (client_New cfg x).2)) = Some (profile_row_of (ClientName cfg) NilUUID).
Proof.
  intros Hn Hc. unfold client_New. rewrite bool_decide_false by done. cbn [negb when].
  destruct (ProfileUpdate_run (ClientName cfg) NilUUID (cw_store x) Hn) as (w & Hu & _ & Hd).
  unfold ignore, on_store, zoom. rewrite Hu. cbn. by rewrite Hd.
Qed.

Lemma opened_inv (c : Client) h path : file_ok (c_Keys c) (db_file h path) → client_inv c (opened h path).
Proof. intros (Hd & Ht & _). apply client_inv_idle; [|exact Ht]. split; [by intros k v|exact Hd]. Qed.

Lemma start_inv cfg o h h' p :
  start_ok cfg o → host_inv h → NewClient cfg o h = (Ret (Go p), h') → process_inv h' p.
Proof.
  intros [Ho Hc] Hh HN. pose proof (NewClient_wp cfg o h Ho Hh) as Hp. unfold wp in Hp. rewrite HN in Hp. cbn [fst snd] in Hp.
  cbn [fst snd] in Hp. destruct Hp as (Hi & He & _ & _ & k & Hk & Hcl & Hpath & Hf & _ & Hx). unfold process_inv.
  rewrite Hcl. cbn [c_Keys client_of]. split; [done|]. split; [done|]. split; [by rewrite He|].
  split; [done|]. split; [exact Hc|].
  pose proof (client_New_inv (client_of cfg k) 0 cfg (opened h' (p_path p))) as Hn. rewrite Hx in Hn. apply Hn.
  apply opened_inv. by apply host_files; [|left].
Qed.

Lemma halt_rows h p f path :
  h_dbs h !! p_path p = Some f →
  db_file (halt h p) path = if decide (path = p_path p) then MkDbfile (df_tables f) (df_indexes f) (db (cw_store (p_state p)))
                         else db_file h path.
Proof.
  intros Hf. unfold db_file, halt. cbn. case_decide as Hp; subst.
  - by rewrite lookup_alter_eq, Hf.
  - by rewrite lookup_alter_ne.
Qed.

Lemma halt_inv h p : process_inv h p → host_inv (halt h p) ∧ ident (h_dir (halt h p)) = Some (c_Keys (p_client p)).
Proof.
  intros (Hk & Hh & _ & (f & Hf & Hc) & _ & Hx). split; [|exact Hk].
  unfold host_inv in *. change (h_dir (halt h p)) with (h_dir h). rewrite Hk in *. destruct Hh as [Hwf Hfiles].
  split; [done|]. intros path. rewrite (halt_rows _ _ f) by done. case_decide; [|done].
  destruct Hx as ([_ Hd] & _ & _ & _ & Ht). split; [exact Hd|]. split; [exact Ht|]. by apply complete_absent.
Qed.

Lemma mstep_inv m m' : mstep m m' → machine_inv m → machine_inv m'.
Proof.
  intros Hs. destruct Hs as [cfg o h h' p Hok HN|cfg o h h' r Hok HN _|h p ev|h p]; cbn; intros Hi.
  - by eapply start_inv.
  - pose proof (NewClient_wp cfg o h (proj1 Hok) Hi) as Hp. unfold wp in Hp. rewrite HN in Hp. cbn [fst snd] in Hp. apply Hp.
  - destruct Hi as (Hk & Hh & Hp & Hf & Hc & Hx). repeat (split; [done|]). by apply handle_inv.
  - by apply halt_inv.
Qed.

Lemma msteps_inv m m' : rtc mstep m m' → machine_inv m → machine_inv m'.
Proof. induction 1; eauto using mstep_inv. Qed.

Lemma fresh_inv h : fresh_host h → host_inv h.
Proof. intros [Hd Hb]. unfold host_inv. by rewrite ident_none. Qed.

(** The identity a machine is bound to, if any. *)
Definition bound (m : machine) : option Keys :=
  match m with Off h | On h _ => ident (h_dir h) end.

Lemma mstep_bound m m' k : mstep m m' → machine_inv m → bound m = Some k → bound m' = Some k.
Proof.
  intros Hs. destruct Hs as [cfg o h h' p Hok HN|cfg o h h' r Hok HN _|h p ev|h p]; cbn; intros Hi Hk; try done;
    pose proof (NewClient_wp cfg o h (proj1 Hok) Hi) as Hp; unfold wp in Hp; rewrite HN in Hp; cbn [fst snd] in Hp; by apply Hp.
Qed.

Lemma steps_bound m m' k : rtc mstep m m' → machine_inv m → bound m = Some k → bound m' = Some k.
Proof. induction 1; eauto using mstep_inv, mstep_bound. Qed.

(** A start that ends without a process. *)
Definition failed_start (h h' : Host) : Prop :=
  ∃ cfg o r, start_ok cfg o ∧ NewClient cfg o h = (r, h') ∧ ∀ p, r ≠ Ret (Go p).

Lemma failed_rows h h' :
  rtc failed_start h h' → host_inv h →
  host_inv h' ∧ h_exe h' = h_exe h ∧ (∀ path, df_db (db_file h' path) = df_db (db_file h path)) ∧
  (∀ k, ident (h_dir h) = Some k → ident (h_dir h') = Some k).
Proof.
  induction 1 as [h|h h1 h2 (cfg & o & r & Hok & HN & _) _ IH]; intros Hi; [done|].
  pose proof (NewClient_wp cfg o h (proj1 Hok) Hi) as Hp. unfold wp in Hp. rewrite HN in Hp. cbn [fst snd] in Hp.
  destruct Hp as (Hi1 & He1 & Hr1 & Hk1 & _). destruct (IH Hi1) as (Hi2 & He2 & Hr2 & Hk2).
  split; [done|]. split; [congruence|]. split; [|auto]. intros path. by rewrite Hr2, Hr1.
Qed.

(** The rows of two databases agree, the profile aside. *)
Definition same_data (d d' : DB) : Prop :=
  chats d' = chats d ∧ known_peers d' = known_peers d ∧ files d' = files d ∧ chat_search d' = chat_search d ∧
  outbox d' = outbox d.

Lemma restart_rows h p h1 cfg o p' h2 :
  process_inv h p → rtc failed_start (halt h p) h1 → start_ok cfg o → NewClient cfg o h1 = (Ret (Go p'), h2) →
  c_Keys (p_client p') = c_Keys (p_client p) ∧ process_inv h2 p' ∧
  same_data (db (cw_store (p_state p))) (db (cw_store (p_state p'))) ∧
  (ClientName cfg = [] → profile (db (cw_store (p_state p'))) = profile (db (cw_store (p_state p)))) ∧
  (ClientName cfg ≠ [] → no_faults E →
    profile (db (cw_store (p_state p'))) = Some (profile_row_of (ClientName cfg) NilUUID)) ∧
  heap (p_state p') = [] ∧ sessions (p_state p') = ∅ ∧ pendingFiles (p_state p') = ∅ ∧ cache (cw_store (p_state p')) = ∅.
Proof.
  intros Hp Hfail Hok HN. destruct (halt_inv h p Hp) as [Hi Hk]. destruct (failed_rows _ _ Hfail Hi) as (Hi1 & He1 & Hr1 & Hk1).
  pose proof (start_inv cfg o h1 h2 p' Hok Hi1 HN) as Hp'.
  pose proof (NewClient_wp cfg o h1 (proj1 Hok) Hi1) as Hw. unfold wp in Hw. rewrite HN in Hw. cbn [fst snd] in Hw.
  destruct Hw as (_ & _ & Hr2 & Hk2 & k & Hkk & Hcl & Hpath & _ & _ & Hx).
  assert (k = c_Keys (p_client p)) as -> by (specialize (Hk2 _ (Hk1 _ Hk)); congruence).
  split; [by rewrite Hcl|]. split; [done|].
  destruct Hp as (_ & _ & Hpp & (f & Hf & _) & _).
  assert (p_path p' = p_path p) as Hpe by (rewrite Hpath, He1, Hpp; done).
  assert (df_db (db_file h2 (p_path p')) = db (cw_store (p_state p))) as Hdb.
  { rewrite Hr2, Hr1, (halt_rows _ _ f), decide_True by done. done. }
  pose proof (client_New_profile cfg (opened h2 (p_path p'))) as Hprof.
  pose proof (client_New_rows cfg (opened h2 (p_path p'))) as Hrow. rewrite Hx in Hrow, Hprof. cbn [snd] in Hrow.
  change (db (cw_store (opened h2 (p_path p')))) with (df_db (db_file h2 (p_path p'))) in Hrow. rewrite Hdb in Hrow.
  destruct Hrow as (-> & -> & -> & -> & g & Hg & Hn). unfold same_data. rewrite Hg. split; [done|].
  split; [intros Hc; rewrite <-Hg, (Hn Hc); exact (f_equal profile Hdb)|]. split; [|done].
  intros Hc Hf'. rewrite <-Hg. by apply Hprof.
Qed.
End Steps.

(** ** A start without faults *)

Section Success.
Context {P : Platform} {E : Env}.

(** Every index is on a table created before it. *)
Fixpoint closed (names : list gostring) (l : list ddl) : bool :=
  match l with
  | [] => true
  | CreateTable n :: l' => closed (n :: names) l'
  | CreateIndex _ t :: l' => bool_decide (t ∈ names) && closed names l'
  end.

Lemma exec_ddl_ok path q h f :
  no_faults E → run_ddl q (db_file h path) = Some f →
  exec_ddl path q h = (Ret tt, set_dbs <[path := f]> (set_tick (S (h_tick h)) h)).
Proof. intros [Hd _] Hf. unfold exec_ddl. rewrite Hd. unfold db_file in Hf. by rewrite Hf. Qed.

Lemma create_all_ok path l names h :
  no_faults E → (∀ n, n ∈ names → n ∈ df_tables (db_file h path)) → closed names l = true →
  (for_each l (λ q, or_panic "store: create table" (exec_ddl path q)) h).1 = Ret tt.
Proof.
  intros Hn. revert names h. induction l as [|q l IH]; intros names h Hin Hc; [done|]. cbn [for_each]. rewrite bind_run.
  assert (∃ f, run_ddl q (db_file h path) = Some f ∧ df_tables (db_file h path) ⊆ df_tables f ∧
    match q with CreateTable n => n ∈ df_tables f | _ => True end) as (f & Hf & Hsub & Hq).
  { destruct q as [n|n t]; cbn in *.
    - case_bool_decide; [by eauto|]. eexists. split; [done|]. cbn. set_solver.
    - apply andb_prop in Hc as [Ht%bool_decide_eq_true _].
      rewrite (bool_decide_true (t ∈ df_tables (db_file h path))) by by apply Hin. case_bool_decide; eauto. }
  unfold or_panic at 1. rewrite (exec_ddl_ok path q h f) by done.
  set (h1 := set_dbs _ _). assert (db_file h1 path = f) as Hf1 by (unfold h1; by rewrite file_insert, decide_True).
  destruct q as [n|n t]; cbn in Hc; [apply (IH (n :: names) h1)|apply andb_prop in Hc as [_ Hc]; apply (IH names h1)]; try done; rewrite Hf1.
  - intros m [->|Hm]%elem_of_cons; [done|]. by apply Hsub, Hin.
  - intros m Hm. by apply Hsub, Hin.
Qed.

Lemma store_New_ok o dir h :
  no_faults E → st_exe_ok o = true → st_open_ok o = true → (store_New o dir h).1 = Ret (store_path (h_exe h) dir).
Proof.
  intros Hn He Ho. unfold store_New. rewrite He, Ho, andb_false_r. cbn [negb when]. rewrite bind_run. cbn [mret M_ret].
  rewrite bind_run. cbn [get_state]. cbv zeta. rewrite bind_run. cbn [mret M_ret]. rewrite bind_run.
  pose proof (create_all_ok (store_path (h_exe h) dir) schema [] h Hn ltac:(by intros n ?%elem_of_nil) eq_refl) as Hc.
  destruct (for_each _ _ h) as [r h']. cbn in Hc. by subst r.
Qed.

(** What must not fail for a process to start. *)
Definition start_env_ok (cfg : Config) (o : startenv) : Prop :=
  os_exe_ok (st_os o) = true ∧ os_readdir_ok (st_os o) = true ∧ os_write_ok (st_os o) = true ∧
  is_Some (os_rand (st_os o)) ∧ st_exe_ok o = true ∧ st_open_ok o = true ∧ (UseTLS cfg = true → st_cert_ok o = true).

Lemma AutoLoad_ok `{C : Crypto} o d :
  os_exe_ok o = true → os_write_ok o = true → is_Some (os_rand o) → ∃ k d', AutoLoad o d = Ret (k, d').
Proof.
  intros He Hw [seed Hr]. unfold AutoLoad, generateRandomSeed. rewrite He, Hr, Hw. cbn [negb].
  destruct (load_existing o d); cbn; eauto.
Qed.

Lemma NewClient_ok cfg o h :
  no_faults E → start_env_ok cfg o → ∃ p h', NewClient cfg o h = (Ret (Go p), h').
Proof.
  intros Hn (He & _ & Hw & Hr & He2 & Ho & Ht). unfold NewClient, keys_AutoLoad. rewrite bind_run.
  destruct (AutoLoad_ok (st_os o) (h_dir h) He Hw Hr) as (k & d & ->). rewrite bind_run.
  pose proof (store_New_ok o (Derive k) (set_dir d h) Hn He2 Ho) as Hs.
  destruct (store_New o (Derive k) (set_dir d h)) as [r h2]. cbn in Hs. subst r.
  assert (∃ tls, loadTLSConfig cfg o = Go tls) as [tls ->].
  { unfold loadTLSConfig. destruct (UseTLS cfg); cbn; [rewrite Ht by done|]; by eexists. }
  rewrite bind_run. unfold get_state. cbv beta iota.
  destruct (client_New_run cfg (opened h2 (store_path (h_exe h) (Derive k)))) as [x' Hx']. rewrite Hx'. by eexists _, _.
Qed.
End Success.

(** ** Properties *)

Section Theorems.
Context {P : Platform} {E : Env} {PL : PlatformLaws P}.

(** C3: Whatever sequence of events a client goes through from its first start
    on — faults, frames of any peers, requests, each handled to completion,
    stops between two events, failed starts, restarts with other flags — while
    it runs: its cache agrees with its encrypted messages, every row that opens
    is the encoding of a message, its sessions are well formed, and it is on the
    database of its own identity. (What operations of the store that overlap
    can do to the cache is in [StoreRace].) *)
Theorem machine_sound (h0 h : Host) (p : Process) :
  fresh_host h0 → rtc mstep (Off h0) (On h p) →
  let secret := priv (p_client p) in let w := cw_store (p_state p) in
  client_inv (p_client p) (p_state p) ∧
  (∀ k r, chats (db w) !! k = Some r → ∃ v m, Store.decrypt secret (cr_value r) = Ret v ∧ message.ToMessage v = Ret m) ∧
  (∀ k v, cache w !! k = Some v → ∃ r, chats (db w) !! k = Some r ∧ Store.decrypt secret (cr_value r) = Ret v) ∧
  keys_wf (c_Keys (p_client p)) ∧
  p_path p = store_path (h_exe h) (Derive (c_Keys (p_client p))).
Proof.
  intros Hf Hs secret w. pose proof (msteps_inv _ _ Hs (fresh_inv h0 Hf)) as (Hk & Hh & Hp & _ & _ & Hx).
  split; [done|]. destruct Hx as ([Hco Hde] & _ & _ & _ & Ht). split; [|split].
  - intros k r Hr. destruct (ty_chats _ _ Ht k r Hr) as (_ & _ & v & Hv). exists v.
    assert (plain_at secret (db w) k = Some v) as Hpl by (unfold plain_at; rewrite Hr; change (Store.decrypt secret (cr_value r) = Ret v) in Hv; by rewrite Hv).
    destruct (Hde k v Hpl) as [m Hm]. by exists m.
  - intros k v Hv. assert (plain_at secret (db w) k = Some v) as Hpl by exact (Hco k v Hv). unfold plain_at in Hpl.
    destruct (chats (db w) !! k) as [r|] eqn:Hr; [|done]. exists r. split; [done|].
    by destruct (Store.decrypt secret (cr_value r)); simplify_eq.
  - split; [|done]. unfold host_inv in Hh. rewrite Hk in Hh. apply Hh.
Qed.

(** C5: The tables are typed: while the clock stays in the range of the stored
    format, every row of every table of a running client scans under the key
    it is filed with, and every ciphertext opens, whatever failed before; so
    without further faults the listings of messages, peers and queued signals
    and the profile read, with one entry for every row. *)
Theorem tables_scan (h0 h : Host) (p : Process) :
  fresh_host h0 → rtc mstep (Off h0) (On h p) → clock_ok (E:=E) →
  let d := db (cw_store (p_state p)) in
  scans (priv (p_client p)) d ∧
  (no_faults E →
    reads_all ChatStore.List chats d ∧ reads_all KnownPeerStore.List known_peers d ∧
    reads_all OutboxStore.List outbox d ∧ ∀ w, db w = d → ∃ q, (ProfileStore.Get w).1 = Ret q).
Proof.
  intros Hf Hs Hck d. pose proof (msteps_inv _ _ Hs (fresh_inv h0 Hf)) as (_ & _ & _ & _ & _ & _ & _ & _ & _ & Ht).
  assert (scans (priv (p_client p)) d) as Hsc by by apply typed_scans.
  split; [done|]. intros Hn. by apply (scans_lists (priv (p_client p))).
Qed.

(** C4: A restart keeps the identity and the data, but not the profile. However
    the client ran, and wherever between two events it stopped, after any number
    of failed starts the next one that succeeds has the same keys and finds
    every message, peer, file, search entry and queued signal as they were left
    (messages read back, under the same key); the profile is kept only when the
    configuration has no client name (by default it has one), and otherwise
    becomes that name without a picture; and the client starts with no session,
    no pending file and an empty cache. *)
Theorem restart_preserves (h0 h h1 h2 : Host) (p p' : Process) (cfg : Config) (o : startenv) :
  fresh_host h0 → rtc mstep (Off h0) (On h p) →
  rtc failed_start (halt h p) h1 → start_ok cfg o → NewClient cfg o h1 = (Ret (Go p'), h2) →
  let x := p_state p in let x' := p_state p' in
  c_Keys (p_client p') = c_Keys (p_client p) ∧
  same_data (db (cw_store x)) (db (cw_store x')) ∧
  (∀ id, msg_view (priv (p_client p')) (db (cw_store x')) id = msg_view (priv (p_client p)) (db (cw_store x)) id) ∧
  (ClientName cfg = [] → profile (db (cw_store x')) = profile (db (cw_store x))) ∧
  (ClientName cfg ≠ [] → no_faults E → profile (db (cw_store x')) = Some (profile_row_of (ClientName cfg) NilUUID)) ∧
  heap x' = [] ∧ sessions x' = ∅ ∧ pendingFiles x' = ∅ ∧ cache (cw_store x') = ∅ ∧
  client_inv (p_client p') x'.
Proof.
  intros Hf Hs Hfail Hok HN x x'. pose proof (msteps_inv _ _ Hs (fresh_inv h0 Hf)) as Hp. cbn in Hp.
  destruct (restart_rows h p h1 cfg o p' h2 Hp Hfail Hok HN) as (Hk & Hp' & Hd & Hpr & Hpn & Hh & Hse & Hpe & Hc).
  split; [done|]. split; [done|]. split.
  { intros id. unfold priv. rewrite Hk. apply msg_view_chats, Hd. }
  destruct Hp' as (_ & _ & _ & _ & _ & Hx). auto 10.
Qed.

(** C6: Starting. Without faults [New] returns a process, whatever is on the
    host; on a host of this program its outcome is a process on the database
    named after the identity, with TLS exactly when both files were given, or
    the exit status 1 when they do not load, or a panic, never an error, and
    in every case the rows already stored are untouched and an identity found
    is kept. *)
Theorem start_outcomes (cfg : Config) (o : startenv) (h : Host) :
  (no_faults E → start_env_ok cfg o → ∃ p h', NewClient cfg o h = (Ret (Go p), h') ∧ Client_UseTLS p = UseTLS cfg) ∧
  (os_readdir_ok (st_os o) = true → host_inv h → wp (NewClient cfg o) (New_post cfg o h) h).
Proof.
  split; [|apply NewClient_wp]. intros Hn Ho. destruct (NewClient_ok cfg o h Hn Ho) as (p & h' & HN). exists p, h'. split; [done|].
  revert HN. unfold NewClient. rewrite bind_run. destruct (keys_AutoLoad o h) as [[k|e|q] h1]; [|done..]. rewrite bind_run.
  destruct (store_New o (Derive k) h1) as [[path|e|q] h3]; [|done..].
  destruct Ho as (_ & _ & _ & _ & _ & _ & Ht). unfold loadTLSConfig, Client_UseTLS.
  destruct (UseTLS cfg) eqn:Eu; cbn [negb]; [rewrite Ht by done|]; rewrite bind_run; cbn [get_state];
    destruct (client_New cfg (opened h3 path)) as [[[]|e|q] x]; rewrite bind_run; cbn; try done; by intros [= <- _].
Qed.

(** Two identities in one directory have two databases, as far as their
    derived names differ. *)
Theorem store_path_inj (exe : gostring) (k k' : Keys) :
  store_path exe (Derive k) = store_path exe (Derive k') → Derive k = Derive k'.
Proof.
  assert (∀ k, plain (Derive k) ∧ filepath_IsAbs (Derive k) = false) as Hp.
  { intros q. unfold Derive. set (l := take 8 _).
    assert (length l = 8) as Hl by (unfold l; rewrite length_take, sha256_length; done).
    assert (slash ∉ hex_EncodeToString l) as Hs.
    { clear. induction l as [|b l IH]; [by apply not_elem_of_nil|]. cbn [hex_EncodeToString].
      destruct (byte_nibbles_range b) as [H1 H2].
      assert (∀ v, (0 <= v < 16)%Z → hexchar v ≠ slash) as Hc by (intros v Hv; nibble_cases v; discriminate).
      apply not_elem_of_cons; split; [symmetry; by apply Hc|]. apply not_elem_of_cons; split; [symmetry; by apply Hc|done]. }
    pose proof (length_hex_encode l) as Hn. rewrite Hl in Hn.
    split; [split; [|split; [|split]]; [by intros He; rewrite He in Hn..|done]|].
    unfold filepath_IsAbs. apply bool_decide_false. destruct (hex_EncodeToString l); [done|].
    intros [= ->]. apply Hs. left. }
  unfold store_path. rewrite !(proj2 (Hp _)). intros He%(inj (λ l, l ++ lit ".db")).
  eapply Join_plain_inj; [apply Dir_nonempty|apply Hp|apply Hp|exact He].
Qed.

(** The identity does not change once a start succeeded. *)
Theorem identity_stable (h0 h h' : Host) (p p' : Process) :
  fresh_host h0 → rtc mstep (Off h0) (On h p) → rtc mstep (On h p) (On h' p') →
  c_Keys (p_client p') = c_Keys (p_client p).
Proof.
  intros Hf Hs Hs'. pose proof (msteps_inv _ _ Hs (fresh_inv h0 Hf)) as Hp.
  pose proof (msteps_inv _ _ Hs' Hp) as (Hk' & _). pose proof (proj1 Hp) as Hk.
  pose proof (steps_bound _ _ _ Hs' Hp Hk) as Hb. cbn in Hb. congruence.
Qed.
End Theorems.

(** ** Instances *)

Definition wit_cfg : Config := MkConfig (lit "Alice") DefaultPort DefaultTimeout DefaultRateLimit DefaultRateWindow
  MaxMessageSize DefaultPingWindow [] [] [] false.
Definition wit_start : startenv := MkStart wit_os true true true.
Definition wit_host : Host := MkHost (lit "/opt/chat/e2e") [] ∅ 0.

Lemma wit_start_ok : start_ok wit_cfg wit_start.
Proof. split; [reflexivity|]. cbv. discriminate. Qed.
Lemma wit_fresh : fresh_host wit_host.
Proof. split; reflexivity. Qed.
Lemma wit_env_ok : start_env_ok wit_cfg wit_start.
Proof. repeat (split; [reflexivity|]). split; [by eexists|]. repeat (split; [reflexivity|]). done. Qed.

Abbreviation toy_New := (NewClient (P:=toy_platform) (E:=toy_env)).
Abbreviation toy_mstep := (mstep (P:=toy_platform) (E:=toy_env)).

(** A first start and one line of input. *)
Lemma wit_run :
  ∃ h p x, toy_New wit_cfg wit_start wit_host = (Ret (Go p), h) ∧
    x = (handle (P:=toy_platform) (E:=toy_env) (p_client p) (EvStdin (lit "hello")) (p_state p)).2 ∧
    rtc toy_mstep (Off wit_host) (On h (set_state x p)).
Proof.
  destruct (NewClient_ok (P:=toy_platform) (E:=toy_env) wit_cfg wit_start wit_host toy_env_no_faults wit_env_ok) as (p & h & HN).
  exists h, p. eexists. split; [exact HN|]. split; [done|].
  eapply rtc_l; [exact (step_start wit_cfg wit_start wit_host h p wit_start_ok HN)|].
  eapply rtc_l; [apply step_event|]. apply rtc_refl.
Qed.

Lemma machine_sound_witness :
  ∃ h p, rtc toy_mstep (Off wit_host) (On h p) ∧ client_inv (P:=toy_platform) (E:=toy_env) (p_client p) (p_state p).
Proof.
  destruct wit_run as (h & p & x & _ & _ & Hr). eexists h, _. split; [exact Hr|].
  exact (proj1 (machine_sound (P:=toy_platform) (E:=toy_env) (PL:=toy_platform_laws) wit_host h _ wit_fresh Hr)).
Defined.

Lemma tables_scan_witness :
  ∃ h p, rtc toy_mstep (Off wit_host) (On h p) ∧
    reads_all (ChatStore.List (P:=toy_platform) (E:=toy_env)) chats (db (cw_store (p_state p))).
Proof.
  destruct wit_run as (h & p & x & _ & _ & Hr). eexists h, _. split; [exact Hr|].
  exact (proj1 (proj2 (tables_scan (P:=toy_platform) (E:=toy_env) (PL:=toy_platform_laws) wit_host h _ wit_fresh Hr toy_clock_ok)
    toy_env_no_faults)).
Defined.

Lemma restart_preserves_witness :
  ∃ h p h2 p', rtc toy_mstep (Off wit_host) (On h p) ∧ toy_New wit_cfg wit_start (halt h p) = (Ret (Go p'), h2) ∧
    c_Keys (p_client p') = c_Keys (p_client p) ∧ same_data (db (cw_store (p_state p))) (db (cw_store (p_state p'))) ∧
    profile (db (cw_store (p_state p'))) = Some (profile_row_of (P:=toy_platform) (lit "Alice") NilUUID).
Proof.
  destruct wit_run as (h & p & x & _ & _ & Hr).
  destruct (NewClient_ok (P:=toy_platform) (E:=toy_env) wit_cfg wit_start (halt h (set_state x p)) toy_env_no_faults wit_env_ok) as (p' & h2 & HN).
  exists h, (set_state x p), h2, p'. split; [exact Hr|]. split; [exact HN|].
  destruct (restart_preserves (P:=toy_platform) (E:=toy_env) (PL:=toy_platform_laws) wit_host h _ h2 _ p' wit_cfg wit_start
    wit_fresh Hr (rtc_refl _ _) wit_start_ok HN) as (Hk & Hd & _ & _ & Hp & _).
  exact (conj Hk (conj Hd (Hp ltac:(discriminate) toy_env_no_faults))).
Defined.

Lemma start_outcomes_witness :
  ∃ p h', toy_New wit_cfg wit_start wit_host = (Ret (Go p), h') ∧ Client_UseTLS p = false.
Proof.
  exact (proj1 (start_outcomes (P:=toy_platform) (E:=toy_env) (PL:=toy_platform_laws) wit_cfg wit_start wit_host) toy_env_no_faults wit_env_ok).
Defined.
