(* ===== verification/Accept.v ===== *)
(** * Two connections of one peer (client/handlers.go, client/peer.go)

    Each request for a websocket and each dial runs in a goroutine of its own,
    and whether the peer has a session is looked up long before one is filed:
    [handleWS] looks in [check_ws] and again in [closeExistingSession], and
    files in [open_session], after the upgrade and the key exchange;
    [storeSession] looks, then files ([fileSession]). Two goroutines that both
    looked before either filed both go on; here is what their filings, in
    either order, leave. *)

From S2P Require Import Prelude Config Crypto Keys Signal Message Wire RateLimit Base64 Monad Platform.
From S2P Require Import Store MessageStore StoreFacts Tables Session SessionFacts Handshake Client Handlers ClientFacts Delivery ReadLoop Api Reach.

Section Accept.
Context {P : Platform} {E : Env} (c : Client).

(** What a computation can return. *)
Definition yielding {A} (Q : A → Prop) (o : outcome A) : Prop := ∀ v, o = Ret v → Q v.
Lemma yields_bind {S A B} (m : M S A) (f : A → M S B) Q :
  (∀ v s, yielding Q (f v s).1) → ∀ s, yielding Q ((m ≫= f) s).1.
Proof. intros Hf s. rewrite bind_run. destruct (m s) as [[v|e|p] s']; [apply Hf|done..]. Qed.

Section Opening.
Variables (a b : nat) (sa : Session) (k : Key).
Hypothesis Hab : a ≠ b.

Definition kept (x : CW) : Prop := heap x !! a = Some sa.
Definition filed (x : CW) : Prop := heap x !! a = Some sa ∧ sessions x !! k = Some b.

Lemma kept_on_session {A} (m : M SS A) : preserves kept (on_session b m).
Proof.
  intros x Hx. unfold on_session. destruct (heap x !! b); [|done]. destruct (m _). unfold kept. cbn.
  by rewrite list_lookup_insert_ne.
Qed.
Lemma kept_on_store {A} (m : M SW A) : preserves kept (on_store m).
Proof. intros x Hx. unfold on_store, zoom. by destruct (m (cw_store x)). Qed.
Lemma filed_on_session {A} (m : M SS A) : preserves filed (on_session b m).
Proof.
  intros x [Hx Hk]. unfold on_session. destruct (heap x !! b); [|done]. destruct (m _). split; [|done]. cbn.
  by rewrite list_lookup_insert_ne.
Qed.
Lemma filed_on_store {A} (m : M SW A) : preserves filed (on_store m).
Proof. intros x Hx. unfold on_store, zoom. by destruct (m (cw_store x)). Qed.
Hint Resolve kept_on_session kept_on_store filed_on_session filed_on_store : chat.

Lemma flush_entries_filed l : preserves filed (flush_entries b l).
Proof. induction l as [|e l IH]; cbn [flush_entries]; preserve. Qed.
Hint Resolve flush_entries_filed : chat.

Lemma sess_gets_filed {A} (f : Session → A) : preserves filed (sess_gets b f).
Proof. apply filed_on_session. Qed.
Lemma kept_sess_modify f : preserves kept (sess_modify b f).
Proof. apply kept_on_session. Qed.
Lemma getName_kept : preserves kept getName.
Proof. unfold getName, Info. preserve. Qed.
Hint Resolve sess_gets_filed kept_sess_modify getName_kept : chat.

Lemma flushOutbox_filed : preserves filed (flushOutbox c k).
Proof.
  unfold flushOutbox. apply preserves_bind; [preserve|]. intros [l|e]; [|preserve]. case_bool_decide; [preserve|].
  intros x Hx. rewrite bind_run. unfold sessions_Load, gets. rewrite (proj2 Hx).
  revert x Hx. change (preserves filed (st ← sess_gets b status; if negb (bool_decide (st = Accepted)) then mret tt else flush_entries b l)).
  preserve.
Qed.

Lemma registered_filed st x :
  kept x →
  wp (modify (set_sessions (<[k := b]>));;
      name ← sess_gets b peerName;
      touch_peer k (set_PeerName name);;
      flushOutbox c k;;
      (if bool_decide (st = Pending) then requestPeerInfo c b else mret tt);;
      mret (Some b)) (λ o x', filed x' ∧ yielding (eq (Some b)) o) x.
Proof.
  intros Hx. split.
  - match goal with |- filed (?m x).2 => change (wp m (λ _, filed) x) end.
    apply wp_bind, wp_modify. set (y := set_sessions _ _).
    assert (filed y) as Hy by (split; [done|]; apply lookup_insert_eq). clearbody y.
    pose proof flushOutbox_filed. apply (preserves_wp filed); [|done]. unfold touch_peer, requestPeerInfo. preserve.
  - repeat (apply yields_bind; intros ? ?). by intros ? [= <-].
Qed.
End Opening.

Lemma open_session_files (a : nat) (sa : Session) conn k st x :
  heap x !! a = Some sa →
  wp (open_session c conn k st) (λ o x', ∀ b, o = Ret (Some b) → a ≠ b ∧ filed a b sa k x') x.
Proof.
  intros Ha. unfold open_session. apply wp_bind. unfold new_session.
  wp_use (preserves_wp (kept a sa)) as o1 x1 H1; [apply getName_kept|done|].
  destruct o1 as [nm|e|p]; [|done..].
  wp_use (preserves_wp (kept a sa)) as o2 x2 H2; [apply kept_on_store|done|].
  destruct o2 as [now|e|p]; [|done..]. clear x x1 Ha H1.
  pose proof (lookup_lt_Some _ _ _ H2) as Hlt. unfold alloc, get_state.
  apply wp_bind, wp_gets, wp_bind, wp_modify, wp_ret. set (b := length (heap x2)) in *.
  assert (a ≠ b) as Hab by lia. set (y := set_heap _ x2).
  assert (kept a sa y) as Hy by (unfold kept; cbn; by apply lookup_app_l_Some). clearbody y.
  wp_use (preserves_wp (kept a sa)) as o3 x3 H3; [by apply kept_sess_modify|done|].
  destruct o3 as [[]|e|p]; [|done..].
  wp_use (preserves_wp (kept a sa)) as o4 x4 H4; [by apply kept_on_session|done|].
  destruct o4 as [[]|e|p]; [| |done].
  - eapply wp_conseq; [by apply (registered_filed a b sa k Hab)|]. intros o x' [Hf Hy'] b' ->.
    by injection (Hy' _ eq_refl) as <-.
  - apply wp_bind. eapply wp_conseq; [by apply (preserves_wp (λ _, True))|]. intros [[]|e1|p1] x' _; [|done..].
    by apply wp_ret.
Qed.

(** A request that found no session of its peer goes on although another has
    filed one since: the map keeps the later, and the session of the earlier
    stays as it was opened. When that one ends, its cleanup unlinks the later
    ([Lifecycle.late_cleanup]). *)
Lemma double_connect k st conn a sa b x x' :
  sessions x !! k = Some a → heap x !! a = Some sa → open_session c conn k st x = (Ret (Some b), x') →
  a ≠ b ∧ heap x' !! a = Some sa ∧ sessions x' !! k = Some b.
Proof.
  intros _ Ha H2. pose proof (open_session_files a sa conn k st x Ha) as Ho. unfold wp in Ho. rewrite H2 in Ho.
  destruct (Ho b eq_refl) as [Hne Hf]. done.
Qed.

Lemma fileSession_files a b sa k x :
  a ≠ b → heap x !! a = Some sa → wp (fileSession c k b) (λ o x', o = Ret tt → filed a b sa k x') x.
Proof.
  intros Hab Ha. pose proof (λ A m, kept_on_store a sa (A:=A) m) as Hst. pose proof (λ f, kept_sess_modify a b sa Hab f) as Hm.
  pose proof (λ A m, kept_on_session a b sa Hab (A:=A) m) as Hg. unfold fileSession. apply wp_bind, wp_attempt.
  eapply wp_conseq; [apply (preserves_wp (kept a sa)); [apply Hst|done]|]. intros o1 x1 H1.
  assert (∀ r : KnownPeerStore.KnownPeer + error, wp (match r with
    | inl peer => sess_modify b (setStatus (KnownPeerStore.Status peer));;
        name ← sess_gets b peerName; ignore (on_store (KnownPeerStore.Add (set_PeerName name peer)))
    | inr _ => sess_modify b (setStatus Pending)
    end) (λ _, kept a sa) x1) as Hmid.
  { intros r. apply (preserves_wp (kept a sa)); [|done]. unfold sess_gets. destruct r; preserve. }
  assert (∀ x2, kept a sa x2 → wp (modify (set_sessions (<[k := b]>));; flushOutbox c k) (λ o x', o = Ret tt → filed a b sa k x') x2) as Hend.
  { intros x2 H2. apply wp_bind, wp_modify. eapply wp_conseq; [apply (preserves_wp (filed a b sa k)); [by apply flushOutbox_filed|]|done].
    split; [exact H2|apply lookup_insert_eq]. }
  destruct o1 as [peer|e|p]; [| |done].
  - apply wp_bind. eapply wp_conseq; [apply (Hmid (inl peer))|]. intros [[]|e|p] x2 H2; [by apply Hend|done..].
  - apply wp_bind. eapply wp_conseq; [apply (Hmid (inr e))|]. intros [[]|e'|p] x2 H2; [by apply Hend|done..].
Qed.

(** A dial that found no session of its peer files its own although another has
    filed one since: the map keeps the later, and the session of the earlier
    stays, open and unreachable. *)
Lemma double_dial a b k sa x x' :
  a ≠ b → sessions x !! k = Some a → heap x !! a = Some sa → fileSession c k b x = (Ret tt, x') →
  heap x' !! a = Some sa ∧ sessions x' !! k = Some b.
Proof.
  intros Hab _ Ha H2. pose proof (fileSession_files a b sa k x Hab Ha) as Hf. unfold wp in Hf. rewrite H2 in Hf.
  by apply Hf.
Qed.

(** Had it looked later, it would have been refused. *)
Lemma second_dial_refused b k s sid x :
  heap x !! b = Some s → peerPubKey s = k → sessions x !! k = Some sid →
  storeSession c b x = (Err errSessionExists, x).
Proof.
  intros Hb <- Hk. unfold storeSession. rewrite bind_run, (sess_gets_run _ _ _ _ Hb), bind_run.
  unfold sessions_Load, gets. by rewrite Hk.
Qed.
End Accept.
