(* ===== verification/Lifecycle.v ===== *)
(** * The life of a connection (client/handlers.go, client/peer.go, client/api.go)

    What a disconnection leaves behind: the cleanup of a read loop that comes
    after its session was replaced, and the reconnection loop. *)

From S2P Require Import Prelude Config Crypto Keys Signal Message Wire RateLimit Base64 Monad Platform.
From S2P Require Import Store MessageStore StoreFacts Tables Session SessionFacts Handshake Client Handlers ClientFacts Delivery ReadLoop Api Reach.

(** ** A live session that the map does not have *)

Section Orphan.
Context {P : Platform} {E : Env} {PL : PlatformLaws P} (c : Client) (k : Key) (sid : nat) (s : Session).

(** Session [sid] is [s], and nothing is filed under [k]. *)
Definition orphan (x : CW) : Prop := heap x !! sid = Some s ∧ sessions x !! k = None.

Lemma orphan_on_store {A} (m : M SW A) : preserves orphan (on_store m).
Proof. intros x Hx. unfold on_store, zoom. by destruct (m (cw_store x)). Qed.
Hint Resolve orphan_on_store : chat.
Lemma orphan_Info : preserves orphan Info.
Proof. unfold Info. preserve. Qed.
Hint Resolve orphan_Info : chat.
Lemma orphan_getName : preserves orphan getName.
Proof. unfold getName. preserve. Qed.
Hint Resolve orphan_getName : chat.
Lemma orphan_queue target sig : preserves orphan (queueSignal c target sig).
Proof. unfold queueSignal. preserve. Qed.
Lemma orphan_seal msg : preserves orphan (store_and_seal c msg).
Proof. unfold store_and_seal. preserve. Qed.

Lemma orphan_send msg : preserves orphan (sendMessageToPeer c k msg).
Proof.
  intros x Hx. change (wp (sendMessageToPeer c k msg) (λ _, orphan) x). unfold sendMessageToPeer. apply wp_bind.
  eapply wp_conseq; [by apply (preserves_wp orphan); [apply orphan_seal|]|]. intros [sig|e|p] x1 H1; [|done..].
  apply wp_bind, wp_gets. destruct H1 as [Hs Hk]. rewrite Hk. by apply (preserves_wp orphan); [apply orphan_queue|].
Qed.
End Orphan.

(** Cleaning up one session leaves the others alone. *)
Lemma cleanup_other `{P : Platform} {E : Env} (k : Key) (old new : nat) (sn : Session) :
  new ≠ old → preserves (λ x, heap x !! new = Some sn) (cleanup old k).
Proof.
  intros Hne.
  assert (∀ A (m : M SW A), preserves (λ x, heap x !! new = Some sn) (on_store m)) as Hst.
  { intros A m x Hx. unfold on_store, zoom. by destruct (m (cw_store x)). }
  assert (∀ A (m : M SS A), preserves (λ x, heap x !! new = Some sn) (on_session old m)) as Hse.
  { intros A m x Hx. unfold on_session. destruct (heap x !! old); [|done]. destruct (m _). cbn.
    by rewrite list_lookup_insert_ne. }
  assert (preserves (λ x, heap x !! new = Some sn) (modify (set_sessions (delete k)))) as Hmo by by apply preserves_modify.
  unfold cleanup, seen_now. preserve.
Qed.

(** C37: A read loop that ends after its peer came back unlinks the peer's new
    session, because it deletes by key: the new session is untouched, live and
    unreachable: no message sent to the peer changes it. *)
Theorem late_cleanup `{P : Platform} {E : Env} {PL : PlatformLaws P} (c : Client) (k : Key)
    (old new : nat) (so sn : Session) (conn : Conn) (x : CW) :
  heap x !! old = Some so → s_conn so = Some conn → peerPubKey so = k →
  sessions x !! k = Some new → new ≠ old → heap x !! new = Some sn →
  let x' := (handle c (EvClosed old) x).2 in
  sessions x' = delete k (sessions x) ∧ heap x' !! new = Some sn ∧
  (∃ so', heap x' !! old = Some so' ∧ closed so') ∧
  ∀ msg, heap (sendMessageToPeer c k msg x').2 !! new = Some sn.
Proof.
  intros Ho Hc Hp Hk Hne Hn x'. subst x'. unfold handle. rewrite bind_run.
  rewrite (sess_gets_run old peerPubKey x so Ho), Hp.
  destruct (cleanup_wp (length (c_in conn)) old k x) as (_ & Hs & Hcl); [exists so; split; [done|]; by exists conn|].
  pose proof (cleanup_other k old new sn Hne x Hn) as Hn'. cbn beta in Hn'.
  destruct (cleanup old k x) as [o x']. cbn [fst snd] in *. repeat (split; [done|]). intros msg.
  assert (orphan k new sn x') as Hor by (split; [done|]; rewrite Hs; apply lookup_delete_eq).
  exact (proj1 (orphan_send c k new sn msg x' Hor)).
Qed.

(** ** Reconnecting *)

Section Reconnect.
Context {P : Platform} {E : Env} (c : Client) (addr : gostring).

(** The state after attempts that all ended in a disconnection. *)
Fixpoint disconnected (l : list (dial_result * list chat_step)) (x : CW) : option CW :=
  match l with
  | [] => Some x
  | (dial, steps) :: l' =>
      match connectAndChat c addr dial steps x with
      | (Ret (Some _), x') => disconnected l' x'
      | _ => None
      end
  end.

Lemma ConnectToPeer_app l rest x x' :
  disconnected l x = Some x' → ConnectToPeer c addr (l ++ rest) x = ConnectToPeer c addr rest x'.
Proof.
  revert x. induction l as [|[d steps] l IH]; intros x; cbn; [by intros [= ->]|].
  rewrite bind_run. unfold attempt. destruct (connectAndChat c addr d steps x) as [[[e|]|e|p] x1]; [|done..].
  apply IH.
Qed.

(** C38: [ConnectToPeer] goes on for as long as its connections break after they
    were made, and ends for good with the first that is not made: a peer that
    is away two seconds after a disconnection, or still holds the old session,
    is never tried again, whatever later dials would give. *)
Theorem reconnect_gives_up (l rest : list (dial_result * list chat_step)) (x x' : CW) :
  disconnected l x = Some x' →
  ConnectToPeer c addr (l ++ rest) x = ConnectToPeer c addr rest x' ∧
  ∀ d steps, d = DialFailed ∨ d = DialConflict →
    ConnectToPeer c addr (l ++ (d, steps) :: rest) x = (Ret true, x').
Proof.
  intros Hl. split; [by apply ConnectToPeer_app|]. intros d steps Hd.
  rewrite (ConnectToPeer_app l _ x x' Hl). by destruct Hd as [-> | ->].
Qed.
End Reconnect.

(** ** Instances *)

Section Witnesses.
Let cl : Client := MkClient (keys_of_seed (C:=toy_crypto) (vec_to_list (array_of 32 (lit "alice"))))
  DefaultTimeout DefaultRateLimit DefaultRateWindow MaxMessageSize.
Let bob_keys : Keys := keys_of_seed (C:=toy_crypto) (vec_to_list (array_of 32 (lit "bob"))).
Let bob : Key := Public bob_keys.
Let bare : Session := newSession (MkConn [] [] false 0) (lit "bob") bob_keys DefaultTimeout 100 Minute 0.
Let hello : bytes := kx_frame (P:=toy_platform) bare (pub_of (P:=toy_platform) (vec_to_list (array_of 32 (lit "e")))).
Let dialed : dial_result := Dialed (MkConn [hello] [] false 0).
Let here : gostring := lit "bob.example:8080".

Let steps : list chat_step := [Typed (lit "hi"); Receive].

(** Bob's first session, over, and his second, in use. *)
Let over : Session := set_peer (MkPeerInfo (lit "bob") NilKey bob) bare.
Let live : Session := set_sendr (MkCipher (Some (zeros 32)) 7) over.
Let twice : CW := MkCW empty_SW [over; live] (<[bob := 1]> ∅) ∅.

Lemma late_cleanup_witness :
  let x' := (handle (P:=toy_platform) (E:=toy_env) cl (EvClosed 0) twice).2 in
  sessions x' = delete bob (sessions twice) ∧ heap x' !! 1 = Some live ∧
  (∃ so', heap x' !! 0 = Some so' ∧ closed so') ∧
  ∀ msg, heap (sendMessageToPeer (P:=toy_platform) (E:=toy_env) cl bob msg x').2 !! 1 = Some live.
Proof.
  apply (late_cleanup (P:=toy_platform) (E:=toy_env) (PL:=toy_platform_laws) cl bob 0 1 over live
    (MkConn [] [] false 0) twice); [reflexivity..|apply lookup_insert_eq|discriminate|reflexivity].
Defined.

Lemma reconnect_gives_up_witness :
  ∃ x', disconnected (P:=toy_platform) (E:=toy_env) cl here [(dialed, steps)] initial = Some x' ∧
    ConnectToPeer (P:=toy_platform) (E:=toy_env) cl here [(dialed, steps); (DialFailed, []); (dialed, steps)] initial
      = (Ret true, x').
Proof.
  assert (match disconnected (P:=toy_platform) (E:=toy_env) cl here [(dialed, steps)] initial with
    Some _ => true | None => false end = true) as H.
  { vm_compute. reflexivity. }
  destruct (disconnected (P:=toy_platform) (E:=toy_env) cl here [(dialed, steps)] initial) as [x'|] eqn:Ex; [|done].
  exists x'. split; [done|].
  exact (proj2 (reconnect_gives_up (P:=toy_platform) (E:=toy_env) cl here [(dialed, steps)] [(dialed, steps)] initial x' Ex)
    DialFailed [] (or_introl eq_refl)).
Defined.
End Witnesses.
