(* ===== verification/Security.v ===== *)
(** * What peers can and cannot do

    Access control of the handlers in client/client.go, client/api.go and
    client/routes.go: what a peer that was not accepted can change, who may
    delete and update a message, who may use the HTTP interface; and the
    places where the code lets a peer do more than intended. *)

From S2P Require Import Prelude Net NetFacts Config Crypto Keys Signal Message Wire RateLimit Base64 Monad Platform.
From S2P Require Import Store MessageStore StoreFacts Tables Session SessionFacts Client Handlers ClientFacts Delivery Api Reach.

(** ** Frames: what an operation leaves alone *)

Section Frames.
Context {P : Platform} {E : Env} (c : Client).
Variables (d0 : DB) (ca0 : gmap gostring gostring) (pf0 : gmap UUID pendingFile).

(** Messages, their index and cache, the outbox, the profile and the pending
    transfers are those of a given state. *)
Definition quiet_store (w : SW) : Prop :=
  chats (db w) = chats d0 ∧ chat_search (db w) = chat_search d0 ∧ outbox (db w) = outbox d0 ∧
  profile (db w) = profile d0 ∧ cache w = ca0.
Definition quiet (x : CW) : Prop := quiet_store (cw_store x) ∧ pendingFiles x = pf0.

Abbreviation keeps_store m := (preserves quiet_store m).

Lemma quiet_next : keeps_store next.
Proof. by intros w. Qed.
Hint Resolve quiet_next : chat.
Lemma quiet_exec f :
  (∀ d, chats (f d) = chats d ∧ chat_search (f d) = chat_search d ∧ outbox (f d) = outbox d ∧
        profile (f d) = profile d) → keeps_store (db_exec f).
Proof.
  intros Hf. unfold db_exec. apply preserves_bind; [auto with chat|]. intros t.
  case_match; [auto with chat|]. apply preserves_modify. intros w (H1 & H2 & H3 & H4 & H5).
  destruct (Hf (db w)) as (E1 & E2 & E3 & E4). unfold quiet_store. cbn.
  by rewrite E1, E2, E3, E4.
Qed.
Hint Extern 1 (preserves _ (db_exec _)) => apply quiet_exec; by intros : chat.
Lemma quiet_query {A} (q : DB → A) : keeps_store (db_query q).
Proof. unfold db_query. preserve. Qed.
Lemma quiet_now : keeps_store time_Now.
Proof. unfold time_Now. preserve. Qed.
Lemma quiet_uuid : keeps_store uuid_New.
Proof. unfold uuid_New. preserve. Qed.
Hint Resolve quiet_query quiet_now quiet_uuid : chat.
Lemma quiet_encryptRaw k p : keeps_store (encryptRaw k p).
Proof. unfold encryptRaw, rand_nonce. preserve. Qed.
Hint Resolve quiet_encryptRaw : chat.
Lemma quiet_PeerGet k : keeps_store (KnownPeerStore.Get k).
Proof. unfold KnownPeerStore.Get. preserve. Qed.
Lemma quiet_PeerAdd p : keeps_store (KnownPeerStore.Add p).
Proof. unfold KnownPeerStore.Add. preserve. Qed.
Lemma quiet_FilePut k id m d : keeps_store (FileStore.PutWithID k id m d).
Proof. unfold FileStore.PutWithID. preserve. Qed.
Lemma quiet_FileGet k id : keeps_store (FileStore.Get k id).
Proof. unfold FileStore.Get. preserve. Qed.
Lemma quiet_FileDelete id : keeps_store (FileStore.Delete id).
Proof. unfold FileStore.Delete. preserve. Qed.
Lemma quiet_ProfileGet : keeps_store ProfileStore.Get.
Proof. unfold ProfileStore.Get. preserve. Qed.
Hint Resolve quiet_PeerGet quiet_PeerAdd quiet_FilePut quiet_FileGet quiet_FileDelete quiet_ProfileGet : chat.

Lemma quiet_on_store {A} (m : M SW A) : keeps_store m → preserves quiet (on_store m).
Proof.
  intros Hm x [Hs Hp]. unfold on_store, zoom. specialize (Hm _ Hs). by destruct (m (cw_store x)).
Qed.
Hint Resolve quiet_on_store : chat.

(** A call on a session consults the environment and changes the session. *)
Definition quiet_ss (y : SS) : Prop := quiet_store (ss_world y).

Lemma quiet_on_session {A} sid (m : M SS A) : preserves quiet_ss m → preserves quiet (on_session sid m).
Proof.
  intros Hm x [Hs Hp]. unfold on_session. destruct (heap x !! sid) as [s|]; [|done].
  specialize (Hm (MkSS s (cw_store x)) Hs). by destruct (m _).
Qed.

Lemma quiet_on_sess {A} (m : M Session A) : preserves quiet_ss (on_sess m).
Proof. intros [s w] Hw. unfold on_sess, zoom. cbn. by destruct (m s). Qed.
Lemma quiet_net_call : preserves quiet_ss net_call.
Proof.
  intros [s w] Hw. unfold net_call. rewrite bind_run. cbn. by destruct (env_net (tick w)).
Qed.
Lemma quiet_the_conn : preserves quiet_ss the_conn.
Proof. intros y Hy. unfold the_conn, get_state. rewrite bind_run. by destruct (s_conn (ss_sess y)). Qed.
Lemma quiet_upd f : preserves quiet_ss (modify (upd_sess f)).
Proof. by apply preserves_modify. Qed.
Lemma quiet_get_ss : preserves quiet_ss get_state.
Proof. by intros y. Qed.
Hint Resolve quiet_on_session quiet_on_sess quiet_net_call quiet_the_conn quiet_upd quiet_get_ss : chat.

Lemma quiet_send plain : preserves quiet_ss (send plain).
Proof. unfold send, SetWriteDeadline, WriteMessage. preserve. Qed.
Hint Resolve quiet_send : chat.
Lemma quiet_sess_gets {A} sid (f : Session → A) : preserves quiet (sess_gets sid f).
Proof. apply quiet_on_session, preserves_gets. Qed.
Lemma quiet_sess_modify sid f : preserves quiet (sess_modify sid f).
Proof. apply quiet_on_session, quiet_upd. Qed.
Lemma quiet_Load k : preserves quiet (sessions_Load k).
Proof. unfold sessions_Load. preserve. Qed.
Hint Resolve quiet_sess_gets quiet_sess_modify quiet_Load : chat.

Lemma quiet_Info : preserves quiet Info.
Proof. unfold Info. preserve. Qed.
Hint Resolve quiet_Info : chat.
Lemma quiet_request sid : preserves quiet (requestPeerInfo c sid).
Proof. unfold requestPeerInfo. preserve. Qed.
Hint Resolve quiet_request : chat.

Lemma quiet_broadcast payload : preserves quiet (broadcast payload).
Proof.
  unfold broadcast, sessions_Range. apply preserves_bind; [auto with chat|]. intros t.
  apply preserves_bind; [by intros x|]. preserve.
Qed.
Hint Resolve quiet_broadcast : chat.
Lemma quiet_broadcastDelete id : preserves quiet (broadcastDelete c id).
Proof. unfold broadcastDelete. preserve. Qed.
Lemma quiet_broadcastUpdate id content : preserves quiet (broadcastUpdate c id content).
Proof. unfold broadcastUpdate. preserve. Qed.

Lemma quiet_open sig k : open_signal (signal.Type' sig) = true → preserves quiet (handleSignal c sig k).
Proof.
  intros Ht. unfold handleSignal.
  assert (∀ t, open_signal t = false → bool_decide (signal.Type' sig = t) = false) as Hne.
  { intros t Hf. apply bool_decide_false. intros <-. by rewrite Ht in Hf. }
  rewrite !Hne by reflexivity.
  unfold handleInfoRequest, handleInfoResponse, handleInfoChanged, handlePeerAccepted. preserve.
Qed.
End Frames.

(** ** Frames: peers and files *)

(** Which peers and which files may differ from a given database's. *)
Section Rows.
Context {P : Platform} {E : Env} (c : Client).
Variables (B A : gostring → Prop) (d0 : DB).

Definition rows_but (w : SW) : Prop :=
  (∀ j, ¬ B j → known_peers (db w) !! j = known_peers d0 !! j) ∧ (∀ i, ¬ A i → files (db w) !! i = files d0 !! i).
Definition rows_but_at (x : CW) : Prop := rows_but (cw_store x).

Lemma rows_next : preserves rows_but next.
Proof. by intros w. Qed.
Hint Resolve rows_next : chat.
Lemma rows_exec f :
  (∀ d, (∀ j, ¬ B j → known_peers (f d) !! j = known_peers d !! j) ∧ (∀ i, ¬ A i → files (f d) !! i = files d !! i)) →
  preserves rows_but (db_exec f).
Proof.
  intros Hf. unfold db_exec. apply preserves_bind; [auto with chat|]. intros t.
  case_match; [auto with chat|]. apply preserves_modify. intros w [H1 H2]. destruct (Hf (db w)) as [F1 F2].
  split; cbn; intros; [by rewrite F1, H1|by rewrite F2, H2].
Qed.
Lemma rows_query {T} (q : DB → T) : preserves rows_but (db_query q).
Proof. unfold db_query. preserve. Qed.
Lemma rows_now : preserves rows_but time_Now.
Proof. unfold time_Now. preserve. Qed.
Lemma rows_uuid : preserves rows_but uuid_New.
Proof. unfold uuid_New. preserve. Qed.
Hint Resolve rows_query rows_now rows_uuid : chat.
Lemma rows_encryptRaw k p : preserves rows_but (encryptRaw k p).
Proof. unfold encryptRaw, rand_nonce. preserve. Qed.
Hint Resolve rows_encryptRaw : chat.

Lemma rows_PeerGet k : preserves rows_but (KnownPeerStore.Get k).
Proof. unfold KnownPeerStore.Get. preserve. Qed.
Lemma rows_ProfileGet : preserves rows_but ProfileStore.Get.
Proof. unfold ProfileStore.Get. preserve. Qed.
Lemma rows_FileGet k id : preserves rows_but (FileStore.Get k id).
Proof. unfold FileStore.Get. preserve. Qed.
Hint Resolve rows_PeerGet rows_ProfileGet rows_FileGet : chat.
Lemma rows_PeerAdd p : B (Key_String (KnownPeerStore.PubKey p)) → preserves rows_but (KnownPeerStore.Add p).
Proof.
  intros Hp. unfold KnownPeerStore.Add. apply preserves_wrapping, rows_exec. intros d. split; [|done].
  intros j Hj. cbn. rewrite lookup_insert_ne; [done|]. by intros <-.
Qed.
Lemma rows_FilePut k id m data : A (uuid_String id) → preserves rows_but (FileStore.PutWithID k id m data).
Proof.
  intros Hi. unfold FileStore.PutWithID.
  assert (∀ r, preserves rows_but (db_exec (set_files (<[uuid_String id := r]>)))) as Hx.
  { intros r. apply rows_exec. intros d. split; [done|]. intros i Hne. cbn. rewrite lookup_insert_ne; [done|]. by intros <-. }
  preserve.
Qed.
Lemma rows_FileDelete id : A (uuid_String id) → preserves rows_but (FileStore.Delete id).
Proof.
  intros Hi. unfold FileStore.Delete. apply preserves_wrapping, rows_exec. intros d. split; [done|].
  intros i Hne. cbn. rewrite lookup_delete_ne; [done|]. by intros <-.
Qed.

Lemma rows_on_store {T} (m : M SW T) : preserves rows_but m → preserves rows_but_at (on_store m).
Proof. intros Hm x Hx. unfold on_store, zoom. specialize (Hm _ Hx). by destruct (m (cw_store x)). Qed.
Hint Resolve rows_on_store : chat.
Definition rows_but_ss (y : SS) : Prop := rows_but (ss_world y).
Lemma rows_on_session {T} sid (m : M SS T) : preserves rows_but_ss m → preserves rows_but_at (on_session sid m).
Proof.
  intros Hm x Hx. unfold on_session. destruct (heap x !! sid) as [s|]; [|done].
  specialize (Hm (MkSS s (cw_store x)) Hx). by destruct (m _).
Qed.
Lemma rows_on_sess {T} (m : M Session T) : preserves rows_but_ss (on_sess m).
Proof. intros [s w] Hw. unfold on_sess, zoom. cbn. by destruct (m s). Qed.
Lemma rows_net_call : preserves rows_but_ss net_call.
Proof. intros [s w] Hw. unfold net_call. rewrite bind_run. cbn. by destruct (env_net (tick w)). Qed.
Lemma rows_the_conn : preserves rows_but_ss the_conn.
Proof. intros y Hy. unfold the_conn, get_state. rewrite bind_run. by destruct (s_conn (ss_sess y)). Qed.
Lemma rows_upd f : preserves rows_but_ss (modify (upd_sess f)).
Proof. by apply preserves_modify. Qed.
Lemma rows_get_ss : preserves rows_but_ss get_state.
Proof. by intros y. Qed.
Hint Resolve rows_on_session rows_on_sess rows_net_call rows_the_conn rows_upd rows_get_ss : chat.
Lemma rows_send plain : preserves rows_but_ss (send plain).
Proof. unfold send, SetWriteDeadline, WriteMessage. preserve. Qed.
Hint Resolve rows_send : chat.
Lemma rows_Load k : preserves rows_but_at (sessions_Load k).
Proof. unfold sessions_Load. preserve. Qed.
Lemma rows_sess_modify sid f : preserves rows_but_at (sess_modify sid f).
Proof. apply rows_on_session, rows_upd. Qed.
Hint Resolve rows_Load rows_sess_modify : chat.
Lemma rows_request sid : preserves rows_but_at (requestPeerInfo c sid).
Proof. unfold requestPeerInfo. preserve. Qed.
Hint Resolve rows_request : chat.
Lemma rows_Info : preserves rows_but_at Info.
Proof. unfold Info. preserve. Qed.
Hint Resolve rows_Info : chat.
Lemma rows_handleInfoRequest k : preserves rows_but_at (handleInfoRequest c k).
Proof. unfold handleInfoRequest. preserve. Qed.
Lemma rows_handleInfoChanged k : preserves rows_but_at (handleInfoChanged c k).
Proof. unfold handleInfoChanged. preserve. Qed.
End Rows.

Section Gate.
Context {P : Platform} {E : Env} {PL : PlatformLaws P} (c : Client).

(** The pictures a peer's answer may write and delete: one under a fresh id, and
    the one the peer has. *)
Definition picture (k : Key) (d : DB) (i : gostring) : Prop :=
  (∃ t, i = uuid_String (env_uuid t)) ∨ ∃ p, peer_view d k = Some p ∧ i = uuid_String (KnownPeerStore.ProfilePic p).

(** The files of transfers that are under way. *)
Definition transfer (pfs : gmap UUID pendingFile) (i : gostring) : Prop :=
  ∃ u pf, pfs !! u = Some pf ∧ (i = uuid_String u ∨ u = NilUUID ∧ ∃ t, i = uuid_String (env_uuid t)).

Abbreviation rows k d0 := (rows_but_at (eq (Key_String k)) (picture k d0) d0).

Lemma rows_refl B A x : rows_but_at B A (db (cw_store x)) x.
Proof. by split. Qed.

Lemma PeerAdd_rows k d0 p x :
  KnownPeerStore.PubKey p = k → rows k d0 x → wp (ignore (on_store (KnownPeerStore.Add p))) (λ _ x', rows k d0 x') x.
Proof.
  intros Hp Hx. apply (preserves_wp (rows k d0)); [|done].
  apply preserves_ignore, rows_on_store, rows_PeerAdd. by rewrite Hp.
Qed.

Lemma handlePeerAccepted_rows k x : wp (handlePeerAccepted k) (λ _ x', rows k (db (cw_store x)) x') x.
Proof.
  unfold handlePeerAccepted. apply wp_bind, wp_attempt.
  eapply wp_conseq; [apply on_store_wp, (PeerGet_wp k)|]. intros o x1 [[[Hd _] Ho] Hx1].
  assert (rows k (db (cw_store x)) x1) as H1 by (rewrite <-Hd; apply rows_refl).
  destruct o as [p|e|p]; [|by apply wp_ret|done]. apply wp_bind.
  eapply wp_conseq; [apply (PeerAdd_rows k (db (cw_store x))); [by eapply peer_view_key in Ho|done]|].
  intros [[]|e|q] x2 H2; [|done..]. apply (preserves_wp (rows k (db (cw_store x)))); [|done].
  pose proof (rows_Load (eq (Key_String k)) (picture k (db (cw_store x))) (db (cw_store x)) k).
  pose proof (λ sid, rows_sess_modify (eq (Key_String k)) (picture k (db (cw_store x))) (db (cw_store x)) sid (setStatus Accepted)).
  preserve.
Qed.

Lemma handleInfoResponse_rows k content x : wp (handleInfoResponse c k content) (λ _ x', rows k (db (cw_store x)) x') x.
Proof.
  set (d0 := db (cw_store x)). pose proof (rows_refl (eq (Key_String k)) (picture k d0) x) as H0. fold d0 in H0.
  unfold handleInfoResponse. apply wp_bind, wp_attempt, wp_lift.
  destruct (decodeInfoResponse content) as [resp|e|p]; [|by apply wp_ret|done].
  destruct (_ && _); [by apply wp_ret|]. apply wp_bind, wp_attempt.
  eapply wp_conseq; [apply on_store_wp, (PeerGet_wp k)|]. intros o x1 [[[Hd _] Ho] Hx1].
  assert (rows k d0 x1) as H1 by (unfold d0; rewrite <-Hd; apply rows_refl).
  destruct o as [peer|e|p]; [|by apply wp_ret|done]. pose proof (peer_view_key _ _ _ Ho) as Hkey.
  apply wp_bind. eapply (wp_conseq _ (λ _, rows k d0)).
  - destruct (_ >? _)%Z; [|by apply wp_ret]. apply wp_bind. eapply wp_conseq; [apply on_store_wp, uuid_New_wp|].
    intros ? x2 [[[Hd2 _] ->] Hx2]. assert (rows k d0 x2) as H2 by (unfold rows_but_at, rows_but; by rewrite Hd2).
    apply (preserves_wp (rows k d0)); [|done].
    pose proof (rows_on_store (eq (Key_String k)) (picture k d0) d0 _
      (rows_FilePut (eq (Key_String k)) (picture k d0) d0 (priv c) (env_uuid (tick (cw_store x1))) [] (ir_ProfilePic resp)
        (or_introl (ex_intro _ (tick (cw_store x1)) eq_refl)))).
    pose proof (rows_on_store (eq (Key_String k)) (picture k d0) d0 _
      (rows_FileDelete (eq (Key_String k)) (picture k d0) d0 (KnownPeerStore.ProfilePic peer)
        (or_intror (ex_intro _ peer (conj Ho eq_refl))))).
    preserve.
  - intros [[newID|]|e|p] x2 H2; [|by apply wp_ret|done..]. cbv zeta.
    apply PeerAdd_rows; [|done]. by do 2 case_bool_decide.
Qed.

Lemma handleSignal_rows sig k x :
  open_signal (signal.Type' sig) = true → wp (handleSignal c sig k) (λ _ x', rows k (db (cw_store x)) x') x.
Proof.
  intros Ht. unfold handleSignal.
  assert (∀ t, open_signal t = false → bool_decide (signal.Type' sig = t) = false) as Hne.
  { intros t Hf. apply bool_decide_false. intros <-. by rewrite Ht in Hf. }
  rewrite !Hne by reflexivity. pose proof (rows_refl (eq (Key_String k)) (picture k (db (cw_store x))) x) as H0.
  case_bool_decide; [by apply (preserves_wp (rows k (db (cw_store x)))); [apply rows_handleInfoRequest|]|].
  case_bool_decide; [apply handleInfoResponse_rows|].
  case_bool_decide; [by apply (preserves_wp (rows k (db (cw_store x)))); [apply rows_handleInfoChanged|]|].
  case_bool_decide; [apply handlePeerAccepted_rows|by apply wp_ret].
Qed.

(** A chunk goes to a transfer that was announced, or nowhere. *)
Definition chunk_post (x x' : CW) : Prop :=
  quiet_store (db (cw_store x)) (cache (cw_store x)) (cw_store x') ∧
  rows_but_at (λ _, False) (transfer (pendingFiles x)) (db (cw_store x)) x' ∧
  ∀ u, pendingFiles x !! u = None → pendingFiles x' !! u = None.

Lemma handleFileChunk_post plain x : wp (handleFileChunk c plain) (λ _ x', chunk_post x x') x.
Proof.
  assert (chunk_post x x) as H0 by (split; [by repeat split|split; [apply rows_refl|done]]).
  unfold handleFileChunk. destruct (len plain <? FileIDLen)%Z; [by apply wp_ret|].
  apply wp_bind, wp_lift. destruct (slice plain 0 FileIDLen) as [idb|e|p]; [|done..].
  apply wp_bind, wp_lift. destruct (slice_from plain FileIDLen) as [data|e|p]; [|done..].
  apply wp_bind, wp_gets. set (id := array_of 16 idb). destruct (pendingFiles x !! id) as [pf|] eqn:Hp; [|by apply wp_ret].
  cbv zeta. apply wp_bind, wp_modify. set (pf' := MkPending _ _ _). set (x1 := set_pending _ x).
  assert (chunk_post x x1) as H1.
  { split; [by repeat split|]. split; [by split|]. intros u Hu. cbn. rewrite lookup_insert_ne; [done|]. intros <-. congruence. }
  destruct (_ >=? _)%Z; cbn [when]; [|by apply wp_ret]. unfold finalizeFile. apply wp_bind, wp_ignore.
  eapply (wp_conseq _ (λ o y, chunk_post x y)).
  - apply (preserves_wp (λ y, chunk_post x y)); [|done]. intros y (Hq & Hr & Hpf).
    set (att := message.MkAttachment _ _ _ _ _).
    assert (∀ u, u = id ∨ id = NilUUID ∧ (∃ t, u = env_uuid t) → transfer (pendingFiles x) (uuid_String u)) as Hu.
    { intros u [->|[Hid [t ->]]]; exists id, pf; (split; [done|]); [by left|right]; split; [done|by exists t]. }
    unfold on_store, zoom.
    assert (wp (msgstore.StoreAttachments (priv c) [] [att]) (λ _ w', quiet_store (db (cw_store x)) (cache (cw_store x)) w' ∧
      rows_but (λ _, False) (transfer (pendingFiles x)) (db (cw_store x)) w') (cw_store y)) as Hw.
    { cbn [msgstore.StoreAttachments]. destruct (len (message.Data att) =? 0)%Z; [by apply wp_bind, wp_ret, wp_ret|].
      apply wp_bind. eapply (wp_conseq _ (λ o w', (quiet_store (db (cw_store x)) (cache (cw_store x)) w' ∧
        rows_but (λ _, False) (transfer (pendingFiles x)) (db (cw_store x)) w') ∧
        ∃ u, o = Ret u ∧ transfer (pendingFiles x) (uuid_String u))).
      - change (message.AttID att) with id. case_bool_decide as Hid.
        + eapply wp_conseq; [apply uuid_New_wp|]. intros ? w1 [[Hd1 Hc1] ->].
          split; [unfold quiet_store, rows_but; by rewrite Hd1, Hc1|]. eexists. split; [done|]. apply Hu. right. split; [done|]. by eexists.
        + apply wp_ret. split; [done|]. exists id. split; [done|]. apply Hu. by left.
      - intros ? w1 [Hw1 (u & -> & Hut)].
        apply (preserves_wp (λ w, quiet_store (db (cw_store x)) (cache (cw_store x)) w ∧
          rows_but (λ _, False) (transfer (pendingFiles x)) (db (cw_store x)) w)); [|done].
        assert (preserves (λ w, quiet_store (db (cw_store x)) (cache (cw_store x)) w ∧
          rows_but (λ _, False) (transfer (pendingFiles x)) (db (cw_store x)) w) (FileStore.PutWithID (priv c) u [] (message.Data att))).
        { intros w [Ha Hb]. split; [by apply quiet_FilePut|by apply rows_FilePut]. }
        preserve. }
    unfold wp in Hw. destruct (msgstore.StoreAttachments _ _ _ _) as [o w']. destruct Hw as [H2 H3]. cbn. by split; [|split].
  - intros o y Hy. destruct o as [l|e|q]; [| |done]; apply wp_modify; destruct Hy as (Ha & Hb & Hc);
      (split; [done|]); (split; [done|]); intros u Hu; cbn; (destruct (decide (u = id)) as [->|Hne];
        [by rewrite lookup_delete_eq|rewrite lookup_delete_ne by done; by apply Hc]).
Qed.

(** C16: What a peer that was not accepted can change, by any frame at all. It
    cannot store, delete, change or index a message or touch the outbox, the
    profile and the cache. By a signal it changes nothing but its own row among
    the known peers, and its picture: one file under a fresh id, and the file
    its picture was before. By any other frame it changes no peer, announces
    no transfer, and writes no file but one whose transfer was announced (by
    whomever: the code does not ask whose chunk it is). *)
Theorem unaccepted_gate (plain : bytes) (sid : nat) (k : Key) (x : CW) (s : Session) :
  heap x !! sid = Some s → status s ≠ Accepted →
  let x' := (handleDecrypted c plain sid k x).2 in let d := db (cw_store x) in let d' := db (cw_store x') in
  quiet_store d (cache (cw_store x)) (cw_store x') ∧
  (head plain = Some signal.Marker →
    pendingFiles x' = pendingFiles x ∧
    (∀ j, j ≠ Key_String k → known_peers d' !! j = known_peers d !! j) ∧
    ∀ i, ¬ picture k d i → files d' !! i = files d !! i) ∧
  (head plain ≠ Some signal.Marker →
    known_peers d' = known_peers d ∧
    (∀ u, pendingFiles x !! u = None → pendingFiles x' !! u = None) ∧
    ∀ i, ¬ transfer (pendingFiles x) i → files d' !! i = files d !! i).
Proof.
  intros Hs Hst x' d d'.
  assert (quiet d (cache (cw_store x)) (pendingFiles x) x ∧ rows k d x) as [Hq0 Hr0] by (split; [by repeat split|apply rows_refl]).
  assert (quiet d (cache (cw_store x)) (pendingFiles x) x' ∧ rows k d x' ∨
    head plain ≠ Some signal.Marker ∧ chunk_post x x') as [[[Hq Hp] [Hk Hf]]|(Hm & Hq & [Hk Hf] & Hp)].
  - subst x'. destruct plain as [|b rest]; [by left|]. cbn [handleDecrypted head]. case_bool_decide as Hb.
    2: { right. split; [by intros [=]|]. apply handleFileChunk_post. }
    subst b. left. unfold attempt, lift. rewrite bind_run.
    destruct (signal.Parse (signal.Marker :: rest)) as [sig|e|p]; [|done..].
    rewrite (bind_ret_run _ _ x x (status s)) by by apply sess_gets_run.
    rewrite bool_decide_false by done. cbn [negb].
    destruct (open_signal (signal.Type' sig)) eqn:Ht; [|done].
    split; [by apply (quiet_open c)|by apply handleSignal_rows].
  - split; [done|]. split; [|intros Hm].
    + intros _. split; [done|]. split; [|exact Hf]. intros j Hj. apply Hk. by intros <-.
    + subst d' x'. destruct plain as [|b rest]; [by split|]. cbn [handleDecrypted head] in *.
      assert (b ≠ signal.Marker) as Hb by congruence. rewrite bool_decide_false by done.
      destruct (handleFileChunk_post rest x) as (_ & [Hk' Hf'] & Hp'). split; [|done]. apply map_eq. intros j. exact (Hk' j (λ f, f)).
  - split; [done|]. split; [done|]. intros _. split; [|done]. apply map_eq. intros j. exact (Hk j (λ f, f)).
Qed.
End Gate.

(** ** Who may delete and update a message *)

Section Authors.
Context {P : Platform} {E : Env} {PL : PlatformLaws P} (c : Client).

(** The messages a client holds. *)
Definition view (x : CW) (id : UUID) : option message.Message := msg_view (priv c) (db (cw_store x)) id.

Lemma view_db x x' id : chats (db (cw_store x')) = chats (db (cw_store x)) → view x' id = view x id.
Proof. apply msg_view_chats. Qed.

(** Only [id] may change, only if it is [k]'s message, and it stays [k]'s. *)
Definition only_own (k : Key) (id : UUID) (x x' : CW) : Prop :=
  ∀ i, view x' i = view x i ∨
    (i = id ∧ (∃ m, view x i = Some m ∧ message.FromPubKey m = k) ∧
     ∀ m', view x' i = Some m' → message.FromPubKey m' = k).

Lemma only_own_same k id x x' : chats (db (cw_store x')) = chats (db (cw_store x)) → only_own k id x x'.
Proof. intros Hc i. left. by apply view_db. Qed.

(** From a state [x1] that holds the same messages as [x]. *)
Lemma delete_own k id x x1 m :
  client_inv c x1 → db (cw_store x1) = db (cw_store x) → view x id = Some m → message.FromPubKey m = k →
  only_own k id x (on_store (msgstore.Delete (priv c) id) x1).2.
Proof.
  intros (Hs & _) Hd Hv Hm. unfold on_store, zoom, only_own, view in *. rewrite <-Hd in *.
  destruct (Delete_wp (priv c) id (cw_store x1) Hs) as (_ & _ & _ & Ho).
  destruct (msgstore.Delete (priv c) id (cw_store x1)) as [[[]|e|p] w]; cbn in *; [| |done].
  - destruct Ho as (_ & Hdel & _). intros i. rewrite Hdel. destruct (decide (i = id)) as [->|]; [right|by left].
    split; [done|]. split; [by eauto|done].
  - intros i. left. apply msg_view_chats. apply Ho.
Qed.

Lemma update_own k id name content x x1 m :
  client_inv c x1 → db (cw_store x1) = db (cw_store x) → view x id = Some m → message.FromPubKey m = k →
  only_own k id x (on_store (msgstore.Update (priv c) id name (set_Content content m)) x1).2.
Proof.
  intros (Hs & _) Hd Hv Hm. unfold on_store, zoom, only_own, view in *. rewrite <-Hd in *.
  assert (sizes_ok (set_Content content m)) as Hsz by by apply msg_view_sizes in Hv.
  destruct (Update_wp (priv c) id name (set_Content content m) (cw_store x1) Hs Hsz) as (_ & _ & _ & Ho).
  destruct (msgstore.Update (priv c) id name (set_Content content m) (cw_store x1)) as [[[]|e|p] w]; cbn in *.
  - destruct Ho as (_ & _ & cr & t & _ & Hu). intros i. rewrite Hu.
    destruct (decide (i = id)) as [->|]; [right|by left]. split; [done|]. split; [by eauto|].
    intros m' [= <-]. done.
  - intros i. left. by rewrite (proj1 Ho).
  - intros i. left. by rewrite (proj1 Ho).
Qed.

Lemma verifyAndDelete_own sig k x :
  client_inv c x → only_own k (signal.ID sig) x (verifyAndDelete c sig k x).2.
Proof.
  intros Hx. destruct (verifyAuthor_wp c 0 (signal.ID sig) k x Hx) as (H1 & Hd & Ho).
  unfold verifyAndDelete. rewrite bind_run.
  destruct (verifyAuthor c (signal.ID sig) k x) as [[m|e|p] x1]; cbn in *.
  - destruct Ho as (Hv & Hm & _). rewrite wrapping_state. by apply (delete_own k _ x x1 m).
  - apply only_own_same. by rewrite Hd.
  - done.
Qed.

Lemma next_db d : preserves (λ w, db w = d) next.
Proof. by intros w. Qed.
Lemma query_db {A} d (q : DB → A) : preserves (λ w, db w = d) (db_query q).
Proof. pose proof next_db. unfold db_query. preserve. Qed.
Lemma on_store_db {A} d (m : M SW A) :
  preserves (λ w, db w = d) m → preserves (λ x, db (cw_store x) = d) (on_store m).
Proof. intros Hm x Hx. unfold on_store, zoom. specialize (Hm _ Hx). by destruct (m (cw_store x)). Qed.

Lemma getName_db x : db (cw_store (getName x).2) = db (cw_store x).
Proof.
  assert (preserves (λ y, db (cw_store y) = db (cw_store x)) getName) as H; [|by apply H].
  unfold getName, Info. apply preserves_bind; [|preserve].
  apply preserves_bind; [|preserve]. apply preserves_attempt, on_store_db.
  pose proof @query_db. unfold ProfileStore.Get. preserve.
Qed.

Lemma verifyAndUpdate_own sig k x :
  client_inv c x → only_own k (signal.ID sig) x (verifyAndUpdate c sig k x).2.
Proof.
  intros Hx. destruct (verifyAuthor_wp c 0 (signal.ID sig) k x Hx) as (H1 & Hd & Ho).
  unfold verifyAndUpdate. rewrite bind_run.
  destruct (verifyAuthor c (signal.ID sig) k x) as [[m|e|p] x1]; cbn in *; [|apply only_own_same; by rewrite Hd|done].
  rewrite bind_run. pose proof (getName_inv c 0 x1 H1) as H2. pose proof (getName_db x1) as Hd2.
  destruct (getName x1) as [[nm|e|p] x2]; cbn in *; [|apply only_own_same; by rewrite Hd2, Hd..].
  rewrite wrapping_state. apply (update_own k _ _ _ x x2 m); [done|by rewrite Hd2, Hd|apply Ho|apply Ho].
Qed.

(** C17: A delete or update signal changes at most the message it names, only if
    the sender's authenticated key is that message's author, and an update does
    not change the author. *)
Theorem author_only (sig : signal.Signal) (k : Key) (x : CW) :
  client_inv c x → signal.Type' sig = signal.Delete ∨ signal.Type' sig = signal.Update →
  only_own k (signal.ID sig) x (handleSignal c sig k x).2.
Proof.
  intros Hx Ht. assert (∀ t, signal.Type' sig ≠ t → bool_decide (signal.Type' sig = t) = false) as Hne
    by (intros; by apply bool_decide_false).
  unfold handleSignal. destruct Ht as [Ht|Ht]; rewrite Ht.
  - rewrite (bool_decide_false (signal.Delete = signal.Message)), (bool_decide_false (signal.Delete = signal.FileMeta)),
      (bool_decide_true (signal.Delete = signal.Delete)) by done.
    case_bool_decide; [by apply only_own_same|]. rewrite ignore_state. by apply verifyAndDelete_own.
  - rewrite (bool_decide_false (signal.Update = signal.Message)), (bool_decide_false (signal.Update = signal.FileMeta)),
      (bool_decide_false (signal.Update = signal.Delete)), (bool_decide_true (signal.Update = signal.Update)) by done.
    case_bool_decide; [by apply only_own_same|]. rewrite ignore_state. by apply verifyAndUpdate_own.
Qed.
End Authors.

(** ** What a received message replaces *)

Section Receive.
Context {P : Platform} {E : Env} {PL : PlatformLaws P} (c : Client).

(** A message signal stores the message under the id its content carries,
    with the sender's authenticated key as author. Whatever message was under
    that id, whoever its author, is replaced, and no other message changes. *)
Theorem message_overwrites (sig : signal.Signal) (k : Key) (m : message.Message) (x : CW) :
  no_faults E → client_inv c x →
  signal.Type' sig = signal.Message → signal.From sig = k →
  message.ToMessage (signal.Content sig) = Ret m → message.MsgID m ≠ NilUUID →
  wp (handleSignal c sig k) (λ o x', o = Ret tt ∧
    view c x' (message.MsgID m) = Some (set_FromPubKey k m) ∧
    ∀ id, id ≠ message.MsgID m → view c x' id = view c x id) x.
Proof.
  intros Hn (Hs & _) Ht Hf Hm Hid. eapply wp_conseq; [by apply handleSignal_message_wp|].
  intros o x' (-> & _ & Hv & _). split; [done|]. unfold view. split; [|intros id Hne]; rewrite Hv.
  - by rewrite decide_True.
  - by rewrite decide_False.
Qed.

(** ** Acceptance *)

(** A pending peer can accept itself: a [peer_accepted] signal, which any
    connected peer may send, makes both the session and the stored peer
    accepted, without the user. *)
Theorem peer_accepts_itself (sig : signal.Signal) (sid : nat) (k : Key) (s : Session)
    (p : KnownPeerStore.KnownPeer) (x : CW) :
  no_faults E → signal.fits sig → signal.Type' sig = signal.PeerAccepted →
  heap x !! sid = Some s → status s = Pending → sessions x !! k = Some sid →
  peer_view (db (cw_store x)) k = Some p →
  wp (handleDecrypted c (signal.layout sig) sid k) (λ o x', o = Ret tt ∧
    heap x' !! sid = Some (setStatus Accepted s) ∧
    KnownPeerStore.Status <$> peer_view (db (cw_store x')) k = Some Accepted) x.
Proof.
  intros Hn Hfit Ht Hs Hst Hk Hp. unfold handleDecrypted.
  assert (∃ rest, signal.layout sig = signal.Marker :: rest) as [rest Er] by by eexists.
  rewrite Er. cbv beta iota. rewrite bool_decide_true by done. rewrite <-Er. clear Er rest.
  apply wp_bind, wp_attempt, wp_lift.
  rewrite <-(app_nil_r (signal.layout sig)), (signal.Parse_layout sig []) by done.
  apply wp_bind. unfold wp at 1. rewrite (sess_gets_run sid status x s Hs). cbn [fst snd].
  rewrite Hst. rewrite bool_decide_false by done. cbn [negb]. rewrite Ht.
  change (open_signal signal.PeerAccepted) with true. cbv iota.
  unfold handleSignal. rewrite Ht.
  repeat (rewrite bool_decide_false by done). rewrite bool_decide_true by done.
  unfold handlePeerAccepted.
  apply wp_bind, wp_attempt. eapply wp_conseq; [apply on_store_wp, PeerGet_wp|].
  intros o1 x1 [[[Hd1 _] Ho1] Hx1]. destruct o1 as [p'|e|q]; [|exfalso; destruct Ho1 as [Ho1 _]; specialize (Ho1 Hn); by rewrite Hp in Ho1|done].
  rewrite Hp in Ho1. simplify_eq. apply peer_view_key in Hp as Hpk.
  apply wp_bind, wp_ignore. eapply wp_conseq; [apply on_store_wp, PeerAdd_wp|].
  intros o2 x2 [(_ & _ & Ho2) Hx2]. destruct o2 as [[]|e|q]; [|by destruct Ho2|done].
  assert (heap x2 = heap x ∧ sessions x2 = sessions x) as [Hh Hse] by (rewrite Hx2, Hx1; done).
  apply wp_bind. unfold wp at 1, sessions_Load, gets. cbn [fst snd]. rewrite Hse, Hk.
  unfold wp. rewrite (sess_modify_run sid _ x2 s) by by rewrite Hh. cbn [fst snd]. split; [done|]. split.
  - apply list_lookup_insert_eq. rewrite Hh. by eapply lookup_lt_Some.
  - change (cw_store (set_heap _ x2)) with (cw_store x2).
    by rewrite Ho2, peer_view_insert, decide_True by by rewrite <-Hpk.
Qed.
End Receive.

(** ** The HTTP interface *)

Section Http.
Context {P : Platform} {E : Env} (c : Client).

Definition is_local (remoteAddr : gostring) : bool :=
  match net_SplitHostPort remoteAddr with
  | Ret (host, _) => negb (bool_decide (net_ParseIP host = [])) && net_IsLoopback (net_ParseIP host)
  | _ => false
  end.

Lemma localhost_guard_run (r : request) (remoteAddr : gostring) (x : CW) :
  if is_local remoteAddr
  then registerRoutes c r remoteAddr (MkAS x no_response) = handler c r (MkAS x no_response)
  else ∃ code body, (code = 400 ∨ code = 403)%Z ∧
    registerRoutes c r remoteAddr (MkAS x no_response) = (Ret tt, MkAS x (MkResponse (Some code) [body])).
Proof.
  unfold is_local, registerRoutes, localhostOnly.
  destruct (net_SplitHostPort remoteAddr) as [[host port]|e|p].
  - destruct (bool_decide (net_ParseIP host = [])); [eexists _, _; split; [by right|done]|].
    destruct (net_IsLoopback (net_ParseIP host)); [done|]. eexists _, _. split; [by right|done].
  - eexists _, _. split; [by left|done].
  - eexists _, _. split; [by left|done].
Qed.

(** An address of the caller that is a loopback one. *)
Definition from_loopback (remoteAddr : gostring) : Prop :=
  ∃ host port, net_SplitHostPort remoteAddr = Ret (host, port) ∧ loopback (net_ParseIP host).

Lemma is_local_spec remoteAddr : is_local remoteAddr = true ↔ from_loopback remoteAddr.
Proof.
  unfold is_local, from_loopback. destruct (net_SplitHostPort remoteAddr) as [[host port]|e|p].
  2,3: by split; [|intros (? & ? & ? & _)].
  transitivity (loopback (net_ParseIP host)).
  2:{ split; [by eauto|]. by intros (? & ? & [= <- <-] & ?). }
  destruct (ParseIP_cases host) as [->|Hl].
  - split; [done|]. by intros [|(? & ? & ? & ?)].
  - rewrite bool_decide_false by by intros E0; rewrite E0 in Hl. by apply IsLoopback_spec.
Qed.

(** C22: Every route is guarded: a request whose remote address is a loopback
    one gets to its handler, any other is answered 400 or 403 and has no effect
    at all. The address the server reports for a caller, whatever its IP, is a
    loopback one exactly when the caller's IP is ::1 or an IPv4 address that
    starts with 127. *)
Theorem localhost_guard (r : request) (remoteAddr : gostring) (x : CW) :
  (from_loopback remoteAddr →
    registerRoutes c r remoteAddr (MkAS x no_response) = handler c r (MkAS x no_response)) ∧
  (¬ from_loopback remoteAddr → ∃ code body, (code = 400 ∨ code = 403)%Z ∧
    registerRoutes c r remoteAddr (MkAS x no_response) = (Ret tt, MkAS x (MkResponse (Some code) [body]))) ∧
  (∀ ip port, length ip = 16 → digits port →
    from_loopback (net_JoinHostPort (net_IP_String ip) port) ↔ loopback ip).
Proof.
  pose proof (localhost_guard_run r remoteAddr x) as H. split; [|split].
  - intros Hl%is_local_spec. by rewrite Hl in H.
  - intros Hl. destruct (is_local remoteAddr) eqn:E0; [by apply is_local_spec in E0|done].
  - intros ip port Hl Hp. destruct (SplitHostPort_caller ip port Hl Hp) as (host & Hs & Hi).
    unfold from_loopback. rewrite Hs. split; [|intros; exists host, port; by rewrite Hi].
    intros (h & p & [= <- <-] & Hb). by rewrite Hi in Hb.
Qed.

Context {PL : PlatformLaws P}.

(** The response and the client after a request handled on [x]. *)
Definition served (r : request) (x : CW) : option Z * CW :=
  let '(_, a) := handler c r (MkAS x no_response) in (r_code (as_resp a), as_client a).

Lemma chats_on_client {A} (m : M CW A) a : as_client (on_client m a).2 = (m (as_client a)).2.
Proof. unfold on_client, zoom. by destruct (m (as_client a)). Qed.

Lemma view_quiet (m : M CW unit) x :
  (∀ d ca pf, preserves (quiet d ca pf) m) → ∀ id, view c (m x).2 id = view c x id.
Proof.
  intros Hm id. apply view_db. destruct (Hm (db (cw_store x)) (cache (cw_store x)) (pendingFiles x) x) as [(H & _) _];
    [by repeat split|done].
Qed.

(** The message a request edits or deletes. *)
Definition msg_target (r : request) : option UUID :=
  match r with
  | PutMessage pid _ | DeleteMessage pid => uuid_Parse pid
  | _ => None
  end.

Lemma only_own_id k id x : only_own c k id x x.
Proof. intros i. by left. Qed.

Lemma only_own_then k id x x1 (m : M CW unit) :
  only_own c k id x x1 → (∀ d ca pf, preserves (quiet d ca pf) m) → only_own c k id x (m x1).2.
Proof.
  intros Ho Hm i. rewrite (view_quiet m x1 Hm). destruct (Ho i) as [|(Hi & Hv & Hk)]; [by left|right].
  by split.
Qed.

(** After the owner check, an answer decides a request. *)
Lemma owned_cases id x :
  client_inv c x →
  let '(o, x1) := getOwnedMessage c id x in
  client_inv c x1 ∧ db (cw_store x1) = db (cw_store x) ∧
  match o with
  | Ret m => view c x id = Some m ∧ message.FromPubKey m = pub c
  | Err e => errors_Is e errNotOwner = false →
      no_faults E → ∀ m, view c x id = Some m → message.FromPubKey m = pub c
  | Panic _ => False
  end.
Proof.
  intros Hx. assert (wp (getOwnedMessage c id) (λ o x1, client_inv c x1 ∧ db (cw_store x1) = db (cw_store x) ∧
    match o with
    | Ret m => view c x id = Some m ∧ message.FromPubKey m = pub c
    | Err e => errors_Is e errNotOwner = false →
        no_faults E → ∀ m, view c x id = Some m → message.FromPubKey m = pub c
    | Panic _ => False
    end) x) as H; [|unfold wp in H; by destruct (getOwnedMessage c id x)].
  unfold getOwnedMessage. wp_use (on_store_Get_wp c 0 id x Hx) as o1 x1 (H1 & _ & _ & _ & Hd & Ho).
  destruct o1 as [m|e|p]; [| |done].
  - case_bool_decide as Hm; [apply wp_throw|apply wp_ret]; (split; [done|]; split; [done|]).
    + by cbn; rewrite bool_decide_true by done.
    + split; [done|]. by destruct (decide (message.FromPubKey m = pub c)).
  - split; [done|]. split; [done|]. intros _ Hn m Hv. unfold view in Hv. by rewrite (Ho Hn) in Hv.
Qed.

Lemma apiUpdateMessage_own pid req id x :
  client_inv c x → uuid_Parse pid = Some id →
  let '(_, a) := apiUpdateMessage c pid req (MkAS x no_response) in
  only_own c (pub c) id x (as_client a) ∧
  ∀ m, view c x id = Some m → message.FromPubKey m ≠ pub c → no_faults E →
    r_code (as_resp a) = Some 403%Z ∧ ∀ i, view c (as_client a) i = view c x i.
Proof.
  intros Hx Hp. unfold apiUpdateMessage. rewrite Hp. pose proof (owned_cases id x Hx) as Ho.
  unfold attempt, on_client, zoom. rewrite bind_run. cbn [as_client].
  destruct (getOwnedMessage c id x) as [[m|e|p] x1]; destruct Ho as (H1 & Hd & Ho); [| |done].
  - destruct Ho as [Hv Hm].
    assert (∀ Q m', view c x id = Some m' → message.FromPubKey m' ≠ pub c → Q) as Hno
      by (intros Q m' Hv'; rewrite Hv in Hv'; by simplify_eq).
    destruct req as [content|].
    2: { hnf; split; [apply only_own_same; cbn; by rewrite Hd|intros m' ? ?; by eapply Hno]. }
    destruct (bool_decide (content = [])).
    { hnf; split; [apply only_own_same; cbn; by rewrite Hd|intros m' ? ?; by eapply Hno]. }
    pose proof (getName_db x1) as Hd2. pose proof (getName_inv c 0 x1 H1) as H2.
    rewrite bind_run. cbn [as_client as_resp].
    destruct (getName x1) as [[nm|e|p] x2]; cbn in H2, Hd2.
    2,3: by (hnf; split; [apply only_own_same; cbn; by rewrite Hd2, Hd|intros m' ? ?; by eapply Hno]).
    rewrite bind_run. cbn [as_client as_resp].
    pose proof (update_own c (pub c) id nm content x x2 m H2 ltac:(by rewrite Hd2, Hd) Hv Hm) as Hu.
    destruct (on_store _ x2) as [[[]|e|p] x3]; cbn in Hu.
    + rewrite bind_run. cbn [as_client as_resp].
      pose proof (only_own_then _ _ x x3 (broadcastUpdate c id content) Hu (λ d ca pf, quiet_broadcastUpdate c d ca pf id content)) as Hb.
      destruct (broadcastUpdate c id content x3) as [[[]|e|p] x4]; hnf; (split; [exact Hb|intros m' ? ?; by eapply Hno]).
    + hnf; split; [exact Hu|intros m' ? ?; by eapply Hno].
    + hnf; split; [exact Hu|intros m' ? ?; by eapply Hno].
  - destruct (errors_Is e errNotOwner); hnf; (split; [apply only_own_same; cbn; by rewrite Hd|]); intros m Hv Hm Hn.
    + split; [done|]. intros i. apply view_db. cbn. by rewrite Hd.
    + by destruct Hm; apply (Ho eq_refl Hn).
Qed.

Lemma apiDeleteMessage_own pid id x :
  client_inv c x → uuid_Parse pid = Some id →
  let '(_, a) := apiDeleteMessage c pid (MkAS x no_response) in
  only_own c (pub c) id x (as_client a) ∧
  ∀ m, view c x id = Some m → message.FromPubKey m ≠ pub c → no_faults E →
    r_code (as_resp a) = Some 403%Z ∧ ∀ i, view c (as_client a) i = view c x i.
Proof.
  intros Hx Hp. unfold apiDeleteMessage. rewrite Hp. pose proof (owned_cases id x Hx) as Ho.
  unfold attempt, on_client, zoom. rewrite bind_run. cbn [as_client].
  destruct (getOwnedMessage c id x) as [[m|e|p] x1]; destruct Ho as (H1 & Hd & Ho); [| |done].
  - destruct Ho as [Hv Hm].
    assert (∀ Q m', view c x id = Some m' → message.FromPubKey m' ≠ pub c → Q) as Hno
      by (intros Q m' Hv'; rewrite Hv in Hv'; by simplify_eq).
    rewrite bind_run. cbn [as_client as_resp].
    pose proof (delete_own c (pub c) id x x1 m H1 ltac:(by rewrite Hd) Hv Hm) as Hu.
    destruct (on_store _ x1) as [[[]|e|p] x3]; cbn in Hu.
    + rewrite bind_run. cbn [as_client as_resp].
      pose proof (only_own_then _ _ x x3 (broadcastDelete c id) Hu (λ d ca pf, quiet_broadcastDelete c d ca pf id)) as Hb.
      destruct (broadcastDelete c id x3) as [[[]|e|p] x4]; hnf; (split; [exact Hb|intros m' ? ?; by eapply Hno]).
    + hnf; split; [exact Hu|intros m' ? ?; by eapply Hno].
    + hnf; split; [exact Hu|intros m' ? ?; by eapply Hno].
  - destruct (errors_Is e errNotOwner); hnf; (split; [apply only_own_same; cbn; by rewrite Hd|]); intros m Hv Hm Hn.
    + split; [done|]. intros i. apply view_db. cbn. by rewrite Hd.
    + by destruct Hm; apply (Ho eq_refl Hn).
Qed.

(** C18: A request edits or deletes at most the message it names, only if it is
    the user's own, and leaves it the user's own; without faults one that names
    somebody else's message is answered 403 and changes no message. *)
Theorem request_owner_only (r : request) (id : UUID) (x : CW) :
  client_inv c x → msg_target r = Some id →
  only_own c (pub c) id x (served r x).2 ∧
  ∀ m, view c x id = Some m → message.FromPubKey m ≠ pub c → no_faults E →
    (served r x).1 = Some 403%Z ∧ ∀ i, view c (served r x).2 i = view c x i.
Proof.
  intros Hx Hr. unfold served. destruct r as [| | | | | | | | | |pid req|pid| | | | | | | |]; try done; cbn [handler].
  - pose proof (apiUpdateMessage_own pid req id x Hx Hr) as H. by destruct (apiUpdateMessage c pid req _).
  - pose proof (apiDeleteMessage_own pid id x Hx Hr) as H. by destruct (apiDeleteMessage c pid _).
Qed.
End Http.

(** ** Instances *)

Abbreviation K0 := (pub wit_client).
Definition wit_peer : Key := array_of 32 (lit "peer").

(** A client that holds a message, knows a pending peer and is connected to it. *)
Definition wit_x1 : CW :=
  (on_store (msgstore.Put (P:=toy_platform) (E:=toy_env) (priv wit_client) (lit "alice")
    (set_FromPubKey K0 message.wit_msg)) initial).2.
Definition wit_x2 : CW :=
  (on_store (KnownPeerStore.Add (P:=toy_platform) (E:=toy_env)
    (KnownPeerStore.MkPeer [] wit_peer (lit "p") [] Pending false zero_time NilUUID)) wit_x1).2.
Definition wit_state : CW := MkCW (cw_store wit_x2)
  [setStatus Pending (newSession (MkConn [] [] false 0) (lit "me") (c_Keys wit_client) 1 10 60 0)]
  (<[wit_peer := 0]> ∅) ∅.

Lemma wit_x2_inv : client_inv (P:=toy_platform) (E:=toy_env) wit_client wit_x2.
Proof.
  pose proof (initial_inv (P:=toy_platform) (E:=toy_env) wit_client) as H0.
  assert (preserves (world_inv (P:=toy_platform) (E:=toy_env) (priv wit_client))
    (msgstore.Put (P:=toy_platform) (E:=toy_env) (priv wit_client) (lit "alice") (set_FromPubKey K0 message.wit_msg))) as Hm.
  { apply world_both; [|apply (MsgPut_typed (PL:=toy_platform_laws))]. apply (MsgPut_store (P:=toy_platform) (PL:=toy_platform_laws)). exact wit_sizes_ok. }
  pose proof (on_store_top (P:=toy_platform) wit_client 0 _ Hm initial H0) as H1.
  refine (on_store_top (P:=toy_platform) (E:=toy_env) wit_client 0 _ _ wit_x1 H1).
  apply world_both; [apply PeerAdd_store|apply PeerAdd_typed].
Qed.

Lemma wit_state_inv : client_inv (P:=toy_platform) (E:=toy_env) wit_client wit_state.
Proof.
  destruct wit_x2_inv as (Hs & _ & _ & _ & Ht).
  split; [exact Hs|split; [by apply Forall_singleton; split; split|split; [|split; [cbn; lia|exact Ht]]]].
  by apply map_Forall_insert_2; [cbn; lia|apply map_Forall_empty].
Qed.

Lemma unaccepted_gate_witness :
  let x' := (handleDecrypted (P:=toy_platform) (E:=toy_env) wit_client
      (signal.layout (signal.MkSignal signal.Delete wit_peer (message.MsgID message.wit_msg) [])) 0 wit_peer wit_state).2 in
  quiet_store (db (cw_store wit_state)) (cache (cw_store wit_state)) (cw_store x') ∧ pendingFiles x' = pendingFiles wit_state.
Proof.
  edestruct (unaccepted_gate (P:=toy_platform) (E:=toy_env) wit_client
    (signal.layout (signal.MkSignal signal.Delete wit_peer (message.MsgID message.wit_msg) [])) 0 wit_peer wit_state) as (Hq & Hm & _);
    [reflexivity|apply (bool_decide_unpack (Pending ≠ Accepted)); exact I|].
  exact (conj Hq (proj1 (Hm eq_refl))).
Defined.

Lemma author_only_witness :
  let sig := signal.MkSignal signal.Delete wit_peer (message.MsgID message.wit_msg) [] in
  only_own (P:=toy_platform) wit_client wit_peer (message.MsgID message.wit_msg) wit_state
    (handleSignal (P:=toy_platform) (E:=toy_env) wit_client sig wit_peer wit_state).2.
Proof.
  apply (author_only (P:=toy_platform) (E:=toy_env) (PL:=toy_platform_laws)); [exact wit_state_inv|].
  left. reflexivity.
Defined.

Definition wit_incoming : signal.Signal :=
  signal.MkSignal signal.Message wit_peer NilUUID (message.layout message.wit_msg).

Lemma message_overwrites_witness :
  ∃ m, message.ToMessage (signal.Content wit_incoming) = Ret m ∧
  wp (handleSignal (P:=toy_platform) (E:=toy_env) wit_client wit_incoming wit_peer) (λ o x', o = Ret tt ∧
    view (P:=toy_platform) wit_client x' (message.MsgID m) = Some (set_FromPubKey wit_peer m) ∧
    ∀ id, id ≠ message.MsgID m → view (P:=toy_platform) wit_client x' id = view (P:=toy_platform) wit_client wit_state id)
    wit_state.
Proof.
  destruct (message.ToMessage (signal.Content wit_incoming)) as [m| |] eqn:Em; [|vm_compute in Em; discriminate Em..].
  exists m. split; [reflexivity|].
  apply (message_overwrites (P:=toy_platform) (E:=toy_env) (PL:=toy_platform_laws));
    [exact toy_env_no_faults|exact wit_state_inv|reflexivity|reflexivity|exact Em|].
  vm_compute in Em. injection Em as <-. apply (bool_decide_unpack _). exact I.
Defined.

Lemma peer_accepts_itself_witness :
  ∃ s, heap wit_state !! 0 = Some s ∧
  wp (handleDecrypted (P:=toy_platform) (E:=toy_env) wit_client
       (signal.layout (signal.MkSignal signal.PeerAccepted wit_peer NilUUID [])) 0 wit_peer)
    (λ o x', o = Ret tt ∧ heap x' !! 0 = Some (setStatus Accepted s) ∧
      KnownPeerStore.Status <$> peer_view (P:=toy_platform) (db (cw_store x')) wit_peer = Some Accepted) wit_state.
Proof.
  eexists. split; [reflexivity|].
  destruct (peer_view (P:=toy_platform) (db (cw_store wit_state)) wit_peer) as [p|] eqn:Ep; [|vm_compute in Ep; discriminate Ep].
  apply (peer_accepts_itself (P:=toy_platform) (E:=toy_env) (PL:=toy_platform_laws) wit_client _ 0 wit_peer _ p);
    [exact toy_env_no_faults|apply (bool_decide_unpack _); exact I|reflexivity|reflexivity|reflexivity|apply lookup_insert_eq|exact Ep].
Defined.

Lemma request_owner_only_witness :
  let r := DeleteMessage (uuid_String (UuidLib:=toy_uuid) (message.MsgID message.wit_msg)) in
  msg_target (P:=toy_platform) r = Some (message.MsgID message.wit_msg) ∧
  only_own (P:=toy_platform) wit_client K0 (message.MsgID message.wit_msg) wit_state
    (served (P:=toy_platform) (E:=toy_env) wit_client r wit_state).2.
Proof.
  assert (msg_target (P:=toy_platform) (DeleteMessage (uuid_String (UuidLib:=toy_uuid) (message.MsgID message.wit_msg)))
    = Some (message.MsgID message.wit_msg)) as Ht by (vm_compute; reflexivity).
  exact (conj Ht (proj1 (request_owner_only (P:=toy_platform) (E:=toy_env) (PL:=toy_platform_laws) wit_client _ _ _ wit_state_inv Ht))).
Defined.

Lemma localhost_guard_witness :
  let x := MkAS (initial) no_response in
  let me := net_JoinHostPort (net_IP_String IPv6loopback) (lit "40312") in
  let you := net_JoinHostPort (net_IP_String (v4InV6Prefix ++ (byte_of_Z <$> [10; 0; 0; 7]%Z))) (lit "40312") in
  registerRoutes (P:=toy_platform) (E:=toy_env) wit_client GetMe me x
    = handler (P:=toy_platform) (E:=toy_env) wit_client GetMe x ∧
  ∃ code body, (code = 400 ∨ code = 403)%Z ∧
    registerRoutes (P:=toy_platform) (E:=toy_env) wit_client GetMe you x = (Ret tt, MkAS initial (MkResponse (Some code) [body])).
Proof.
  intros x me you. assert (digits (lit "40312")) as Hd by (apply (bool_decide_unpack (Forall _ _)); exact I).
  destruct (localhost_guard (P:=toy_platform) (E:=toy_env) wit_client GetMe me initial) as (H1 & _ & H2).
  destruct (localhost_guard (P:=toy_platform) (E:=toy_env) wit_client GetMe you initial) as (_ & H3 & _). split.
  - apply H1, H2; [reflexivity|exact Hd|by left].
  - apply H3. intros Hl. apply H2 in Hl; [|reflexivity|exact Hd].
    destruct Hl as [Hl|(b & e & d & Hl)]; [discriminate|]. apply (f_equal (λ l, l !! 12)) in Hl. discriminate.
Defined.
