(* ===== verification/Routes.v ===== *)
(** * Routing (client/routes.go, Client.Listen in client/client.go)

    The patterns the client registers, the handler behind each, and what a
    request on the wire comes to: the rate limiter's verdict, the multiplexer,
    the loopback guard, the handler. *)

From S2P Require Import Prelude Net NetFacts Paths Mux Config Crypto Keys Signal Message Wire RateLimit Base64 Monad Platform.
From S2P Require Import Store MessageStore StoreFacts Tables Session SessionFacts Client Handlers ClientFacts Delivery Api Reach Start Security.

(** The handlers behind the patterns. *)
Inductive endpoint :=
| HandleWS | AdminListPeers | AdminAcceptPeer | AdminRejectPeer | AdminListSessions | AdminDeleteSession
| ApiConnectPeer | ApiSendMessage | ApiListMessages | ApiGetMessage | ApiSearchMessages | ApiUpdateMessage
| ApiDeleteMessage | ApiGetFile | AdminSetNickname | AdminListOutbox | AdminDeleteOutboxEntry | AdminFlushOutbox
| AdminUpdateProfile | AdminDeleteProfilePic | AdminGetMe.

(** [Listen] registers the first, [registerRoutes] the others. *)
Definition route_patterns : list (gostring * endpoint) := [
  (lit "/transport/", HandleWS);
  (lit "GET /admin/peers", AdminListPeers);
  (lit "PUT /admin/peers/{pubKey}/accept", AdminAcceptPeer);
  (lit "PUT /admin/peers/{pubKey}/reject", AdminRejectPeer);
  (lit "GET /admin/sessions", AdminListSessions);
  (lit "DELETE /admin/sessions/{pubKey}", AdminDeleteSession);
  (lit "POST /api/peers/connect", ApiConnectPeer);
  (lit "POST /api/messages/{pubKey}", ApiSendMessage);
  (lit "GET /api/messages", ApiListMessages);
  (lit "GET /api/messages/{id}", ApiGetMessage);
  (lit "GET /api/messages/search", ApiSearchMessages);
  (lit "PUT /api/messages/{id}", ApiUpdateMessage);
  (lit "DELETE /api/messages/{id}", ApiDeleteMessage);
  (lit "GET /api/files/{id}", ApiGetFile);
  (lit "PUT /admin/peers/{pubKey}/nickname", AdminSetNickname);
  (lit "GET /admin/outbox", AdminListOutbox);
  (lit "DELETE /admin/outbox/{id}", AdminDeleteOutboxEntry);
  (lit "POST /admin/outbox/flush/{pubKey}", AdminFlushOutbox);
  (lit "PUT /admin/profile", AdminUpdateProfile);
  (lit "DELETE /admin/profile/picture", AdminDeleteProfilePic);
  (lit "GET /admin/me", AdminGetMe)].

Definition registered : outcome (mux endpoint) := register route_patterns [].
Definition client_mux : mux endpoint := prod_map parsePattern id <$> route_patterns.

(** A request on the wire, with what the libraries would make of its body. *)
Record http_request := MkHttp {
  rq_Method : gostring;
  rq_EscapedPath : gostring;                               (* r.URL.EscapedPath() *)
  rq_RemoteAddr : gostring;
  rq_q : gostring;                                         (* r.URL.Query().Get("q") *)
  rq_json : option gostring;                               (* the one field of a JSON body *)
  rq_form : option form;                                   (* the multipart form *)
  rq_profile : option (gostring * option (option bytes));  (* the profile form *)
  rq_dial : gostring → dial_result;                        (* the peer at an address *)
  rq_upgrade : outcome Conn                                (* the websocket upgrade *)
}.

(** [r.URL.Path] *)
Definition URL_Path (rq : http_request) : gostring := pathUnescape (rq_EscapedPath rq).

(** [r.PathValue(name)], for the only wildcard of a pattern. *)
Definition PathValue (matches : list gostring) : gostring := default [] (head matches).

(** The request an endpoint serves, if it is one behind the guard. *)
Definition request_of (e : endpoint) (v : gostring) (rq : http_request) : option request :=
  match e with
  | HandleWS => None
  | AdminListPeers => Some GetPeers
  | AdminAcceptPeer => Some (PutPeerAccept v)
  | AdminRejectPeer => Some (PutPeerReject v)
  | AdminListSessions => Some GetSessions
  | AdminDeleteSession => Some (DeleteSession v)
  | ApiConnectPeer => Some (PostPeersConnect (rq_json rq) (rq_dial rq))
  | ApiSendMessage => Some (PostMessage v (rq_form rq))
  | ApiListMessages => Some GetMessages
  | ApiGetMessage => Some (GetMessage v)
  | ApiSearchMessages => Some (GetMessagesSearch (rq_q rq))
  | ApiUpdateMessage => Some (PutMessage v (rq_json rq))
  | ApiDeleteMessage => Some (DeleteMessage v)
  | ApiGetFile => Some (GetFile v)
  | AdminSetNickname => Some (PutPeerNickname v (rq_json rq))
  | AdminListOutbox => Some GetOutbox
  | AdminDeleteOutboxEntry => Some (DeleteOutbox v)
  | AdminFlushOutbox => Some (PostOutboxFlush v)
  | AdminUpdateProfile => Some (PutProfile (rq_profile rq))
  | AdminDeleteProfilePic => Some DeleteProfilePicture
  | AdminGetMe => Some GetMe
  end.

Section Serve.
Context {P : Platform} {E : Env} (c : Client).

(** [handleWS] as a handler: a refusal is an error page; an upgraded connection
    is the websocket library's. *)
Definition serve_ws (rq : http_request) : M AS unit :=
  r ← on_client (handleWS c (URL_Path rq) (rq_RemoteAddr rq) (rq_upgrade rq));
  match r with
  | Refused code => respond (write_code code)
  | UpgradeFailed | Served => mret tt
  end.

Definition endpoint_serve (e : endpoint) (matches : list gostring) (rq : http_request) : M AS unit :=
  match request_of e (PathValue matches) rq with
  | None => serve_ws rq
  | Some r => registerRoutes c r (rq_RemoteAddr rq)
  end.

(** The handler of the server: [httprate.LimitByIP(...)(mux)]. [limited] is the
    limiter's verdict on the caller. *)
Definition serve (limited : bool) (rq : http_request) : M AS unit :=
  if limited then respond (write_code 429) else
  match findHandler client_mux (rq_Method rq) (rq_EscapedPath rq) with
  | Handler e matches => endpoint_serve e matches rq
  | Redirect _ => respond (write_code 307)
  | NotAllowed => respond (write_code 405)
  | NotFound => respond (write_code 404)
  end.
End Serve.

(** ** Listening *)

(** The [http.Server] that [Listen] builds, but for its handler. *)
Record Server := MkServer {
  srv_port : Z;
  srv_ReadHeaderTimeout : Z; srv_ReadTimeout : Z; srv_WriteTimeout : Z; srv_IdleTimeout : Z;
  srv_tls : option (gostring * gostring)   (* ListenAndServeTLS with these files *)
}.

(** What [Listen] sets going: the loop over standard input, in write mode
    without a peer to dial, and the server. *)
Definition Listen (p : Process) : bool * Server :=
  (p_writeMode p && bool_decide (p_peerAddr p = []),
   MkServer (p_listenPort p) (c_Timeout (p_client p)) (c_Timeout (p_client p)) (c_Timeout (p_client p))
     (c_Timeout (p_client p)) (if Client_UseTLS p then Some (p_certFile p, p_keyFileTLS p) else None)).

(** ** The URL of a request *)

Definition method_of (r : request) : gostring :=
  match r with
  | GetPeers | GetSessions | GetMessages | GetMessage _ | GetMessagesSearch _ | GetFile _ | GetOutbox | GetMe => lit "GET"
  | PutPeerAccept _ | PutPeerReject _ | PutMessage _ _ | PutPeerNickname _ _ | PutProfile _ => lit "PUT"
  | DeleteSession _ | DeleteMessage _ | DeleteOutbox _ | DeleteProfilePicture => lit "DELETE"
  | PostPeersConnect _ _ | PostMessage _ _ | PostOutboxFlush _ => lit "POST"
  end.

Definition path_of (r : request) : gostring :=
  match r with
  | GetPeers => lit "/admin/peers"
  | PutPeerAccept k => lit "/admin/peers/" ++ k ++ lit "/accept"
  | PutPeerReject k => lit "/admin/peers/" ++ k ++ lit "/reject"
  | GetSessions => lit "/admin/sessions"
  | DeleteSession k => lit "/admin/sessions/" ++ k
  | PostPeersConnect _ _ => lit "/api/peers/connect"
  | PostMessage k _ => lit "/api/messages/" ++ k
  | GetMessages => lit "/api/messages"
  | GetMessage id => lit "/api/messages/" ++ id
  | GetMessagesSearch _ => lit "/api/messages/search"
  | PutMessage id _ => lit "/api/messages/" ++ id
  | DeleteMessage id => lit "/api/messages/" ++ id
  | GetFile id => lit "/api/files/" ++ id
  | PutPeerNickname k _ => lit "/admin/peers/" ++ k ++ lit "/nickname"
  | GetOutbox => lit "/admin/outbox"
  | DeleteOutbox id => lit "/admin/outbox/" ++ id
  | PostOutboxFlush k => lit "/admin/outbox/flush/" ++ k
  | PutProfile _ => lit "/admin/profile"
  | DeleteProfilePicture => lit "/admin/profile/picture"
  | GetMe => lit "/admin/me"
  end.

(** The value in the path, if there is one. *)
Definition value_of (r : request) : option gostring :=
  match r with
  | PutPeerAccept k | PutPeerReject k | DeleteSession k | PostMessage k _ | GetMessage k | PutMessage k _
  | DeleteMessage k | GetFile k | PutPeerNickname k _ | DeleteOutbox k | PostOutboxFlush k => Some k
  | _ => None
  end.

(** The path, as a list of elements. *)
Definition elems (r : request) : list gostring :=
  match r with
  | GetPeers => [lit "admin"; lit "peers"]
  | PutPeerAccept k => [lit "admin"; lit "peers"; k; lit "accept"]
  | PutPeerReject k => [lit "admin"; lit "peers"; k; lit "reject"]
  | GetSessions => [lit "admin"; lit "sessions"]
  | DeleteSession k => [lit "admin"; lit "sessions"; k]
  | PostPeersConnect _ _ => [lit "api"; lit "peers"; lit "connect"]
  | PostMessage k _ | GetMessage k | PutMessage k _ | DeleteMessage k => [lit "api"; lit "messages"; k]
  | GetMessages => [lit "api"; lit "messages"]
  | GetMessagesSearch _ => [lit "api"; lit "messages"; lit "search"]
  | GetFile id => [lit "api"; lit "files"; id]
  | PutPeerNickname k _ => [lit "admin"; lit "peers"; k; lit "nickname"]
  | GetOutbox => [lit "admin"; lit "outbox"]
  | DeleteOutbox id => [lit "admin"; lit "outbox"; id]
  | PostOutboxFlush k => [lit "admin"; lit "outbox"; lit "flush"; k]
  | PutProfile _ => [lit "admin"; lit "profile"]
  | DeleteProfilePicture => [lit "admin"; lit "profile"; lit "picture"]
  | GetMe => [lit "admin"; lit "me"]
  end.

Lemma path_of_elems r : path_of r = slash :: strings_Join slash (elems r).
Proof. by destruct r. Qed.

(** ** Dispatch *)

Definition endpoint_of (r : request) : endpoint :=
  match r with
  | GetPeers => AdminListPeers | PutPeerAccept _ => AdminAcceptPeer | PutPeerReject _ => AdminRejectPeer
  | GetSessions => AdminListSessions | DeleteSession _ => AdminDeleteSession | PostPeersConnect _ _ => ApiConnectPeer
  | PostMessage _ _ => ApiSendMessage | GetMessages => ApiListMessages | GetMessage _ => ApiGetMessage
  | GetMessagesSearch _ => ApiSearchMessages | PutMessage _ _ => ApiUpdateMessage | DeleteMessage _ => ApiDeleteMessage
  | GetFile _ => ApiGetFile | PutPeerNickname _ _ => AdminSetNickname | GetOutbox => AdminListOutbox
  | DeleteOutbox _ => AdminDeleteOutboxEntry | PostOutboxFlush _ => AdminFlushOutbox | PutProfile _ => AdminUpdateProfile
  | DeleteProfilePicture => AdminDeleteProfilePic | GetMe => AdminGetMe
  end.

(** The value in the path is one element without escapes, and the id of a
    message is not the name of the search route. *)
Definition value_ok (r : request) : Prop :=
  (∀ v, value_of r = Some v → plain v ∧ percent ∉ v) ∧ (∀ id, r = GetMessage id → id ≠ lit "search").

(** The request's body is the one [r] carries. *)
Definition carries (rq : http_request) (r : request) : Prop :=
  match r with
  | PostPeersConnect j d => rq_json rq = j ∧ rq_dial rq = d
  | PostMessage _ f => rq_form rq = f
  | GetMessagesSearch q => rq_q rq = q
  | PutMessage _ j | PutPeerNickname _ j => rq_json rq = j
  | PutProfile p => rq_profile rq = p
  | _ => True
  end.

Definition seg_plain (w : gostring) : bool :=
  bool_decide (w ≠ []) && bool_decide (w ≠ dot1) && bool_decide (w ≠ dot2) && bool_decide (slash ∉ w) && bool_decide (percent ∉ w).

Lemma seg_plain_spec w : seg_plain w = true → plain w ∧ percent ∉ w.
Proof. unfold seg_plain, plain. rewrite !andb_true_iff, !bool_decide_eq_true. tauto. Qed.

Lemma elems_ok r : value_ok r → Forall (λ w, plain w ∧ percent ∉ w) (elems r).
Proof.
  intros [Hv _]. destruct r; cbn [elems value_of] in *; repeat apply Forall_cons_2; try apply Forall_nil_2;
    first [by apply Hv|apply seg_plain_spec; vm_compute; reflexivity].
Qed.

Definition values (r : request) : list gostring := match value_of r with Some v => [v] | None => [] end.

(** The walk through the tree of the request's method. *)
Lemma match_elems r :
  value_ok r → ∃ segs, matchPath (method_tree (method_of r) client_mux) (Some <$> elems r) []
    = Some ((segs, endpoint_of r), values r) ∧ last segs ≠ Some SRest.
Proof.
  intros [_ Hs]. destruct r; cbn [method_of elems endpoint_of values value_of].
  all: try (eexists; split; [vm_compute; reflexivity|discriminate]).
  specialize (Hs id eq_refl). set (n := method_tree _ _).
  assert (child (SLit (lit "messages")) (child (SLit (lit "api")) n) =
    [([], ([SLit (lit "api"); SLit (lit "messages")], ApiListMessages));
     ([SWild], ([SLit (lit "api"); SLit (lit "messages"); SWild], ApiGetMessage));
     ([SLit (lit "search")], ([SLit (lit "api"); SLit (lit "messages"); SLit (lit "search")], ApiSearchMessages))]) as Hn
    by (vm_compute; reflexivity).
  exists [SLit (lit "api"); SLit (lit "messages"); SWild]. split; [|discriminate].
  cbn [fmap list_fmap]. unfold matchPath; fold (@matchPath (list seg * endpoint)). rewrite Hn.
  rewrite (child_other id); [reflexivity|]. repeat apply Forall_cons_2; try apply Forall_nil_2; cbn; try discriminate.
  intros [= He]. by apply Hs.
Qed.

Lemma find_route r :
  value_ok r → findHandler client_mux (method_of r) (path_of r) = Handler (endpoint_of r) (values r).
Proof.
  intros Hv. destruct (match_elems r Hv) as (segs & Hm & Hl). pose proof (elems_ok r Hv) as He.
  assert (elems r ≠ []) as Hn by by destruct r.
  apply (find_exact _ _ _ segs); [by destruct r| |apply tree_match_method|done].
  - rewrite path_of_elems. apply cleanPath_plain; [|done]. eapply Forall_impl; [exact He|]. by intros w [].
  - by rewrite path_of_elems, path_segs_plain.
Qed.

(** A websocket request: any method, one more element. *)
Lemma find_transport method k :
  method ∈ [lit "GET"; lit "HEAD"; lit "POST"; lit "PUT"; lit "DELETE"] → plain k → percent ∉ k →
  findHandler client_mux method (lit "/transport/" ++ k) = Handler HandleWS [].
Proof.
  intros Hm Hk Hp. change (lit "/transport/" ++ k) with (slash :: strings_Join slash [lit "transport"; k]).
  apply (find_rest _ _ _ [SLit (lit "transport"); SRest] _ [] []); [| |done| | |done|done].
  - intros ->. repeat (apply elem_of_cons in Hm as [[=]|Hm]). by apply elem_of_nil in Hm.
  - apply Forall_cons_2; [|by apply Forall_singleton]. apply seg_plain_spec. by vm_compute.
  - repeat (apply elem_of_cons in Hm as [->|Hm]; [vm_compute; reflexivity|]). by apply elem_of_nil in Hm.
  - repeat (apply elem_of_cons in Hm as [->|Hm]; [vm_compute; reflexivity|]). by apply elem_of_nil in Hm.
Qed.

(** The text of a key needs no escapes, and is a key to the accepting side. *)
Lemma Key_String_digits k : Forall (λ b, is_Some (unhex b)) (Key_String k).
Proof.
  unfold Key_String. induction (vec_to_list k) as [|b l IH]; [apply Forall_nil_2|]. cbn. destruct (byte_nibbles_range b).
  assert (∀ v, (0 <= v < 16)%Z → is_Some (unhex (hexchar v))) as Hv
    by (intros v Hv; exists v; by apply unhex_hexchar, lower_hexchar).
  do 2 (apply Forall_cons_2; [by apply Hv|]). exact IH.
Qed.

Lemma Key_String_plain k : plain (Key_String k) ∧ (percent ∉ Key_String k) ∧ isValidPubKey (Key_String k) = true.
Proof.
  pose proof (Key_String_digits k) as Hd. rewrite Forall_forall in Hd.
  assert (length (Key_String k) = 64) as Hl by (unfold Key_String; by rewrite length_hex_encode, length_vec_to_list).
  assert (∀ b, unhex b = None → (b ∉ Key_String k)) as Hn by (intros b Hb Hin; destruct (Hd b Hin); congruence).
  split; [|split].
  - split; [|split; [|split]]; [intros E; by rewrite E in Hl..|]. by apply Hn.
  - by apply Hn.
  - unfold isValidPubKey, len. rewrite Hl. cbn [Z.of_nat]. change (negb (64 =? PubKeyLen)%Z) with false. cbv iota.
    unfold Key_String. rewrite (hex_decode_complete (vec_to_list k)) by apply lower_hex_encode. by rewrite length_vec_to_list.
Qed.

(** ** Properties *)

(** The patterns do not conflict: registering them does not panic. *)
Lemma registered_ok : registered = Ret client_mux.
Proof. vm_compute. reflexivity. Qed.

Section Theorems.
Context {P : Platform} {E : Env} (c : Client).

Lemma serve_transport rq k :
  rq_Method rq = lit "GET" → plain k → percent ∉ k → rq_EscapedPath rq = transport_prefix ++ k →
  serve c false rq = serve_ws c rq ∧ URL_Path rq = transport_prefix ++ k.
Proof.
  intros Hm Hk Hp Hpath. unfold serve. rewrite Hm, Hpath. unfold transport_prefix. rewrite find_transport by (done || by left).
  split; [done|]. unfold URL_Path. rewrite Hpath. apply pathUnescape_plain. unfold transport_prefix. rewrite elem_of_app.
  intros [Hin|Hin]; [|done]. revert Hin. change (percent ∉ lit "/transport/").
  apply (bool_decide_unpack (percent ∉ lit "/transport/")). vm_compute. exact I.
Qed.

(** C20: Routing. The patterns register without a conflict. A request whose
    method, path and body are those of a route, with a value in the path that
    needs no escapes, is served by that route's handler behind the guard, with
    that value ("search" being no message id); a path under /transport/ opens a
    websocket for the rest of the path; and the path a client dials is one, in
    which the checks read that client's public key. *)
Theorem routes_dispatch (rq : http_request) :
  registered = Ret client_mux ∧
  (∀ r, value_ok r → rq_Method rq = method_of r → rq_EscapedPath rq = path_of r → carries rq r →
    serve c false rq = registerRoutes c r (rq_RemoteAddr rq)) ∧
  (∀ k, rq_Method rq = lit "GET" → plain k → percent ∉ k → rq_EscapedPath rq = transport_prefix ++ k →
    serve c false rq = serve_ws c rq ∧ URL_Path rq = transport_prefix ++ k) ∧
  (∀ d, rq_Method rq = lit "GET" → rq_EscapedPath rq = dial_path d →
    serve c false rq = serve_ws c rq ∧
    isValidPubKey (TrimPrefix (URL_Path rq) transport_prefix) = true ∧
    FromHex (TrimPrefix (URL_Path rq) transport_prefix) = Ret (pub d)).
Proof.
  split; [exact registered_ok|]. split.
  - intros r Hv Hm Hp Hc. unfold serve. rewrite Hm, Hp, find_route by done.
    unfold endpoint_serve. destruct r; cbn in *; try (by subst); by destruct Hc as [-> ->].
  - split; [apply serve_transport|]. intros d Hm Hpath. destruct (Key_String_plain (pub d)) as (H1 & H2 & H3).
    destruct (serve_transport rq (Key_String (pub d)) Hm H1 H2 Hpath) as [-> ->]. split; [done|].
    unfold TrimPrefix, HasPrefix. rewrite take_app_length, bool_decide_true, drop_app_length by done. split; [done|]. apply FromHex_String.
Qed.

End Theorems.

(** Other paths and methods. *)
Example routes_examples :
  findHandler client_mux (lit "GET") (lit "/admin/peers/") = NotFound ∧
  findHandler client_mux (lit "GET") (lit "/admin//peers") = Redirect (lit "/admin/peers") ∧
  findHandler client_mux (lit "GET") (lit "/admin/x/../peers") = Redirect (lit "/admin/peers") ∧
  findHandler client_mux (lit "PATCH") (lit "/admin/profile") = NotAllowed ∧
  findHandler client_mux (lit "HEAD") (lit "/admin/me") = Handler AdminGetMe [] ∧
  findHandler client_mux (lit "GET") (lit "/transport") = Redirect (lit "/transport/") ∧
  findHandler client_mux (lit "GET") (lit "/api/messages/a%2Fb") = Handler ApiGetMessage [lit "a/b"] ∧
  findHandler client_mux (lit "GET") (lit "/api/messages/search") = Handler ApiSearchMessages [] ∧
  findHandler client_mux (lit "DELETE") (lit "/api/messages/search") = Handler ApiDeleteMessage [lit "search"].
Proof. vm_compute. repeat split. Qed.

(** ** Instances *)

Definition wit_request (method path remote : gostring) : http_request :=
  MkHttp method path remote [] None None None (λ _, DialFailed) (Err EEOF).

Lemma routes_dispatch_witness :
  let rq := wit_request (lit "DELETE") (lit "/api/messages/7") (lit "127.0.0.1:40312") in
  serve (P:=toy_platform) (E:=toy_env) wit_client false rq =
    registerRoutes (P:=toy_platform) (E:=toy_env) wit_client (DeleteMessage (lit "7")) (lit "127.0.0.1:40312").
Proof.
  intros rq. apply (proj1 (proj2 (routes_dispatch (P:=toy_platform) (E:=toy_env) wit_client rq))); try reflexivity.
  split; [|discriminate]. intros v [= <-]. apply seg_plain_spec. vm_compute. reflexivity.
Defined.

