(* ===== verification/Meeting.v ===== *)
(** * Two clients meet (client/peer.go, client/handlers.go, client/client.go)

    One client dials another: each runs its own code ([dialAndHandshake],
    [handleWS] with its read loop) on what the other's code writes. What was
    waiting for the absent peer is in its store when the connection is over. *)

From S2P Require Import Prelude Net NetFacts Config Crypto Keys Signal Message Wire RateLimit Base64 Monad Platform.
From S2P Require Import Store MessageStore StoreFacts Tables Session SessionFacts Handshake Client Handlers ClientFacts Delivery ReadLoop Opening Api Reach Security Routes.

(** ** Receiving a run of messages *)

(** What a store shows after messages from [k], in the order they arrive. *)
Fixpoint received (k : Key) (ms : list message.Message) (v : UUID → option message.Message) : UUID → option message.Message :=
  match ms with
  | [] => v
  | m :: ms' => received k ms' (λ id, if decide (id = message.MsgID m) then Some (set_FromPubKey k m) else v id)
  end.

Lemma received_ext k ms v v' : (∀ id, v id = v' id) → ∀ id, received k ms v id = received k ms v' id.
Proof.
  revert v v'. induction ms as [|m ms IH]; intros v v' Hv; [done|]. cbn [received]. apply IH.
  intros id. by rewrite Hv.
Qed.

(** The last message with an id is the one that is there. *)
Lemma received_last k ms m v : received k (ms ++ [m]) v (message.MsgID m) = Some (set_FromPubKey k m).
Proof. revert v. induction ms as [|m' ms IH]; intros v; cbn [app received]; [by rewrite decide_True|apply IH]. Qed.

Section Receive.
Context {P : Platform} {PL : PlatformLaws P} {E : Env} (c : Client).

(** A message that arrives as it was sent. *)
Definition deliverable (m : message.Message) : Prop :=
  sendable m ∧ message.times_ok m ∧ message.MsgID m ≠ NilUUID.

Definition steady_clock : Prop := ∀ t, (0 <= @env_now E t < big)%Z.

Lemma link_step p a b f a1 :
  linked a b → encrypt p a = (Ret f, a1) →
  decrypt f b = (Ret p, set_recv (bump (recv b)) b) ∧ linked a1 (set_recv (bump (recv b)) b).
Proof.
  intros (Hr & Hwf & key & Hk) He. rewrite (encrypt_run p a key) in He by done. injection He as <- <-.
  rewrite Hr in *. split; [by apply decrypt_sealed|]. split; [done|]. split; [by apply bump_wf|]. by exists key.
Qed.

(** An open connection with nothing left ends the loop. *)
Lemma read_frame_eof sid k y s out lim :
  net_ok E → heap y !! sid = Some s → s_conn s = Some (MkConn [] out false lim) →
  wp (read_frame c sid k) (λ o y', (∃ e, o = Ret (Some e)) ∧ same (cw_store y) (cw_store y') ∧ heap y' = heap y ∧
    sessions y' = sessions y) y.
Proof.
  intros Hn Hs Hc. unfold read_frame.
  apply wp_bind, wp_attempt. unfold wp at 1. rewrite (on_session_run _ _ _ _ Hs). cbn [fst snd].
  assert (SetReadDeadline (MkSS s (cw_store y)) = (Ret tt, MkSS s (MkSW (db (cw_store y)) (cache (cw_store y)) (S (tick (cw_store y)))))) as ->.
  { unfold SetReadDeadline, the_conn, get_state. rewrite !bind_run. cbn. rewrite Hc. cbn. unfold net_call. rewrite bind_run. cbn. by rewrite (proj1 Hn). }
  cbn [fst snd ss_sess ss_world]. set (y1 := set_store _ _).
  assert (heap y1 = heap y) as Hh1 by by apply list_insert_id.
  apply wp_bind, wp_attempt. unfold wp at 1. rewrite (on_session_run _ _ y1 s) by by rewrite Hh1. cbn [fst snd].
  assert (ReadMessage (MkSS s (cw_store y1)) = (Err EEOF, MkSS s (MkSW (db (cw_store y1)) (cache (cw_store y1)) (S (tick (cw_store y1)))))) as ->.
  { unfold ReadMessage, the_conn, get_state. rewrite !bind_run. cbn. rewrite Hc. cbn. rewrite bind_run. unfold net_call. rewrite bind_run. cbn.
    by rewrite (proj1 Hn). }
  cbn [fst snd ss_sess ss_world]. apply wp_ret. split; [by eexists|]. split; [done|]. split; [|done].
  cbn. rewrite list_insert_insert_eq. by apply list_insert_id.
Qed.

(** Each frame of a run of messages is read, decrypted and stored; then the
    connection is at its end. *)
Lemma read_frames_messages ms sid k frames out lim s y a a' :
  no_faults E → net_ok E → steady_clock → store_inv (priv c) (cw_store y) →
  heap y !! sid = Some s → s_conn s = Some (MkConn frames out false lim) → within lim frames →
  status s = Accepted → limiter_wf (s_limiter s) → (Z.of_nat (length ms) <= lim_tokens (s_limiter s))%Z →
  Forall deliverable ms →
  linked a s → map_each encrypt ((λ m, signal.layout (msg_signal k m)) <$> ms) a = (Ret frames, a') →
  wp (read_frames c (S (length frames)) sid k) (λ o y', (∃ e, o = Err e) ∧
    (∀ id, msg_view (priv c) (db (cw_store y')) id = received k ms (msg_view (priv c) (db (cw_store y))) id) ∧
    sessions y' = sessions y ∧
    ∃ s', heap y' = <[sid := s']> (heap y) ∧ s_conn s' = Some (MkConn [] out false lim)) y.
Proof.
  intros Hf Hn Hck. revert frames s y a. induction ms as [|m ms IH]; intros frames s y a Hi Hs Hc Hw Hst Hlim Htok Hms Hl He.
  { injection He as <- _. cbn [length read_frames]. apply wp_bind.
    eapply wp_conseq; [by apply (read_frame_eof sid k y s out lim)|].
    intros o y' ([e ->] & [Hd _] & Hh & Hse). apply wp_throw. split; [by eexists|]. split; [intros id; by rewrite Hd|].
    split; [done|]. exists s. by rewrite list_insert_id. }
  rewrite fmap_cons, map_each_cons, bind_run in He.
  destruct (encrypt (signal.layout (msg_signal k m)) a) as [[f|e|p] a1] eqn:Ea; [|done..]. rewrite bind_run in He.
  destruct (map_each encrypt _ a1) as [[fs|e|p] a2] eqn:Eas; [|done..]. injection He as <- <-.
  destruct (link_step _ _ _ _ _ Hl Ea) as [Hd Hl1]. inversion Hms as [|? ? (Hm & Ht & Hid) Hms']; subst.
  cbn [length read_frames]. apply wp_bind. eapply (read_frame_wp c sid k y s f fs out lim); [done|done|done|by eapply within_head|exact Hd|].
  intros y1 Hsm Hy1. set (s1 := set_conn _ _) in Hy1.
  eapply wp_conseq; [apply (handleDecrypted_message_wp c sid k s1 m y1); try done|].
  - by apply (store_inv_same (priv c) (cw_store y)).
  - rewrite (proj1 Hy1). apply list_lookup_insert_eq. by eapply lookup_lt_Some.
  - split; [done|]. split; [|exact Hck]. cbn. cbn [length] in Htok. lia.
  - intros o y2 (-> & Hi2 & Hv & l & [Hlw Hlt] & Hy2). rewrite (proj1 Hsm) in Hv.
    set (s2 := set_limiter l s1) in Hy2.
    assert (heap y2 = <[sid := s2]> (heap y)) as Hh2 by (rewrite (proj1 Hy2), (proj1 Hy1); apply list_insert_insert_eq).
    eapply wp_conseq; [apply (IH fs s2 y2 a1); try done|].
    + rewrite Hh2. apply list_lookup_insert_eq. by eapply lookup_lt_Some.
    + by eapply within_tail.
    + cbn in *. lia.
    + intros o y3 (Ho & Hv3 & Hse3 & s3 & Hh3 & Hc3). split; [done|].
      split; [intros id; rewrite Hv3; cbn [received]; by apply received_ext|].
      split; [by rewrite Hse3, (proj1 (proj2 Hy2)), (proj1 (proj2 Hy1))|]. exists s3. split; [|done].
      by rewrite Hh3, Hh2, list_insert_insert_eq.
Qed.

(** The messages and what waits are as they were. *)
Definition kept_rows (x x' : CW) : Prop :=
  chats (db (cw_store x')) = chats (db (cw_store x)) ∧ outbox (db (cw_store x')) = outbox (db (cw_store x)).

Lemma seen_now_rows k x : wp (seen_now k) (λ _ x', kept_rows x x') x.
Proof.
  eapply wp_conseq; [apply (preserves_wp (quiet (db (cw_store x)) (cache (cw_store x)) (pendingFiles x)))|].
  - unfold seen_now. pose proof (λ A m, quiet_on_store (db (cw_store x)) (cache (cw_store x)) (pendingFiles x) (A:=A) m) as Hq.
    pose proof (quiet_PeerGet (db (cw_store x)) (cache (cw_store x)) k).
    pose proof (quiet_now (db (cw_store x)) (cache (cw_store x))).
    pose proof (quiet_PeerAdd (db (cw_store x)) (cache (cw_store x))). preserve; by apply Hq.
  - done.
  - intros o x' [(H1 & _ & H3 & _) _]. done.
Qed.

(** The cleanup closes the session; what it wrote stays written. *)
Lemma cleanup_run sid k s conn y :
  net_ok E → heap y !! sid = Some s → s_conn s = Some conn →
  wp (cleanup sid k) (λ o y', o = Ret tt ∧ sessions y' = delete k (sessions y) ∧
    kept_rows y y' ∧
    ∃ s', heap y' !! sid = Some s' ∧ closed s' ∧ c_out <$> s_conn s' = Some (c_out conn) ∧
      status s' = status s ∧ peerPubKey s' = peerPubKey s) y.
Proof.
  intros Hn Hs Hc. unfold cleanup. apply wp_bind, wp_modify. set (y0 := set_sessions _ y). apply wp_bind.
  eapply (wp_conseq _ (λ o y1, (o = Ret tt ∧ heap y1 = heap y0 ∧ sessions y1 = sessions y0) ∧
    kept_rows y0 y1)).
  { split; [apply (seen_now_no_panic k y0)|apply (seen_now_rows k y0)]. }
  intros ? y1 ((-> & Hh & Hse) & Hch). apply wp_ignore. assert (heap y1 !! sid = Some s) as Hs1 by by rewrite Hh.
  unfold wp. rewrite (on_session_run _ _ _ _ Hs1). cbn [fst snd].
  set (s' := set_conn (Some (MkConn (c_in conn) (c_out conn) true (c_limit conn)))
    (set_recv (MkCipher None (cs_nonce (recv s))) (set_sendr (MkCipher None (cs_nonce (sendr s))) s))).
  assert (closeConn (MkSS s (cw_store y1)) = (Ret tt, MkSS s' (MkSW (db (cw_store y1)) (cache (cw_store y1)) (S (tick (cw_store y1)))))) as ->.
  { unfold closeConn, on_sess, zoom, modify. rewrite bind_run. cbn. unfold wrapping, Close, the_conn, get_state. rewrite !bind_run.
    cbn. rewrite Hc. cbn. rewrite bind_run. unfold modify. cbn. unfold net_call. rewrite bind_run. cbn. by rewrite (proj1 Hn). }
  cbn [fst snd ss_sess ss_world]. split; [done|]. split; [exact Hse|]. split; [exact Hch|].
  exists s'. split; [|split; [by repeat split; eexists|done]]. apply list_lookup_insert_eq. by eapply lookup_lt_Some.
Qed.

(** The loop of a peer that sends nothing more. *)
Lemma readLoop_silent sid s out lim y :
  net_ok E → heap y !! sid = Some s → s_conn s = Some (MkConn [] out false lim) →
  wp (readLoop c sid) (λ o y', (∃ e, o = Err e) ∧ sessions y' = delete (peerPubKey s) (sessions y) ∧
    kept_rows y y' ∧ ∃ s', heap y' !! sid = Some s' ∧ closed s' ∧ c_out <$> s_conn s' = Some out ∧
      status s' = status s ∧ peerPubKey s' = peerPubKey s) y.
Proof.
  intros Hn Hs Hc. unfold readLoop. apply wp_bind.
  unfold wp at 1. rewrite (sess_gets_run sid _ y s Hs). cbn [fst snd]. unfold wp, deferring.
  rewrite bind_run, (sess_modify_run sid _ y s Hs). set (y1 := set_heap _ y). set (s1 := SetReadLimit _ s) in *.
  assert (heap y1 !! sid = Some s1) as Hs1 by (apply list_lookup_insert_eq; by eapply lookup_lt_Some).
  assert (s_conn s1 = Some (MkConn [] out false (c_MaxMessageSize c))) as Hc1
    by (unfold s1, SetReadLimit; cbn; by rewrite Hc).
  rewrite bind_run, (sess_gets_run sid unread y1 s1 Hs1). assert (unread s1 = 0) as -> by (unfold unread; by rewrite Hc1).
  cbn [read_frames]. rewrite bind_run. pose proof (read_frame_eof sid (peerPubKey s) y1 s1 out _ Hn Hs1 Hc1) as Hr.
  unfold wp in Hr. destruct (read_frame c sid (peerPubKey s) y1) as [o y2]. cbn [fst snd] in Hr.
  destruct Hr as ([e ->] & [Hd2 _] & Hh2 & Hse2). cbn [throw].
  pose proof (cleanup_run sid (peerPubKey s) s1 _ y2 Hn ltac:(by rewrite Hh2) Hc1) as Hcl. unfold wp in Hcl.
  destruct (cleanup sid (peerPubKey s) y2) as [o3 y3]. cbn [fst snd] in *.
  destruct Hcl as (-> & Hse3 & [Hch3 Hob3] & s3 & Hs3 & Hcl3 & Ho3 & Hst3 & Hp3). cbn [fst snd].
  split; [by eexists|]. split; [by rewrite Hse3, Hse2|].
  split; [split; [by rewrite Hch3, Hd2|by rewrite Hob3, Hd2]|].
  exists s3. by rewrite Hst3, Hp3.
Qed.

Lemma readLoop_messages ms sid s frames out lim y a a' :
  no_faults E → net_ok E → steady_clock → store_inv (priv c) (cw_store y) →
  heap y !! sid = Some s → s_conn s = Some (MkConn frames out false lim) → within (c_MaxMessageSize c) frames →
  status s = Accepted → limiter_wf (s_limiter s) → (Z.of_nat (length ms) <= lim_tokens (s_limiter s))%Z →
  Forall deliverable ms →
  linked a s → map_each encrypt ((λ m, signal.layout (msg_signal (peerPubKey s) m)) <$> ms) a = (Ret frames, a') →
  wp (readLoop c sid) (λ o y', (∃ e, o = Err e) ∧
    (∀ id, msg_view (priv c) (db (cw_store y')) id = received (peerPubKey s) ms (msg_view (priv c) (db (cw_store y))) id) ∧
    sessions y' = delete (peerPubKey s) (sessions y) ∧
    ∃ s', heap y' !! sid = Some s' ∧ closed s' ∧ c_out <$> s_conn s' = Some out) y.
Proof.
  intros Hf Hn Hck Hi Hs Hc Hw Hst Hlim Htok Hms Hl He. unfold readLoop. apply wp_bind.
  unfold wp at 1. rewrite (sess_gets_run sid _ y s Hs). cbn [fst snd]. unfold wp, deferring.
  rewrite bind_run, (sess_modify_run sid _ y s Hs). set (y1 := set_heap _ y). set (s1 := SetReadLimit _ s) in *.
  assert (heap y1 !! sid = Some s1) as Hs1 by (apply list_lookup_insert_eq; by eapply lookup_lt_Some).
  assert (s_conn s1 = Some (MkConn frames out false (c_MaxMessageSize c))) as Hc1
    by (unfold s1, SetReadLimit; cbn; by rewrite Hc).
  rewrite bind_run, (sess_gets_run sid unread y1 s1 Hs1). assert (unread s1 = length frames) as -> by (unfold unread; by rewrite Hc1).
  pose proof (read_frames_messages ms sid (peerPubKey s) frames out (c_MaxMessageSize c) s1 y1 a a' Hf Hn Hck) as Hr.
  unfold wp in Hr. destruct (read_frames c _ sid (peerPubKey s) y1) as [o y2]. cbn [fst snd] in Hr.
  destruct Hr as ([e ->] & Hv & Hse & s2 & Hh2 & Hc2); [done..|].
  assert (heap y2 !! sid = Some s2) as Hs2 by (rewrite Hh2; apply list_lookup_insert_eq; by eapply lookup_lt_Some).
  pose proof (cleanup_run sid (peerPubKey s) s2 _ y2 Hn Hs2 Hc2) as Hcl. unfold wp in Hcl.
  destruct (cleanup sid (peerPubKey s) y2) as [o3 y3]. cbn [fst snd] in *. destruct Hcl as (-> & Hse3 & [Hch3 _] & s3 & Hs3 & Hcl3 & Ho3 & _).
  cbn [fst snd]. split; [by eexists|]. split; [|split; [by rewrite Hse3, Hse|by exists s3]].
  intros id. rewrite (msg_view_chats (priv c) (db (cw_store y2))) by done. apply Hv.
Qed.
End Receive.

(** ** Accepting a connection of a known peer *)

Section Accept.
Context {P : Platform} {PL : PlatformLaws P} {E : Env} (c : Client).

(** The peer is in the database, accepted. *)
Definition befriended (k : Key) (d : DB) : Prop :=
  ∃ p, peer_view d k = Some p ∧ KnownPeerStore.Status p = Accepted.

Lemma Get_befriended k x :
  no_faults E → befriended k (db (cw_store x)) →
  wp (on_store (KnownPeerStore.Get k)) (λ o x', x' = set_store (cw_store x') x ∧ same (cw_store x) (cw_store x') ∧
    ∃ p, o = Ret p ∧ KnownPeerStore.Status p = Accepted ∧ KnownPeerStore.PubKey p = k) x.
Proof.
  intros Hn (p & Hp & Hst). eapply wp_conseq; [apply on_store_wp, PeerGet_wp|]. intros o x' [[Hs Ho] Hx].
  split; [done|]. split; [done|]. destruct o as [q|e|q]; [|by destruct Ho as [Ho _]; rewrite Ho in Hp|done].
  rewrite Hp in Ho. injection Ho as <-. exists p. split; [done|]. split; [done|]. by eapply peer_view_key.
Qed.

Lemma check_ws_befriended remote ip port k x :
  no_faults E → k ≠ pub c → net_SplitHostPort remote = Ret (ip, port) → befriended k (db (cw_store x)) →
  sessions x !! k = None →
  wp (check_ws c (transport_prefix ++ Key_String k) remote) (λ o x', o = Ret (inl (k, Accepted)) ∧
    x' = set_store (cw_store x') x ∧ same (cw_store x) (cw_store x')) x.
Proof.
  intros Hn Hne Hr Hb Hk. unfold check_ws, TrimPrefix, HasPrefix.
  rewrite take_app_length, bool_decide_true, drop_app_length by done. cbv zeta.
  destruct (Key_String_plain k) as (_ & _ & ->). cbn [negb]. rewrite FromHex_String, bool_decide_false, Hr by done.
  unfold admit_peer. apply wp_bind, wp_bind, wp_attempt. eapply wp_conseq; [by apply (Get_befriended k x)|].
  intros ? x1 (Hx1 & Hs & p & -> & Hst & _). apply wp_ret. rewrite Hst, bool_decide_false by done.
  apply wp_bind. unfold sessions_Load. apply wp_gets. rewrite Hx1. cbn. rewrite Hk. by apply wp_ret.
Qed.

Lemma closeExisting_none k x : sessions x !! k = None → closeExistingSession k x = (Ret tt, x).
Proof. intros Hk. unfold closeExistingSession, sessions_Load, gets. by rewrite bind_run, Hk. Qed.

(** The limiter of a new session allows as many messages as its limit. *)
Definition limits_ok : Prop := (0 < c_RateLimit c < big)%Z ∧ (0 <= c_RateWindow c < big)%Z.

(** [handleWS] on the frames of a peer that dials, sends messages and leaves:
    the key the peer agrees with is chosen before it is heard. *)
Lemma handleWS_messages remote ip port k x :
  no_faults E → net_ok E → clock_ok (E:=E) → steady_clock (E:=E) → limits_ok → client_inv c x →
  sound (c_Keys c) (own_name (db (cw_store x))) →
  k ≠ pub c → net_SplitHostPort remote = Ret (ip, port) → befriended k (db (cw_store x)) → sessions x !! k = None →
  ∃ e : vec byte 32, ∀ p pe frames ms a a', honest_peer c p pe → ourStatic p = k →
  within (c_MaxMessageSize c) (kx_frame p (pub_of pe) :: frames) →
  Forall deliverable ms → (Z.of_nat (length ms) <= c_RateLimit c)%Z →
  (∀ shared, x25519_ECDH pe (x25519_Public e) = Some shared →
     sendr a = sendr (established p true shared (kx_of p (pub_of pe)))) →
  map_each encrypt ((λ m, signal.layout (msg_signal k m)) <$> ms) a = (Ret frames, a') →
  wp (handleWS c (transport_prefix ++ Key_String k) remote (Ret (MkConn (kx_frame p (pub_of pe) :: frames) [] false 0)))
    (λ o x', o = Ret Served ∧ sessions x' !! k = None ∧
      (∀ id, msg_view (priv c) (db (cw_store x')) id = received k ms (msg_view (priv c) (db (cw_store x))) id) ∧
      ∃ s outs, heap x' !! length (heap x) = Some s ∧ closed s ∧
        c_out <$> s_conn s = Some (kx_frame (party (c_Keys c) (own_name (db (cw_store x)))) (pub_of e) :: outs)) x.
Proof.
  intros Hf Hn Hclk Hck Hlim Hi Hso Hne Hr Hb Hk. set (nm := own_name (db (cw_store x))) in *.
  pose proof (check_ws_befriended remote ip port k x Hf Hne Hr Hb Hk) as Hcw.
  pose proof (check_ws_inv c 0 (transport_prefix ++ Key_String k) remote x Hi) as Hi1. unfold wp in Hcw.
  destruct (check_ws c (transport_prefix ++ Key_String k) remote x) as [o1 x1] eqn:Ecw. cbn [fst snd] in Hcw, Hi1.
  destruct Hcw as (-> & Hx1 & Hs1). assert (heap x1 = heap x ∧ sessions x1 = sessions x) as [Hh1 Hse1] by by rewrite Hx1.
  assert ((getName x1).1 = Ret nm) as Hnm by (rewrite (getName_run x1 Hf), (proj1 Hs1); done).
  destruct (open_accepted c x1 k nm Hf Hn (client_outbox c x1 Hclk Hi1) Hso Hnm) as (e & t & Hopen). exists e.
  intros p pe frames ms a a' Hp Hpk Hw Hms Hlen Hl He. specialize (Hopen p pe frames Hp Hw). cbv zeta in Hopen.
  set (conn := MkConn _ _ _ _) in *. pose proof (open_session_inv c 0 conn k Accepted x1 Hi1) as Hi2. unfold wp in Hopen.
  unfold wp, handleWS. rewrite bind_run, Ecw, bind_run, (closeExisting_none k x1) by by rewrite Hse1.
  rewrite bind_run. unfold startSession. rewrite bind_run.
  destruct (open_session c conn k Accepted x1) as [o2 x2]. cbn [fst snd] in Hopen, Hi2.
  destruct Hopen as (-> & shared & Hshared & entries & s' & _ & _ & Hsent & Hs2 & Hse2 & Hch2). rewrite Hh1 in Hs2.
  set (s0 := fresh c conn nm (env_now t) Accepted) in *. pose proof (sent_frame _ _ _ Hsent) as Hfr.
  assert (peerPubKey s' = k) as Hpeer.
  { rewrite Hfr. transitivity (peerPubKey (exchanged false (c_MaxMessageSize c) s0 p pe e shared frames)); [done|].
    rewrite exchanged_peer; [done|apply Hp]. }
  destruct Hsent as (own & s1 & cn & _ & Hcn & Hs'). injection Hcn as <-.
  pose proof (readLoop_messages c ms (length (heap x)) s' frames (kx_frame s0 (pub_of e) :: own) (c_MaxMessageSize c) x2 a a'
    Hf Hn Hck (proj1 Hi2) Hs2) as Hrl. rewrite Hpeer in Hrl. unfold wp in Hrl. rewrite Hh1.
  unfold ignore. destruct (readLoop c (length (heap x)) x2) as [o3 x3]. cbn [fst snd] in Hrl.
  destruct Hrl as ([e3 ->] & Hv & Hse3 & s3 & Hs3 & Hcl & Ho3).
  { by rewrite Hs'. }
  { by eapply within_tail. }
  { by rewrite Hfr. }
  { rewrite Hfr. cbn. unfold limits_ok in Hlim. pose proof (Hck t). unfold limiter_wf. cbn. lia. }
  { rewrite Hfr. exact Hlen. }
  { exact Hms. }
  { split; [|destruct (established_linked p p shared (kx_of p (pub_of pe)) (kx_of p (pub_of pe)) (s_conn p) (s_conn p)) as [(_ & Hwf & Hkey) _]].
    - rewrite (Hl shared Hshared), Hfr. done.
    - by rewrite (Hl shared Hshared). }
  { exact He. }
  cbn [mret M_ret fst snd]. split; [done|]. split; [by rewrite Hse3, lookup_delete_eq|]. split.
  - intros id. rewrite Hv. apply received_ext. intros id'. rewrite (msg_view_chats (priv c) (db (cw_store x))); [done|].
    by rewrite Hch2, (proj1 Hs1).
  - exists s3, own. by rewrite Ho3.
Qed.
End Accept.

(** ** Dialling a known peer *)

Section Dial.
Context {P : Platform} {PL : PlatformLaws P} {E : Env} (c : Client).

(** The session [dialAndHandshake] makes. *)
Definition dialled (conn : Conn) (nm : gostring) (now : Z) : Session :=
  newSession conn nm (c_Keys c) (c_Timeout c) (c_RateLimit c) (c_RateWindow c) now.

Lemma storeSession_befriended k sid s x :
  no_faults E → net_ok E → outbox_inv (priv c) (db (cw_store x)) →
  heap x !! sid = Some s → peerPubKey s = k → open s → befriended k (db (cw_store x)) → sessions x !! k = None →
  wp (storeSession c sid) (λ o x', o = Ret tt ∧ joined c k sid (setStatus Accepted s) x x') x.
Proof.
  intros Hf Hn Hob Hs Hpk Ho Hb Hk. unfold storeSession. apply wp_bind.
  unfold wp at 1. rewrite (sess_gets_run _ _ _ _ Hs). cbn [fst snd]. rewrite Hpk.
  apply wp_bind. unfold sessions_Load. apply wp_gets. rewrite Hk.
  apply wp_bind, wp_attempt. eapply wp_conseq; [by apply (Get_befriended k x)|].
  intros ? x1 (Hx1 & [Hd1 _] & q & -> & Hst & Hq). rewrite Hst.
  assert (heap x1 !! sid = Some s) as Hs1 by by rewrite Hx1.
  apply wp_bind, wp_bind. unfold wp at 1. rewrite (sess_modify_run _ _ _ _ Hs1). cbn [fst snd].
  set (s2 := setStatus Accepted s). set (x2 := set_heap _ x1).
  assert (heap x2 !! sid = Some s2) as Hs2 by (apply list_lookup_insert_eq; by eapply lookup_lt_Some).
  apply wp_bind. unfold wp at 1. rewrite (sess_gets_run _ _ _ _ Hs2). cbn [fst snd].
  apply wp_ignore. eapply wp_conseq; [apply on_store_wp, PeerAdd_wp|]. intros o3 x3 [(_ & _ & Ho3) Hx3].
  destruct o3 as [[]|e|p]; [|by destruct Ho3|done].
  assert (heap x3 = heap x2 ∧ sessions x3 = sessions x) as [Hh3 Hse3] by (rewrite Hx3; split; [done|]; cbn; by rewrite Hx1).
  apply wp_bind, wp_modify. set (x4 := set_sessions _ x3).
  assert (outbox (db (cw_store x4)) = outbox (db (cw_store x)) ∧ chats (db (cw_store x4)) = chats (db (cw_store x))) as [Hout Hch]
    by (cbn; rewrite Ho3; cbn; by rewrite Hd1).
  eapply wp_conseq; [apply (flush_filed_wp c k sid s2 x4 Hf Hn)|].
  - by eapply outbox_inv_outbox.
  - apply lookup_insert_eq.
  - by rewrite <-Hs2, <-Hh3.
  - exact Ho.
  - done.
  - intros o x5 (-> & entries & s5 & He & Hsent & (Hh5 & Hse5 & _) & Hw & Hch5). split; [done|]. exists entries, s5.
    rewrite (waiting_outbox _ _ _ _ Hout) in He. do 3 (split; [done|]). split.
    { rewrite Hh5. apply list_lookup_insert_eq. change (sid < length (heap x3)). rewrite Hh3. by eapply lookup_lt_Some. }
    split; [rewrite Hse5; cbn; by rewrite Hse3|]. by rewrite Hch5.
Qed.

Lemma dial_befriended k x nm :
  no_faults E → net_ok E → outbox_inv (priv c) (db (cw_store x)) →
  sound (c_Keys c) nm → (getName x).1 = Ret nm → befriended k (db (cw_store x)) → sessions x !! k = None →
  ∃ (e : vec byte 32) t, ∀ p pe rest addr, honest_peer c p pe → ourStatic p = k →
  let conn := MkConn (kx_frame p (pub_of pe) :: rest) [] false 0 in
  wp (dialAndHandshake c addr (Dialed conn)) (λ o x', o = Ret (length (heap x)) ∧
    ∃ shared, x25519_ECDH pe (x25519_Public e) = Some shared ∧
      joined c k (length (heap x)) (setStatus Accepted (exchanged true 0 (dialled conn nm (env_now t)) p pe e shared rest)) x x') x.
Proof.
  intros Hf Hn Hob (Hk & Hnz & Hnl) Hnm Hb Hno. destruct (new_session_run c x nm Hnm) as (w & t & Hw & Hnew).
  destruct (proj2 Hn (tick w)) as [e He]. exists e, t.
  intros p pe rest addr (Hkp & Hpp & Hpz & Hpne & Hpn & Hsh) Hpk conn. set (s0 := dialled conn nm (env_now t)).
  set (sid := length (heap x)). unfold dialAndHandshake. apply wp_bind. unfold wp at 1. rewrite Hnew. cbn [fst snd].
  fold sid. set (x1 := MkCW w _ _ _). assert (heap x1 !! sid = Some s0) as Hs1 by by apply list_lookup_middle.
  apply wp_bind, wp_attempt. eapply wp_conseq.
  { apply (session_handshake 0 true s0 p pe rest [] x1 sid e Hn Hs1); try done. repeat (split; [done|]). by left. }
  intros ? x2 (-> & Hs2 & shared & Hshared & Hx2). cbn [app] in Hx2. fold (exchanged true 0 s0 p pe e shared rest) in Hx2.
  set (s2 := exchanged true 0 s0 p pe e shared rest) in *.
  assert (peerPubKey s2 = k) as Hpeer by (unfold s2; by rewrite exchanged_peer).
  assert (heap x2 !! sid = Some s2) as Hsid2.
  { rewrite (proj1 Hx2). apply list_lookup_insert_eq. by eapply lookup_lt_Some. }
  assert (db (cw_store x2) = db (cw_store x)) as Hd by (destruct Hw, Hs2; cbn in *; congruence).
  unfold addIfNew. apply wp_bind, wp_bind. unfold wp at 1. rewrite (sess_gets_run _ _ _ _ Hsid2). cbn [fst snd]. rewrite Hpeer.
  apply wp_bind, wp_attempt. eapply wp_conseq; [apply (Get_befriended k x2 Hf); by rewrite Hd|].
  intros ? x3 (Hx3 & [Hd3 _] & q & -> & _). cbv zeta. cbn [when]. apply wp_bind, wp_ret, wp_ret. rewrite Hd in Hd3.
  assert (heap x3 = heap x2 ∧ sessions x3 = sessions x) as [Hh3 Hse3] by (rewrite Hx3; split; [done|]; cbn; by rewrite (proj1 (proj2 Hx2))).
  apply wp_bind, wp_attempt. eapply wp_conseq; [apply (storeSession_befriended k sid s2 x3 Hf Hn)|].
  - by rewrite Hd3.
  - by rewrite Hh3.
  - done.
  - apply exchanged_open.
  - by rewrite Hd3.
  - by rewrite Hse3.
  - intros o x4 (-> & Hj). apply wp_bind, wp_ret, wp_ret. split; [done|]. exists shared. split; [done|].
    unfold joined in *. by rewrite Hd3, Hse3 in Hj.
Qed.
End Dial.

(** ** Store and forward *)

Section Meeting.
Context {P : Platform} {PL : PlatformLaws P}.

(** Two public keys made from private ones always agree on a secret. *)
Definition x25519_total : Prop := ∀ p q, is_Some (x25519_ECDH p (x25519_Public q)).

Lemma party_honest c k nm e : x25519_total → sound k nm → Public k ≠ pub c → honest_peer c (party k nm) e.
Proof. intros Hx (H1 & H2 & H3) Hne. by repeat (split; [done|]). Qed.

(** C1: Store and forward: what waited for a peer that was away is in its store
    after they meet. One client dials another that accepted it; each runs its
    own code on what the other writes. The dialling side ends with an accepted
    session under the peer's key, nothing left in its outbox for it, and a first
    frame followed by the queued signals on the wire; the accepting side, run
    to the end of the connection on exactly those frames, has every queued
    message in its store, its other messages as before, and no session left;
    its own first frame is the one the dialling side was given. *)
Theorem store_and_forward (Ea Eb : Env) (a b : Client) (x y : CW) (remote ip port : gostring) :
  x25519_total →
  no_faults Ea → net_ok Ea → clock_ok (E:=Ea) → client_inv (E:=Ea) a x →
  no_faults Eb → net_ok Eb → clock_ok (E:=Eb) → steady_clock (E:=Eb) → limits_ok b → client_inv (E:=Eb) b y →
  sound (c_Keys a) (own_name (db (cw_store x))) → sound (c_Keys b) (own_name (db (cw_store y))) → pub a ≠ pub b →
  befriended (pub b) (db (cw_store x)) → befriended (pub a) (db (cw_store y)) →
  sessions x !! pub b = None → sessions y !! pub a = None → net_SplitHostPort remote = Ret (ip, port) →
  ∃ ea eb : vec byte 32,
  let fa := kx_frame (party (c_Keys a) (own_name (db (cw_store x)))) (pub_of ea) in
  let fb := kx_frame (party (c_Keys b) (own_name (db (cw_store y)))) (pub_of eb) in
  ∀ addr rest, ∃ sid x' s entries frames,
  dialAndHandshake (E:=Ea) a addr (Dialed (MkConn (fb :: rest) [] false 0)) x = (Ret sid, x') ∧
  sessions x' !! pub b = Some sid ∧ heap x' !! sid = Some s ∧ status s = Accepted ∧ peerPubKey s = pub b ∧
  s_conn s = Some (MkConn rest (fa :: frames) false 0) ∧
  entries ≡ₚ waiting (priv a) (db (cw_store x)) (pub b) ∧ waiting (priv a) (db (cw_store x')) (pub b) = [] ∧
  ∀ ms, OutboxStore.SignalContent <$> entries = (λ m, signal.layout (msg_signal (pub a) m)) <$> ms →
  Forall deliverable ms → (Z.of_nat (length ms) <= c_RateLimit b)%Z → within (c_MaxMessageSize b) (fa :: frames) →
  wp (handleWS (E:=Eb) b (dial_path a) remote (Ret (MkConn (fa :: frames) [] false 0))) (λ o y',
    o = Ret Served ∧ sessions y' !! pub a = None ∧
    (∀ id, msg_view (priv b) (db (cw_store y')) id = received (pub a) ms (msg_view (priv b) (db (cw_store y))) id) ∧
    ∃ sB outs, heap y' !! length (heap y) = Some sB ∧ closed sB ∧ c_out <$> s_conn sB = Some (fb :: outs)) y.
Proof.
  intros Hx Hfa Hna Hca Hia Hfb Hnb Hcb Hck Hlim Hib Hsa Hsb Hne Hba Hbb Hka Hkb Hr.
  destruct (dial_befriended (E:=Ea) a (pub b) x _ Hfa Hna (client_outbox a x Hca Hia) Hsa (getName_run x Hfa) Hba Hka)
    as (ea & t & Hdial).
  destruct (handleWS_messages (E:=Eb) b remote ip port (pub a) y Hfb Hnb Hcb Hck Hlim Hib Hsb Hne Hr Hbb Hkb) as (eb & Hws).
  exists ea, eb. intros fa fb addr rest.
  specialize (Hdial (party (c_Keys b) (own_name (db (cw_store y)))) eb rest addr (party_honest a _ _ _ Hx Hsb (not_eq_sym Hne)) eq_refl).
  unfold wp in Hdial. fold fb in Hdial. cbv zeta in Hdial. destruct (dialAndHandshake a addr _ x) as [o x']. cbn [fst snd] in Hdial.
  destruct Hdial as (-> & shared & Hshared & entries & s & He & Hw & Hsent & Hs & Hse & _).
  pose proof (sent_frame _ _ _ Hsent) as Hfr. destruct Hsent as (frames & s1 & cn & Henc & Hcn & Hs'). injection Hcn as <-.
  eexists _, x', s, entries, frames. split; [done|]. split; [by rewrite Hse, lookup_insert_eq|]. split; [done|].
  split; [by rewrite Hfr|]. split.
  { rewrite Hfr. exact (exchanged_peer true 0 (dialled a (MkConn (fb :: rest) [] false 0) (own_name (db (cw_store x))) (env_now t))
      (party (c_Keys b) (own_name (db (cw_store y)))) eb ea shared rest (proj1 (proj2 Hsb))). }
  split; [by rewrite Hs'|].
  do 2 (split; [done|]). intros ms Hms Hdel Hlen Hin.
  eapply (Hws (party (c_Keys a) _) ea frames ms _ s1); [by apply party_honest|done|exact Hin|exact Hdel|exact Hlen| |by rewrite <-Hms].
  intros shared' Hsh'. rewrite x25519_agree, Hshared in Hsh'. by injection Hsh' as <-.
Qed.
End Meeting.

(** ** An instance *)

Section Witness.
Let client (name : gostring) : Client := MkClient (keys_of_seed (C:=toy_crypto) (vec_to_list (array_of 32 name)))
  DefaultTimeout DefaultRateLimit DefaultRateWindow 0.
Let alice : Client := client (lit "alice").
Let bob : Client := client (lit "bob").

(** A client that accepted a peer. *)
Let knowing (k : Key) : CW := (on_store (KnownPeerStore.Add (P:=toy_platform) (E:=toy_env)
  (KnownPeerStore.MkPeer [] k [] [] Accepted false zero_time NilUUID)) initial).2.

(** Alice writes to Bob, who is away. *)
Let x : CW := (sendMessageToPeer (P:=toy_platform) (E:=toy_env) alice (pub bob) message.wit_msg (knowing (pub bob))).2.
Let y : CW := knowing (pub alice).

Lemma wit_knowing c k : client_inv (P:=toy_platform) (E:=toy_env) c (knowing k).
Proof.
  apply (on_store_inv (P:=toy_platform) (E:=toy_env) c 0); [|apply (initial_inv (P:=toy_platform) (E:=toy_env) c)].
  auto with chat.
Qed.

Lemma wit_x_inv : client_inv (P:=toy_platform) (E:=toy_env) alice x.
Proof.
  apply (sendMessageToPeer_inv (P:=toy_platform) (E:=toy_env) (PL:=toy_platform_laws) alice 0); [exact wit_sizes_ok|apply wit_knowing].
Qed.

Lemma wit_sound n : Public (c_Keys (client n)) ≠ NilKey → sound (P:=toy_platform) (c_Keys (client n)) [].
Proof. intros Hn. split; [apply wit_keys_wf, length_vec_to_list|]. split; [exact Hn|]. by vm_compute. Qed.

Lemma wit_deliverable : deliverable (set_FromPubKey (pub alice) message.wit_msg).
Proof.
  split; [split; [exact wit_sizes_ok|]; split|split].
  - apply (bool_decide_unpack (message.encodable (set_FromPubKey (pub alice) message.wit_msg))). vm_compute. exact I.
  - vm_compute. discriminate.
  - vm_compute. repeat split; discriminate.
  - exact wit_id.
Qed.

Lemma store_and_forward_witness :
  ∃ ea eb frames sid x' y',
  let fa := kx_frame (P:=toy_platform) (party (c_Keys alice) []) (pub_of (P:=toy_platform) ea) in
  let fb := kx_frame (P:=toy_platform) (party (c_Keys bob) []) (pub_of (P:=toy_platform) eb) in
  dialAndHandshake (P:=toy_platform) (E:=toy_env) alice [] (Dialed (MkConn [fb] [] false 0)) x = (Ret sid, x') ∧
  handleWS (P:=toy_platform) (E:=toy_env) bob (dial_path alice) (lit "10.0.0.1:4000")
    (Ret (MkConn (fa :: frames) [] false 0)) y = (Ret Served, y') ∧
  msg_view (P:=toy_platform) (priv bob) (db (cw_store y')) (message.MsgID message.wit_msg)
    = Some (set_FromPubKey (pub alice) message.wit_msg).
Proof.
  assert (x25519_total (P:=toy_platform)) as Hx by (intros p q; eexists; reflexivity).
  assert (steady_clock (E:=toy_env)) as Hck.
  { intros t. unfold big. cbn [env_now toy_env]. pose proof (Z.mod_pos_bound (Z.of_nat t) 1000000000 ltac:(lia)). lia. }
  destruct (store_and_forward (P:=toy_platform) (PL:=toy_platform_laws) toy_env toy_env alice bob x y (lit "10.0.0.1:4000")
    (lit "10.0.0.1") (lit "4000") Hx toy_env_no_faults toy_env_net_ok toy_clock_ok wit_x_inv toy_env_no_faults toy_env_net_ok
    toy_clock_ok Hck) as (ea & eb & H).
  - vm_compute. repeat split; (discriminate || reflexivity).
  - apply wit_knowing.
  - apply wit_sound. by apply (bool_decide_unpack _).
  - apply wit_sound. by apply (bool_decide_unpack _).
  - by apply (bool_decide_unpack _).
  - eexists. split; vm_compute; reflexivity.
  - eexists. split; vm_compute; reflexivity.
  - vm_compute. reflexivity.
  - vm_compute. reflexivity.
  - vm_compute. reflexivity.
  - destruct (H [] []) as (sid & x' & s & entries & frames & Hrun & _ & _ & _ & _ & _ & He & _ & Hws).
    assert (∃ e, waiting (P:=toy_platform) (priv alice) (db (cw_store x)) (pub bob) = [e] ∧
      OutboxStore.SignalContent e = signal.layout (msg_signal (pub alice) (set_FromPubKey (pub alice) message.wit_msg))) as (e & Hwait & Hcon)
      by (eexists; split; vm_compute; reflexivity).
    rewrite Hwait in He. apply Permutation_singleton_r in He. subst entries.
    specialize (Hws [set_FromPubKey (pub alice) message.wit_msg]). unfold wp in Hws.
    destruct Hws as (Ho & _ & Hv & _); [cbn; by rewrite Hcon|by repeat constructor; apply wit_deliverable|by vm_compute|by left|].
    eexists ea, eb, frames, sid, x', _. split; [exact Hrun|]. split; [by rewrite <-Ho, <-surjective_pairing|].
    rewrite Hv. cbn [received]. by rewrite decide_True.
Defined.
End Witness.
