(* ===== verification/Impersonation.v ===== *)
(** * Whose session is it (client/handlers.go)

    [handleWS] takes the peer's key from the URL and decides on it; the session
    that the key exchange then authenticates may belong to another key. What
    follows from the two never being compared. *)

From S2P Require Import Prelude Net NetFacts Config Crypto Keys Signal Message Wire RateLimit Base64 Monad Platform.
From S2P Require Import Store MessageStore StoreFacts Tables Session SessionFacts Handshake Client Handlers ClientFacts Delivery ReadLoop Opening Api Reach Security Routes Meeting.

(** ** A connection under another's name *)

Section Open.
Context {P : Platform} {PL : PlatformLaws P} {E : Env} (c : Client).

(** C36: The key a connection asks for is never compared with the key that is
    authenticated. A connection whose URL names an accepted peer [k] is served
    whoever completes the key exchange on it, with keys of their own: the
    session has that peer's status, its wire holds the whole outbox that waited
    for [k], readable with the keys the stranger derived, and nothing waits for
    [k] any longer. When the stranger hangs up, the entry of the stranger's own
    key is deleted, so the closed session stays filed under [k]. *)
Theorem url_key_impersonation (x : CW) (k : Key) (remote ip port : gostring) :
  no_faults E → net_ok E → clock_ok (E:=E) → client_inv c x →
  sound (c_Keys c) (own_name (db (cw_store x))) →
  k ≠ pub c → net_SplitHostPort remote = Ret (ip, port) → befriended k (db (cw_store x)) → sessions x !! k = None →
  ∃ e : vec byte 32, ∀ p pe, honest_peer c p pe →
  within (c_MaxMessageSize c) [kx_frame p (pub_of pe)] →
  let ours := party (c_Keys c) (own_name (db (cw_store x))) in
  wp (handleWS c (transport_prefix ++ Key_String k) remote (Ret (MkConn [kx_frame p (pub_of pe)] [] false 0))) (λ o x',
    o = Ret Served ∧
    sessions x' = delete (ourStatic p) (<[k := length (heap x)]> (sessions x)) ∧
    waiting (priv c) (db (cw_store x')) k = [] ∧
    ∃ s entries frames shared, heap x' !! length (heap x) = Some s ∧
      status s = Accepted ∧ peerPubKey s = ourStatic p ∧ closed s ∧
      c_out <$> s_conn s = Some (kx_frame ours (pub_of e) :: frames) ∧
      entries ≡ₚ waiting (priv c) (db (cw_store x)) k ∧
      x25519_ECDH pe (x25519_Public e) = Some shared ∧
      (map_each decrypt frames (established p true shared (kx_of ours (pub_of e)))).1
        = Ret (OutboxStore.SignalContent <$> entries)) x.
Proof.
  intros Hf Hn Hclk Hi Hso Hne Hr Hb Hk. set (nm := own_name (db (cw_store x))) in *.
  pose proof (check_ws_befriended c remote ip port k x Hf Hne Hr Hb Hk) as Hcw.
  pose proof (check_ws_inv c 0 (transport_prefix ++ Key_String k) remote x Hi) as Hi1. unfold wp in Hcw.
  destruct (check_ws c (transport_prefix ++ Key_String k) remote x) as [o1 x1] eqn:Ecw. cbn [fst snd] in Hcw, Hi1.
  destruct Hcw as (-> & Hx1 & Hs1). assert (heap x1 = heap x ∧ sessions x1 = sessions x) as [Hh1 Hse1] by by rewrite Hx1.
  assert ((getName x1).1 = Ret nm) as Hnm by (rewrite (getName_run x1 Hf), (proj1 Hs1); done).
  destruct (open_accepted c x1 k nm Hf Hn (client_outbox c x1 Hclk Hi1) Hso Hnm) as (e & t & Hopen). exists e.
  intros p pe Hp Hw ours. specialize (Hopen p pe [] Hp Hw). cbv zeta in Hopen. set (conn := MkConn _ _ _ _) in *. unfold wp in Hopen.
  unfold wp, handleWS. rewrite bind_run, Ecw, bind_run, (closeExisting_none k x1) by by rewrite Hse1.
  rewrite bind_run. unfold startSession. rewrite bind_run.
  destruct (open_session c conn k Accepted x1) as [o2 x2]. cbn [fst snd] in Hopen.
  destruct Hopen as (-> & shared & Hshared & entries & s' & He & Hwt & Hsent & Hs2 & Hse2 & _). rewrite Hh1 in Hs2.
  rewrite (proj1 Hs1) in He. rewrite Hh1, Hse1 in Hse2.
  set (s0 := fresh c conn nm (env_now t) Accepted) in *.
  destruct (established_linked p s0 shared (kx_of s0 (pub_of e)) (kx_of p (pub_of pe)) (s_conn p)
    (Some (MkConn [] [kx_frame s0 (pub_of e)] false (c_MaxMessageSize c)))) as [_ Hl].
  destruct (sent_linked _ _ _ _ Hl Hsent) as (frames & cn & att' & Hc & Hc' & Hdec & _). injection Hc as <-.
  pose proof (sent_frame _ _ _ Hsent) as Hfr.
  assert (status s' = Accepted ∧ peerPubKey s' = ourStatic p) as [Hst Hpk].
  { rewrite Hfr. split; [done|]. exact (exchanged_peer false (c_MaxMessageSize c) s0 p pe e shared [] (proj1 (proj2 (proj2 Hp)))). }
  pose proof (readLoop_silent c (length (heap x)) s' _ _ x2 Hn Hs2 Hc') as Hrl. unfold wp in Hrl. rewrite Hh1.
  unfold ignore. destruct (readLoop c (length (heap x)) x2) as [o3 x3]. cbn [fst snd] in Hrl.
  destruct Hrl as ([e3 ->] & Hse3 & [_ Hob3] & s3 & Hs3 & Hcl & Ho3 & Hst3 & Hp3). cbn [mret M_ret fst snd].
  split; [done|]. split; [by rewrite Hse3, Hpk, Hse2|]. split; [by rewrite (waiting_outbox _ _ _ _ Hob3)|].
  exists s3, entries, frames, shared. split; [done|]. split; [by rewrite Hst3|]. split; [by rewrite Hp3|].
  split; [done|]. split; [exact Ho3|]. split; [done|]. split; [done|]. exact (f_equal fst Hdec).
Qed.
End Open.

(** ** The session that stays *)

Section Stale.
Context {P : Platform} {PL : PlatformLaws P} {E : Env} (c : Client).

Lemma admit_peer_wp k ip x :
  wp (admit_peer k ip) (λ o x', (∃ r, o = Ret r) ∧ sessions x' = sessions x) x.
Proof.
  unfold admit_peer. wp_use (on_store_wp _ _ x (PeerGet_wp k (cw_store x))) as o x1 [[_ Ho] Hx1].
  assert (sessions x1 = sessions x) as Hs1 by by rewrite Hx1.
  destruct o as [p|e|p]; [apply wp_ret; eauto| |done].
  destruct (os_IsNotExist e); [|apply wp_ret; eauto]. cbn [negb].
  apply wp_bind, wp_attempt. eapply wp_conseq; [apply on_store_wp, PeerAdd_wp|].
  intros o2 x2 [(_ & _ & Ho2) Hx2]. assert (sessions x2 = sessions x) as Hs2 by by rewrite Hx2.
  destruct o2 as [[]|e2|p]; [| |done]; apply wp_ret; eauto.
Qed.

(** While the map has an entry for a key, no connection for it is admitted. *)
Lemma check_ws_refused path remote k sid x :
  sessions x !! k = Some sid → FromHex (TrimPrefix path transport_prefix) = Ret k →
  wp (check_ws c path remote) (λ o _, ∃ code, o = Ret (inr code)) x.
Proof.
  intros Hs Hk. unfold check_ws. cbv zeta. destruct (negb _); [apply wp_ret; eauto|]. rewrite Hk.
  case_bool_decide; [apply wp_ret; eauto|].
  destruct (net_SplitHostPort remote) as [[ip port]|e|p]; [|apply wp_ret; eauto..].
  apply wp_bind. eapply wp_conseq; [apply admit_peer_wp|]. intros o x1 [[[st|code] ->] Hs1]; [|apply wp_ret; eauto].
  case_bool_decide; [apply wp_ret; eauto|]. apply wp_bind. unfold sessions_Load. apply wp_gets.
  rewrite Hs1, Hs. apply wp_ret. eauto.
Qed.

(** A session filed under a key that is not the authenticated one outlives
    its connection: when its read loop ends, the map still holds the closed
    session under that key, and from then on every connection for the key is
    refused. *)
Theorem stale_session (k : Key) (sid : nat) (x : CW) (s : Session) (conn : Conn) :
  heap x !! sid = Some s → s_conn s = Some conn → sessions x !! k = Some sid → peerPubKey s ≠ k →
  wp (readLoop c sid) (λ o x', sessions x' !! k = Some sid ∧
    (∃ s', heap x' !! sid = Some s' ∧ closed s') ∧
    ∀ path remote, FromHex (TrimPrefix path transport_prefix) = Ret k →
      wp (check_ws c path remote) (λ o _, ∃ code, o = Ret (inr code)) x') x.
Proof.
  intros Hs Hc Hk Hne. pose proof (readLoop_wp c sid x s conn Hs Hc) as H. unfold wp at 1 in H. unfold wp at 1.
  destruct (readLoop c sid x) as [o x']. destruct H as (_ & Hse & Hcl).
  assert (sessions x' !! k = Some sid) as Hk' by (cbn in *; by rewrite Hse, lookup_delete_ne).
  split; [done|]. split; [done|]. intros path remote Hp. by eapply check_ws_refused.
Qed.
End Stale.

(** ** Instances *)

Section Witnesses.
Let cl : Client := MkClient (keys_of_seed (C:=toy_crypto) (vec_to_list (array_of 32 (lit "alice"))))
  DefaultTimeout DefaultRateLimit DefaultRateWindow MaxMessageSize.
Let mallory : Session := newSession (MkConn [] [] false 0) (lit "mallory")
  (keys_of_seed (C:=toy_crypto) (vec_to_list (array_of 32 (lit "mallory")))) DefaultTimeout 100 Minute 0.
Let bob : Key := array_of 32 (lit "bob").
Let eph : bytes := vec_to_list (array_of 32 (lit "e")).
Let first : bytes := kx_frame (P:=toy_platform) mallory (pub_of (P:=toy_platform) eph).
(** Bob is accepted and away, and something waits for him. *)
Let start : CW := (on_store (KnownPeerStore.Add (P:=toy_platform) (E:=toy_env)
    (KnownPeerStore.MkPeer [] bob [] [] Accepted false zero_time NilUUID);;
  OutboxStore.Put (P:=toy_platform) (E:=toy_env) bob (lit "for bob only") (priv cl)) initial).2.

Lemma wit_start_inv : client_inv (P:=toy_platform) (E:=toy_env) cl start.
Proof.
  apply (on_store_inv (P:=toy_platform) (E:=toy_env) cl 0); [|apply (initial_inv (P:=toy_platform) (E:=toy_env) cl)].
  apply preserves_bind; [auto with chat|]. intros _. apply world_both;
    [apply OutboxPut_store|apply (OutboxPut_typed (P:=toy_platform) (E:=toy_env) (PL:=toy_platform_laws))].
Qed.

(** Mallory reads what waited for Bob. *)
Lemma url_key_impersonation_witness :
  ∃ x' s frames shared peer, handleWS (P:=toy_platform) (E:=toy_env) cl (transport_prefix ++ Key_String bob) (lit "10.0.0.1:4000")
      (Ret (MkConn [first] [] false 0)) start = (Ret Served, x') ∧
    sessions x' !! bob = Some 0 ∧ heap x' !! 0 = Some s ∧ status s = Accepted ∧ peerPubKey s = ourStatic mallory ∧
    closed s ∧ (drop 1 ∘ c_out) <$> s_conn s = Some frames ∧
    (map_each (decrypt (C:=toy_crypto)) frames (established (P:=toy_platform) mallory true shared peer)).1 = Ret [lit "for bob only"] ∧
    waiting (P:=toy_platform) (priv cl) (db (cw_store x')) bob = [].
Proof.
  destruct (url_key_impersonation (P:=toy_platform) (PL:=toy_platform_laws) (E:=toy_env) cl start bob
    (lit "10.0.0.1:4000") (lit "10.0.0.1") (lit "4000")) as [e H].
  - exact toy_env_no_faults.
  - exact toy_env_net_ok.
  - exact toy_clock_ok.
  - exact wit_start_inv.
  - split; [apply wit_keys_wf, length_vec_to_list|]. split; [|by vm_compute].
    apply (bool_decide_unpack (Public (c_Keys cl) ≠ NilKey)). exact I.
  - apply (bool_decide_unpack (bob ≠ pub cl)). exact I.
  - vm_compute. reflexivity.
  - eexists. split; vm_compute; reflexivity.
  - reflexivity.
  - specialize (H mallory eph). cbv zeta in H. unfold wp in H. fold first in H.
    destruct (handleWS (P:=toy_platform) (E:=toy_env) cl _ _ _ start) as [o x']. cbn [fst snd] in H.
    destruct H as (-> & Hse & Hw & s & entries & frames & shared & Hs & Hst & Hp & Hcl & Ho & He & _ & Hdec).
    { split; [apply wit_keys_wf, length_vec_to_list|]. split; [reflexivity|].
      split; [apply (bool_decide_unpack (ourStatic mallory ≠ NilKey)); exact I|].
      split; [apply (bool_decide_unpack (ourStatic mallory ≠ pub cl)); exact I|].
      split; [vm_compute; discriminate|]. intros q. eexists. reflexivity. }
    { right. apply Forall_singleton. vm_compute. discriminate. }
    assert (∃ w, waiting (P:=toy_platform) (priv cl) (db (cw_store start)) bob = [w] ∧
      OutboxStore.SignalContent w = lit "for bob only") as (w & Hwait & Hcon) by (eexists; split; vm_compute; reflexivity).
    rewrite Hwait in He. apply Permutation_singleton_r in He. subst entries.
    exists x', s, frames, shared. eexists. split; [reflexivity|].
    split; [rewrite Hse, lookup_delete_ne; [apply lookup_insert_eq|apply (bool_decide_unpack (ourStatic mallory ≠ bob)); exact I]|].
    split; [exact Hs|]. split; [exact Hst|]. split; [exact Hp|]. split; [exact Hcl|].
    split; [destruct (s_conn s) as [cn|]; [injection Ho as Ho; cbn; by rewrite Ho|discriminate Ho]|].
    split; [|exact Hw]. etransitivity; [exact Hdec|]. cbn. by rewrite Hcon.
Defined.

Lemma stale_session_witness :
  let s := mallory in
  wp (readLoop (P:=toy_platform) (E:=toy_env) cl 0) (λ o x', sessions x' !! bob = Some 0 ∧
    (∃ s', heap x' !! 0 = Some s' ∧ closed s') ∧
    ∀ path remote, FromHex (TrimPrefix path transport_prefix) = Ret bob →
      wp (check_ws (P:=toy_platform) (E:=toy_env) cl path remote) (λ o _, ∃ code, o = Ret (inr code)) x')
    (MkCW empty_SW [mallory] (<[bob := 0]> ∅) ∅).
Proof.
  intros s. eapply (stale_session (P:=toy_platform) (E:=toy_env) cl bob 0);
    [reflexivity|reflexivity|apply lookup_insert_eq|].
  apply (bool_decide_unpack (peerPubKey mallory ≠ bob)). exact I.
Defined.
End Witnesses.
