(* ===== verification/Main.v ===== *)
(** * The program (cmd/main.go)

    The command line, the client, and what is set going: the server, the
    dialling of a peer, the reading of standard input. *)

From S2P Require Import Prelude Paths Mux Config Flags Crypto Keys Signal Message Wire RateLimit Base64 Monad Platform.
From S2P Require Import Store MessageStore StoreFacts Tables Session SessionFacts Client Handlers ClientFacts Api Reach Start Routes.

(** The goroutines of the program, besides the handler of the interrupt. *)
Record Running := MkRunning {
  run_process : Process;
  run_dials : option gostring;    (* ConnectToPeer, to this address *)
  run_stdin : bool;               (* stdinLoop *)
  run_server : Server
}.

Section Main.
Context {F : FlagLib} {P : Platform} {E : Env}.

Definition main (args : list gostring) (o : startenv) : M Host (may_exit Running) :=
  match Parse args with
  | Exited code => mret (Exited code)
  | Go (cfg, _) =>
      r ← NewClient cfg o;
      match r with
      | Exited code => mret (Exited code)
      | Go cl =>
          let dials := if bool_decide (PeerAddr cfg = []) then None else Some (p_peerAddr cl) in
          let '(stdin, srv) := Listen cl in
          mret (Go (MkRunning cl dials stdin srv))
      end
  end.

Lemma NewClient_fields cfg o h p h' :
  NewClient cfg o h = (Ret (Go p), h') →
  p_listenPort p = Port cfg ∧ p_certFile p = CertFile cfg ∧ p_keyFileTLS p = KeyFileTLS cfg ∧ p_peerAddr p = PeerAddr cfg ∧
  p_writeMode p = WriteMode cfg ∧ loadTLSConfig cfg o = Go (p_tlsConfig p) ∧ ∃ k, p_client p = client_of cfg k.
Proof.
  unfold NewClient. rewrite bind_run. destruct (keys_AutoLoad o h) as [[k|e|q] h1]; [|done..]. rewrite bind_run.
  destruct (store_New o (Derive k) h1) as [[path|e|q] h2]; [|done..].
  destruct (loadTLSConfig cfg o) as [tls|code] eqn:Et; [|done]. rewrite bind_run. cbn [get_state].
  destruct (client_New cfg (opened h2 path)) as [[[]|e|q] x]; rewrite bind_run; cbn; try done.
  intros [= <- _]. cbn. eauto 10.
Qed.

Context {PL : PlatformLaws P} {FL : FlagLaws F}.

(** What a configuration sets going. *)
Definition started_as (cfg : Config) (r : Running) : Prop :=
  srv_port (run_server r) = Port cfg ∧ srv_ReadTimeout (run_server r) = Timeout cfg ∧
  (if UseTLS cfg then srv_tls (run_server r) = Some (CertFile cfg, KeyFileTLS cfg) else srv_tls (run_server r) = None) ∧
  run_dials r = (if bool_decide (PeerAddr cfg = []) then None else Some (PeerAddr cfg)) ∧
  run_stdin r = WriteMode cfg && bool_decide (PeerAddr cfg = []).

(** C7: The program. Spelled-out flags start a client with them: the server on
    that port, with TLS exactly for two files, and either the dialling of the
    peer or, in write mode without one, the reading of standard input, never
    both. Whatever the arguments, a start is one of the steps a machine can
    take, and the exit status is 0 or 2 from the command line, or 1 for a
    certificate that does not load. *)
Theorem main_correct (o : startenv) (h : Host) :
  (∀ cfg, config_int64 cfg → sanitizeName unicode_IsPrint (ClientName cfg) = ClientName cfg →
    no_faults E → start_env_ok cfg o → ∃ r h', main (command_line cfg) o h = (Ret (Go r), h') ∧ started_as cfg r) ∧
  (∀ args r h', main args o h = (Ret (Go r), h') →
    (os_readdir_ok (st_os o) = true → mstep (Off h) (On h' (run_process r))) ∧
    (run_stdin r = true → run_dials r = None)) ∧
  (∀ args code h', os_readdir_ok (st_os o) = true → host_inv h → main args o h = (Ret (Exited code), h') →
    code = 0%Z ∨ code = 2%Z ∨ code = 1%Z ∧ st_cert_ok o = false).
Proof.
  split; [|split].
  - intros cfg Hc Hname Hn Ho. unfold main. rewrite Parse_command, Hname by done.
    replace (set_client (ClientName cfg) cfg) with cfg by by destruct cfg.
    destruct (NewClient_ok cfg o h Hn Ho) as (p & h' & HN). rewrite bind_run, HN.
    pose proof (NewClient_fields _ _ _ _ _ HN) as (H1 & H2 & H3 & H4 & H5 & H6 & k & H7).
    unfold Listen. do 2 eexists. split; [done|]. unfold started_as. cbn. unfold Client_UseTLS.
    rewrite H1, H2, H3, H4, H5, H7. repeat (split; [done|]). split; [|done].
    unfold loadTLSConfig in H6. destruct (UseTLS cfg); cbn in H6; [|by injection H6 as <-].
    destruct (st_cert_ok o); [by injection H6 as <-|done].
  - intros args r h'. unfold main. destruct (Parse args) as [[cfg lv]|code] eqn:Ep; [|done].
    destruct (Parse_int64 args cfg lv Ep) as [Hi _]. rewrite bind_run.
    destruct (NewClient cfg o h) as [[[p|code]|e|q] h1] eqn:HN; [|done..]. unfold Listen. intros [= <- <-]. cbn. split.
    + intros Ho. apply (step_start cfg o); [|done]. split; [done|]. destruct Hi as (_ & _ & _ & _ & Hm & _). apply Hm.
    + pose proof (NewClient_fields _ _ _ _ _ HN) as (_ & _ & _ & -> & _). intros [_ Hd]%andb_prop. by rewrite Hd.
  - intros args code h' Ho Hh. unfold main. destruct (Parse args) as [[cfg lv]|code'] eqn:Ep.
    + rewrite bind_run. pose proof (NewClient_wp cfg o h Ho Hh) as Hw. unfold wp in Hw.
      destruct (NewClient cfg o h) as [[[p|code']|e|q] h1]; [done| |done..]. intros [= <- _].
      destruct Hw as (_ & _ & _ & _ & -> & _ & Hc). auto.
    + intros [= <- _]. destruct (Parse_exits args code' Ep); auto.
Qed.
End Main.

Lemma main_correct_witness :
  ∃ r h', main (F:=toy_flags) (P:=toy_platform) (E:=toy_env) (command_line (F:=toy_flags) wit_cfg) wit_start wit_host = (Ret (Go r), h') ∧
    started_as wit_cfg r.
Proof.
  apply (main_correct (F:=toy_flags) (P:=toy_platform) (E:=toy_env) (PL:=toy_platform_laws) (FL:=toy_flag_laws)).
  - unfold config_int64, int64. vm_compute. repeat split; discriminate.
  - vm_compute. reflexivity.
  - exact toy_env_no_faults.
  - exact wit_env_ok.
Defined.
