(* ===== verification/Ui.v ===== *)
(** * The web UI's server (ui/main.go)

    The program of the UI: its two flags, the page with the client's address
    filled in, and the routing of its server, which serves that page and
    proxies the two API trees to a client on behalf of whoever asks. The
    embedded page, whether [url.Parse] takes the target, and how the server
    ends are parameters. *)

From S2P Require Import Prelude Net NetFacts Paths Mux Config Flags Crypto Keys Signal Message Wire RateLimit Base64 Monad Platform.
From S2P Require Import Store MessageStore StoreFacts Tables Session SessionFacts Client Handlers ClientFacts Delivery Api Reach Security Routes.

(** ** strings.ReplaceAll *)

(** The scan: [skip] bytes belong to an occurrence that was replaced. *)
Fixpoint replace_from (skip : nat) (old new s : gostring) : gostring :=
  match s with
  | [] => []
  | b :: s' =>
      match skip with
      | S k => replace_from k old new s'
      | O => if HasPrefix s old then new ++ replace_from (length old - 1) old new s'
             else b :: replace_from 0 old new s'
      end
  end.

(** For an [old] that is not empty. *)
Definition strings_ReplaceAll (s old new : gostring) : gostring := replace_from 0 old new s.

(** Pieces of text around copies of another. *)
Fixpoint glue (sep : gostring) (l : list gostring) : gostring :=
  match l with
  | [] => []
  | [w] => w
  | w :: l' => w ++ sep ++ glue sep l'
  end.

Definition contains (s sub : gostring) : Prop := ∃ a b, s = a ++ sub ++ b.

Lemma HasPrefix_spec s pre : HasPrefix s pre = true ↔ ∃ b, s = pre ++ b.
Proof.
  unfold HasPrefix. rewrite bool_decide_eq_true. split.
  - intros H. exists (drop (length pre) s). by rewrite <-H at 1; rewrite take_drop.
  - intros [b ->]. by rewrite take_app_length.
Qed.

Lemma replace_from_skip k old new s : replace_from k old new s = replace_from 0 old new (drop k s).
Proof. revert k. induction s as [|b s IH]; intros [|k]; try done. cbn. apply IH. Qed.

Lemma glue_cons sep b w l : glue sep ((b :: w) :: l) = b :: glue sep (w :: l).
Proof. by destruct l. Qed.
Lemma glue_nil sep l : l ≠ [] → glue sep ([] :: l) = sep ++ glue sep l.
Proof. by destruct l. Qed.

(** Every occurrence is replaced, and nothing else: the pieces in between,
    which have none, stay. *)
Lemma ReplaceAll_pieces old s :
  old ≠ [] → ∃ pieces, pieces ≠ [] ∧ s = glue old pieces ∧ Forall (λ w, ¬ contains w old) pieces ∧
    ∀ new, strings_ReplaceAll s old new = glue new pieces.
Proof.
  intros Ho. unfold strings_ReplaceAll. induction s as [s IH] using (induction_ltof1 _ length). unfold ltof in IH.
  assert (¬ contains [] old) as Hnil by (intros (a & b & Hab); symmetry in Hab; apply app_eq_nil in Hab as [_ Hab]; by apply app_eq_nil in Hab as [? _]).
  destruct s as [|b s]; [exists [[]]; split; [done|]; split; [done|]; split; [by apply Forall_singleton|done]|].
  destruct (HasPrefix (b :: s) old) eqn:Hp.
  - pose proof Hp as [t Ht]%HasPrefix_spec.
    destruct old as [|c old]; [done|]. injection Ht as -> ->.
    destruct (IH t) as (l & Hl & -> & Hall & Hnew); [cbn; rewrite length_app; lia|].
    exists ([] :: l). split; [done|]. split; [by rewrite glue_nil|]. split; [by constructor|]. intros new.
    cbn [replace_from]. rewrite Hp, replace_from_skip, glue_nil, <-(Hnew new) by done.
    replace (length (c :: old) - 1) with (length old) by (cbn; lia). by rewrite drop_app_length.
  - destruct (IH s) as (l & Hl & -> & Hall & Hnew); [cbn; lia|]. destruct l as [|w l]; [done|].
    exists ((b :: w) :: l). split; [done|]. split; [by rewrite glue_cons|]. apply Forall_cons in Hall as [Hw Hall]. split.
    + constructor; [|done]. intros ([|a0 a] & t & Hat).
      * apply not_true_iff_false in Hp. apply Hp, HasPrefix_spec. cbn [app] in Hat.
        rewrite <-glue_cons, Hat. destruct l as [|w' l]; [by exists t|]. exists (t ++ old ++ glue old (w' :: l)). cbn [glue].
        by rewrite <-app_assoc.
      * injection Hat as -> ->. apply Hw. by exists a, t.
    + intros new. cbn [replace_from]. by rewrite Hp, glue_cons, Hnew.
Qed.

(** ** The program *)

Record UiFlags := MkUiFlags { ui_port : Z; ui_targetAddr : gostring }.

Definition ui_formal : list (gostring * flag_value UiFlags) := [
  (lit "p", IntVar (λ n f, MkUiFlags n (ui_targetAddr f)));
  (lit "t", StringVar (λ s f, MkUiFlags (ui_port f) s))].
Definition ui_default_flags : UiFlags := MkUiFlags 8088 (lit "127.0.0.1:8080").

Definition placeholder : gostring := lit "{{TARGET}}".

(** The server with what its handlers hold: the page and the proxy's target. *)
Record UiServer := MkUiServer {
  ui_Addr : gostring;
  ui_ReadHeaderTimeout : Z;
  ui_page : gostring;
  ui_targetURL : gostring
}.

(** How [ListenAndServe] comes back. *)
Inductive serve_end := ServerClosed | ServeError.

Section UiMain.
Context {F : FlagLib} (embedded : outcome gostring) (url_Parse : gostring → bool).

(** [main] up to the server it starts. *)
Definition ui_setup (args : list gostring) : outcome (may_exit UiServer) :=
  match flags_Parse ui_formal args ui_default_flags with
  | Exited code => Ret (Exited code)
  | Go f =>
      match embedded with
      | Ret raw =>
          let page := strings_ReplaceAll raw placeholder (ui_targetAddr f) in
          let target := lit "http://" ++ ui_targetAddr f in
          if url_Parse target
          then Ret (Go (MkUiServer (lit ":" ++ strconv_Itoa (ui_port f)) (10 * Second) page target))
          else Panic "url.Parse"
      | _ => Panic "index.html"
      end
  end.

Definition ui_main (args : list gostring) (served : UiServer → serve_end) : outcome (may_exit unit) :=
  match ui_setup args with
  | Ret (Go srv) => match served srv with ServerClosed => Ret (Go tt) | ServeError => Panic "ListenAndServe" end
  | Ret (Exited code) => Ret (Exited code)
  | Err e => Err e
  | Panic msg => Panic msg
  end.
End UiMain.

(** ** The server *)

(** The handlers of the UI's mux: the page, and the reverse proxy. *)
Inductive ui_route := UiPage | UiProxy.

Definition ui_patterns : list (gostring * ui_route) :=
  [(lit "/", UiPage); (lit "/api/", UiProxy); (lit "/admin/", UiProxy)].
Definition ui_mux : mux ui_route := prod_map parsePattern id <$> ui_patterns.

Inductive ui_answer :=
| UiHtml (page : gostring)        (* the page, as text/html; charset=utf-8 *)
| UiStatus (code : Z)             (* an answer of the UI itself *)
| UiForward (target : gostring) (rq : http_request).  (* what the client there is asked *)

(** The proxy forwards method, path and body; the client sees the address the
    proxy connects from. *)
Definition forwarded (proxyAddr : gostring) (rq : http_request) : http_request :=
  MkHttp (rq_Method rq) (rq_EscapedPath rq) proxyAddr (rq_q rq) (rq_json rq) (rq_form rq) (rq_profile rq)
    (rq_dial rq) (rq_upgrade rq).

Definition ui_serve (srv : UiServer) (proxyAddr : gostring) (rq : http_request) : ui_answer :=
  match findHandler ui_mux (rq_Method rq) (rq_EscapedPath rq) with
  | Handler UiProxy _ => UiForward (ui_targetURL srv) (forwarded proxyAddr rq)
  | Handler UiPage _ => if bool_decide (URL_Path rq = lit "/") then UiHtml (ui_page srv) else UiStatus 404
  | Redirect _ => UiStatus 307
  | NotAllowed => UiStatus 405
  | NotFound => UiStatus 404
  end.

Lemma ui_registered : register ui_patterns [] = Ret ui_mux.
Proof. vm_compute. reflexivity. Qed.

(** Every request of the client's interface goes to the proxy. *)
Lemma ui_find r : value_ok r → findHandler ui_mux (method_of r) (path_of r) = Handler UiProxy [].
Proof.
  intros Hv. pose proof (elems_ok r Hv) as He. rewrite path_of_elems.
  destruct r; cbn [method_of elems] in *; (eapply find_rest; [done|done|done| | | |]); try (vm_compute; reflexivity); cbn; lia.
Qed.

Section Ui.
Context {P : Platform} {E : Env} (c : Client).

(** The UI, which listens on every interface, is a way around the guard of the
    API: with the client on the same host, every request of anyone who reaches
    the UI gets to its handler. *)
Theorem ui_bypasses_guard (srv : UiServer) (proxyAddr : gostring) (r : request) (rq : http_request) (x : CW) :
  from_loopback proxyAddr → value_ok r → rq_Method rq = method_of r → rq_EscapedPath rq = path_of r → carries rq r →
  ∃ rq', ui_serve srv proxyAddr rq = UiForward (ui_targetURL srv) rq' ∧
    serve c false rq' (MkAS x no_response) = handler c r (MkAS x no_response).
Proof.
  intros Hl%is_local_spec Hv Hm Hp Hc. unfold ui_serve. rewrite Hm, Hp, ui_find by done. eexists. split; [done|].
  unfold serve. cbn [rq_Method rq_EscapedPath forwarded]. rewrite Hm, Hp, find_route by done.
  pose proof (localhost_guard_run c r proxyAddr x) as H. rewrite Hl in H. rewrite <-H.
  unfold endpoint_serve. destruct r; cbn in *; try (by subst); by destruct Hc as [-> ->].
Qed.
End Ui.

(** ** What the program does *)

Section UiFacts.
Context {F : FlagLib} {FL : FlagLaws F} (url_Parse : gostring → bool).

Lemma ui_flag_int64 name v s f f' :
  lookup_flag name ui_formal = Some v → flag_Set v s f = Some f' → int64 (ui_port f) → int64 (ui_port f').
Proof.
  intros Hl Hs Hi. unfold lookup_flag in Hl. apply fmap_Some in Hl as ([i [n w]] & Hf & Hv). cbn in Hv. subst w.
  apply list_find_Some in Hf as (Hf & _ & _). apply list_elem_of_lookup_2 in Hf. unfold ui_formal in Hf.
  repeat (apply elem_of_cons in Hf as [[= -> ->]|Hf]); [..|by apply elem_of_nil in Hf]; cbn in Hs.
  - apply fmap_Some in Hs as (z & Hz & ->). by eapply ParseInt_range.
  - by injection Hs as <-.
Qed.

(** C19: The UI's program. Its two flags, spelled out, give the server that port
    on every interface and the proxy that target; whatever the arguments, the
    page of a server that starts is the embedded one with each placeholder, and
    nothing else, replaced by the target the proxy forwards to, and GET / gets
    it; the exit status is 0 or 2; and there is a panic only without the
    embedded page, for a target that is no URL, or when the server fails. *)
Theorem ui_main_correct (embedded : outcome gostring) :
  (∀ p t raw, int64 p → embedded = Ret raw → url_Parse (lit "http://" ++ t) = true → ∃ page,
    ui_setup embedded url_Parse [lit "-p"; strconv_Itoa p; lit "-t"; t] =
      Ret (Go (MkUiServer (lit ":" ++ strconv_Itoa p) (10 * Second) page (lit "http://" ++ t)))) ∧
  (∀ args srv, ui_setup embedded url_Parse args = Ret (Go srv) → ∃ raw pieces t p,
    embedded = Ret raw ∧ raw = glue placeholder pieces ∧ Forall (λ w, ¬ contains w placeholder) pieces ∧
    int64 p ∧ ui_Addr srv = lit ":" ++ strconv_Itoa p ∧
    ui_page srv = glue t pieces ∧ ui_targetURL srv = lit "http://" ++ t ∧ url_Parse (ui_targetURL srv) = true ∧
    ∀ proxyAddr rq, rq_Method rq = lit "GET" → rq_EscapedPath rq = lit "/" →
      ui_serve srv proxyAddr rq = UiHtml (ui_page srv)) ∧
  (∀ args served code, ui_main embedded url_Parse args served = Ret (Exited code) → code = 0%Z ∨ code = 2%Z) ∧
  (∀ args served msg, ui_main embedded url_Parse args served = Panic msg →
    (∀ raw, embedded ≠ Ret raw) ∨ (∃ t, url_Parse (lit "http://" ++ t) = false) ∨
    ∃ srv, ui_setup embedded url_Parse args = Ret (Go srv) ∧ served srv = ServeError).
Proof.
  split; [|split; [|split]].
  - intros p t raw Hp -> Hu. unfold ui_setup.
    erewrite (flags_Parse_step ui_formal (lit "p")); [|reflexivity..|cbn; by rewrite ParseInt_Itoa].
    erewrite (flags_Parse_step ui_formal (lit "t")); [|reflexivity..]. cbn [flags_Parse ui_targetAddr ui_port].
    rewrite Hu. by eexists.
  - intros args srv. unfold ui_setup. destruct (flags_Parse _ args _) as [f|] eqn:Ef; [|done].
    destruct embedded as [raw| |]; [|done..]. cbv zeta. destruct (url_Parse _) eqn:Eu; [|done]. intros [= <-].
    destruct (ReplaceAll_pieces placeholder raw) as (pieces & _ & Hraw & Hall & Hnew); [done|].
    exists raw, pieces, (ui_targetAddr f), (ui_port f). do 3 (split; [done|]). split.
    + eapply (flags_Parse_preserves ui_formal (λ f, int64 (ui_port f)) args _ f); [|exact Ef|cbv; split; discriminate].
      apply ui_flag_int64.
    + do 2 (split; [by rewrite ?Hnew|]). split; [done|]. split; [done|].
      intros proxyAddr rq Hm Hpath. unfold ui_serve. rewrite Hm, Hpath.
      replace (findHandler ui_mux (lit "GET") (lit "/")) with (Handler UiPage []) by (vm_compute; reflexivity).
      unfold URL_Path. by rewrite Hpath.
  - intros args served code. unfold ui_main, ui_setup. destruct (flags_Parse _ args _) as [f|code'] eqn:Ef.
    + destruct embedded; [|done..]. cbv zeta. destruct (url_Parse _); [|done]. by destruct (served _).
    + intros [= <-]. by eapply flags_Parse_exits.
  - intros args served msg. unfold ui_main, ui_setup. destruct (flags_Parse _ args _) as [f|code'] eqn:Ef; [|done].
    destruct embedded as [raw| |]; [|by left|by left]. cbv zeta. destruct (url_Parse _) eqn:Eu; [|right; left; by eexists].
    destruct (served _) eqn:Es; [done|]. intros _. right; right. by eexists.
Qed.
End UiFacts.

Lemma ui_main_correct_witness :
  ∃ page, ui_setup (F:=toy_flags) (Ret (lit "<pre>target: {{TARGET}}</pre>")) (λ _, true)
    [lit "-p"; strconv_Itoa (FlagLib:=toy_flags) 9000; lit "-t"; lit "h:1"] =
      Ret (Go (MkUiServer (lit ":" ++ strconv_Itoa (FlagLib:=toy_flags) 9000) (10 * Second) page (lit "http://h:1"))) ∧
    page = lit "<pre>target: h:1</pre>".
Proof.
  destruct (proj1 (ui_main_correct (F:=toy_flags) (FL:=toy_flag_laws) (λ _, true) (Ret (lit "<pre>target: {{TARGET}}</pre>")))
    9000%Z (lit "h:1") _ ltac:(by vm_compute) eq_refl eq_refl) as [page Hp].
  exists page. split; [exact Hp|]. vm_compute in Hp. injection Hp as <-. vm_compute. reflexivity.
Defined.

Lemma ui_bypasses_guard_witness :
  ∃ rq', ui_serve (MkUiServer (lit ":8088") (10 * Second) [] (lit "http://127.0.0.1:8080")) (lit "127.0.0.1:40312")
      (wit_request (lit "GET") (lit "/admin/peers") (lit "10.0.0.7:1")) = UiForward (lit "http://127.0.0.1:8080") rq' ∧
    serve (P:=toy_platform) (E:=toy_env) wit_client false rq' (MkAS initial no_response) =
      handler (P:=toy_platform) (E:=toy_env) wit_client GetPeers (MkAS initial no_response).
Proof.
  apply (ui_bypasses_guard (P:=toy_platform) (E:=toy_env) wit_client (MkUiServer _ _ _ _)); try reflexivity.
  - apply is_local_spec. vm_compute. reflexivity.
  - by split.
Defined.
