(* ===== verification/FileTransfer.v ===== *)
(** * Sending a file (client/client.go, client/api.go)

    [sendFile] announces a file and cuts it into chunks; [handleSignal],
    [handleFileChunk] and [finalizeFile] put it together again at the other
    end. What one client sends, the other stores. *)

From S2P Require Import Prelude Config Crypto Keys Signal Message Wire RateLimit Base64 Monad Platform.
From S2P Require Import Store MessageStore StoreFacts Tables Session SessionFacts Handshake Client Handlers ClientFacts Delivery Api Reach Security.

(** ** Cutting *)

Definition read_of (chunk : bytes) : read := MkRead chunk None.

(** The reads of a byte slice are nonempty pieces of it, in order. *)
Lemma reads_of_chunks fuel l :
  length l ≤ fuel →
  ∃ chunks, reads_of fuel l = read_of <$> chunks ∧ concat chunks = l ∧ Forall (λ ch, ch ≠ []) chunks.
Proof.
  revert l. induction fuel as [|fuel IH]; intros l Hl.
  { exists []. destruct l; [done|cbn in Hl; lia]. }
  destruct l as [|b l]; [by exists []|]. cbn [reads_of].
  set (n := Z.to_nat FileChunkSize). assert (0 < n) as Hn by (apply Nat.ltb_lt; by vm_compute).
  destruct (IH (drop n (b :: l))) as (chunks & -> & Hc & Hf).
  { rewrite length_drop. cbn in *. lia. }
  exists (take n (b :: l) :: chunks). split; [done|]. split.
  - cbn [concat]. by rewrite Hc, take_drop.
  - constructor; [|done]. by destruct n; [lia|].
Qed.

(** ** The sender *)

Section Sender.
Context {P : Platform} {PL : PlatformLaws P} {E : Env} (c : Client).

(** The plaintexts a file travels in. *)
Definition meta_signal (from : Key) (id : UUID) (m : fileMeta) : signal.Signal :=
  signal.MkSignal signal.FileMeta from id (fm_layout m).
Definition file_plains (from : Key) (id : UUID) (m : fileMeta) (chunks : list bytes) : list bytes :=
  signal.layout (meta_signal from id m) :: (file_chunk id <$> chunks).

Lemma send_chunks_wp sid id chunks x s :
  net_ok E → heap x !! sid = Some s → open s → Forall (λ ch, ch ≠ []) chunks →
  wp (send_chunks c sid id (read_of <$> chunks)) (λ o x', o = Ret tt ∧ ∃ s',
    sent (file_chunk id <$> chunks) s s' ∧ only_session sid s' x x' ∧ same (cw_store x) (cw_store x')) x.
Proof.
  intros Hn Hs Ho Hc. revert x s Hs Ho. induction Hc as [|ch chunks Hch Hc IH]; intros x s Hs Ho.
  { apply wp_ret. split; [done|]. exists s. split; [by apply sent_nil|]. split; [by apply only_session_refl|done]. }
  rewrite fmap_cons. cbn [send_chunks rd_data rd_err read_of].
  assert ((len ch >? 0)%Z = true) as -> by (apply Z.gtb_lt; unfold len; destruct ch; [done|cbn; lia]).
  cbn [when]. apply wp_bind, wp_bind, wp_attempt.
  eapply wp_conseq; [by apply (on_send_wp sid (file_chunk id ch) x s)|].
  intros ? x1 (-> & s1 & Hse & Hx1 & Hsm). apply wp_ret.
  pose proof (sent_open _ _ _ Ho Hse) as Ho1.
  eapply wp_conseq; [apply (IH x1 s1); [|done]|].
  { rewrite (proj1 Hx1). apply list_lookup_insert_eq. by eapply lookup_lt_Some. }
  intros o x' (-> & s' & Hse' & Hx' & Hsm'). split; [done|]. exists s'. split; [by eapply sent_cons|].
  split; [by eapply only_session_trans|]. destruct Hsm, Hsm'. split; congruence.
Qed.

Lemma sendFile_wp sid id m chunks x s :
  net_ok E → heap x !! sid = Some s → open s → fm_ok m → (len (fm_layout m) <= MaxUint32)%Z →
  Forall (λ ch, ch ≠ []) chunks →
  wp (sendFile c sid id (fm_Name m) (fm_MIME m) (fm_Size m) (read_of <$> chunks)) (λ o x', o = Ret tt ∧ ∃ s',
    sent (file_plains (pub c) id m chunks) s s' ∧ only_session sid s' x x' ∧ same (cw_store x) (cw_store x')) x.
Proof.
  intros Hn Hs Ho Hm Hlen Hc. unfold sendFile.
  assert (MkFileMeta (fm_Name m) (fm_Size m) (fm_MIME m) = m) as -> by by destruct m.
  rewrite encodeFileMeta_layout by done. apply wp_bind, wp_lift. apply wp_bind, wp_wrapping, wp_lift.
  pose proof (signal.New_layout (meta_signal (pub c) id m) ltac:(split; [by vm_compute|exact Hlen])) as HN.
  cbn [signal.Type' signal.From signal.ID signal.Content meta_signal] in HN. rewrite HN.
  apply wp_bind, wp_wrapping.
  eapply wp_conseq; [by apply (on_send_wp sid _ x s)|]. intros ? x1 (-> & s1 & Hse & Hx1 & Hsm).
  pose proof (sent_open _ _ _ Ho Hse) as Ho1.
  eapply wp_conseq; [apply (send_chunks_wp sid id chunks x1 s1 Hn); [|done|done]|].
  { rewrite (proj1 Hx1). apply list_lookup_insert_eq. by eapply lookup_lt_Some. }
  intros o x' (-> & s' & Hse' & Hx' & Hsm'). split; [done|]. exists s'. split; [by eapply sent_cons|].
  split; [by eapply only_session_trans|]. destruct Hsm, Hsm'. split; congruence.
Qed.
End Sender.

(** ** The receiver *)

Section Receiver.
Context {P : Platform} {PL : PlatformLaws P} {E : Env} (c : Client).

(** Only files and pending transfers may differ. *)
Definition only_files (x x' : CW) : Prop :=
  chats (db (cw_store x')) = chats (db (cw_store x)) ∧ same_tables (db (cw_store x)) (db (cw_store x')) ∧
  cache (cw_store x') = cache (cw_store x) ∧ sessions x' = sessions x.

Lemma only_files_trans x x1 x2 : only_files x x1 → only_files x1 x2 → only_files x x2.
Proof. unfold only_files, same_tables. intuition congruence. Qed.

Definition view_file (x : CW) (id : gostring) : option bytes := file_view (priv c) (db (cw_store x)) id.

Lemma finalizeFile_wp id pf x :
  no_faults E → id ≠ NilUUID → (0 < len (pd_buf pf))%Z →
  wp (finalizeFile c id pf) (λ o x', o = Ret tt ∧ only_files x x' ∧ heap x' = heap x ∧
    pendingFiles x' = delete id (pendingFiles x) ∧
    ∀ k, view_file x' k = if decide (k = uuid_String id) then Some (pd_buf pf) else view_file x k) x.
Proof.
  intros Hn Hid Hb. unfold finalizeFile. apply wp_bind, wp_ignore.
  eapply wp_conseq; [apply on_store_wp, StoreAttachments_wp|]. set (att := message.MkAttachment _ _ _ _ _).
  intros o x1 [(Hc & Hch & Ht & Ho) Hx1]. destruct o as [l'|e|p]; [|done..].
  apply wp_modify. split; [done|]. split; [by rewrite Hx1 in *|]. split; [by rewrite Hx1|]. split; [by rewrite Hx1|].
  destruct Ho as (Hf & Hother & Hread). inversion Hf as [|a b ? l2 Hab Hl2]; simplify_eq. inversion Hl2; simplify_eq.
  assert ((len (message.Data att) =? 0)%Z = false) as Hne by (apply Z.eqb_neq; cbn; lia).
  unfold stored_att in Hab. rewrite Hne in Hab. destruct Hab as [_ Hb']. specialize (Hb' Hid). cbn in Hb'.
  cbn [written] in Hother, Hread. rewrite Hne in Hother, Hread. rewrite Hb' in Hother.
  specialize (Hread (NoDup_singleton _)). inversion Hread as [|? ? ? ? Hr _]; simplify_eq. specialize (Hr Hne).
  intros k. unfold view_file. change (db (cw_store (set_pending _ x1))) with (db (cw_store x1)).
  case_decide as Hk; [by subst|]. apply Hother. by rewrite list_elem_of_singleton.
Qed.

(** One chunk: the transfer goes on, or the file is complete. *)
Lemma handle_chunk_wp id ch sid k pf x (Q : outcome unit → CW → Prop) :
  pendingFiles x !! id = Some pf → (0 <= pd_received pf)%Z → (pd_received pf + len ch <= MaxInt64)%Z →
  let pf' := MkPending (pd_meta pf) (pd_received pf + len ch) (pd_buf pf ++ ch) in
  let x1 := set_pending (<[id := pf']>) x in
  wp (when (pd_received pf + len ch >=? fm_Size (pd_meta pf))%Z (finalizeFile c id pf')) Q x1 →
  wp (handleDecrypted c (file_chunk id ch) sid k) Q x.
Proof.
  intros Hp H0 Hmax pf' x1 HQ. unfold handleDecrypted, file_chunk.
  rewrite bool_decide_false by done. unfold handleFileChunk.
  assert (len (vec_to_list id) = 16%Z) as Hid by exact (len_vec id).
  assert ((len (vec_to_list id ++ ch) <? FileIDLen)%Z = false) as ->.
  { apply Z.ltb_ge. rewrite len_app, Hid. unfold FileIDLen. pose proof (len_nonneg ch). lia. }
  assert (slice (vec_to_list id ++ ch) 0 FileIDLen = Ret (vec_to_list id)) as -> by by apply slice_prefix.
  assert (slice_from (vec_to_list id ++ ch) FileIDLen = Ret ch) as -> by by apply slice_from_app.
  apply wp_bind, wp_lift. cbv zeta. rewrite array_of_vec.
  apply wp_bind, wp_lift. apply wp_bind. unfold wp at 1, get_state. cbn [fst snd]. rewrite Hp.
  rewrite wrap64_small by (unfold MinInt64; pose proof (len_nonneg ch); lia).
  apply wp_bind, wp_modify. exact HQ.
Qed.

(** The chunks of a file, from the state of its transfer. *)
Lemma chunks_wp id sid k chunks pf x :
  no_faults E → id ≠ NilUUID → Forall (λ ch, ch ≠ []) chunks → chunks ≠ [] →
  pendingFiles x !! id = Some pf → pd_received pf = len (pd_buf pf) →
  fm_Size (pd_meta pf) = len (pd_buf pf ++ concat chunks) → (fm_Size (pd_meta pf) <= MaxInt64)%Z →
  wp (for_each (file_chunk id <$> chunks) (λ p, handleDecrypted c p sid k)) (λ o x', o = Ret tt ∧
    only_files x x' ∧ heap x' = heap x ∧ pendingFiles x' = delete id (pendingFiles x) ∧
    ∀ key, view_file x' key =
      if decide (key = uuid_String id) then Some (pd_buf pf ++ concat chunks) else view_file x key) x.
Proof.
  intros Hn Hid Hc. revert pf x. induction Hc as [|ch chunks Hch Hc IH]; [done|].
  intros pf x _ Hp Hr Hsz Hmax. rewrite fmap_cons. cbn [for_each].
  assert (0 < len ch)%Z as Hpos by (unfold len; destruct ch; [done|cbn; lia]).
  rewrite Hsz in Hmax. cbn [concat] in *. rewrite !len_app in Hsz, Hmax.
  pose proof (len_nonneg (pd_buf pf)) as Hb0. pose proof (len_nonneg (concat chunks)) as Hc0.
  apply wp_bind. apply (handle_chunk_wp id ch sid k pf x); [done|lia|lia|].
  set (pf' := MkPending _ _ _). set (x1 := set_pending _ x).
  assert (view_file x1 = view_file x ∧ heap x1 = heap x ∧ only_files x x1) as (Hv1 & Hh1 & Hx1) by done.
  assert (pendingFiles x1 = <[id := pf']> (pendingFiles x)) as Hp1 by done.
  destruct chunks as [|ch2 chunks].
  - cbn [concat] in *. rewrite app_nil_r, len_nil, Z.add_0_r in *.
    rewrite (proj2 (Z.geb_le _ _)) by lia. cbn [when].
    eapply wp_conseq; [apply finalizeFile_wp; [done|done|cbn; rewrite len_app; lia]|].
    intros o x' (-> & Hx' & Hh' & Hp' & Hv'). apply wp_ret. split; [done|].
    split; [by eapply only_files_trans|]. split; [congruence|].
    split; [by rewrite Hp', Hp1, delete_insert_eq|]. intros key. by rewrite Hv', Hv1.
  - assert (0 < len (concat (ch2 :: chunks)))%Z as Hpos2.
    { inversion Hc; simplify_eq. cbn. rewrite len_app. pose proof (len_nonneg (concat chunks)).
      unfold len at 1. destruct ch2; [done|cbn [length]; lia]. }
    assert ((pd_received pf + len ch >=? fm_Size (pd_meta pf))%Z = false) as ->
      by (rewrite Z.geb_leb; apply Z.leb_gt; lia).
    cbn [when]. apply wp_ret. eapply wp_conseq; [apply (IH pf' x1); [done|..]|].
    + rewrite Hp1. apply lookup_insert_eq.
    + cbn. rewrite len_app. lia.
    + cbn [pd_buf pd_meta pf']. rewrite !len_app. lia.
    + cbn [pd_meta pf']. lia.
    + intros o x' (-> & Hx' & Hh' & Hp' & Hv'). split; [done|]. split; [by eapply only_files_trans|].
      split; [congruence|]. split; [by rewrite Hp', Hp1, delete_insert_eq|].
      intros key. rewrite Hv', Hv1. cbn [pd_buf pf']. by rewrite <-app_assoc.
Qed.

(** The announcement. *)
Lemma handle_meta_wp id m sid k s x :
  heap x !! sid = Some s → status s = Accepted → has_token (E:=E) s →
  fm_ok m → (len (fm_layout m) <= MaxUint32)%Z →
  wp (handleDecrypted c (signal.layout (meta_signal k id m)) sid k) (λ o x', o = Ret tt ∧
    same (cw_store x) (cw_store x') ∧ sessions x' = sessions x ∧
    (∃ l, heap x' = <[sid := set_limiter l s]> (heap x)) ∧
    pendingFiles x' = <[id := MkPending m 0 []]> (pendingFiles x)) x.
Proof.
  intros Hs Hst Htok Hm Hlen. unfold handleDecrypted.
  assert (∃ rest, signal.layout (meta_signal k id m) = signal.Marker :: rest) as [rest Er] by by eexists.
  rewrite Er. cbv beta iota. rewrite bool_decide_true by done. rewrite <-Er. clear Er rest.
  apply wp_bind, wp_attempt, wp_lift.
  rewrite <-(app_nil_r (signal.layout _)), signal.Parse_layout by (split; [by vm_compute|done]).
  apply wp_bind. unfold wp at 1. rewrite (sess_gets_run sid status x s Hs). cbn [fst snd].
  rewrite Hst, bool_decide_true by done. cbn [negb].
  apply wp_bind. eapply wp_conseq; [by apply (allow_wp sid x s)|].
  intros ? x1 (-> & Hsm & l & _ & Hh & Hse & Hp). cbn [negb].
  unfold handleSignal. cbn [signal.Type' signal.From signal.Content signal.ID meta_signal].
  rewrite (bool_decide_false (signal.FileMeta = signal.Message)) by done.
  rewrite bool_decide_true by done. rewrite bool_decide_false by (by intros []).
  apply wp_bind, wp_attempt, wp_lift. rewrite <-(app_nil_r (fm_layout m)), decodeFileMeta_layout by done.
  apply wp_modify. split; [done|]. split; [done|]. split; [done|]. split; [by exists l|]. cbn. by rewrite Hp.
Qed.
End Receiver.

(** ** From one client to another *)

Section EndToEnd.
Context {P : Platform} {PL : PlatformLaws P}.

(** C26: A file sent in a session is the file stored at the other end: [sendFile],
    given the content as a byte slice, writes frames whose plaintexts, handled in
    order by a client that accepted the sender, leave exactly that content under
    the file's id, close the transfer, and change no message, peer, other file
    or other transfer. *)
Theorem file_delivered (Ea Eb : Env) (a b : Client) (x y : CW) (sidA sidB : nat) (sA sB : Session)
    (id : UUID) (name mime : gostring) (data : bytes) :
  net_ok Ea → no_faults Eb → heap x !! sidA = Some sA → open sA →
  heap y !! sidB = Some sB → status sB = Accepted → has_token (E:=Eb) sB →
  let m := MkFileMeta name (len data) mime in
  fm_ok m → (len (fm_layout m) <= MaxUint32)%Z → id ≠ NilUUID → data ≠ [] →
  ∃ plains x' sA', sendFile (E:=Ea) a sidA id name mime (len data) (reads_of (length data) data) x = (Ret tt, x') ∧
    heap x' !! sidA = Some sA' ∧ sent plains sA sA' ∧
    wp (for_each plains (λ p, handleDecrypted (E:=Eb) b p sidB (pub a))) (λ o y', o = Ret tt ∧
      (FileStore.Get (E:=Eb) (priv b) id (cw_store y')).1 = Ret data ∧
      pendingFiles y' = delete id (pendingFiles y) ∧ only_files y y' ∧
      ∀ key, key ≠ uuid_String id → view_file b y' key = view_file b y key) y.
Proof.
  intros HnA HfB HsA HoA HsB Hst Htok m Hm Hlen Hid Hd.
  destruct (reads_of_chunks (length data) data) as (chunks & Hreads & Hcat & Hne); [lia|].
  pose proof (sendFile_wp (E:=Ea) a sidA id m chunks x sA HnA HsA HoA Hm Hlen Hne) as Hsend. unfold wp in Hsend.
  cbn [fm_Name fm_MIME fm_Size m] in Hsend. rewrite <-Hreads in Hsend.
  destruct (sendFile (E:=Ea) a sidA id name mime (len data) (reads_of (length data) data) x) as [o x'].
  cbn [fst snd] in Hsend. destruct Hsend as (-> & sA' & Hsent & Hx' & _).
  exists (file_plains (pub a) id m chunks), x', sA'. split; [done|]. split.
  { rewrite (proj1 Hx'). apply list_lookup_insert_eq. by eapply lookup_lt_Some. }
  split; [exact Hsent|]. unfold file_plains. cbn [for_each]. apply wp_bind.
  eapply wp_conseq; [by apply (handle_meta_wp (E:=Eb) b id m sidB (pub a) sB y)|].
  intros ? y1 (-> & [Hd1 Hc1] & Hse1 & (l & Hh1) & Hp1).
  assert (only_files y y1) as Hof1 by (unfold only_files, same_tables; by rewrite Hd1, Hc1).
  eapply wp_conseq; [apply (chunks_wp (E:=Eb) b id sidB (pub a) chunks (MkPending m 0 []) y1 HfB Hid Hne)|].
  - intros ->. by cbn in Hcat.
  - rewrite Hp1. apply lookup_insert_eq.
  - done.
  - cbn. by rewrite Hcat.
  - apply Hm.
  - intros o y' (-> & Hof & _ & Hp & Hv). cbn [pd_buf] in Hv. rewrite Hcat in Hv.
    split; [done|]. split.
    + destruct (FileGet_wp (E:=Eb) (priv b) id (cw_store y')) as [_ Hg].
      pose proof (Hv (uuid_String id)) as Hvi. rewrite decide_True in Hvi by done. unfold view_file in Hvi.
      destruct (FileStore.Get (E:=Eb) (priv b) id (cw_store y')) as [[got|e|p] w]; cbn in *; [| |done].
      * rewrite Hvi in Hg. cbn in Hg. by simplify_eq.
      * specialize (Hg HfB). by rewrite Hvi in Hg.
    + split; [by rewrite Hp, Hp1, delete_insert_eq|]. split; [by eapply only_files_trans|].
      intros key Hk. rewrite Hv, decide_False by done. unfold view_file. by rewrite Hd1.
Qed.
End EndToEnd.

(** ** An instance *)

Definition wit_session : Session :=
  let cipher := MkCipher (Some (zeros 32)) 0 in
  setStatus Accepted (set_recv cipher (set_sendr cipher
    (newSession (MkConn [] [] false 0) (lit "me") (c_Keys wit_client) DefaultTimeout DefaultRateLimit DefaultRateWindow 0))).

Lemma wit_session_open : open wit_session.
Proof.
  split; [split; [done|]; intros ? [= <-]; reflexivity|]. split; [by eexists|]. by eexists.
Qed.

Lemma wit_session_token : has_token (E:=toy_env) wit_session.
Proof.
  split; [by vm_compute|]. split; [done|]. intros t.
  unfold big. cbn [env_now toy_env].
  pose proof (Z.mod_pos_bound (Z.of_nat t) 1000000000 ltac:(lia)). lia.
Qed.

Lemma file_delivered_witness :
  let x := MkCW empty_SW [wit_session] ∅ ∅ in
  let id := array_of 16 (lit "a file id") in
  ∃ plains x', sendFile (P:=toy_platform) (E:=toy_env) wit_client 0 id (lit "a.txt") (lit "text/plain") 5
      (reads_of 5 (lit "hello")) x = (Ret tt, x') ∧
    (FileStore.Get (P:=toy_platform) (E:=toy_env) (priv wit_client) id
      (cw_store (for_each plains (λ p, handleDecrypted (P:=toy_platform) (E:=toy_env) wit_client p 0 (pub wit_client)) x).2)).1
      = Ret (lit "hello").
Proof.
  intros x id. assert (id ≠ NilUUID) as Hid by (subst id; vm_compute; discriminate).
  destruct (file_delivered (P:=toy_platform) (PL:=toy_platform_laws) toy_env toy_env wit_client wit_client x x 0 0
    wit_session wit_session id (lit "a.txt") (lit "text/plain") (lit "hello") toy_env_net_ok toy_env_no_faults
    eq_refl wit_session_open eq_refl eq_refl wit_session_token ltac:(vm_compute; repeat split; discriminate)
    ltac:(vm_compute; discriminate) Hid ltac:(discriminate))
    as (plains & x' & sA' & H1 & _ & _ & (_ & H2 & _)).
  exists plains, x'. exact (conj H1 H2).
Defined.
